(* ===== verification/_CoqProject ===== *)
-Q . S2P
Prelude.v
Session.v
Bytes.v
Hexutils.v
Crc32.v
Cstring.v
Board.v
SimBoard.v
Unistd.v
Uart.v
Spi.v
Dma.v
Registers.v
Heap.v
HeapSession.v
Block.v
SD.v
SDEmpty.v
SimCard.v
FAT32.v
FatVolume.v
FatFile.v
FatDir.v
FatPath.v
FatSession.v
SimDisk.v
SimPath.v
Elf.v
Kernel.v
SimKernel.v
Startup.v
Boot2.v
Process.v
Syscall.v
Boot.v
SimBoot.v
Storage.v
Program.v
Userland.v
