(* ===== verification/Prelude.v ===== *)
(** * freeGPOS: a verification library (root file)

    freeGPOS is a small operating system for the RP2040 (a Cortex-M0+ with
    memory-mapped peripherals).  This library models its C code, function by
    function, and proves what each component promises and how the components
    work together, from reset to the first program.  This file documents the
    whole library and holds what all files share: the state-and-failure
    monad, its program logic, machine integers.

    ** The program and the files that model it

    The boot path of the system is: the second boot stage maps the flash;
    resetHandler initialises memory and the clocks and calls main;
    kernel_main brings up the console, SPI, the SD card, the heap and the
    FAT32 volume, loads /bin/init.elf and calls it; a program enters the
    kernel again by the SVC instruction.

    - Session.v: a component's calls as an abstract machine, and the induction
      that turns the simulation of each call into one of whole sessions.
    - Bytes.v: what a C pointer points into.  A [ByteStore] is flat memory or
      one local array; aligned 16- and 32-bit loads and stores, little-endian
      coding.
    - Hexutils.v (src/lib/util/hexutils.c, hexutils.h): number formatting and
      the little-endian reads.
    - Crc32.v (src/arch/arm_cortexm/rp2040/boot2/compCrc32.c): the checksum of
      the boot stage and the host tool that appends it.
    - Cstring.v (libc/src/string/): the string functions except memcpy.
    - Board.v (src/arch/arm_cortexm/rp2040/hardware_structs/): the addresses of
      the registers, [reg_read] and [reg_write], the abstract view [io] of
      the devices and the classes of laws about them.  SimBoard.v is an
      executable board that satisfies all of them.
    - Unistd.v (libc/src/unistd/usleep.c, sleep.c): busy waits on the timer.
    - Uart.v, Spi.v, Dma.v (src/driver/uart, spi, dma; libc memcpy.c): the
      three drivers.
    - Registers.v (hardware_structs/, dma.h): the structures that the headers
      lay over the registers, held against the addresses of Board.v; the bits
      and the transfer requests of the DMA engine.
    - Heap.v (libc/src/stdlib/heap.c): the allocator; HeapSession.v: its
      clients, by malloc, realloc and free, against an abstract heap.
    - Block.v: the interface [BlockDevice], with its laws [BlockLaws], between
      the file system and the card driver.
    - SD.v, SDEmpty.v (src/lib/sd/SD.c): the card driver, with a card in the
      slot and without.  SimCard.v is an executable card.
    - FAT32.v (src/driver/fs/FAT32.c): the file system's code.  Its theorems
      are in FatVolume.v (mounting, the allocation table), FatFile.v (reading
      and handles), FatDir.v (directory entries, long names), FatPath.v
      (path lookup, opening) and FatSession.v (the abstract file system that
      the calls implement together).  SimDisk.v and SimPath.v hold concrete
      volumes.  Storage.v: file system, card driver and SPI driver together.
    - Elf.v, Kernel.v (src/lib/elf/elf.c): the header check and the segment
      loop, and loadELF over file system, heap and memory.  SimKernel.v has
      a concrete executable on a concrete card.
    - Startup.v (system_rp2040.c, startup_rp2040.c, resetSubsys of main.c): the
      vector table, clocks, resets, defaultHandler.
    - Boot2.v (boot2/bootStage2QuadIO.c): the second boot stage.
    - Process.v (src/kernel/process.c): the process table.
    - Syscall.v (src/kernel/syscall.c, libc/src/unistd/write.c): the SVC
      handler, the dispatcher, and write.
    - Boot.v (src/kernel/main.c, resetHandler): the boot; SimBoot.v runs it.
    - Program.v (crt0.c, programs/init.c): the start-up of a program and the
      one program.  Userland.v: kernel and program together.

    Definitions keep the names of the C functions.  A part of a function that
    is a definition of its own, because it is a loop body or a branch with an
    invariant, stands directly before the function.

    ** How C is modelled

    A function is a computation of type [M S A]: from a state it returns a
    result and a state ([Ok]), faults ([Fault]: an access outside an object or
    to unmapped or unaligned memory, a division by zero), or is still in a
    loop when the fuel runs out ([Hang]).  [S] is the state the function works on: a
    byte store, the [machine] (memory and devices), the allocator's
    [heap_state], the file system's [FS] over a block device, the [kernel].
    [zoom], [within] and [on] run a function on a part of the state.
    Computations are equal when they do the same from every state ([≈]);
    [bind] and the weakest preconditions respect that.

    Integers are [Z] with their wrap-around written out ([u8], [u16], [u32],
    [i32]); [lia] and [dlia] discharge the arithmetic.  Loops whose bound is
    known are [for_loop] and [for_exit]; every other loop is [while_loop] with
    the fuel of the class [Fuel].  Fuel is never an assumption about the code:
    the theorems are about total results, proved with a measure
    ([wp_while], [wp_spin]), and ask only that the fuel exceed the measure: the
    latency of a device ([spi_latency] and the like, a bound on the number of
    status reads before a pending condition shows), 65536 for the driver's
    own timeouts, the length of a string or file, [usleep_fuel] for a delay.
    The witnesses use 100000 ([sim_fuel]) for the board and 2000 for the
    disk.

    Hardware is not under src/ and is a parameter: [Hardware] says what a
    register read returns and a write does, and the classes [SpiLaws],
    [GpioLaws], [TimerLaws], [UartLaws], [DmaLaws], [BootLaws] and [SsiLaws] restate what the
    RP2040 datasheet documents, in terms of an abstract view.  [SpiLaws] order
    events as if each byte written had been exchanged before the processor's
    next access to the FIFO; [SsiLaws] likewise.  The card is a [SpiSlave] with the SD
    protocol as laws ([SdCard], [SdBoot]).  [SimBoard] and [SimCard] satisfy all of these at once,
    so no set of hypotheses is empty.

    Uninitialised locals of fat_read_next_dir_entry are an oracle of the state
    ([stack]), so theorems hold for every value the stack may have held.  The
    file system's own buffers (mbr_buffer, bpb_data) are values of [FS] and not
    addresses; calls of memcpy inside FAT32.c between such objects are modelled by their
    effect ([copy_bytes]), while calls that reach the machine's memory (loadELF,
    realloc, resetHandler) go through the DMA engine.

    ** What the theorems show

    - Libraries: formatting and parsing are inverse; the table-driven CRC is
      the bitwise one and detects every burst of up to four bytes; the string functions meet
      their contracts, or, for strchr and strtok, what they do instead.
    - Drivers: each transfer delivers exactly its bytes and ends; memcpy is a
      copy; waits last at least as long as asked for; resets and clocks
      end up as intended; the flash is programmed only when it has to be.
    - Heap: the code implements first fit with splitting and merging on the
      list of blocks that tile the heap (a refinement); allocations are
      fresh, aligned, disjoint; a free after a malloc restores the list;
      a stale prev pointer can nevertheless corrupt a live payload.  Sessions
      that leave no stale prev pointer, those of clients that free in reverse
      order among them, get the replies of an abstract heap, and their blocks
      keep their bytes: a realloc copies them.
    - SD card: initialisation succeeds on a card that follows the protocol and
      fails, in bounded time, on an empty slot; block reads return the
      card's data or an error and leave the link ready; a block write never
      returns.
    - FAT32: mounting computes the volume that the boot sector describes; the
      cluster chain, the directory scan and the path lookup agree with
      reference definitions; a read returns the next bytes of the file;
      errors leave the handles alone; a whole session of calls gets the
      replies of an abstract file system, in which a file is a string of
      bytes (a simulation), also from power-on on, over the driver and the card.
    - Kernel: loadELF puts the image of the file in memory and returns its
      entry point, also where the linker scripts put the program, in the free
      rest of the kernel's heap; its error paths; kernel_main gets to the program
      and never back from it, or, without a card, reports it and returns; a system call's bytes are sent, and its
      result goes to the wrong place.

    ** Not modelled

    - run_process of process.c is not C (its loop declares no variable);
      the scheduling functions are comments, and systick.c is empty.
    - The linker scripts appear as the classes [Sections] and [HeapLayout]; the
      kernel and the program have one [HeapLayout] each.
    - Interrupts other than SVC are not enabled by the code; defaultHandler
      is a definition, and what would enter it is not modelled.
    - The program started by kernel_main is an argument: machine code is not
      interpreted.  Program.v models programs/init.c from its source; the
      registers of the compiled program at its SVC instruction are an argument.
    - SysTick and the NVIC are registers at the addresses the code gives.
    - The C library and operating system of the host, for compCrc32.c, are an
      argument of its main; its messages are left out.
    - Commented-out code (dumpHeap, SDReadCSD, the scheduler). *)
From stdpp Require Export base numbers list gmap.
From Stdlib Require Export ZArith Lia.
#[export] Set Default Goal Selector "!".
#[global] Open Scope Z_scope.

(** ** Outcomes and the state-and-failure monad *)

(** A C function either returns ([Ok]), does something the C standard or the
    processor does not allow, such as an out-of-bounds access, an unmapped or
    unaligned address or a division by zero ([Fault]), or is still spinning
    when the fuel of one of its loops runs out ([Hang]). *)
Inductive outcome (A : Type) : Type :=
| Ok (a : A)
| Fault
| Hang.
Arguments Ok {A} a.
Arguments Fault {A}.
Arguments Hang {A}.

(** Computations over a state [S]. *)
Definition M (S A : Type) : Type := S -> outcome (A * S).

Definition ret {S A} (a : A) : M S A := fun s => Ok (a, s).

Definition bind {S A B} (m : M S A) (k : A -> M S B) : M S B := fun s =>
  match m s with
  | Ok (a, s') => k a s'
  | Fault => Fault
  | Hang => Hang
  end.

Definition fault {S A} : M S A := fun _ => Fault.
Definition hang {S A} : M S A := fun _ => Hang.
Definition gets {S A} (f : S -> A) : M S A := fun s => Ok (f s, s).
Definition modify {S} (f : S -> S) : M S unit := fun s => Ok (tt, f s).

(** Raise an option: [None] is a fault. *)
Definition of_option {S A} (o : option A) : M S A :=
  match o with Some a => ret a | None => fault end.

(** Raise a stateless outcome. *)
Definition of_outcome {S A} (o : outcome A) : M S A := fun s =>
  match o with Ok a => Ok (a, s) | Fault => Fault | Hang => Hang end.

(** Run a computation on a component of a larger state. *)
Definition zoom {S T A} (get : T -> S) (set : S -> T -> T) (m : M S A) : M T A :=
  fun t => match m (get t) with
           | Ok (a, s') => Ok (a, set s' t)
           | Fault => Fault
           | Hang => Hang
           end.

(** Run a computation on an object held as a value: [on t m] reads it,
    [within t m] also returns the updated object. *)
Definition on {S T A} (t : T) (m : M T A) : M S A := fun s =>
  match m t with Ok (a, _) => Ok (a, s) | Fault => Fault | Hang => Hang end.
Definition within {S T A} (t : T) (m : M T A) : M S (A * T) := fun s =>
  match m t with Ok (a, t') => Ok ((a, t'), s) | Fault => Fault | Hang => Hang end.

Declare Scope c_scope.
Delimit Scope c_scope with c.
Notation "'let!' x := m 'in' k" := (bind m (fun x => k))
  (at level 10, x name, m at level 100, k at level 200,
   format "'let!'  x  :=  m  'in' '//' k") : c_scope.
Notation "'let!' ' p := m 'in' k" := (bind m (fun x => match x with p => k end))
  (at level 10, p pattern, m at level 100, k at level 200,
   format "'let!'  ' p  :=  m  'in' '//' k") : c_scope.
Notation "'do!' m 'in' k" := (bind m (fun _ => k))
  (at level 10, m at level 100, k at level 200,
   format "'do!'  m  'in' '//' k") : c_scope.
#[global] Open Scope c_scope.

(** ** Loops *)

(** [for (i = i0; i < i0 + n; i++) a = body(i, a)]. *)
Fixpoint for_loop {S A} (n : nat) (i : Z) (body : Z -> A -> M S A) (a : A) : M S A :=
  match n with
  | O => ret a
  | S n' => let! a' := body i a in for_loop n' (i + 1) body a'
  end.

(** The same with an early exit: the body continues with [inl] and leaves
    the loop with [inr]. *)
Fixpoint for_exit {S A B} (n : nat) (i : Z) (body : Z -> A -> M S (A + B)) (a : A)
  : M S (A + B) :=
  match n with
  | O => ret (inl a)
  | S n' => let! r := body i a in
            match r with
            | inl a' => for_exit n' (i + 1) body a'
            | inr b => ret (inr b)
            end
  end.

(** A loop with no syntactic bound, run for at most [fuel] iterations. *)
Fixpoint while_loop {S A B} (fuel : nat) (body : A -> M S (A + B)) (a : A) : M S B :=
  match fuel with
  | O => hang
  | S f => let! r := body a in
           match r with
           | inl a' => while_loop f body a'
           | inr b => ret b
           end
  end.

(** The number of iterations granted to each such loop. *)
Class Fuel := fuel : nat.

(** ** Machine integers *)

Definition u8 (x : Z) : Z := x mod 256.
Definition u16 (x : Z) : Z := x mod 65536.
Definition u32 (x : Z) : Z := x mod 4294967296.

(** Conversion to [int]: the two's complement value of the low 32 bits. *)
Definition i32 (x : Z) : Z :=
  let y := u32 x in if y <? 2147483648 then y else y - 4294967296.

Definition is_u8 (x : Z) : Prop := 0 <= x < 256.
Definition is_u16 (x : Z) : Prop := 0 <= x < 65536.
Definition is_u32 (x : Z) : Prop := 0 <= x < 4294967296.

(** A C flag test [x & (1 << n)]. *)
Definition bit_set (x n : Z) : bool := negb (Z.land x (Z.shiftl 1 n) =? 0).

(** ** Weakest preconditions

    [wpg h m Q s]: run from [s], [m] does not fault, and either it returns
    with [Q], or it runs out of fuel and [h] holds.  [wp] is total
    correctness, [wlp] tolerates fuel exhaustion. *)
Definition wpg (h : Prop) {S A} (m : M S A) (Q : A -> S -> Prop) (s : S) : Prop :=
  match m s with
  | Ok (a, s') => Q a s'
  | Fault => False
  | Hang => h
  end.
Abbreviation wp := (wpg False).
Abbreviation wlp := (wpg True).

Section Wp.
Context {S : Type} (h : Prop).

Lemma wpg_ret {A} (a : A) (Q : A -> S -> Prop) s : Q a s -> wpg h (ret a) Q s.
Proof. done. Qed.

Lemma wpg_bind {A B} (m : M S A) (k : A -> M S B) Q s :
  wpg h m (fun a s' => wpg h (k a) Q s') s -> wpg h (bind m k) Q s.
Proof. unfold wpg, bind. destruct (m s) as [[a s']| |]; done. Qed.

Lemma wpg_bind_inv {A B} (m : M S A) (k : A -> M S B) Q s :
  wpg h (bind m k) Q s -> wpg h m (fun a s' => wpg h (k a) Q s') s.
Proof. unfold wpg, bind. destruct (m s) as [[a s']| |]; done. Qed.

Lemma wpg_mono {A} (m : M S A) (Q R : A -> S -> Prop) s :
  wpg h m Q s -> (forall a s', Q a s' -> R a s') -> wpg h m R s.
Proof. unfold wpg. destruct (m s) as [[a s']| |]; eauto. Qed.

Lemma wpg_gets {A} (f : S -> A) (Q : A -> S -> Prop) s : Q (f s) s -> wpg h (gets f) Q s.
Proof. done. Qed.

Lemma wpg_modify (f : S -> S) (Q : unit -> S -> Prop) s :
  Q tt (f s) -> wpg h (modify f) Q s.
Proof. done. Qed.

Lemma wpg_of_option {A} (o : option A) (Q : A -> S -> Prop) s a :
  o = Some a -> Q a s -> wpg h (of_option o) Q s.
Proof. by intros ->. Qed.

(** Invariant rule for counted loops. *)
Lemma wpg_for {A} (I : Z -> A -> S -> Prop) n i body a s :
  I i a s ->
  (forall j b t, i <= j < i + Z.of_nat n -> I j b t ->
     wpg h (body j b) (fun b' t' => I (j + 1) b' t') t) ->
  wpg h (for_loop n i body a) (fun b t => I (i + Z.of_nat n) b t) s.
Proof.
  revert i a s. induction n as [|n IH]; intros i a s HI Hb.
  - cbn [for_loop]. apply wpg_ret. by replace (i + Z.of_nat 0) with i by lia.
  - cbn [for_loop]. apply wpg_bind. eapply wpg_mono; [apply Hb; [lia | done]|].
    intros b t Hbt. replace (i + Z.of_nat (Datatypes.S n)) with (i + 1 + Z.of_nat n) by lia.
    apply IH; [done|]. intros j c u Hj. apply Hb. lia.
Qed.

(** Invariant rule for counted loops with an early exit. *)
Lemma wpg_for_exit {A B} (I : Z -> A -> S -> Prop) (X : B -> S -> Prop) n i body a s :
  I i a s ->
  (forall j b t, i <= j < i + Z.of_nat n -> I j b t ->
     wpg h (body j b) (fun r t' => match r with inl b' => I (j + 1) b' t' | inr x => X x t' end) t) ->
  wpg h (for_exit n i body a)
    (fun r t => match r with inl b => I (i + Z.of_nat n) b t | inr x => X x t end) s.
Proof.
  revert i a s. induction n as [|n IH]; intros i a s HI Hb.
  - cbn [for_exit]. apply wpg_ret. by replace (i + Z.of_nat 0) with i by lia.
  - cbn [for_exit]. apply wpg_bind. eapply wpg_mono; [apply Hb; [lia | done]|].
    intros [b|x] t Hbt; [|by apply wpg_ret].
    replace (i + Z.of_nat (Datatypes.S n)) with (i + 1 + Z.of_nat n) by lia.
    apply IH; [done|]. intros j c u Hj. apply Hb. lia.
Qed.

End Wp.

(** Total-correctness rule for unbounded loops: [I n] holds with a measure
    [n] that every iteration decreases and that starts below the fuel. *)
Lemma wp_while {S A B} (I : nat -> A -> S -> Prop) (body : A -> M S (A + B)) Q :
  (forall n a s, I n a s ->
     wp (body a) (fun r s' => match r with
                              | inl a' => exists n', (n' < n)%nat /\ I n' a' s'
                              | inr b => Q b s'
                              end) s) ->
  forall fuel n a s, (n < fuel)%nat -> I n a s -> wp (while_loop fuel body a) Q s.
Proof.
  intros Hb fuel. induction fuel as [|f IH]; intros n a s Hn HI; [lia|].
  cbn [while_loop]. apply wpg_bind. eapply wpg_mono; [by apply (Hb n)|].
  intros [a'|b] s'; [|done]. intros (n' & Hlt & HI'). eapply IH; [|done]. lia.
Qed.

(** Partial-correctness rule: no measure. *)
Lemma wlp_while {S A B} (I : A -> S -> Prop) (body : A -> M S (A + B)) Q :
  (forall a s, I a s ->
     wlp (body a) (fun r s' => match r with inl a' => I a' s' | inr b => Q b s' end) s) ->
  forall fuel a s, I a s -> wlp (while_loop fuel body a) Q s.
Proof.
  intros Hb fuel. induction fuel as [|f IH]; intros a s HI; [done|].
  cbn [while_loop]. apply wpg_bind. eapply wpg_mono; [by apply Hb|].
  intros [a'|b] s'; [apply IH | done].
Qed.

(** A loop that returned keeps its result when it is given more fuel. *)
Lemma while_loop_fuel_mono {S A B} (body : A -> M S (A + B)) f f' a s r :
  (f <= f')%nat -> while_loop f body a s = Ok r -> while_loop f' body a s = Ok r.
Proof.
  revert f' a s. induction f as [|f IH]; intros f' a s Hf H; [done|].
  destruct f' as [|f']; [lia|]. cbn [while_loop] in *. unfold bind in *.
  destruct (body a s) as [[[a'|b] s']| |]; try done. apply IH; [lia | done].
Qed.

Lemma wp_exact {S A} (m : M S A) (Q : A -> S -> Prop) s :
  wp m Q s <-> exists a s', m s = Ok (a, s') /\ Q a s'.
Proof.
  unfold wpg. split.
  - destruct (m s) as [[a s']| |]; [eauto | done | done].
  - intros (a & s' & -> & HQ). done.
Qed.

Lemma wp_ok {S A} (m : M S A) (Q : A -> S -> Prop) s a s' :
  m s = Ok (a, s') -> Q a s' -> wp m Q s.
Proof. unfold wpg. by intros ->. Qed.

Lemma bind_ok {S A B} (m : M S A) (k : A -> M S B) s a s' :
  m s = Ok (a, s') -> bind m k s = k a s'.
Proof. unfold bind. by intros ->. Qed.

(** *** Equal computations

    [m ≈ k]: the two do the same from every state.  Rewriting with such
    equations works under [bind] and in weakest preconditions. *)
Infix "≈" := (pointwise_relation _ eq) (at level 70) : c_scope.

#[export] Instance bind_proper {S A B} :
  Proper (pointwise_relation S eq ==> pointwise_relation A (pointwise_relation S eq) ==> pointwise_relation S eq)
    (@bind S A B).
Proof. intros m m' Hm k k' Hk s. unfold bind. rewrite Hm. destruct (m' s) as [[a t]| |]; [apply Hk|done|done]. Qed.

#[export] Instance wpg_proper h {S A} :
  Proper (pointwise_relation S eq ==> pointwise_relation A (pointwise_relation S iff) ==> eq ==> iff) (@wpg h S A).
Proof. intros m m' Hm Q Q' HQ s _ <-. unfold wpg. rewrite Hm. destruct (m' s) as [[a t]| |]; [apply HQ|done|done]. Qed.

Lemma bind_assoc {S A B E} (m : M S A) (k : A -> M S B) (j : B -> M S E) :
  bind (bind m k) j ≈ bind m (fun a => bind (k a) j).
Proof. intros s. unfold bind. by destruct (m s) as [[a t]| |]. Qed.

Lemma at_state {S A} (m k : M S A) s : m ≈ k -> m s = k s.
Proof. intros H. apply H. Qed.

Lemma bind_fault {S A B} (m : M S A) (k : A -> M S B) (Q : A -> S -> Prop) s :
  wp m Q s -> (forall a s', Q a s' -> k a s' = Fault) -> bind m k s = Fault.
Proof. intros Hm Hk. apply wp_exact in Hm as (a & s' & E & HQ). rewrite (bind_ok _ _ _ _ _ E). by apply Hk. Qed.

Lemma wp_wlp {S A} (m : M S A) (Q : A -> S -> Prop) s : wp m Q s -> wlp m Q s.
Proof. unfold wpg. destruct (m s) as [[a s']| |]; done. Qed.

Lemma wpg_zoom h {S T A} (get : T -> S) (set : S -> T -> T) (m : M S A) Q t :
  wpg h m (fun a s' => Q a (set s' t)) (get t) -> wpg h (zoom get set m) Q t.
Proof. unfold wpg, zoom. destruct (m (get t)) as [[a s']| |]; done. Qed.

Lemma wpg_on h {S T A} (t : T) (m : M T A) (Q : A -> S -> Prop) s :
  wpg h m (fun a _ => Q a s) t -> wpg h (on t m) Q s.
Proof. unfold wpg, on. destruct (m t) as [[a t']| |]; done. Qed.

Lemma wpg_within h {S T A} (t : T) (m : M T A) (Q : A * T -> S -> Prop) s :
  wpg h m (fun a t' => Q (a, t') s) t -> wpg h (within t m) Q s.
Proof. unfold wpg, within. destruct (m t) as [[a t']| |]; done. Qed.

(** Walk through the sequential part of a computation. *)
Ltac wp_step :=
  lazymatch goal with
  | |- wpg _ (bind _ _) _ _ => apply wpg_bind
  | |- wpg _ (ret _) _ _ => apply wpg_ret
  | |- wpg _ (gets _) _ _ => apply wpg_gets
  | |- wpg _ (modify _) _ _ => apply wpg_modify
  | |- wpg _ (zoom _ _ _) _ _ => apply wpg_zoom
  | |- wpg _ (on _ _) _ _ => apply wpg_on
  | |- wpg _ (within _ _) _ _ => apply wpg_within
  end; cbv beta iota.
Ltac wp_steps := repeat wp_step.

(** ** Integer lemmas *)

(** [lia] with division and modulo. *)
Ltac dlia := Z.to_euclidean_division_equations; lia.

(** Goals about the width predicates and the wrap-around functions. *)
Ltac width_lia := unfold is_u8, is_u16, is_u32, u8, u16, u32 in *; dlia.

Lemma u8_range x : is_u8 (u8 x).
Proof. width_lia. Qed.
Lemma u16_range x : is_u16 (u16 x).
Proof. width_lia. Qed.
Lemma u32_range x : is_u32 (u32 x).
Proof. width_lia. Qed.
Lemma u8_small x : is_u8 x -> u8 x = x.
Proof. unfold is_u8, u8. intros. by apply Z.mod_small. Qed.
Lemma u16_small x : is_u16 x -> u16 x = x.
Proof. unfold is_u16, u16. intros. by apply Z.mod_small. Qed.
Lemma u32_small x : is_u32 x -> u32 x = x.
Proof. unfold is_u32, u32. intros. by apply Z.mod_small. Qed.
Lemma i32_small x : 0 <= x < 2147483648 -> i32 x = x.
Proof.
  unfold i32. intros. rewrite u32_small by (unfold is_u32; lia).
  destruct (Z.ltb_spec x 2147483648); lia.
Qed.

Create HintDb ints.
Create Rewrite HintDb ints_rw.
#[export] Hint Resolve u8_range u16_range u32_range : ints.
#[export] Hint Rewrite u8_small u16_small u32_small using (auto with ints; unfold is_u8, is_u16, is_u32 in *; lia) : ints_rw.

Lemma bit_set_testbit x n : 0 <= n -> bit_set x n = Z.testbit x n.
Proof.
  intros Hn. unfold bit_set.
  assert (Z.land x (Z.shiftl 1 n) = if Z.testbit x n then 2 ^ n else 0) as ->.
  { apply Z.bits_inj'. intros k Hk.
    rewrite Z.land_spec, Z.shiftl_1_l, Z.pow2_bits_eqb by done.
    destruct (Z.eqb_spec n k) as [->|Hne].
    - destruct (Z.testbit x k); [rewrite Z.pow2_bits_true by done|rewrite Z.bits_0]; done.
    - rewrite andb_false_r. destruct (Z.testbit x n); [|by rewrite Z.bits_0].
      rewrite Z.pow2_bits_false; [done|lia]. }
  destruct (Z.testbit x n); [|done].
  pose proof (Z.pow_pos_nonneg 2 n). destruct (Z.eqb_spec (2 ^ n) 0); [lia | done].
Qed.

(** Disjoint bit fields: [lor] adds. *)
Lemma lor_shiftl_add a b n :
  0 <= n -> 0 <= a < 2 ^ n -> Z.lor a (Z.shiftl b n) = a + b * 2 ^ n.
Proof.
  intros Hn Ha. rewrite <- Z.shiftl_mul_pow2 by done.
  symmetry. rewrite Z.add_nocarry_lxor, Z.lxor_lor; [done| |].
  all: apply Z.bits_inj'; intros k Hk;
    rewrite Z.land_spec, Z.bits_0, Z.shiftl_spec by done;
    destruct (Z.lt_ge_cases k n);
    [ rewrite (Z.testbit_neg_r b (k - n)) by lia; apply andb_false_r
    | replace a with (a mod 2 ^ n) by (apply Z.mod_small; lia);
      by rewrite Z.mod_pow2_bits_high by lia ].
Qed.

Lemma u32_lor a b : u32 (Z.lor a b) = Z.lor (u32 a) (u32 b).
Proof.
  unfold u32. change 4294967296 with (2 ^ 32). rewrite <- !Z.land_ones by lia.
  apply Z.land_lor_distr_l.
Qed.

Lemma u32_i32 x : u32 (i32 x) = u32 x.
Proof. unfold i32. destruct (_ <? _); unfold u32; dlia. Qed.

(** Two folds agree when their steps agree on an invariant. *)
Lemma fold_left_ext_inv {A B} (f g : A -> B -> A) (P : A -> Prop) (R : B -> Prop) l a :
  (forall a b, P a -> R b -> f a b = g a b /\ P (f a b)) -> Forall R l -> P a ->
  fold_left f l a = fold_left g l a.
Proof.
  intros Hs Hl. revert a. induction Hl as [|b l Hb _ IH]; intros a Ha; [done|].
  cbn [fold_left]. destruct (Hs a b Ha Hb) as [<- Hp]. by apply IH.
Qed.

(** ** Structures *)

(** A packed struct: its fields in order, with their sizes. *)
Fixpoint offset_of {A} `{EqDecision A} (f : A) (fields : list (A * Z)) : Z :=
  match fields with
  | [] => 0
  | (g, size) :: fields => if decide (f = g) then 0 else size + offset_of f fields
  end.

Definition packed_size {A} (fields : list (A * Z)) : Z := foldr (fun f n => f.2 + n) 0 fields.
