(* ===== verification/Session.v ===== *)
(** * Sessions

    A component that is used through a set of operations, and an abstract
    model of it: if every operation of the one gives the reply of the other
    and keeps the two states related, so does every sequence of operations. *)
From S2P Require Import Prelude.

Section Session.
Context {S A Op Reply : Type}.
(** The operations, what they should do, and when a client may use them. *)
Context (perform : Op -> M S Reply) (spec_step : A -> Op -> Reply * A) (op_ok : A -> Op -> Prop).
(** How the states of the two correspond. *)
Context (R : S -> A -> Prop).

Fixpoint run (os : list Op) : M S (list Reply) :=
  match os with
  | [] => ret []
  | o :: os => let! r := perform o in let! rs := run os in ret (r :: rs)
  end.

Fixpoint spec_run (a : A) (os : list Op) : list Reply * A :=
  match os with
  | [] => ([], a)
  | o :: os => let '(r, a) := spec_step a o in let '(rs, a) := spec_run a os in (r :: rs, a)
  end.

(** Every operation is one the client may use where it is used. *)
Fixpoint session_ok (a : A) (os : list Op) : Prop :=
  match os with [] => True | o :: os => op_ok a o /\ session_ok (spec_step a o).2 os end.

(** What one operation owes the model. *)
Definition refines (o : Op) : Prop := forall s a, R s a -> op_ok a o ->
  wp (perform o) (fun r s' => r = (spec_step a o).1 /\ R s' (spec_step a o).2) s.

Lemma run_refines os s a :
  (forall o, refines o) -> R s a -> session_ok a os ->
  wp (run os) (fun rs s' => rs = (spec_run a os).1 /\ R s' (spec_run a os).2) s.
Proof.
  intros Hops. revert s a. induction os as [|o os IH]; intros s a HR Hok; [done|]. destruct Hok as [Ho Hos].
  cbn [run spec_run]. wp_step. eapply wpg_mono; [by apply Hops|]. intros r s1 [-> H1]. cbv beta. wp_step.
  eapply wpg_mono; [by apply IH|]. intros rs s2 [-> H2]. wp_step.
  destruct (spec_step a o) as [r a1]. cbn [fst snd] in *. by destruct (spec_run a1 os).
Qed.

End Session.
