(* ===== verification/Bytes.v ===== *)
(** * Byte stores: the memory the C code addresses

    A C object the code addresses byte by byte is a [ByteStore]: a flat,
    partially mapped address space ([gmap Z Z], what a [char *] into SRAM
    addresses), or one local array ([list Z], whose pointers are indices).
    Accesses outside a store fault.  The library functions of Cstring.v are
    written once, against this interface.  The file also defines the 32-bit
    accesses of the Cortex-M0+, which fault when they are not aligned, and
    the little-endian coding they use. *)
From S2P Require Import Prelude.

(** ** Little-endian coding *)

Fixpoint le_combine (l : list Z) : Z :=
  match l with
  | [] => 0
  | b :: l' => b + 256 * le_combine l'
  end.

Fixpoint le_split (n : nat) (v : Z) : list Z :=
  match n with
  | O => []
  | S n' => v mod 256 :: le_split n' (v / 256)
  end.

(** ** The interface *)

Class ByteStore (T : Type) := {
  peek : T -> Z -> option Z;
  poke : T -> Z -> Z -> option T;
  poke_mapped : forall m p v, is_Some (poke m p v) <-> is_Some (peek m p);
  peek_poke_eq : forall m p v m', poke m p v = Some m' -> peek m' p = Some v;
  peek_poke_ne : forall m p q v m', poke m p v = Some m' -> p <> q -> peek m' q = peek m q;
}.

(** [*p] and [*p = v] for a [char *p]. *)
Definition load8 {T} `{ByteStore T} (p : Z) : M T Z := fun m => of_option (peek m p) m.
Definition store8 {T} `{ByteStore T} (p v : Z) : M T unit := fun m =>
  match poke m p (u8 v) with Some m' => Ok (tt, m') | None => Fault end.

(** The [n] bytes at [p], and overwriting the bytes at [p] with [l]. *)
Fixpoint peeks {T} `{ByteStore T} (m : T) (p : Z) (n : nat) : option (list Z) :=
  match n with
  | O => Some []
  | S n' => b ← peek m p; l ← peeks m (p + 1) n'; Some (b :: l)
  end.
Fixpoint pokes {T} `{ByteStore T} (m : T) (p : Z) (l : list Z) : option T :=
  match l with
  | [] => Some m
  | b :: l' => m' ← poke m p b; pokes m' (p + 1) l'
  end.

(** ** Arrays *)

Definition list_peek (l : list Z) (p : Z) : option Z :=
  if 0 <=? p then l !! Z.to_nat p else None.
Definition list_poke (l : list Z) (p v : Z) : option (list Z) :=
  if (0 <=? p) && (p <? Z.of_nat (length l)) then Some (<[Z.to_nat p := v]> l) else None.

(** ** Flat memory *)

Abbreviation mem := (gmap Z Z).

Definition mem_peek (m : mem) (p : Z) : option Z := m !! p.
Definition mem_poke (m : mem) (p v : Z) : option mem :=
  match m !! p with Some _ => Some (<[p := v]> m) | None => None end.

Lemma list_poke_mapped l p v : is_Some (list_poke l p v) <-> is_Some (list_peek l p).
Proof.
  unfold list_poke, list_peek. destruct (Z.leb_spec 0 p); cbn [andb];
    [|by split; intros [? ?]].
  rewrite lookup_lt_is_Some. destruct (Z.ltb_spec p (Z.of_nat (length l))).
  - split; [lia | eauto].
  - split; [by intros [? ?] | lia].
Qed.

Lemma list_peek_poke_eq l p v l' : list_poke l p v = Some l' -> list_peek l' p = Some v.
Proof.
  unfold list_poke, list_peek. destruct (Z.leb_spec 0 p); cbn [andb]; [|done].
  destruct (Z.ltb_spec p (Z.of_nat (length l))); [|done].
  intros [= <-]. apply list_lookup_insert_eq. lia.
Qed.

Lemma list_peek_poke_ne l p q v l' :
  list_poke l p v = Some l' -> p <> q -> list_peek l' q = list_peek l q.
Proof.
  unfold list_poke, list_peek. destruct (Z.leb_spec 0 p); cbn [andb]; [|done].
  destruct (Z.ltb_spec p (Z.of_nat (length l))); [|done].
  intros [= <-] Hne. destruct (Z.leb_spec 0 q); [|done].
  apply list_lookup_insert_ne. lia.
Qed.

#[export] Instance list_store : ByteStore (list Z) := {
  peek := list_peek;
  poke := list_poke;
  poke_mapped := list_poke_mapped;
  peek_poke_eq := list_peek_poke_eq;
  peek_poke_ne := list_peek_poke_ne;
}.

Lemma mem_poke_mapped m p v : is_Some (mem_poke m p v) <-> is_Some (mem_peek m p).
Proof. unfold mem_poke, mem_peek. destruct (m !! p); split; intros [? ?]; naive_solver. Qed.

Lemma mem_peek_poke_eq m p v m' : mem_poke m p v = Some m' -> mem_peek m' p = Some v.
Proof.
  unfold mem_poke, mem_peek. destruct (m !! p); [|done]. intros [= <-]. apply lookup_insert_eq.
Qed.

Lemma mem_peek_poke_ne m p q v m' :
  mem_poke m p v = Some m' -> p <> q -> mem_peek m' q = mem_peek m q.
Proof.
  unfold mem_poke, mem_peek. destruct (m !! p); [|done]. intros [= <-] ?.
  by apply lookup_insert_ne.
Qed.

#[export] Instance mem_store : ByteStore mem := {
  peek := mem_peek;
  poke := mem_poke;
  poke_mapped := mem_poke_mapped;
  peek_poke_eq := mem_peek_poke_eq;
  peek_poke_ne := mem_peek_poke_ne;
}.

(** ** Aligned word accesses *)

(** [ldr] and [str]: an address that is not a multiple of four is a HardFault. *)
Definition load32 (p : Z) : M mem Z := fun m =>
  if p mod 4 =? 0 then of_option (le_combine <$> peeks m p 4) m else Fault.
Definition store32 (p v : Z) : M mem unit := fun m =>
  if p mod 4 =? 0 then
    match pokes m p (le_split 4 (u32 v)) with Some m' => Ok (tt, m') | None => Fault end
  else Fault.

(** What a 32-bit field at [p] holds. *)
Definition word_at (m : mem) (p v : Z) : Prop :=
  p mod 4 = 0 /\ is_u32 v /\ peeks m p 4 = Some (le_split 4 v).

(** The address range [[a, b)] is mapped. *)
Definition mapped {T} `{ByteStore T} (m : T) (a b : Z) : Prop :=
  forall p, a <= p < b -> is_Some (peek m p).

(** [m'] is [m] with the bytes at [p] overwritten by [l]. *)
Definition writes {T} `{ByteStore T} (m : T) (p : Z) (l : list Z) (m' : T) : Prop :=
  peeks m' p (length l) = Some l /\
  forall q, q < p \/ p + Z.of_nat (length l) <= q -> peek m' q = peek m q.

(** ** Lemmas: coding *)

Lemma length_le_split n v : length (le_split n v) = n.
Proof. revert v. induction n as [|n IH]; intros v; [done|]. cbn. by rewrite IH. Qed.

Lemma le_combine_split n v : le_combine (le_split n v) = v mod 256 ^ Z.of_nat n.
Proof.
  revert v. induction n as [|n IH]; intros v.
  - cbn. by rewrite Z.mod_1_r.
  - cbn [le_split le_combine]. rewrite IH, Nat2Z.inj_succ, Z.pow_succ_r by lia.
    rewrite Z.rem_mul_r by (pose proof (Z.pow_pos_nonneg 256 (Z.of_nat n)); lia). lia.
Qed.

Lemma le_split_combine l : Forall is_u8 l -> le_split (length l) (le_combine l) = l.
Proof.
  induction 1 as [|b l Hb _ IH]; [done|]. cbn [length le_combine le_split]. unfold is_u8 in Hb.
  f_equal; [|replace ((b + 256 * le_combine l) / 256) with (le_combine l) by dlia; done].
  dlia.
Qed.

Lemma le_combine_range l :
  Forall is_u8 l -> 0 <= le_combine l < 256 ^ Z.of_nat (length l).
Proof.
  induction 1 as [|b l Hb _ IH]; [cbn; lia|]. cbn [length le_combine].
  rewrite Nat2Z.inj_succ, Z.pow_succ_r by lia. unfold is_u8 in Hb. lia.
Qed.

Lemma Forall_le_split n v : Forall is_u8 (le_split n v).
Proof.
  revert v. induction n as [|n IH]; intros v; constructor; [|apply IH]. unfold is_u8. dlia.
Qed.

Lemma le_combine_split_u32 v : is_u32 v -> le_combine (le_split 4 v) = v.
Proof. intros Hv. rewrite le_combine_split. apply Z.mod_small. apply Hv. Qed.

Lemma le_split_inj n v w :
  0 <= v < 256 ^ Z.of_nat n -> 0 <= w < 256 ^ Z.of_nat n -> le_split n v = le_split n w -> v = w.
Proof.
  intros Hv Hw H. apply (f_equal le_combine) in H. rewrite !le_combine_split in H.
  by rewrite !Z.mod_small in H.
Qed.

(** ** Lemmas: runs of bytes *)

Section Runs.
Context {T : Type} `{ByteStore T}.

Lemma peeks_ext (m m' : T) p n :
  (forall q, p <= q < p + Z.of_nat n -> peek m' q = peek m q) -> peeks m' p n = peeks m p n.
Proof.
  revert p. induction n as [|n IH]; intros p Hq; [done|]. cbn [peeks].
  rewrite (Hq p) by lia. rewrite (IH (p + 1)); [done|]. intros q ?. apply Hq. lia.
Qed.

Lemma pokes_frame (m m' : T) p l q :
  pokes m p l = Some m' -> q < p \/ p + Z.of_nat (length l) <= q -> peek m' q = peek m q.
Proof.
  revert m p. induction l as [|b l IH]; intros m p Hm Hq; cbn [pokes length] in *.
  - by injection Hm as ->.
  - destruct (poke m p b) as [m1|] eqn:E; [|done]. cbn in Hm.
    rewrite (IH m1 (p + 1)) by (done || lia). eapply peek_poke_ne; [done|lia].
Qed.

Lemma peeks_pokes (m m' : T) p l : pokes m p l = Some m' -> peeks m' p (length l) = Some l.
Proof.
  revert m p. induction l as [|b l IH]; intros m p Hm; [done|]. cbn [pokes peeks length] in *.
  destruct (poke m p b) as [m1|] eqn:E; [|done]. cbn in Hm.
  rewrite (pokes_frame m1 m' (p + 1) l p) by (done || lia).
  rewrite (peek_poke_eq _ _ _ _ E), (IH m1 (p + 1)) by done. done.
Qed.

Lemma pokes_mapped (m : T) p l :
  mapped m p (p + Z.of_nat (length l)) -> exists m', pokes m p l = Some m'.
Proof.
  revert m p. induction l as [|b l IH]; intros m p Hm; cbn [pokes length] in *; [eauto|].
  destruct (proj2 (poke_mapped m p b)) as [m1 E]; [apply Hm; lia|]. rewrite E. cbn.
  apply IH. intros q Hq. rewrite (peek_poke_ne _ _ _ _ _ E) by lia. apply Hm. lia.
Qed.

Lemma peeks_mapped (m : T) p n : mapped m p (p + Z.of_nat n) <-> is_Some (peeks m p n).
Proof.
  revert p. induction n as [|n IH]; intros p; cbn [peeks].
  - split; [eauto|]. intros _ q ?. lia.
  - split.
    + intros Hm. destruct (Hm p) as [b ->]; [lia|]. cbn.
      destruct (proj1 (IH (p + 1))) as [l ->]; [|eauto]. intros q ?. apply Hm. lia.
    + intros [l Hl]. destruct (peek m p) as [b|] eqn:E; [|done]. cbn in Hl.
      destruct (peeks m (p + 1) n) as [l'|] eqn:E'; [|done].
      assert (mapped m (p + 1) (p + 1 + Z.of_nat n)) as Hm' by (apply IH; eauto).
      intros q ?. destruct (Z.eq_dec q p) as [->|]; [eauto|]. apply Hm'. lia.
Qed.

Lemma mapped_pokes (m m' : T) p l a b :
  pokes m p l = Some m' -> mapped m a b -> mapped m' a b.
Proof.
  revert m p. induction l as [|c l IH]; intros m p Hm Hab; cbn [pokes] in Hm; [by injection Hm as ->|].
  destruct (poke m p c) as [m1|] eqn:E; [|done]. cbn in Hm. eapply IH; [done|].
  intros q Hq. destruct (Z.eq_dec p q) as [->|].
  - erewrite peek_poke_eq by done. eauto.
  - erewrite peek_poke_ne by done. by apply Hab.
Qed.

Lemma mapped_unpokes (m m' : T) p l a b : pokes m p l = Some m' -> mapped m' a b -> mapped m a b.
Proof.
  revert m p. induction l as [|c l IH]; intros m p Hm Hab; cbn [pokes] in Hm; [by injection Hm as ->|].
  destruct (poke m p c) as [m1|] eqn:E; [|done]. cbn in Hm. intros q Hq.
  destruct (IH m1 (p + 1) Hm Hab q Hq) as [x Hx]. destruct (Z.eq_dec p q) as [<-|Hne].
  - apply (poke_mapped m p c). eauto.
  - rewrite <- (peek_poke_ne m p q c m1 E Hne). eauto.
Qed.

Lemma length_peeks (m : T) p n l : peeks m p n = Some l -> length l = n.
Proof.
  revert p l. induction n as [|n IH]; intros p l Hl; cbn [peeks] in Hl.
  - by injection Hl as <-.
  - destruct (peek m p); [|done]. cbn in Hl. destruct (peeks m (p + 1) n) eqn:E; [|done].
    cbn in Hl. injection Hl as <-. cbn. f_equal. eauto.
Qed.

Lemma peeks_lookup (m : T) p n l i :
  peeks m p n = Some l -> (i < n)%nat -> peek m (p + Z.of_nat i) = l !! i.
Proof.
  revert p l i. induction n as [|n IH]; intros p l i Hl Hi; [lia|]. cbn [peeks] in Hl.
  destruct (peek m p) as [b|] eqn:Eb; [|done]. cbn in Hl.
  destruct (peeks m (p + 1) n) as [l'|] eqn:E; [|done]. cbn in Hl. injection Hl as <-.
  destruct i as [|i]; [by rewrite Z.add_0_r|].
  replace (p + Z.of_nat (S i)) with (p + 1 + Z.of_nat i) by lia. apply (IH _ l'); [done|lia].
Qed.

Lemma peeks_app (m : T) p n k :
  peeks m p (n + k) = (l ← peeks m p n; l' ← peeks m (p + Z.of_nat n) k; Some (l ++ l')).
Proof.
  revert p. induction n as [|n IH]; intros p.
  - cbn. rewrite Z.add_0_r. by destruct (peeks m p k).
  - cbn [Nat.add peeks]. destruct (peek m p); [|done]. cbn. rewrite IH.
    replace (p + 1 + Z.of_nat n) with (p + Z.of_nat (S n)) by lia.
    destruct (peeks m (p + 1) n); [|done]. cbn. by destruct (peeks m (p + Z.of_nat (S n)) k).
Qed.

Lemma writes_nil (m : T) p : writes m p [] m.
Proof. split; [done|]. done. Qed.

Lemma writes_pokes (m m' : T) p l : pokes m p l = Some m' -> writes m p l m'.
Proof. intros E. split; [by eapply peeks_pokes|]. intros q. by apply pokes_frame. Qed.

Lemma writes_snoc (m m1 m2 : T) p l b :
  writes m p l m1 -> poke m1 (p + Z.of_nat (length l)) b = Some m2 -> writes m p (l ++ [b]) m2.
Proof.
  intros [E F] Hp. split.
  - rewrite length_app, peeks_app.
    rewrite (peeks_ext m1 m2 p (length l)) by (intros; eapply peek_poke_ne; [done|lia]).
    rewrite E. cbn [mbind option_bind length peeks].
    by rewrite (peek_poke_eq _ _ _ _ Hp).
  - intros q. rewrite length_app. cbn [length]. intros Hq.
    rewrite (peek_poke_ne _ _ _ _ _ Hp) by lia. apply F. lia.
Qed.

Lemma writes_replace_last (m m1 m2 : T) p l b c :
  writes m p (l ++ [b]) m1 -> poke m1 (p + Z.of_nat (length l)) c = Some m2 ->
  writes m p (l ++ [c]) m2.
Proof.
  intros [E F] Hp. rewrite length_app, peeks_app in E. cbn [length] in E. split.
  - rewrite length_app, peeks_app. cbn [length].
    rewrite (peeks_ext m1 m2 p (length l)) by (intros; eapply peek_poke_ne; [done|lia]).
    destruct (peeks m1 p (length l)) as [k|] eqn:Ek; [|done]. cbn [mbind option_bind] in *.
    destruct (peeks m1 _ 1) as [k1|] eqn:Ek1; [|done]. cbn [mbind option_bind] in E.
    injection E as E. apply app_inj_1 in E as [-> _]; [|by eapply length_peeks].
    cbn [peeks]. by rewrite (peek_poke_eq _ _ _ _ Hp).
  - intros q. rewrite length_app. cbn [length]. intros Hq.
    rewrite (peek_poke_ne _ _ _ _ _ Hp) by lia. apply F. rewrite length_app. cbn. lia.
Qed.

Lemma writes_app (m m1 m2 : T) p l k :
  writes m p l m1 -> writes m1 (p + Z.of_nat (length l)) k m2 -> writes m p (l ++ k) m2.
Proof.
  intros [E F] [E' F']. split.
  - rewrite length_app, peeks_app. rewrite (peeks_ext m1 m2 p (length l)) by (intros; apply F'; lia).
    by rewrite E, E'.
  - intros q. rewrite length_app. intros Hq. rewrite F' by lia. apply F. lia.
Qed.

Lemma writes_mapped (m m' : T) p l a b : writes m p l m' -> mapped m a b -> mapped m' a b.
Proof.
  intros [E F] Hm q Hq.
  destruct (Z.lt_ge_cases q p); [rewrite F by lia; by apply Hm|].
  destruct (Z.lt_ge_cases q (p + Z.of_nat (length l))); [|rewrite F by lia; by apply Hm].
  apply (proj2 (peeks_mapped m' p (length l))); [eauto|lia].
Qed.
End Runs.

Lemma load8_eq {T} `{ByteStore T} (m : T) p b : peek m p = Some b -> load8 p m = Ok (b, m).
Proof. unfold load8. by intros ->. Qed.

Lemma load8_ok {T} `{ByteStore T} h (m : T) p b Q :
  peek m p = Some b -> Q b m -> wpg h (load8 p) Q m.
Proof. unfold wpg, load8. by intros ->. Qed.

Lemma store8_ok {T} `{ByteStore T} h (m : T) p v Q :
  is_Some (peek m p) ->
  (forall m', poke m p (u8 v) = Some m' -> Q tt m') -> wpg h (store8 p v) Q m.
Proof.
  intros Hm HQ. unfold wpg, store8. apply (poke_mapped m p (u8 v)) in Hm as [m' E].
  rewrite E. by apply HQ.
Qed.

(** Appending one byte to what has been written so far. *)
Lemma store8_writes {T} `{ByteStore T} h (m m1 : T) p q l v Q a b :
  writes m p l m1 -> q = p + Z.of_nat (length l) -> mapped m a b -> a <= q < b ->
  (forall m2, writes m p (l ++ [u8 v]) m2 -> Q tt m2) ->
  wpg h (store8 q v) Q m1.
Proof.
  intros Hw -> Hm Hq HQ. apply store8_ok.
  - eapply writes_mapped; [done | done | lia].
  - intros m2 E. apply HQ. by eapply writes_snoc.
Qed.

(** ** Lemmas: words *)

Lemma load32_ok h m p v Q : word_at m p v -> Q v m -> wpg h (load32 p) Q m.
Proof.
  intros (Hp & Hv & E) HQ. unfold wpg, load32. rewrite Hp, E. cbn [Z.eqb].
  cbv [of_option ret fmap option_fmap option_map].
  rewrite le_combine_split_u32 by done. done.
Qed.

Lemma load32_eq m p v : word_at m p v -> load32 p m = Ok (v, m).
Proof.
  intros Hw. destruct (proj1 (wp_exact (load32 p) (fun a t => a = v /\ t = m) m)) as (a & t & E & -> & ->); [|done].
  by eapply load32_ok.
Qed.

Lemma store32_ok h m p v Q :
  p mod 4 = 0 -> mapped m p (p + 4) ->
  (forall m', word_at m' p (u32 v) -> (forall q, q < p \/ p + 4 <= q -> m' !! q = m !! q) ->
              (forall a b, mapped m a b -> mapped m' a b) -> Q tt m') ->
  wpg h (store32 p v) Q m.
Proof.
  intros Hp Hm HQ. unfold wpg, store32. rewrite Hp. cbn [Z.eqb].
  destruct (pokes_mapped m p (le_split 4 (u32 v))) as [m' E]; [done|]. rewrite E.
  apply HQ.
  - split; [done|]. split; [apply u32_range|].
    rewrite <- (peeks_pokes _ _ _ _ E). by rewrite length_le_split.
  - intros q Hq. by apply (pokes_frame m m' p _ q E).
  - intros a b. by eapply mapped_pokes.
Qed.

Lemma word_at_frame m m' p v :
  word_at m p v -> (forall q, p <= q < p + 4 -> m' !! q = m !! q) -> word_at m' p v.
Proof.
  intros (Hp & Hv & E) Hq. split; [done|]. split; [done|]. rewrite <- E. by apply peeks_ext.
Qed.

Lemma word_at_mapped m p v : word_at m p v -> mapped m p (p + 4).
Proof. intros (_ & _ & E). apply (peeks_mapped m p 4). eauto. Qed.

Lemma word_at_inj m p v w : word_at m p v -> word_at m p w -> v = w.
Proof.
  intros (_ & Hv & E) (_ & Hw & E'). rewrite E in E'.
  apply (le_split_inj 4); [apply Hv | apply Hw | congruence].
Qed.

(** Overwriting a word. *)
Lemma store32_over h m p w v Q :
  word_at m p w -> is_u32 v ->
  (forall m', word_at m' p v -> (forall q, q < p \/ p + 4 <= q -> m' !! q = m !! q) ->
              (forall a b, mapped m a b -> mapped m' a b) -> Q tt m') ->
  wpg h (store32 p v) Q m.
Proof.
  intros Hw Hv HQ. apply store32_ok; [apply Hw | by eapply word_at_mapped|].
  rewrite (u32_small v Hv). apply HQ.
Qed.

(** ** Lemmas: arrays *)

(** The little-endian number of [n] bytes at [p]. *)
Definition le_at (n : nat) (l : list Z) (p : Z) : Z := le_combine (take n (drop (Z.to_nat p) l)).

Lemma le_at_slice n l p : le_at n (take n (drop (Z.to_nat p) l)) 0 = le_at n l p.
Proof. unfold le_at. by rewrite drop_0, take_take, Nat.min_id. Qed.

Lemma le_at_sub n l k q p :
  0 <= p -> (Z.to_nat p + n <= k)%nat -> 0 <= q ->
  le_at n (take k (drop (Z.to_nat q) l)) p = le_at n l (q + p).
Proof.
  intros Hp Hk Hq. unfold le_at. rewrite skipn_firstn_comm, take_take, drop_drop.
  rewrite Nat.min_l by lia. do 3 f_equal. lia.
Qed.

Lemma list_peek_lookup (l : list Z) p : 0 <= p -> peek l p = l !! Z.to_nat p.
Proof. intros Hp. cbn. unfold list_peek. by destruct (Z.leb_spec 0 p); [|lia]. Qed.

Lemma list_peeks (l : list Z) p n :
  0 <= p -> (Z.to_nat p + n <= length l)%nat ->
  peeks l p n = Some (take n (drop (Z.to_nat p) l)).
Proof.
  revert p. induction n as [|n IH]; intros p Hp Hn; [done|]. cbn [peeks].
  rewrite list_peek_lookup by done.
  destruct (lookup_lt_is_Some_2 l (Z.to_nat p)) as [b Hb]; [lia|]. rewrite Hb.
  cbn [mbind option_bind]. rewrite IH by lia. cbn [mbind option_bind].
  replace (Z.to_nat (p + 1)) with (S (Z.to_nat p)) by lia. by rewrite (drop_S l b (Z.to_nat p) Hb).
Qed.

Lemma list_mapped (l : list Z) a b : 0 <= a -> b <= Z.of_nat (length l) -> mapped l a b.
Proof. intros Ha Hb p Hp. rewrite list_peek_lookup by lia. apply lookup_lt_is_Some. lia. Qed.

(** Overwriting a whole array. *)
Lemma list_writes_all (l k l' : list Z) : writes l 0 k l' -> length k = length l -> l' = k.
Proof.
  intros [E F] Hlen. apply list_eq. intros i.
  destruct (decide (i < length k)%nat) as [Hi|Hi].
  - rewrite <- (peeks_lookup l' 0 _ k i E Hi), list_peek_lookup by lia. f_equal. lia.
  - rewrite (lookup_ge_None_2 k) by lia. specialize (F (Z.of_nat i) ltac:(lia)).
    rewrite !list_peek_lookup, Nat2Z.id in F by lia. rewrite F. apply lookup_ge_None_2. lia.
Qed.

Lemma list_load8_ok h (l : list Z) p b Q :
  0 <= p -> l !! Z.to_nat p = Some b -> Q b l -> wpg h (load8 p) Q l.
Proof. intros Hp Hb HQ. eapply load8_ok; [by rewrite list_peek_lookup|done]. Qed.
