(* ===== verification/Hexutils.v ===== *)
(** * Number formatting and little-endian reads (src/lib/util/hexutils.c, hexutils.h)

    The formatting functions write into a caller-supplied [char *str]; the
    reads index a [const uint8_t *data] with a 16-bit offset. *)
From S2P Require Import Prelude Bytes.

(** [static const char hex_digits[] = "0123456789ABCDEF";] *)
Definition hex_digits : list Z :=
  [48; 49; 50; 51; 52; 53; 54; 55; 56; 57; 65; 66; 67; 68; 69; 70; 0].

Section Hexutils.
Context {T : Type} `{ByteStore T}.

Definition hexToStr (str n : Z) : M T unit :=
  do! for_loop 8 0 (fun i _ =>
        let! d := on hex_digits (load8 (Z.land (Z.shiftr n (28 - i * 4)) 15)) in
        store8 (str + i) d) tt in
  store8 (str + 8) 0.

Definition byteToStr (str n : Z) : M T unit :=
  let! hi := on hex_digits (load8 (Z.land (Z.shiftr n 4) 15)) in
  do! store8 str hi in
  let! lo := on hex_digits (load8 (Z.land n 15)) in
  do! store8 (str + 1) lo in
  store8 (str + 2) 0.

Definition byteToDec (str n : Z) : M T unit :=
  do! store8 (str + 2) (n mod 10 + 48) in
  do! store8 (str + 1) ((n / 10) mod 10 + 48) in
  do! store8 str ((n / 100) mod 10 + 48) in
  store8 (str + 3) 0.

(** The first loop fills [temp_str] from the least significant digit; [i] is
    an [int8_t] counting the digits. *)
Definition intToDec_digits (fuel : nat) (n : Z) (temp_str : list Z) : M T (Z * list Z) :=
  while_loop fuel (fun '(n, i, temp_str) =>
    if 0 <? n then
      let! '(_, temp_str') := within temp_str (store8 i (n mod 10 + 48)) in
      ret (inl (n / 10, i + 1, temp_str'))
    else ret (inr (i, temp_str))) (n, 0, temp_str).

(** The second loop copies them back in reverse. *)
Definition intToDec_reverse (fuel : nat) (str i : Z) (temp_str : list Z) : M T Z :=
  while_loop fuel (fun '(i, j) =>
    if 0 <? i then
      let! d := on temp_str (load8 (i - 1)) in
      do! store8 (str + j) d in
      ret (inl (i - 1, j + 1))
    else ret (inr j)) (i, 0).

Definition intToDec (str n : Z) : M T unit :=
  if n =? 0 then
    do! store8 str 48 in store8 (str + 1) 0
  else
    let temp_str := replicate 12 0 in
    let! '(i, temp_str) := intToDec_digits 13 n temp_str in
    let! j := intToDec_reverse 13 str i temp_str in
    store8 (str + j) 0.

(** [data] is the pointer; the offset parameter is a [uint16_t], so the
    argument is truncated to 16 bits.  The shifts are done in [int], the
    result is converted to the unsigned return type. *)
Definition read_le32 (data offset : Z) : M T Z :=
  let offset := u16 offset in
  let! b0 := load8 (data + offset) in
  let! b1 := load8 (data + (offset + 1)) in
  let! b2 := load8 (data + (offset + 2)) in
  let! b3 := load8 (data + (offset + 3)) in
  ret (u32 (Z.lor (Z.lor (Z.lor b0 (Z.shiftl b1 8)) (Z.shiftl b2 16)) (i32 (Z.shiftl b3 24)))).

Definition read_le16 (data offset : Z) : M T Z :=
  let offset := u16 offset in
  let! b0 := load8 (data + offset) in
  let! b1 := load8 (data + (offset + 1)) in
  ret (u16 (Z.lor b0 (Z.shiftl b1 8))).

End Hexutils.

(** ** Reading the digits back *)

Definition digit_value (c : Z) : option Z :=
  if (48 <=? c) && (c <=? 57) then Some (c - 48)
  else if (65 <=? c) && (c <=? 70) then Some (c - 55) else None.

(** The value of a digit string, most significant digit first; [None] on a
    character that is not a digit of the base. *)
Fixpoint parse_digits (base acc : Z) (l : list Z) : option Z :=
  match l with
  | [] => Some acc
  | c :: l' => d ← digit_value c;
               if d <? base then parse_digits base (base * acc + d) l' else None
  end.

(** ** Digits *)

Definition is_digit (c : Z) : Prop := 48 <= c <= 57.

Lemma parse_digits_snoc base acc l c v d :
  parse_digits base acc l = Some v -> digit_value c = Some d -> d < base ->
  parse_digits base acc (l ++ [c]) = Some (base * v + d).
Proof.
  intros Hl Hc Hd. revert acc Hl. induction l as [|e l IH]; intros acc Hl; cbn in *.
  - injection Hl as ->. rewrite Hc. cbn. destruct (Z.ltb_spec d base); [done|lia].
  - destruct (digit_value e) as [d'|]; [|done]. cbn in *. destruct (d' <? base); [|done].
    by apply IH.
Qed.

Lemma hex_digits_spec k :
  0 <= k < 16 -> exists c, list_peek hex_digits k = Some c /\ is_u8 c /\ digit_value c = Some k.
Proof.
  intros Hk. replace k with (Z.of_nat (Z.to_nat k)) by lia.
  assert (Z.to_nat k < 16)%nat as Hi by lia. revert Hi. generalize (Z.to_nat k). intros i Hi.
  do 16 (destruct i as [|i];
         [eexists; split; [reflexivity|]; split; [unfold is_u8; lia|reflexivity]|]). lia.
Qed.

Lemma dec_digit_value d : 0 <= d < 10 -> digit_value (d + 48) = Some d.
Proof.
  intros Hd. unfold digit_value.
  destruct (Z.leb_spec 48 (d + 48)), (Z.leb_spec (d + 48) 57); try lia. cbn. f_equal. lia.
Qed.

Lemma land_15 x : Z.land x 15 = x mod 16.
Proof. apply (Z.land_ones x 4). lia. Qed.

Section HexutilsProofs.
Context {T : Type} `{ByteStore T}.

Lemma hex_digit_ok h {S} k (Q : Z -> S -> Prop) s :
  0 <= k < 16 -> (forall c, is_u8 c -> digit_value c = Some k -> Q c s) ->
  wpg h (on hex_digits (load8 k)) Q s.
Proof.
  intros Hk HQ. destruct (hex_digits_spec k Hk) as (c & E & Hc & Hd).
  wp_step. eapply load8_ok; [exact E|]. by apply HQ.
Qed.

(** [hexToStr] writes exactly eight hexadecimal digits and a terminator
    at [str], touches nothing else, and the digits read back as [n]. *)
Theorem hexToStr_spec (m : T) str n :
  is_u32 n -> mapped m str (str + 9) ->
  wp (hexToStr str n) (fun _ m' =>
    exists ds, length ds = 8%nat /\ parse_digits 16 0 ds = Some n /\ writes m str (ds ++ [0]) m') m.
Proof.
  intros Hn Hm. unfold hexToStr. apply wpg_bind. eapply wpg_mono.
  - apply (wpg_for _ (fun i _ m1 => exists ds, Z.of_nat (length ds) = i /\
      parse_digits 16 0 ds = Some (Z.shiftr n (32 - 4 * i)) /\ writes m str ds m1)).
    + exists []. split; [done|]. split; [|apply writes_nil].
      cbn. f_equal. rewrite Z.shiftr_div_pow2 by lia. unfold is_u32 in Hn. symmetry.
      apply Z.div_small. lia.
    + intros i _ m1 Hi (ds & Hlen & Hp & Hw). wp_step. apply hex_digit_ok.
      { rewrite land_15. apply Z.mod_pos_bound. lia. }
      intros c Hc Hd. eapply store8_writes; [done|lia|done|lia|].
      intros m2 Hw2. exists (ds ++ [c]). rewrite length_app. cbn [length].
      rewrite u8_small in Hw2 by done. split; [lia|]. split; [|done].
      erewrite parse_digits_snoc; [|done|done|rewrite land_15; dlia].
      f_equal. rewrite land_15, <- (Z.mul_1_l (_ mod 16)), !Z.shiftr_div_pow2 by lia.
      replace (32 - 4 * i) with (28 - i * 4 + 4) by lia.
      replace (32 - 4 * (i + 1)) with (28 - i * 4) by lia.
      rewrite Z.pow_add_r, <- Z.div_div by lia. change (2 ^ 4) with 16. dlia.
  - cbv beta. intros _ m1 (ds & Hlen & Hp & Hw).
    eapply store8_writes; [done|lia|done|lia|].
    intros m2 Hw2. exists ds. split; [lia|]. split; [|done]. rewrite Hp.
    by rewrite Z.sub_diag, Z.shiftr_0_r.
Qed.

(** [byteToStr] writes two hexadecimal digits that read back as the byte,
    and a terminator. *)
Theorem byteToStr_spec (m : T) str n :
  is_u8 n -> mapped m str (str + 3) ->
  wp (byteToStr str n) (fun _ m' =>
    exists ds, length ds = 2%nat /\ parse_digits 16 0 ds = Some n /\ writes m str (ds ++ [0]) m') m.
Proof.
  intros Hn Hm. unfold byteToStr. rewrite !land_15, Z.shiftr_div_pow2 by lia.
  change (2 ^ 4) with 16. wp_step. apply hex_digit_ok; [dlia|]. intros c Hc Hd.
  wp_step. eapply (store8_writes _ m m str _ []); [apply writes_nil|cbn; lia|done|lia|].
  intros m1 H1. wp_step. apply hex_digit_ok; [dlia|]. intros c' Hc' Hd'.
  wp_step. eapply store8_writes; [exact H1|done|done|lia|].
  intros m2 H2. eapply store8_writes; [exact H2|done|done|lia|].
  intros m3 H3. rewrite !u8_small in H3 by done. exists [c; c']. split; [done|]. split; [|done].
  cbn. rewrite Hd. cbn. unfold is_u8 in Hn. destruct (Z.ltb_spec ((n / 16) mod 16) 16); [|dlia].
  cbn. rewrite Hd'. cbn. destruct (Z.ltb_spec (n mod 16) 16); [|dlia]. f_equal. dlia.
Qed.

(** The digit loop of [intToDec]: [ds] are the digits produced so far, most
    significant first. *)
Lemma intToDec_digits_ok (m : T) n :
  0 < n -> is_u32 n ->
  wp (intToDec_digits 13 n (replicate 12 0)) (fun '(i, temp) m' =>
    m' = m /\ exists ds rest, temp = reverse ds ++ rest /\ Z.of_nat (length ds) = i /\ i <= 10 /\
      Forall is_digit ds /\ parse_digits 10 0 ds = Some n /\ exists c tl, ds = c :: tl /\ c <> 48) m.
Proof.
  intros Hpos Hn. unfold is_u32 in Hn.
  set (I := fun (k : nat) '((n', i, temp) : Z * Z * list Z) (m' : T) =>
    m' = m /\ 0 <= n' < 10 ^ Z.of_nat k /\ Z.of_nat k + i <= 10 /\
    exists ds rest, temp = reverse ds ++ rest /\ Z.of_nat (length ds) = i /\ length temp = 12%nat /\
      Forall is_digit ds /\ parse_digits 10 n' ds = Some n /\
      (n' = 0 -> exists c tl, ds = c :: tl /\ c <> 48)).
  apply (wp_while I _ _) with (n := 10%nat); [|lia|].
  - intros k [[n' i] temp] m' (-> & Hn' & Hki & ds & rest & -> & Hlen & Htmp & Hds & Hp & Hz).
    destruct (Z.ltb_spec 0 n').
    + destruct k as [|k]; [cbn in Hn'; lia|]. wp_step. wp_step.
      rewrite length_app, length_reverse in Htmp.
      destruct rest as [|r rest]; [cbn in Htmp; lia|].
      apply store8_ok; [cbn; unfold list_peek; destruct (Z.leb_spec 0 i); [|lia];
        apply lookup_lt_is_Some; rewrite length_app, length_reverse; cbn; lia|].
      intros temp' E. cbn in E. unfold list_poke in E.
      rewrite length_app, length_reverse in E. cbn [length] in E.
      destruct (Z.leb_spec 0 i); [|lia]. destruct (Z.ltb_spec i (Z.of_nat (length ds + S (length rest)))); [|lia].
      injection E as <-. wp_step. exists k. split; [lia|].
      replace (Z.to_nat i) with (length (reverse ds) + 0)%nat by (rewrite length_reverse; lia).
      rewrite insert_app_r, u8_small by width_lia. cbn [list_insert insert].
      rewrite Nat2Z.inj_succ, Z.pow_succ_r in Hn' by lia.
      unfold I. split; [done|]. split; [dlia|]. split; [lia|].
      exists ((n' mod 10 + 48) :: ds), rest. cbn [length].
      rewrite reverse_cons, <- app_assoc. split; [done|]. split; [lia|].
      split; [cbn in Htmp |- *; rewrite !length_app, length_reverse in *; cbn; lia|].
      split; [constructor; [unfold is_digit; dlia|done]|]. split.
      * cbn [parse_digits]. rewrite dec_digit_value by dlia. cbn.
        destruct (Z.ltb_spec (n' mod 10) 10); [|dlia]. rewrite <- Hp. f_equal. dlia.
      * intros Hq. eexists _, _. split; [done|]. dlia.
    + wp_step. split; [done|]. exists ds, rest. assert (n' = 0) as -> by lia.
      repeat split; try done; [lia|]. by apply Hz.
  - unfold I. split; [done|]. split; [change (10 ^ Z.of_nat 10) with 10000000000; lia|].
    split; [lia|]. exists [], (replicate 12 0). repeat split; try done. lia.
Qed.

Lemma intToDec_reverse_ok (m : T) str ds rest :
  Forall is_digit ds -> (length ds <= 10)%nat -> mapped m str (str + 11) ->
  wp (intToDec_reverse 13 str (Z.of_nat (length ds)) (reverse ds ++ rest)) (fun j m' =>
    j = Z.of_nat (length ds) /\ writes m str ds m') m.
Proof.
  intros Hds Hlen Hm.
  set (I := fun (k : nat) '((i, j) : Z * Z) (m' : T) =>
    i = Z.of_nat k /\ (k <= length ds)%nat /\ j = Z.of_nat (length ds) - i /\
    writes m str (take (length ds - k) ds) m').
  apply (wp_while I _ _) with (n := length ds); [|lia|].
  - intros k [i j] m' (-> & Hk & -> & Hw). destruct (Z.ltb_spec 0 (Z.of_nat k)).
    + destruct k as [|k]; [lia|]. wp_step. wp_step.
      destruct (lookup_lt_is_Some_2 ds (length ds - S k)) as [c Hc]; [lia|].
      eapply load8_ok.
      { cbn. unfold list_peek. destruct (Z.leb_spec 0 (Z.of_nat (S k) - 1)); [|lia].
        replace (Z.to_nat (Z.of_nat (S k) - 1)) with k by lia.
        rewrite lookup_app_l by (rewrite length_reverse; lia).
        rewrite reverse_lookup by lia. exact Hc. }
      assert (is_digit c) as Hdc by (eapply Forall_lookup_1; done).
      wp_step. eapply store8_writes; [exact Hw|rewrite length_take; lia|done|lia|].
      intros m2 Hw2. wp_step. exists k. split; [lia|]. unfold I.
      split; [lia|]. split; [lia|]. split; [lia|].
      replace (length ds - k)%nat with (S (length ds - S k)) by lia.
      rewrite u8_small in Hw2 by (unfold is_digit in *; width_lia).
      by rewrite (take_S_r _ _ c).
    + wp_step. split; [lia|]. assert (k = 0)%nat as -> by lia.
      rewrite Nat.sub_0_r in Hw. by rewrite take_ge in Hw.
  - unfold I. split; [done|]. split; [done|]. split; [lia|].
    rewrite Nat.sub_diag. apply writes_nil.
Qed.

Lemma intToDec_ok (m : T) str n :
  is_u32 n -> mapped m str (str + 11) ->
  wp (intToDec str n) (fun _ m' =>
    exists ds, (length ds <= 10)%nat /\ Forall is_digit ds /\ parse_digits 10 0 ds = Some n /\
      (n <> 0 -> exists c tl, ds = c :: tl /\ c <> 48) /\ writes m str (ds ++ [0]) m') m.
Proof.
  intros Hn Hm. unfold intToDec. destruct (Z.eqb_spec n 0) as [->|Hz].
  - wp_step. eapply (store8_writes _ m m str _ []); [apply writes_nil|cbn; lia|done|lia|].
    intros m1 H1. eapply store8_writes; [exact H1|done|done|lia|]. intros m2 H2.
    exists [48]. split_and!; try done; [cbn; lia|].
    repeat constructor; lia.
  - wp_step. eapply wpg_mono; [apply intToDec_digits_ok; unfold is_u32 in *; [lia|done]|].
    intros [i temp] m' (-> & ds & rest & -> & <- & Hi & Hds & Hp & Hnz). wp_step.
    eapply wpg_mono; [apply intToDec_reverse_ok; [done|lia|done]|].
    intros j m1 [-> Hw]. eapply store8_writes; [exact Hw|done|done|lia|].
    intros m2 Hw2. exists ds. split_and!; (done || lia).
Qed.

(** C40: [intToDec] needs at most 11 bytes at [str]: it writes between one and
    ten decimal digits that read back as [n], with no leading zero ("Trims
    zeroes"), then a terminator, and touches nothing else.  It always returns. *)
Theorem intToDec_spec (m : T) str n :
  is_u32 n -> mapped m str (str + 11) ->
  wp (intToDec str n) (fun _ m' =>
    exists ds, (length ds <= 10)%nat /\ Forall is_digit ds /\ parse_digits 10 0 ds = Some n /\
      (n <> 0 -> exists c tl, ds = c :: tl /\ c <> 48) /\ writes m str (ds ++ [0]) m') m.
Proof. apply intToDec_ok. Qed.

(** [byteToDec] writes exactly three decimal digits that read back as the
    byte, and a terminator. *)
Theorem byteToDec_spec (m : T) str n :
  is_u8 n -> mapped m str (str + 4) ->
  wp (byteToDec str n) (fun _ m' =>
    exists ds, length ds = 3%nat /\ Forall is_digit ds /\ parse_digits 10 0 ds = Some n /\
      writes m str (ds ++ [0]) m') m.
Proof.
  intros Hn Hm. unfold byteToDec, is_u8 in *.
  assert (forall q, str <= q < str + 4 -> forall m1 : T, mapped m1 str (str + 4) -> is_Some (peek m1 q))
    as Hq by (intros q Hq m1 Hm1; apply Hm1; lia).
  assert (forall q v (m1 m2 : T), poke m1 q v = Some m2 -> mapped m1 str (str + 4) ->
            mapped m2 str (str + 4)) as Hmono.
  { intros q v m1 m2 E Hm1. eapply (mapped_pokes m1 m2 q [v]); [cbn; by rewrite E|done]. }
  wp_step. apply store8_ok; [apply Hq; [lia|done]|]. intros m1 E1.
  wp_step. apply store8_ok; [apply Hq; [lia|eauto]|]. intros m2 E2.
  wp_step. apply store8_ok; [apply Hq; [lia|eauto]|]. intros m3 E3.
  apply store8_ok; [apply Hq; [lia|eauto]|]. intros m4 E4.
  assert (u8 (n mod 10 + 48) = n mod 10 + 48) as Hu0 by width_lia.
  assert (u8 ((n / 10) mod 10 + 48) = (n / 10) mod 10 + 48) as Hu1 by width_lia.
  assert (u8 ((n / 100) mod 10 + 48) = (n / 100) mod 10 + 48) as Hu2 by width_lia.
  rewrite Hu0 in E1. rewrite Hu1 in E2. rewrite Hu2 in E3.
  exists [(n / 100) mod 10 + 48; (n / 10) mod 10 + 48; n mod 10 + 48].
  split_and!; [done|repeat constructor; clear; dlia| |].
  - set (x := (n / 100) mod 10). set (y := (n / 10) mod 10). set (z := n mod 10).
    assert (0 <= x < 10 /\ 0 <= y < 10 /\ 0 <= z < 10) as (Hx & Hy & Hz)
      by (subst x y z; clear; dlia).
    transitivity (Some (10 * (10 * x + y) + z)); [|f_equal; subst x y z; clear -Hn; dlia].
    apply (parse_digits_snoc 10 0 [x + 48; y + 48]); [|by apply dec_digit_value|lia].
    apply (parse_digits_snoc 10 0 [x + 48]); [|by apply dec_digit_value|lia].
    cbn [parse_digits]. rewrite dec_digit_value by done. cbn [mbind option_bind].
    destruct (Z.ltb_spec x 10); [done|lia].
  - split.
    + cbn [app length peeks].
      rewrite (peek_poke_ne _ _ str _ _ E4), (peek_poke_eq _ _ _ _ E3) by lia.
      rewrite (peek_poke_ne _ _ (str + 1) _ _ E4), (peek_poke_ne _ _ (str + 1) _ _ E3),
        (peek_poke_eq _ _ _ _ E2) by lia.
      rewrite (peek_poke_ne _ _ (str + 1 + 1) _ _ E4), (peek_poke_ne _ _ (str + 1 + 1) _ _ E3),
        (peek_poke_ne _ _ (str + 1 + 1) _ _ E2) by lia.
      replace (str + 1 + 1) with (str + 2) by lia. rewrite (peek_poke_eq _ _ _ _ E1).
      replace (str + 2 + 1) with (str + 3) by lia. rewrite (peek_poke_eq _ _ _ _ E4). done.
    + intros q Hq'. cbn in Hq'.
      rewrite (peek_poke_ne _ _ _ _ _ E4), (peek_poke_ne _ _ _ _ _ E3),
        (peek_poke_ne _ _ _ _ _ E2), (peek_poke_ne _ _ _ _ _ E1) by lia. done.
Qed.

Lemma read_le32_ok (m : T) data offset l :
  peeks m (data + u16 offset) 4 = Some l -> Forall is_u8 l ->
  read_le32 data offset m = Ok (le_combine l, m).
Proof.
  intros E Hl. pose proof (length_peeks _ _ _ _ E) as Hlen.
  destruct l as [|b0 [|b1 [|b2 [|b3 [|]]]]]; try done. unfold read_le32. cbv zeta.
  pose proof (peeks_lookup m _ _ _ 0 E ltac:(lia)) as E0.
  pose proof (peeks_lookup m _ _ _ 1 E ltac:(lia)) as E1.
  pose proof (peeks_lookup m _ _ _ 2 E ltac:(lia)) as E2.
  pose proof (peeks_lookup m _ _ _ 3 E ltac:(lia)) as E3.
  change (Z.of_nat 0) with 0 in E0. change (Z.of_nat 1) with 1 in E1.
  change (Z.of_nat 2) with 2 in E2. change (Z.of_nat 3) with 3 in E3.
  cbn in E0, E1, E2, E3.
  rewrite Z.add_0_r in E0. rewrite <- Z.add_assoc in E1, E2, E3.
  do 4 (erewrite bind_ok by (by apply load8_eq)). unfold ret. do 2 f_equal.
  repeat match goal with H : Forall _ (_ :: _) |- _ => inversion H; clear H; subst end.
  unfold is_u8 in *.
  rewrite u32_lor, u32_i32, (lor_shiftl_add b0 b1 8), (lor_shiftl_add _ b2 16) by lia.
  rewrite Z.shiftl_mul_pow2 by lia. change (2 ^ 8) with 256. change (2 ^ 16) with 65536.
  change (2 ^ 24) with 16777216. rewrite !u32_small by (unfold is_u32; lia).
  change 16777216 with (2 ^ 24). rewrite <- Z.shiftl_mul_pow2, lor_shiftl_add by lia.
  cbn [le_combine]. lia.
Qed.

(** [read_le32] reads the little-endian word at [data + offset], the offset
    taken modulo 2^16 because the parameter is a [uint16_t]. *)
Theorem read_le32_spec (m : T) data offset l :
  peeks m (data + u16 offset) 4 = Some l -> Forall is_u8 l ->
  read_le32 data offset m = Ok (le_combine l, m).
Proof. apply read_le32_ok. Qed.

(** [read_le16] reads the little-endian halfword at [data + offset]. *)
Lemma read_le16_ok (m : T) data offset l :
  peeks m (data + u16 offset) 2 = Some l -> Forall is_u8 l ->
  read_le16 data offset m = Ok (le_combine l, m).
Proof.
  intros E Hl. pose proof (length_peeks _ _ _ _ E) as Hlen.
  destruct l as [|b0 [|b1 [|]]]; try done. unfold read_le16. cbv zeta.
  pose proof (peeks_lookup m _ _ _ 0 E ltac:(lia)) as E0.
  pose proof (peeks_lookup m _ _ _ 1 E ltac:(lia)) as E1.
  change (Z.of_nat 0) with 0 in E0. change (Z.of_nat 1) with 1 in E1. cbn in E0, E1.
  rewrite Z.add_0_r in E0. rewrite <- Z.add_assoc in E1.
  do 2 (erewrite bind_ok by (by apply load8_eq)). unfold ret. do 2 f_equal.
  repeat match goal with H : Forall _ (_ :: _) |- _ => inversion H; clear H; subst end.
  unfold is_u8 in *. rewrite (lor_shiftl_add b0 b1 8) by lia.
  rewrite u16_small by (unfold is_u16; lia). cbn [le_combine]. lia.
Qed.
End HexutilsProofs.

(** Reads from an array. *)
Lemma list_le32_ok h (l : list Z) data offset (Q : Z -> list Z -> Prop) :
  Forall is_u8 l -> 0 <= data -> is_u16 offset -> data + offset + 4 <= Z.of_nat (length l) ->
  Q (le_at 4 l (data + offset)) l -> wpg h (read_le32 data offset) Q l.
Proof.
  intros Hl Hd Ho Hn HQ. unfold wpg. unfold is_u16 in Ho. erewrite read_le32_ok; [exact HQ|..].
  - rewrite u16_small by done. apply list_peeks; lia.
  - by apply Forall_take, Forall_drop.
Qed.

Lemma list_le16_ok h (l : list Z) data offset (Q : Z -> list Z -> Prop) :
  Forall is_u8 l -> 0 <= data -> is_u16 offset -> data + offset + 2 <= Z.of_nat (length l) ->
  Q (le_at 2 l (data + offset)) l -> wpg h (read_le16 data offset) Q l.
Proof.
  intros Hl Hd Ho Hn HQ. unfold wpg. unfold is_u16 in Ho. erewrite read_le16_ok; [exact HQ|..].
  - rewrite u16_small by done. apply list_peeks; lia.
  - by apply Forall_take, Forall_drop.
Qed.

Lemma le_at_range n l p : Forall is_u8 l -> 0 <= le_at n l p < 256 ^ Z.of_nat n.
Proof.
  intros Hl. unfold le_at.
  pose proof (le_combine_range (take n (drop (Z.to_nat p) l))) as R.
  specialize (R ltac:(by apply Forall_take, Forall_drop)). rewrite length_take in R.
  pose proof (Z.pow_le_mono_r 256 (Z.of_nat (Nat.min n (length (drop (Z.to_nat p) l)))) (Z.of_nat n)). lia.
Qed.

(** ** The theorems on a 16-byte buffer *)

Definition buf16 : list Z := replicate 16 7.

Lemma buf16_mapped n : n <= 16 -> mapped buf16 0 (0 + n).
Proof.
  intros Hn q Hq. cbn. unfold list_peek. destruct (Z.leb_spec 0 q); [|lia].
  apply lookup_lt_is_Some. cbn. lia.
Qed.

Lemma hexToStr_witness : exists m', hexToStr 0 0xDEADBEEF buf16 = Ok (tt, m') /\ is_u32 0xDEADBEEF.
Proof.
  assert (is_u32 0xDEADBEEF) as Hn by (split; lia).
  pose proof (hexToStr_spec buf16 0 0xDEADBEEF Hn (buf16_mapped 9 ltac:(lia))) as W.
  destruct (proj1 (wp_exact _ _ _) W) as ([] & m' & E & _). exists m'. exact (conj E Hn).
Defined.

Lemma byteToStr_witness : exists m', byteToStr 0 0xA5 buf16 = Ok (tt, m') /\ is_u8 0xA5.
Proof.
  assert (is_u8 0xA5) as Hn by (split; lia).
  pose proof (byteToStr_spec buf16 0 0xA5 Hn (buf16_mapped 3 ltac:(lia))) as W.
  destruct (proj1 (wp_exact _ _ _) W) as ([] & m' & E & _). exists m'. exact (conj E Hn).
Defined.

Lemma intToDec_witness : exists m', intToDec 0 4294967295 buf16 = Ok (tt, m') /\ is_u32 4294967295.
Proof.
  assert (is_u32 4294967295) as Hn by (split; lia).
  pose proof (intToDec_spec buf16 0 4294967295 Hn (buf16_mapped 11 ltac:(lia))) as W.
  destruct (proj1 (wp_exact _ _ _) W) as ([] & m' & E & _). exists m'. exact (conj E Hn).
Defined.

Lemma byteToDec_witness : exists m', byteToDec 0 255 buf16 = Ok (tt, m') /\ is_u8 255.
Proof.
  assert (is_u8 255) as Hn by (split; lia).
  pose proof (byteToDec_spec buf16 0 255 Hn (buf16_mapped 4 ltac:(lia))) as W.
  destruct (proj1 (wp_exact _ _ _) W) as ([] & m' & E & _). exists m'. exact (conj E Hn).
Defined.

Lemma read_le32_witness : read_le32 0 65537 [9; 1; 2; 3; 4] = Ok (0x04030201, [9; 1; 2; 3; 4]).
Proof.
  apply (read_le32_spec [9; 1; 2; 3; 4] 0 65537 [1; 2; 3; 4]); [reflexivity|].
  repeat constructor; cbn; lia.
Defined.
