(* ===== verification/Crc32.v ===== *)
(** * The boot-stage checksum tool (src/arch/arm_cortexm/rp2040/boot2/compCrc32.c)

    The table-driven CRC-32 the boot ROM checks over the 252 bytes of the
    second boot stage, and the build tool around it.  The tool runs on the
    host: what the C library reports about the input file is an argument of
    [main]. *)
From S2P Require Import Prelude Bytes.

Definition CRC32_POLYNOMIAL : Z := 0x04C11DB7.
Definition MAX_FILE_SIZE : Z := 252.

Definition crc32_table : list Z :=
  [ 0x00000000; 0x04C11DB7; 0x09823B6E; 0x0D4326D9; 0x130476DC; 0x17C56B6B; 0x1A864DB2; 0x1E475005;
    0x2608EDB8; 0x22C9F00F; 0x2F8AD6D6; 0x2B4BCB61; 0x350C9B64; 0x31CD86D3; 0x3C8EA00A; 0x384FBDBD;
    0x4C11DB70; 0x48D0C6C7; 0x4593E01E; 0x4152FDA9; 0x5F15ADAC; 0x5BD4B01B; 0x569796C2; 0x52568B75;
    0x6A1936C8; 0x6ED82B7F; 0x639B0DA6; 0x675A1011; 0x791D4014; 0x7DDC5DA3; 0x709F7B7A; 0x745E66CD;
    0x9823B6E0; 0x9CE2AB57; 0x91A18D8E; 0x95609039; 0x8B27C03C; 0x8FE6DD8B; 0x82A5FB52; 0x8664E6E5;
    0xBE2B5B58; 0xBAEA46EF; 0xB7A96036; 0xB3687D81; 0xAD2F2D84; 0xA9EE3033; 0xA4AD16EA; 0xA06C0B5D;
    0xD4326D90; 0xD0F37027; 0xDDB056FE; 0xD9714B49; 0xC7361B4C; 0xC3F706FB; 0xCEB42022; 0xCA753D95;
    0xF23A8028; 0xF6FB9D9F; 0xFBB8BB46; 0xFF79A6F1; 0xE13EF6F4; 0xE5FFEB43; 0xE8BCCD9A; 0xEC7DD02D;
    0x34867077; 0x30476DC0; 0x3D044B19; 0x39C556AE; 0x278206AB; 0x23431B1C; 0x2E003DC5; 0x2AC12072;
    0x128E9DCF; 0x164F8078; 0x1B0CA6A1; 0x1FCDBB16; 0x018AEB13; 0x054BF6A4; 0x0808D07D; 0x0CC9CDCA;
    0x7897AB07; 0x7C56B6B0; 0x71159069; 0x75D48DDE; 0x6B93DDDB; 0x6F52C06C; 0x6211E6B5; 0x66D0FB02;
    0x5E9F46BF; 0x5A5E5B08; 0x571D7DD1; 0x53DC6066; 0x4D9B3063; 0x495A2DD4; 0x44190B0D; 0x40D816BA;
    0xACA5C697; 0xA864DB20; 0xA527FDF9; 0xA1E6E04E; 0xBFA1B04B; 0xBB60ADFC; 0xB6238B25; 0xB2E29692;
    0x8AAD2B2F; 0x8E6C3698; 0x832F1041; 0x87EE0DF6; 0x99A95DF3; 0x9D684044; 0x902B669D; 0x94EA7B2A;
    0xE0B41DE7; 0xE4750050; 0xE9362689; 0xEDF73B3E; 0xF3B06B3B; 0xF771768C; 0xFA325055; 0xFEF34DE2;
    0xC6BCF05F; 0xC27DEDE8; 0xCF3ECB31; 0xCBFFD686; 0xD5B88683; 0xD1799B34; 0xDC3ABDED; 0xD8FBA05A;
    0x690CE0EE; 0x6DCDFD59; 0x608EDB80; 0x644FC637; 0x7A089632; 0x7EC98B85; 0x738AAD5C; 0x774BB0EB;
    0x4F040D56; 0x4BC510E1; 0x46863638; 0x42472B8F; 0x5C007B8A; 0x58C1663D; 0x558240E4; 0x51435D53;
    0x251D3B9E; 0x21DC2629; 0x2C9F00F0; 0x285E1D47; 0x36194D42; 0x32D850F5; 0x3F9B762C; 0x3B5A6B9B;
    0x0315D626; 0x07D4CB91; 0x0A97ED48; 0x0E56F0FF; 0x1011A0FA; 0x14D0BD4D; 0x19939B94; 0x1D528623;
    0xF12F560E; 0xF5EE4BB9; 0xF8AD6D60; 0xFC6C70D7; 0xE22B20D2; 0xE6EA3D65; 0xEBA91BBC; 0xEF68060B;
    0xD727BBB6; 0xD3E6A601; 0xDEA580D8; 0xDA649D6F; 0xC423CD6A; 0xC0E2D0DD; 0xCDA1F604; 0xC960EBB3;
    0xBD3E8D7E; 0xB9FF90C9; 0xB4BCB610; 0xB07DABA7; 0xAE3AFBA2; 0xAAFBE615; 0xA7B8C0CC; 0xA379DD7B;
    0x9B3660C6; 0x9FF77D71; 0x92B45BA8; 0x9675461F; 0x8832161A; 0x8CF30BAD; 0x81B02D74; 0x857130C3;
    0x5D8A9099; 0x594B8D2E; 0x5408ABF7; 0x50C9B640; 0x4E8EE645; 0x4A4FFBF2; 0x470CDD2B; 0x43CDC09C;
    0x7B827D21; 0x7F436096; 0x7200464F; 0x76C15BF8; 0x68860BFD; 0x6C47164A; 0x61043093; 0x65C52D24;
    0x119B4BE9; 0x155A565E; 0x18197087; 0x1CD86D30; 0x029F3D35; 0x065E2082; 0x0B1D065B; 0x0FDC1BEC;
    0x3793A651; 0x3352BBE6; 0x3E119D3F; 0x3AD08088; 0x2497D08D; 0x2056CD3A; 0x2D15EBE3; 0x29D4F654;
    0xC5A92679; 0xC1683BCE; 0xCC2B1D17; 0xC8EA00A0; 0xD6AD50A5; 0xD26C4D12; 0xDF2F6BCB; 0xDBEE767C;
    0xE3A1CBC1; 0xE760D676; 0xEA23F0AF; 0xEEE2ED18; 0xF0A5BD1D; 0xF464A0AA; 0xF9278673; 0xFDE69BC4;
    0x89B8FD09; 0x8D79E0BE; 0x803AC667; 0x84FBDBD0; 0x9ABC8BD5; 0x9E7D9662; 0x933EB0BB; 0x97FFAD0C;
    0xAFB010B1; 0xAB710D06; 0xA6322BDF; 0xA2F33668; 0xBCB4666D; 0xB8757BDA; 0xB5365D03; 0xB1F740B4 ].

(** One iteration of the loop of [calculate_crc32]: [idx] is a [uint8_t],
    [crc] a [uint32_t]. *)
Definition crc32_step (crc b : Z) : outcome Z :=
  let idx := u8 (Z.lxor (Z.shiftr crc 24) b) in
  match crc32_table !! Z.to_nat idx with
  | Some t => Ok (Z.lxor (u32 (Z.shiftl crc 8)) t)
  | None => Fault
  end.

(** [data] is the array, [len] the count; reading past the array faults. *)
Definition calculate_crc32 (data : list Z) (len : nat) : outcome Z :=
  match for_loop len 0 (fun i crc =>
          let! b := load8 i in of_outcome (crc32_step crc b)) 0xFFFFFFFF data with
  | Ok (crc, _) => Ok crc
  | Fault => Fault
  | Hang => Hang
  end.

(** What the host's C library answers: the contents of the file named on the
    command line ([None]: [fopen] failed), whether [fseek] and [fread]
    succeeded, and whether the output file could be opened. *)
Record host := Host {
  input_file : option (list Z);
  fseek_ok : bool;
  fread_ok : bool;
  output_opens : bool;
}.

(** The exit status, and the four array elements written to [boot2/crc.c]. *)
Definition main (argc : Z) (h : host) : outcome (Z * option (list Z)) :=
  if negb (argc =? 2) then Ok (1, None) else
  match input_file h with
  | None => Ok (1, None)
  | Some file =>
    if negb (fseek_ok h) then Ok (1, None) else
    let size := Z.of_nat (length file) in
    if 252 <? size then Ok (1, None) else
    let file_buf := take (Z.to_nat MAX_FILE_SIZE) file in
    let bytes_read := length file_buf in
    if negb (fread_ok h) then Ok (1, None) else
    match calculate_crc32 file_buf bytes_read with
    | Ok checksum =>
      if negb (output_opens h) then Ok (1, None) else
      let byte3 := u8 (Z.land (Z.shiftr checksum 24) 0xFF) in
      let byte2 := u8 (Z.land (Z.shiftr checksum 16) 0xFF) in
      let byte1 := u8 (Z.land (Z.shiftr checksum 8) 0xFF) in
      let byte0 := u8 (Z.land checksum 0xFF) in
      Ok (0, Some [byte0; byte1; byte2; byte3])
    | Fault => Fault
    | Hang => Hang
    end
  end.

(** ** The reference: polynomial division, one bit at a time *)

(** Multiply by x modulo the polynomial. *)
Definition crc_bit (c : Z) : Z :=
  Z.lxor (u32 (Z.shiftl c 1)) (if Z.testbit c 31 then CRC32_POLYNOMIAL else 0).

Definition crc_byte (c b : Z) : Z :=
  Nat.iter 8 crc_bit (Z.lxor c (Z.shiftl b 24)).

Definition crc_reference (data : list Z) : Z := fold_left crc_byte data 0xFFFFFFFF.

(** The loop body as a total function. *)
Definition crc32_next (crc b : Z) : Z :=
  Z.lxor (u32 (Z.shiftl crc 8))
         (nth (Z.to_nat (u8 (Z.lxor (Z.shiftr crc 24) b))) crc32_table 0).

(** ** The loop computes a fold *)

Lemma crc32_step_next crc b : crc32_step crc b = Ok (crc32_next crc b).
Proof.
  unfold crc32_step, crc32_next. pose proof (u8_range (Z.lxor (Z.shiftr crc 24) b)) as Hr.
  set (i := Z.to_nat _). assert (i < 256)%nat as Hi by (unfold is_u8 in Hr; lia).
  destruct (crc32_table !! i) as [t|] eqn:E.
  - rewrite (nth_lookup_Some _ _ _ _ E). done.
  - apply lookup_ge_None in E. change (length crc32_table) with 256%nat in E. lia.
Qed.

Lemma calculate_crc32_loop pre data crc :
  for_loop (length data) (Z.of_nat (length pre)) (fun i crc =>
      let! b := load8 i in of_outcome (crc32_step crc b)) crc (pre ++ data) =
    Ok (fold_left crc32_next data crc, pre ++ data).
Proof.
  revert pre crc. induction data as [|b data IH]; intros pre crc; [done|].
  cbn [length for_loop fold_left].
  assert ((let! b := load8 (Z.of_nat (length pre)) in of_outcome (crc32_step crc b)) (pre ++ b :: data)
          = Ok (crc32_next crc b, pre ++ b :: data)) as E.
  { erewrite bind_ok.
    2:{ apply load8_eq. cbn. unfold list_peek. rewrite (proj2 (Z.leb_le _ _)) by lia.
        rewrite Nat2Z.id, lookup_app_r by lia. by rewrite Nat.sub_diag. }
    unfold of_outcome. by rewrite crc32_step_next. }
  rewrite (bind_ok _ _ _ _ _ E).
  replace (pre ++ b :: data) with ((pre ++ [b]) ++ data) by by rewrite <- app_assoc.
  replace (Z.of_nat (length pre) + 1) with (Z.of_nat (length (pre ++ [b])))
    by (rewrite length_app; cbn; lia).
  apply IH.
Qed.

Lemma calculate_crc32_fold data :
  calculate_crc32 data (length data) = Ok (fold_left crc32_next data 0xFFFFFFFF).
Proof.
  unfold calculate_crc32. pose proof (calculate_crc32_loop [] data 0xFFFFFFFF) as E.
  cbn [length app] in E. change (Z.of_nat 0) with 0 in E. by rewrite E.
Qed.

(** ** Bit-level algebra *)

Lemma u32_testbit x n : 0 <= n -> Z.testbit (u32 x) n = (n <? 32) && Z.testbit x n.
Proof.
  intros Hn. unfold u32. change 4294967296 with (2 ^ 32). destruct (Z.ltb_spec n 32).
  - by rewrite Z.mod_pow2_bits_low.
  - by rewrite Z.mod_pow2_bits_high by lia.
Qed.

Lemma u32_lxor a b : u32 (Z.lxor a b) = Z.lxor (u32 a) (u32 b).
Proof.
  apply Z.bits_inj'. intros n Hn. rewrite !Z.lxor_spec, !u32_testbit, Z.lxor_spec by done.
  destruct (n <? 32); [done|]. done.
Qed.

Lemma crc_bit_lxor a b : crc_bit (Z.lxor a b) = Z.lxor (crc_bit a) (crc_bit b).
Proof.
  unfold crc_bit. rewrite Z.shiftl_lxor, u32_lxor, Z.lxor_spec.
  apply Z.bits_inj'. intros n Hn. rewrite !Z.lxor_spec.
  destruct (Z.testbit a 31), (Z.testbit b 31); cbn [xorb]; rewrite ?Z.bits_0;
    destruct (Z.testbit (u32 (a ≪ 1)) n), (Z.testbit (u32 (b ≪ 1)) n), (Z.testbit CRC32_POLYNOMIAL n);
    done.
Qed.

Lemma crc_bits_lxor k a b :
  Nat.iter k crc_bit (Z.lxor a b) = Z.lxor (Nat.iter k crc_bit a) (Nat.iter k crc_bit b).
Proof. induction k as [|k IH]; [done|]. rewrite !Nat.iter_succ, IH. apply crc_bit_lxor. Qed.

(** As long as no bit reaches position 31, the division only shifts. *)
Lemma crc_bits_low k a :
  0 <= a < 2 ^ (32 - Z.of_nat k) -> Z.of_nat k <= 32 -> Nat.iter k crc_bit a = Z.shiftl a (Z.of_nat k).
Proof.
  induction k as [|k IH]; intros Ha Hk; [by rewrite Z.shiftl_0_r|]. rewrite Nat.iter_succ.
  rewrite IH.
  2:{ split; [lia|]. eapply Z.lt_le_trans; [apply Ha|]. apply Z.pow_le_mono_r; lia. }
  2:{ lia. }
  unfold crc_bit. rewrite Z.shiftl_shiftl by lia.
  replace (Z.of_nat k + 1) with (Z.of_nat (S k)) by lia.
  assert (Z.shiftl a (Z.of_nat (S k)) < 2 ^ 32) as Hlt.
  { rewrite Z.shiftl_mul_pow2 by lia.
    replace (2 ^ 32) with (2 ^ (32 - Z.of_nat (S k)) * 2 ^ Z.of_nat (S k))
      by (rewrite <- Z.pow_add_r by lia; f_equal; lia).
    apply Z.mul_lt_mono_pos_r; [apply Z.pow_pos_nonneg; lia|lia]. }
  assert (Z.testbit (Z.shiftl a (Z.of_nat k)) 31 = false) as ->.
  { rewrite Z.shiftl_spec by lia. rewrite <- (Z.mod_small a (2 ^ (32 - Z.of_nat (S k)))) by done.
    apply Z.mod_pow2_bits_high. lia. }
  rewrite Z.lxor_0_r. apply u32_small. split; [apply Z.shiftl_nonneg; lia|done].
Qed.

Lemma crc32_table_correct :
  forallb (fun i => nth i crc32_table 0 =? Nat.iter 8 crc_bit (Z.shiftl (Z.of_nat i) 24)) (seq 0 256)
    = true.
Proof. vm_compute. reflexivity. Qed.

Lemma crc32_table_entry i :
  0 <= i < 256 -> nth (Z.to_nat i) crc32_table 0 = Nat.iter 8 crc_bit (Z.shiftl i 24).
Proof.
  intros Hi. pose proof (proj1 (forallb_forall _ _) crc32_table_correct (Z.to_nat i)) as E.
  rewrite Z.eqb_eq, Z2Nat.id in E by lia. apply E. apply in_seq. lia.
Qed.

Lemma u8_lxor_small a b : is_u8 a -> is_u8 b -> u8 (Z.lxor a b) = Z.lxor a b.
Proof.
  intros Ha Hb. unfold u8. change 256 with (2 ^ 8). rewrite <- Z.land_ones by lia.
  apply Z.bits_inj'. intros n Hn. rewrite Z.land_spec, Z.lxor_spec.
  destruct (Z.lt_ge_cases n 8).
  - rewrite Z.ones_spec_low by lia. apply andb_true_r.
  - rewrite Z.ones_spec_high, andb_false_r by lia.
    rewrite <- (Z.mod_small a (2 ^ 8)), <- (Z.mod_small b (2 ^ 8)) by done.
    by rewrite !Z.mod_pow2_bits_high by lia.
Qed.

(** One table step is eight division steps. *)
Lemma crc32_next_byte crc b : is_u32 crc -> is_u8 b -> crc32_next crc b = crc_byte crc b.
Proof.
  intros Hc Hb. unfold crc32_next, crc_byte. unfold is_u32 in Hc.
  set (hi := Z.shiftr crc 24). set (lo := crc mod 2 ^ 24).
  assert (0 <= lo < 2 ^ 24) as Hlo by (apply Z.mod_pos_bound; lia).
  assert (is_u8 hi) as Hhi.
  { subst hi. rewrite Z.shiftr_div_pow2 by lia. unfold is_u8. change (2 ^ 24) with 16777216. dlia. }
  assert (crc = Z.lxor lo (Z.shiftl hi 24)) as Hsplit.
  { rewrite <- Z.add_nocarry_lxor.
    - subst lo hi. rewrite Z.shiftr_div_pow2, Z.shiftl_mul_pow2 by lia. dlia.
    - apply Z.bits_inj'. intros n Hn. rewrite Z.land_spec, Z.bits_0, Z.shiftl_spec by done.
      destruct (Z.lt_ge_cases n 24).
      + rewrite (Z.testbit_neg_r hi) by lia. apply andb_false_r.
      + subst lo. by rewrite Z.mod_pow2_bits_high by lia. }
  rewrite u8_lxor_small by done. rewrite crc32_table_entry.
  2:{ pose proof (u8_range (Z.lxor hi b)) as Hr. rewrite u8_lxor_small in Hr by done. apply Hr. }
  rewrite Hsplit at 2. rewrite Z.lxor_assoc, <- Z.shiftl_lxor, crc_bits_lxor.
  f_equal. rewrite crc_bits_low by (try apply Hlo; lia).
  change (Z.of_nat 8) with 8. rewrite Hsplit, Z.shiftl_lxor, u32_lxor, Z.shiftl_shiftl by lia.
  rewrite (u32_small (Z.shiftl lo 8)).
  2:{ rewrite Z.shiftl_mul_pow2 by lia. unfold is_u32. lia. }
  replace (u32 (Z.shiftl hi (24 + 8))) with 0; [by rewrite Z.lxor_0_r|].
  rewrite Z.shiftl_mul_pow2 by lia. unfold u32. symmetry. apply Z.mod_mul. lia.
Qed.

Lemma lxor_u32 a b : is_u32 a -> is_u32 b -> is_u32 (Z.lxor a b).
Proof.
  intros Ha Hb. rewrite <- (u32_small a), <- (u32_small b) by done.
  rewrite <- u32_lxor. apply u32_range.
Qed.

Lemma crc32_table_range i : is_u32 (nth i crc32_table 0).
Proof.
  destruct (Nat.lt_ge_cases i 256) as [Hi|Hi].
  - assert (forallb (fun x => (0 <=? x) && (x <? 4294967296)) crc32_table = true) as E
      by (vm_compute; reflexivity).
    pose proof (proj1 (forallb_forall _ _) E (nth i crc32_table 0)) as E'.
    unfold is_u32. cbv beta in E'. rewrite andb_true_iff, Z.leb_le, Z.ltb_lt in E'.
    apply E'. by apply nth_In.
  - rewrite nth_overflow by done. unfold is_u32. lia.
Qed.

Lemma crc32_next_range crc b : is_u32 (crc32_next crc b).
Proof. apply lxor_u32; [apply u32_range | apply crc32_table_range]. Qed.

Lemma crc32_fold_range data c : is_u32 c -> is_u32 (fold_left crc32_next data c).
Proof. revert c. induction data as [|b data IH]; intros c Hc; [done|]. apply IH, crc32_next_range. Qed.

Lemma crc32_fold_reference data c :
  Forall is_u8 data -> is_u32 c -> fold_left crc32_next data c = fold_left crc_byte data c.
Proof.
  apply fold_left_ext_inv. intros a b Ha Hb. split; [by apply crc32_next_byte|].
  apply crc32_next_range.
Qed.

Lemma crc32_init_u32 : is_u32 0xFFFFFFFF.
Proof. unfold is_u32. lia. Qed.

(** ** Injectivity: what a corrupted image does to the checksum *)

Lemma crc_bit_range c : is_u32 (crc_bit c).
Proof.
  apply lxor_u32; [apply u32_range|]. destruct (Z.testbit c 31); unfold is_u32, CRC32_POLYNOMIAL; lia.
Qed.

(** The polynomial has a constant term, so a division step loses nothing. *)
Lemma crc_bit_zero c : is_u32 c -> crc_bit c = 0 -> c = 0.
Proof.
  intros Hc E. unfold crc_bit in E. destruct (Z.testbit c 31) eqn:T.
  - apply (f_equal (fun x => Z.testbit x 0)) in E. rewrite Z.lxor_spec, u32_testbit in E by lia.
    rewrite Z.shiftl_spec in E by lia. rewrite (Z.testbit_neg_r c) in E by lia. done.
  - rewrite Z.lxor_0_r, Z.shiftl_mul_pow2 in E by lia. change (2 ^ 1) with 2 in E.
    rewrite Z.testbit_false in T by lia. change (2 ^ 31) with 2147483648 in T.
    unfold is_u32, u32 in *. dlia.
Qed.

(** The big-endian word the bytes [l] form when the first one is shifted by [s]. *)
Fixpoint be_word (s : Z) (l : list Z) : Z :=
  match l with
  | [] => 0
  | b :: l' => Z.shiftl b s + be_word (s - 8) l'
  end.

Lemma be_word_range s l :
  Forall is_u8 l -> 8 * Z.of_nat (length l) <= s + 8 -> 0 <= be_word s l < 2 ^ (s + 8).
Proof.
  intros Hl. revert s. induction Hl as [|b l Hb _ IH]; intros s Hs; cbn [be_word length] in *.
  - pose proof (Z.pow_pos_nonneg 2 (s + 8)). lia.
  - specialize (IH (s - 8) ltac:(lia)). rewrite Z.sub_add in IH.
    rewrite Z.shiftl_mul_pow2 by lia. rewrite Z.pow_add_r by lia. change (2 ^ 8) with 256.
    unfold is_u8 in Hb. nia.
Qed.

Lemma be_word_shift s l :
  8 * Z.of_nat (length l) <= s + 8 -> Z.shiftl (be_word s l) 8 = be_word (s + 8) l.
Proof.
  revert s. induction l as [|b l IH]; intros s Hs; [apply Z.shiftl_0_l|].
  cbn [be_word length] in *. specialize (IH (s - 8) ltac:(lia)).
  replace (s + 8 - 8) with (s - 8 + 8) by lia. rewrite <- IH, !Z.shiftl_mul_pow2 by lia.
  assert (2 ^ (s + 8) = 2 ^ s * 2 ^ 8) as -> by (apply Z.pow_add_r; lia). lia.
Qed.

Lemma be_word_inj s l k :
  Forall is_u8 l -> Forall is_u8 k -> length l = length k -> 8 * Z.of_nat (length l) <= s + 8 ->
  be_word s l = be_word s k -> l = k.
Proof.
  intros Hl. revert s k. induction Hl as [|b l Hb Hl IH]; intros s k Hk Hlen Hs E.
  - by destruct k.
  - destruct k as [|c k]; [done|]. inversion Hk as [|? ? Hc Hk']; subst. cbn [be_word length] in *.
    pose proof (be_word_range (s - 8) l Hl ltac:(lia)) as R1.
    pose proof (be_word_range (s - 8) k Hk' ltac:(lia)) as R2.
    rewrite Z.sub_add in R1, R2. rewrite !Z.shiftl_mul_pow2 in E by lia.
    unfold is_u8 in *. assert (b = c) as -> by nia. f_equal.
    apply (IH (s - 8)); [done|lia|lia|lia].
Qed.

(** What follows needs four facts of the division step only. *)
Section LinearStep.
Variable step : Z -> Z.
Hypothesis step_lxor : forall a b, step (Z.lxor a b) = Z.lxor (step a) (step b).
Hypothesis step_range : forall c, is_u32 (step c).
Hypothesis step_zero : forall c, is_u32 c -> step c = 0 -> c = 0.
Hypothesis step_low : forall k a, 0 <= a < 2 ^ (32 - Z.of_nat k) -> Z.of_nat k <= 32 ->
  Nat.iter k step a = Z.shiftl a (Z.of_nat k).

#[local] Abbreviation byte := (fun c b => Nat.iter 8 step (Z.lxor c (Z.shiftl b 24))).

Lemma steps_lxor k a b :
  Nat.iter k step (Z.lxor a b) = Z.lxor (Nat.iter k step a) (Nat.iter k step b).
Proof. induction k as [|k IH]; [done|]. by rewrite !Nat.iter_succ, IH, step_lxor. Qed.

Lemma steps_range k c : is_u32 c -> is_u32 (Nat.iter k step c).
Proof. destruct k; [done|]. intros _. rewrite Nat.iter_succ. apply step_range. Qed.

Lemma steps_inj k c d :
  is_u32 c -> is_u32 d -> Nat.iter k step c = Nat.iter k step d -> c = d.
Proof.
  intros Hc Hd E. apply Z.lxor_eq.
  assert (Nat.iter k step (Z.lxor c d) = 0) as E0 by (rewrite steps_lxor, E; apply Z.lxor_nilpotent).
  clear E. induction k as [|k IH]; [done|]. rewrite Nat.iter_succ in E0.
  apply IH, step_zero; [|done]. by apply steps_range, lxor_u32.
Qed.

Lemma byte_range c b : is_u32 (byte c b).
Proof. apply step_range. Qed.

Lemma bytes_range l c : is_u32 c -> is_u32 (fold_left byte l c).
Proof. revert c. induction l as [|b l IH]; intros c Hc; [done|]. apply IH, byte_range. Qed.

(** A difference in the register survives the rest of the data. *)
Lemma bytes_inj l c d :
  is_u32 c -> is_u32 d -> fold_left byte l c = fold_left byte l d -> c = d.
Proof.
  revert c d. induction l as [|b l IH]; intros c d Hc Hd E; [done|].
  apply IH in E; [|apply byte_range..]. cbv beta in E. rewrite !steps_lxor in E.
  apply (steps_inj 8); [done..|]. apply Z.lxor_eq.
  apply (f_equal (fun x => Z.lxor x (Nat.iter 8 step (Z.shiftl d 0)))) in E.
  rewrite Z.shiftl_0_r in E.
  rewrite (Z.lxor_comm (Nat.iter 8 step d)), !Z.lxor_assoc, Z.lxor_nilpotent, Z.lxor_0_r in E.
  rewrite (Z.lxor_comm _ (Nat.iter 8 step d)), <- Z.lxor_assoc in E.
  apply (f_equal (fun x => Z.lxor x (Nat.iter 8 step (Z.shiftl b 24)))) in E.
  by rewrite Z.lxor_assoc, !Z.lxor_nilpotent, Z.lxor_0_r in E.
Qed.

(** Up to four bytes enter the register as one big-endian word. *)
Lemma bytes_word l c :
  Forall is_u8 l -> (length l <= 4)%nat ->
  fold_left byte l c = Nat.iter (8 * length l) step (Z.lxor c (be_word 24 l)).
Proof.
  intros Hl. revert c. induction Hl as [|b l Hb Hl IH]; intros c Hlen; cbn [length] in *.
  - cbn. by rewrite Z.lxor_0_r.
  - cbn [fold_left]. rewrite IH by lia. cbv beta.
    rewrite Nat.mul_succ_r, Nat.iter_add. f_equal.
    pose proof (be_word_range 16 l Hl ltac:(lia)) as R.
    replace (be_word 24 l) with (Z.shiftl (be_word 16 l) 8) by (apply (be_word_shift 16); lia).
    change 8 with (Z.of_nat 8) at 1.
    rewrite <- (step_low 8 (be_word 16 l)) by (try apply R; lia).
    rewrite <- steps_lxor. f_equal. cbn [be_word]. change (24 - 8) with 16.
    rewrite Z.lxor_assoc. f_equal. symmetry. apply Z.add_nocarry_lxor.
    apply Z.bits_inj'. intros n Hn. rewrite Z.land_spec, Z.bits_0, Z.shiftl_spec by done.
    destruct (Z.lt_ge_cases n 24).
    + by rewrite (Z.testbit_neg_r b) by lia.
    + rewrite <- (Z.mod_small (be_word 16 l) (2 ^ 24)) by apply R.
      rewrite Z.mod_pow2_bits_high by lia. apply andb_false_r.
Qed.

Lemma burst_differs pre x y post c :
  is_u32 c -> Forall is_u8 x -> Forall is_u8 y -> length x = length y -> (length x <= 4)%nat ->
  fold_left byte (pre ++ x ++ post) c = fold_left byte (pre ++ y ++ post) c -> x = y.
Proof.
  intros Hc Hx Hy Hlen H4 E. rewrite !fold_left_app in E.
  pose proof (bytes_range pre c Hc) as Hp. revert E Hp. generalize (fold_left byte pre c).
  intros d E Hd. apply bytes_inj in E; [|by apply bytes_range..].
  rewrite !bytes_word, <- Hlen in E by (done || lia).
  pose proof (be_word_range 24 x Hx ltac:(lia)). pose proof (be_word_range 24 y Hy ltac:(lia)).
  apply steps_inj in E; [|by apply lxor_u32..].
  apply (be_word_inj 24); [done|done|done|lia|].
  apply (f_equal (Z.lxor d)) in E.
  by rewrite <- !Z.lxor_assoc, Z.lxor_nilpotent, !Z.lxor_0_l in E.
Qed.
End LinearStep.

(** C39: the table-driven loop computes the bit-by-bit CRC-32 (polynomial
    0x04C11DB7, most significant bit first, initial value 0xFFFFFFFF) of every
    byte string. *)
Theorem calculate_crc32_reference data :
  Forall is_u8 data -> calculate_crc32 data (length data) = Ok (crc_reference data).
Proof.
  intros Hd. rewrite calculate_crc32_fold. unfold crc_reference.
  by rewrite (crc32_fold_reference data _ Hd crc32_init_u32).
Qed.

Lemma crc_burst pre x y post c :
  is_u32 c -> Forall is_u8 x -> Forall is_u8 y -> length x = length y -> (length x <= 4)%nat ->
  fold_left crc_byte (pre ++ x ++ post) c = fold_left crc_byte (pre ++ y ++ post) c -> x = y.
Proof.
  exact (burst_differs crc_bit crc_bit_lxor crc_bit_range crc_bit_zero crc_bits_low pre x y post c).
Qed.

(** the checksum detects every corruption confined to four consecutive
    bytes: two images of the same length that differ only in such a window
    have different checksums. *)
Theorem calculate_crc32_burst pre x y post :
  Forall is_u8 (pre ++ x ++ post) -> Forall is_u8 y -> length x = length y ->
  (length x <= 4)%nat -> x <> y ->
  calculate_crc32 (pre ++ x ++ post) (length (pre ++ x ++ post)) <>
  calculate_crc32 (pre ++ y ++ post) (length (pre ++ y ++ post)).
Proof.
  intros Hd Hy Hlen H4 Hne E. rewrite !Forall_app in Hd. destruct Hd as (Hpre & Hx & Hpost).
  rewrite !calculate_crc32_fold in E. injection E as E.
  rewrite !(fun l H => crc32_fold_reference l _ H crc32_init_u32) in E
    by (rewrite !Forall_app; done).
  exact (Hne (crc_burst pre x y post _ crc32_init_u32 Hx Hy Hlen H4 E)).
Qed.

Lemma crc_bits_range8 c : is_u32 (Nat.iter 8 crc_bit c).
Proof. rewrite Nat.iter_succ. apply crc_bit_range. Qed.

Lemma crc_reference_range data : is_u32 (crc_reference data).
Proof.
  unfold crc_reference. destruct data as [|b l _] using rev_ind; [apply crc32_init_u32|].
  rewrite fold_left_app. apply crc_bits_range8.
Qed.

Lemma checksum_bytes c :
  is_u32 c ->
  [u8 (Z.land c 0xFF); u8 (Z.land (Z.shiftr c 8) 0xFF); u8 (Z.land (Z.shiftr c 16) 0xFF);
   u8 (Z.land (Z.shiftr c 24) 0xFF)] = le_split 4 c.
Proof.
  intros Hc. change 0xFF with (Z.ones 8). rewrite !Z.land_ones, !Z.shiftr_div_pow2 by lia.
  cbn [le_split]. unfold u8. rewrite !Z.mod_mod, !Z.div_div by lia. done.
Qed.

(** the build tool writes a checksum exactly when it is given one readable
    file of at most 252 bytes and can open its output, and then the four array
    elements it writes are the CRC-32 of the file, least significant byte
    first, which is how the boot ROM reads them from flash; in every other
    case it exits with status 1 and writes nothing.  It never faults. *)
Theorem main_spec argc h :
  (forall file, input_file h = Some file -> Forall is_u8 file) ->
  main argc h =
    match input_file h with
    | Some file =>
        if (argc =? 2) && fseek_ok h && (length file <=? 252)%nat && fread_ok h && output_opens h
        then Ok (0, Some (le_split 4 (crc_reference file))) else Ok (1, None)
    | None => Ok (1, None)
    end.
Proof.
  intros Hf. unfold main. destruct (input_file h) as [file|]; [|by destruct (argc =? 2)].
  specialize (Hf file eq_refl).
  destruct (argc =? 2); [|done]. destruct (fseek_ok h); [|done]. cbn [negb andb].
  destruct (Z.ltb_spec 252 (Z.of_nat (length file))), (Nat.leb_spec (length file) 252);
    try lia; [done|]. cbn [andb]. change (Z.to_nat MAX_FILE_SIZE) with 252%nat.
  rewrite take_ge by done. destruct (fread_ok h); [|done]. cbn [negb andb].
  rewrite calculate_crc32_fold, (crc32_fold_reference file _ Hf crc32_init_u32).
  fold (crc_reference file). destruct (output_opens h); [|done]. cbn [negb].
  by rewrite (checksum_bytes _ (crc_reference_range file)).
Qed.

(** ** The theorems on short inputs *)

Lemma calculate_crc32_reference_witness :
  calculate_crc32 [0x31; 0x32] 2 = Ok (crc_reference [0x31; 0x32]).
Proof. apply (calculate_crc32_reference [0x31; 0x32]). repeat constructor; cbn; lia. Defined.

Lemma calculate_crc32_burst_witness :
  calculate_crc32 [1; 2; 3] 3 <> calculate_crc32 [1; 7; 3] 3.
Proof.
  apply (calculate_crc32_burst [1] [2] [7] [3]); [repeat constructor; cbn; lia..|done|cbn; lia|done].
Defined.

Lemma main_witness :
  main 2 (Host (Some [1; 2; 3]) true true true) = Ok (0, Some (le_split 4 (crc_reference [1; 2; 3]))).
Proof.
  rewrite (main_spec 2 (Host (Some [1; 2; 3]) true true true)); [reflexivity|].
  intros file [= <-]. repeat constructor; cbn; lia.
Defined.
