(* ===== verification/Cstring.v ===== *)
(** * The string functions (libc/src/string/)

    Written against byte stores.  A function that takes two strings takes a
    way to read the second one, because its callers pass pointers into the
    same memory or into another array.  [char] is unsigned on this target.
    The null pointer is address 0. *)
From S2P Require Import Prelude Bytes.

Definition NULL : Z := 0.

Section Cstring.
Context {T : Type} `{ByteStore T} `{fuel : nat}.

Definition memset (ptr value num : Z) : M T Z :=
  do! for_loop (Z.to_nat (u32 num)) 0 (fun i _ => store8 (ptr + i) (u8 value)) tt in
  ret ptr.

Definition strlen (str : Z) : M T Z :=
  while_loop fuel (fun i =>
    let! c := load8 (str + i) in
    if c =? 0 then ret (inr i) else ret (inl (u32 (i + 1)))) 0.

(** [char ch = (char)c]; the loop runs while the character IS the terminator. *)
Definition strchr (str c : Z) : M T Z :=
  let ch := u8 c in
  let! r := while_loop fuel (fun str =>
    let! x := load8 str in
    if negb (x =? 0) then ret (inr (inl str)) else
    let! x := load8 str in
    if x =? ch then ret (inr (inr str)) else ret (inl (str + 1))) str in
  match r with
  | inr found => ret found
  | inl str => if ch =? 0 then ret str else ret NULL
  end.

Definition strncpy (rd : Z -> M T Z) (dest src count : Z) : M T Z :=
  let! i := while_loop fuel (fun i =>
    if negb (i <? u32 count) then ret (inr i) else
    let! c := rd (src + i) in
    if c =? 0 then ret (inr i) else
    let! c := rd (src + i) in
    do! store8 (dest + i) c in
    ret (inl (u32 (i + 1)))) 0 in
  do! while_loop fuel (fun i =>
    if negb (i <? u32 count) then ret (inr tt) else
    do! store8 (dest + i) 0 in
    ret (inl (u32 (i + 1)))) i in
  ret dest.

Definition strncat (rd : Z -> M T Z) (destination source num : Z) : M T Z :=
  let! d := while_loop fuel (fun d =>
    let! c := load8 d in
    if c =? 0 then ret (inr d) else ret (inl (d + 1))) destination in
  let! d := while_loop fuel (fun '(d, s, num) =>
    let! c := rd s in
    if (c =? 0) || negb (0 <? num) then ret (inr d) else
    let! c := rd s in
    do! store8 d c in
    ret (inl (d + 1, s + 1, num - 1))) (d, source, u32 num) in
  do! store8 d 0 in
  ret destination.

(** [strtok] keeps its position in a static variable, the second component of
    the state. *)
Definition in_store {A} (m : M T A) : M (T * Z) A := zoom fst (fun t s => (t, snd s)) m.
Definition set_last (p : Z) : M (T * Z) unit := modify (fun s => (fst s, p)).

(** Both loops of [strtok]: advance to where [strchr] finds a delimiter, or to
    the end. *)
Definition strtok_advance (delim : Z) : M (T * Z) unit :=
  while_loop fuel (fun _ =>
    let! lastToken := gets snd in
    let! c := in_store (load8 lastToken) in
    if c =? 0 then ret (inr tt) else
    let! q := in_store (strchr delim c) in
    if negb (q =? NULL) then ret (inr tt) else
    do! set_last (lastToken + 1) in ret (inl tt)) tt.

Definition strtok (str delim : Z) : M (T * Z) Z :=
  let! stop := (if negb (str =? NULL) then do! set_last str in ret false
                else let! lastToken := gets snd in
                     if lastToken =? NULL then ret true
                     else let! c := in_store (load8 lastToken) in ret (c =? 0)) in
  if stop : bool then ret NULL else
  do! strtok_advance delim in
  let! tokenStart := gets snd in
  let! c := in_store (load8 tokenStart) in
  if c =? 0 then ret NULL else
  do! strtok_advance delim in
  let! lastToken := gets snd in
  let! c := in_store (load8 lastToken) in
  do! (if c =? 0 then ret tt
       else do! in_store (store8 lastToken 0) in set_last (lastToken + 1)) in
  ret tokenStart.
End Cstring.
Arguments memset {T _} ptr value num.
Arguments strlen {T _} fuel str.
Arguments strchr {T _} fuel str c.
Arguments strncpy {T} {_} fuel rd dest src count.
Arguments strncat {T} {_} fuel rd destination source num.
Arguments strtok_advance {T _} fuel delim.
Arguments strtok {T _} fuel str delim.

(** The difference of the first bytes that differ, of the terminators if none. *)
Definition strcmp {S} (fuel : nat) (rd1 rd2 : Z -> M S Z) (str1 str2 : Z) : M S Z :=
  while_loop fuel (fun '(p, q) =>
    let! a := rd1 p in
    let! b := rd2 q in
    if negb (a =? 0) && negb (b =? 0) && (a =? b) then ret (inl (p + 1, q + 1))
    else ret (inr (a - b))) (str1, str2).

(** ** Properties *)

(** The characters of a string: bytes other than the terminator. *)
Definition is_char (c : Z) : Prop := is_u8 c /\ c <> 0.

(** The string [l] is at [p]. *)
Definition string_at {T} `{ByteStore T} (m : T) (p : Z) (l : list Z) : Prop :=
  Forall is_char l /\ peeks m p (length l + 1) = Some (l ++ [0]).

(** In states that satisfy [P], [rd] reads the string [l] at [p]. *)
Definition reads {S} (P : S -> Prop) (rd : Z -> M S Z) (p : Z) (l : list Z) : Prop :=
  Forall is_char l /\
  forall m i b, P m -> (l ++ [0]) !! i = Some b -> rd (p + Z.of_nat i) m = Ok (b, m).

(** Comparison of strings: the first difference, a missing character counting as 0. *)
Fixpoint compare_chars (l k : list Z) : Z :=
  match l, k with
  | [], [] => 0
  | a :: _, [] => a
  | [], b :: _ => - b
  | a :: l', b :: k' => if a =? b then compare_chars l' k' else a - b
  end.

(** Lexicographic order. *)
Fixpoint lex_lt (l k : list Z) : Prop :=
  match l, k with
  | _, [] => False
  | [], _ :: _ => True
  | a :: l', b :: k' => a < b \/ (a = b /\ lex_lt l' k')
  end.

Section Proofs.
Context {T : Type} `{ByteStore T}.

Lemma string_at_byte (m : T) p l i b :
  string_at m p l -> (l ++ [0]) !! i = Some b -> peek m (p + Z.of_nat i) = Some b.
Proof.
  intros [_ Hp] Hi. rewrite (peeks_lookup _ _ _ _ i Hp); [done|].
  apply lookup_lt_Some in Hi. rewrite length_app in Hi. cbn in Hi. lia.
Qed.

Lemma string_at_chars (m : T) p l : string_at m p l -> peeks m p (length l) = Some l.
Proof.
  intros [_ Hp]. rewrite peeks_app in Hp. destruct (peeks m p (length l)) as [k|] eqn:E; [|done].
  cbn [mbind option_bind] in Hp. destruct (peeks m (p + Z.of_nat (length l)) 1) as [k'|]; [|done].
  cbn in Hp. injection Hp as Hp. apply app_inj_1 in Hp as [-> _]; [done|]. by eapply length_peeks.
Qed.

Lemma string_at_reads (m : T) p l : string_at m p l -> reads (eq m) load8 p l.
Proof. intros Hs. split; [apply Hs|]. intros m' i b <- Hi. apply load8_eq. by eapply string_at_byte. Qed.

Lemma char_lookup l i b :
  Forall is_char l -> (l ++ [0]) !! i = Some b ->
  (i < length l)%nat /\ is_char b /\ l !! i = Some b \/ i = length l /\ b = 0.
Proof.
  intros Hl Hi. destruct (decide (i < length l)%nat).
  - left. rewrite lookup_app_l in Hi by done. rewrite Forall_lookup in Hl. eauto.
  - right. apply lookup_lt_Some in Hi as Hlt. rewrite length_app in Hlt. cbn in Hlt.
    rewrite lookup_app_r in Hi by lia. replace (i - length l)%nat with O in Hi by lia.
    injection Hi as <-. split; [lia|done].
Qed.

Lemma memset_ok (m : T) ptr value num :
  is_u32 num -> mapped m ptr (ptr + num) ->
  wp (memset ptr value num) (fun r m' =>
    r = ptr /\ writes m ptr (replicate (Z.to_nat num) (u8 value)) m') m.
Proof.
  intros Hn Hm. unfold memset. rewrite u32_small by done. wp_step. eapply wpg_mono.
  - apply (wpg_for False (fun i (_ : unit) m' => 0 <= i /\
      writes m ptr (replicate (Z.to_nat i) (u8 value)) m')); [split; [done|apply writes_nil]|].
    intros i [] m1 Hi [Hi0 W]. eapply store8_writes; [exact W| |exact Hm| |].
    + rewrite length_replicate. lia.
    + lia.
    + intros m2 W2. split; [lia|]. rewrite (u8_small (u8 value)) in W2 by apply u8_range.
      replace (Z.to_nat (i + 1)) with (Z.to_nat i + 1)%nat by lia. by rewrite replicate_add.
  - intros [] m' [_ W]. wp_step. by rewrite Z.add_0_l, Nat2Z.id in W.
Qed.

(** [memset] fills exactly the [num] bytes at [ptr] with the low byte of
    [value] and returns [ptr]. *)
Theorem memset_spec (m : T) ptr value num :
  is_u32 num -> mapped m ptr (ptr + num) ->
  wp (memset ptr value num) (fun r m' =>
    r = ptr /\ writes m ptr (replicate (Z.to_nat num) (u8 value)) m') m.
Proof. apply memset_ok. Qed.

Lemma strlen_ok (m : T) str l fuel :
  string_at m str l -> is_u32 (Z.of_nat (length l)) -> (length l < fuel)%nat ->
  strlen fuel str m = Ok (Z.of_nat (length l), m).
Proof.
  intros Hs Hl Hf. apply string_at_reads in Hs as [Hc Hr]. unfold is_u32 in Hl.
  assert (wp (strlen fuel str) (fun r m' => r = Z.of_nat (length l) /\ m' = m) m) as W.
  { unfold strlen. eapply (wp_while (fun n i m' => m' = m /\ 0 <= i <= Z.of_nat (length l) /\
      n = Z.to_nat (Z.of_nat (length l) - i))); [|exact Hf|split_and!; lia || done].
    intros n i m' (-> & Hi & ->). wp_step.
    destruct (lookup_lt_is_Some_2 (l ++ [0]) (Z.to_nat i)) as [b Hb]; [rewrite length_app; cbn; lia|].
    eapply wp_ok; [rewrite <- (Z2Nat.id i) by lia; by apply Hr|].
    destruct (char_lookup _ _ _ Hc Hb) as [(? & [_ ?] & _)|[? ->]].
    - destruct (Z.eqb_spec b 0); [done|]. wp_step. rewrite u32_small by (unfold is_u32; lia).
      eexists. split; [|split; [done|split; [lia|reflexivity]]]. lia.
    - cbn [Z.eqb]. wp_step. split; [lia|done]. }
  apply wp_exact in W as (r & m' & -> & -> & ->). done.
Qed.

(** [strlen] returns the number of characters before the terminator. *)
Theorem strlen_spec (m : T) str l fuel :
  string_at m str l -> is_u32 (Z.of_nat (length l)) -> (length l < fuel)%nat ->
  strlen fuel str m = Ok (Z.of_nat (length l), m).
Proof. apply strlen_ok. Qed.
End Proofs.

Lemma reads_head {S} (P : S -> Prop) rd p l m :
  reads P rd p l -> P m -> rd p m = Ok (hd 0 (l ++ [0]), m).
Proof.
  intros [_ Hr] Hm. rewrite <- (Z.add_0_r p). apply (Hr m O); [done|]. by destruct l.
Qed.

Lemma reads_tail {S} (P : S -> Prop) rd p a l : reads P rd p (a :: l) -> reads P rd (p + 1) l.
Proof.
  intros [Hc Hr]. apply Forall_cons in Hc as [_ Hc]. split; [done|]. intros m i b Hm Hb.
  replace (p + 1 + Z.of_nat i) with (p + Z.of_nat (Datatypes.S i)) by lia. by apply Hr.
Qed.

Lemma reads_char {S} (P : S -> Prop) rd p a l : reads P rd p (a :: l) -> is_char a.
Proof. intros [Hc _]. by apply Forall_cons in Hc as [? _]. Qed.

Lemma strcmp_ok {S} (rd1 rd2 : Z -> M S Z) (m : S) l k p q fuel :
  reads (eq m) rd1 p l -> reads (eq m) rd2 q k -> (length l < fuel)%nat ->
  strcmp fuel rd1 rd2 p q m = Ok (compare_chars l k, m).
Proof.
  unfold strcmp. revert k p q fuel. induction l as [|a l IH]; intros k p q fuel Hl Hk Hf;
    (destruct fuel as [|fuel]; [cbn in Hf; lia|]); cbn [while_loop].
  all: unfold bind at 1 2 3; rewrite (reads_head _ _ _ _ m Hl), (reads_head _ _ _ _ m Hk) by done.
  - cbn. destruct k as [|b k]; done.
  - pose proof (reads_char _ _ _ _ _ Hl) as [? ?]. cbn [app hd].
    destruct (Z.eqb_spec a 0); [done|]. cbn [negb andb]. destruct k as [|b k]; cbn [app hd compare_chars].
    + cbn -[Z.sub]. by rewrite Z.sub_0_r.
    + pose proof (reads_char _ _ _ _ _ Hk) as [? ?]. destruct (Z.eqb_spec b 0); [done|]. cbn [negb andb].
      destruct (a =? b).
      * cbn. apply IH; [by eapply reads_tail|by eapply reads_tail|cbn in Hf; lia].
      * done.
Qed.

(** Comparing characters is comparing strings. *)
Lemma compare_chars_eq l k :
  Forall is_char l -> Forall is_char k -> compare_chars l k = 0 <-> l = k.
Proof.
  intros Hl. revert k. induction Hl as [|a l [Ha0 Ha] _ IH]; intros k Hk; destruct Hk as [|b k [Hb0 Hb] Hk];
    unfold is_u8 in *; cbn.
  - done.
  - split; [lia|done].
  - split; [lia|done].
  - destruct (Z.eqb_spec a b) as [->|].
    + rewrite IH by done. split; [by intros ->|by intros [= ->]].
    + split; [lia|]. by intros [= ? ?].
Qed.

Lemma compare_chars_lt l k :
  Forall is_char l -> Forall is_char k -> compare_chars l k < 0 <-> lex_lt l k.
Proof.
  intros Hl. revert k. induction Hl as [|a l [Ha0 Ha] _ IH]; intros k Hk; destruct Hk as [|b k [Hb0 Hb] Hk];
    unfold is_u8 in *; cbn.
  - lia.
  - split; [done|lia].
  - split; [lia|done].
  - destruct (Z.eqb_spec a b) as [->|].
    + rewrite IH by done. split; [by right|]. by intros [?|[_ ?]]; [lia|].
    + split; [left; lia|]. intros [?|[? _]]; lia.
Qed.

(** [strcmp] returns zero exactly for equal strings and a negative value
    exactly when the first string comes first in lexicographic order. *)
Theorem strcmp_spec {S} (rd1 rd2 : Z -> M S Z) (m : S) l k p q fuel :
  reads (eq m) rd1 p l -> reads (eq m) rd2 q k -> (length l < fuel)%nat ->
  exists r, strcmp fuel rd1 rd2 p q m = Ok (r, m) /\ (r = 0 <-> l = k) /\ (r < 0 <-> lex_lt l k).
Proof.
  intros Hl Hk Hf. exists (compare_chars l k). split; [by apply strcmp_ok|].
  destruct Hl as [Hl _], Hk as [Hk _]. split; [by apply compare_chars_eq|by apply compare_chars_lt].
Qed.

Section Copying.
Context {T : Type} `{ByteStore T}.

(** [strncpy] writes exactly [count] bytes: the first [count] characters
    of the source, padded with zeroes.  There is no terminator when the
    source has [count] characters or more. *)
Theorem strncpy_spec (rd : Z -> M T Z) (m : T) dest src count l fuel :
  reads (fun m' => exists k, writes m dest k m' /\ Z.of_nat (length k) <= count) rd src l ->
  is_u32 count -> mapped m dest (dest + count) -> (Z.to_nat count < fuel)%nat ->
  wp (strncpy fuel rd dest src count) (fun r m' => r = dest /\
    writes m dest (take (Z.to_nat count) l ++ replicate (Z.to_nat count - length l) 0) m') m.
Proof.
  intros Hr Hc Hm Hf. unfold is_u32 in Hc. unfold strncpy. rewrite (u32_small count) by done. wp_step.
  eapply (wp_while (fun n i m' => 0 <= i <= count /\ (Z.to_nat i <= length l)%nat /\
    writes m dest (take (Z.to_nat i) l) m' /\ n = Z.to_nat (count - i)));
    [|instantiate (1 := Z.to_nat count); lia|split_and!; [lia|lia|lia|apply writes_nil|lia]].
  intros n i m1 (Hi & Hil & W & ->). assert (length (take (Z.to_nat i) l) = Z.to_nat i) as Hlen
    by (rewrite length_take; lia).
  assert (wp (while_loop fuel (fun i =>
      if negb (i <? count) then ret (inr tt) else do! store8 (dest + i) 0 in ret (inl (u32 (i + 1)))) i)
    (fun _ m' => writes m dest (take (Z.to_nat i) l ++ replicate (Z.to_nat (count - i)) 0) m') m1) as Hpad.
  { eapply (wp_while (fun n j m' => i <= j <= count /\ n = Z.to_nat (count - j) /\
      writes m dest (take (Z.to_nat i) l ++ replicate (Z.to_nat (j - i)) 0) m'));
      [|instantiate (1 := Z.to_nat (count - i)); lia
       |split_and!; [lia|lia|lia|by rewrite Z.sub_diag, app_nil_r]].
    intros n j m2 (Hj & -> & W2). destruct (Z.ltb_spec j count); cbn [negb].
    - wp_step. eapply store8_writes; [exact W2| |exact Hm|lia|].
      { rewrite length_app, length_replicate, Hlen. lia. }
      intros m3 W3. wp_step. change (u8 0) with 0 in W3. rewrite u32_small by (unfold is_u32; lia).
      eexists. split; [|split; [lia|split; [reflexivity|]]]; [lia|].
      rewrite <- app_assoc in W3. replace (Z.to_nat (j + 1 - i)) with (Z.to_nat (j - i) + 1)%nat by lia.
      by rewrite replicate_add.
    - wp_step. by replace j with count in W2 by lia. }
  destruct (Z.ltb_spec i count); cbn [negb].
  - destruct Hr as [Hch Hr].
    destruct (lookup_lt_is_Some_2 (l ++ [0]) (Z.to_nat i)) as [b Hb]; [rewrite length_app; cbn; lia|].
    assert (rd (src + i) m1 = Ok (b, m1)) as Er.
    { rewrite <- (Z2Nat.id i) by lia. apply Hr; [|done]. eexists. split; [exact W|]. lia. }
    wp_step. eapply wp_ok; [exact Er|].
    destruct (char_lookup _ _ _ Hch Hb) as [(Hlt & [Hu Hb0] & Hl)|[Heq ->]].
    + destruct (Z.eqb_spec b 0); [done|]. wp_step. eapply wp_ok; [exact Er|].
      wp_step. eapply store8_writes; [exact W| |exact Hm|lia|]; [lia|].
      intros m2 W2. wp_step. rewrite u32_small by (unfold is_u32; lia). rewrite u8_small in W2 by done.
      eexists. split; [|split; [lia|split; [lia|split; [|reflexivity]]]]; [lia|].
      replace (Z.to_nat (i + 1)) with (Datatypes.S (Z.to_nat i)) by lia. by rewrite (take_S_r _ _ _ Hl).
    + cbn [Z.eqb]. wp_step. wp_step. eapply wpg_mono; [exact Hpad|]. intros [] m' W'. wp_step.
      split; [done|]. rewrite take_ge in W' by lia. rewrite take_ge by lia.
      by replace (Z.to_nat count - length l)%nat with (Z.to_nat (count - i)) by lia.
  - wp_step. wp_step. eapply wpg_mono; [exact Hpad|]. intros [] m' W'. wp_step. split; [done|].
    replace i with count in W' by lia. rewrite Z.sub_diag in W'.
    replace (Z.to_nat count - length l)%nat with O by lia. done.
Qed.

(** The copying loop of [strncat]. *)
Lemma append_chars_ok (rd : Z -> M T Z) (m : T) dest source num k l fuel :
  Forall is_char l ->
  (forall m' i b, (exists k', writes m dest k' m' /\ (length k' <= length k)%nat) ->
     (l ++ [0]) !! i = Some b -> rd (source + Z.of_nat i) m' = Ok (b, m')) ->
  0 <= num -> length k = Nat.min (Z.to_nat num) (length l) -> take (length k) l = k ->
  mapped m dest (dest + Z.of_nat (length k) + 1) -> (length k < fuel)%nat ->
  wp (while_loop fuel (fun '(d, s, num) =>
        let! c := rd s in
        if (c =? 0) || negb (0 <? num) then ret (inr d) else
        let! c := rd s in
        do! store8 d c in
        ret (inl (d + 1, s + 1, num - 1))) (dest, source, num))
    (fun p m' => p = dest + Z.of_nat (length k) /\ writes m dest k m') m.
Proof.
  intros Hch Hr Hn Hlk Hk Hm Hf.
  eapply (wp_while (fun n '(p, s, c) m' => exists i, p = dest + Z.of_nat i /\ s = source + Z.of_nat i /\
    c = num - Z.of_nat i /\ (i <= length k)%nat /\ writes m dest (take i l) m' /\ n = (length k - i)%nat));
    [|exact Hf|exists O; split_and!; [lia|lia|lia|lia|apply writes_nil|lia]].
  intros n [[p s] c] m1 (i & -> & -> & -> & Hi & W & ->).
  destruct (lookup_lt_is_Some_2 (l ++ [0]) i) as [b Hb]; [rewrite length_app; cbn; lia|].
  assert (rd (source + Z.of_nat i) m1 = Ok (b, m1)) as Er.
  { apply Hr; [|done]. eexists. split; [exact W|]. rewrite length_take. lia. }
  wp_step. eapply wp_ok; [exact Er|].
  destruct (decide (i = length k)) as [->|Hne].
  - assert (((b =? 0) || negb (0 <? num - Z.of_nat (length k)))%bool = true) as ->.
    { destruct (char_lookup _ _ _ Hch Hb) as [(Hlt & _)|[_ ->]]; [|done].
      destruct (Z.ltb_spec 0 (num - Z.of_nat (length k))); [lia|]. by rewrite orb_true_r. }
    wp_step. rewrite Hk in W. done.
  - destruct (char_lookup _ _ _ Hch Hb) as [(Hlt & [Hu Hb0] & Hl)|[? _]]; [|lia].
    destruct (Z.eqb_spec b 0); [done|]. destruct (Z.ltb_spec 0 (num - Z.of_nat i)); [|lia]. cbn [orb negb].
    wp_step. eapply wp_ok; [exact Er|]. wp_step.
    eapply store8_writes; [exact W| |exact Hm|lia|]; [rewrite length_take; lia|].
    intros m2 W2. wp_step. rewrite u8_small in W2 by done.
    exists (length k - Datatypes.S i)%nat. split; [lia|]. exists (Datatypes.S i).
    rewrite (take_S_r _ _ _ Hl). split_and!; [lia|lia|lia|lia|done|done].
Qed.

Lemma strncat_ok (rd : Z -> M T Z) (m : T) destination source num d l fuel :
  string_at m destination d ->
  let dest := destination + Z.of_nat (length d) in
  let k := take (Z.to_nat num) l in
  reads (fun m' => exists k', writes m dest k' m' /\ (length k' <= length k)%nat) rd source l ->
  is_u32 num -> mapped m dest (dest + Z.of_nat (length k) + 1) ->
  (length d < fuel)%nat -> (length l < fuel)%nat ->
  wp (strncat fuel rd destination source num) (fun r m' => r = destination /\
    writes m dest (k ++ [0]) m' /\ string_at m' destination (d ++ k)) m.
Proof.
  intros Hd dest k Hr Hn Hm Hfd Hfl. unfold strncat. rewrite u32_small by done. wp_step.
  assert (Hd' := Hd). apply string_at_reads in Hd' as [Hdc Hdr].
  eapply (wp_while (fun n p m' => m' = m /\ exists i, p = destination + Z.of_nat i /\
    (i <= length d)%nat /\ n = (length d - i)%nat));
    [|instantiate (1 := length d); lia|split; [done|exists O; lia]].
  intros n p m' (-> & i & -> & Hi & ->). wp_step.
  destruct (lookup_lt_is_Some_2 (d ++ [0]) i) as [b Hb]; [rewrite length_app; cbn; lia|].
  eapply wp_ok; [by apply Hdr|].
  destruct (char_lookup _ _ _ Hdc Hb) as [(Hlt & [_ ?] & _)|[-> ->]].
  { destruct (Z.eqb_spec b 0); [done|]. wp_step. eexists. split; [|split; [done|]].
    2: { exists (Datatypes.S i). split; [lia|]. split; [lia|reflexivity]. } lia. }
  cbn [Z.eqb]. wp_step. fold dest. wp_step. destruct Hr as [Hch Hr]. unfold is_u32 in Hn.
  assert (length k = Nat.min (Z.to_nat num) (length l)) as Hlk by (subst k; apply length_take).
  assert (take (length k) l = k) as Hk.
  { subst k. rewrite length_take. destruct (Nat.min_spec (Z.to_nat num) (length l)) as [[_ ->]|[? ->]]; [done|].
    by rewrite !take_ge by lia. }
  assert (Forall is_char k) as Hkc by (subst k; by apply Forall_take).
  assert (dest = destination + Z.of_nat (length d)) as Hdest by done.
  clearbody k dest. clear Hb Hi.
  eapply wpg_mono; [eapply (append_chars_ok rd m dest source num k l); done || lia|].
  intros p m1 [-> W]. wp_step. eapply store8_writes; [exact W|done|exact Hm|lia|].
  intros m2 W2. change (u8 0) with 0 in W2. wp_step. split; [done|]. split; [done|].
  split; [by apply Forall_app|]. destruct W2 as [E2 F2].
  rewrite !length_app, <- app_assoc, <- Nat.add_assoc, peeks_app, (peeks_ext m m2 destination (length d)).
  - rewrite (string_at_chars _ _ _ Hd). cbn [mbind option_bind]. rewrite <- Hdest.
    rewrite length_app in E2. cbn [length] in E2. by rewrite E2.
  - intros q Hq. apply F2. lia.
Qed.

(** [strncat] appends at most [num] characters and a terminator; bytes
    beyond are untouched.  The caller must leave room for the terminator on
    top of [num]. *)
Theorem strncat_spec (rd : Z -> M T Z) (m : T) destination source num d l fuel :
  string_at m destination d ->
  let dest := destination + Z.of_nat (length d) in
  let k := take (Z.to_nat num) l in
  reads (fun m' => exists k', writes m dest k' m' /\ (length k' <= length k)%nat) rd source l ->
  is_u32 num -> mapped m dest (dest + Z.of_nat (length k) + 1) ->
  (length d < fuel)%nat -> (length l < fuel)%nat ->
  wp (strncat fuel rd destination source num) (fun r m' => r = destination /\
    writes m dest (k ++ [0]) m' /\ string_at m' destination (d ++ k)) m.
Proof. apply strncat_ok. Qed.

(** [strchr] looks at the first character only. *)
Lemma strchr_ok (m : T) str c a l fuel :
  string_at m str (a :: l) -> (0 < fuel)%nat ->
  strchr fuel str c m = Ok (if u8 c =? 0 then str else NULL, m).
Proof.
  intros Hs Hf. destruct fuel as [|fuel]; [lia|]. unfold strchr. cbn [while_loop].
  pose proof (string_at_byte _ _ _ 0 a Hs eq_refl) as Ha. rewrite Z.add_0_r in Ha.
  destruct Hs as [[[_ Hne] _]%Forall_cons _].
  unfold bind at 1 2 3. rewrite (load8_eq _ _ _ Ha). destruct (Z.eqb_spec a 0); [done|]. cbn.
  by destruct (u8 c =? 0).
Qed.

(** the loop condition of [strchr] is inverted: on a nonempty string it
    stops at the first character, so it finds no character, even one that is
    there, and for the terminator it returns the start of the string. *)
Theorem strchr_spec (m : T) str c l fuel :
  string_at m str l -> l <> [] -> (0 < fuel)%nat ->
  strchr fuel str c m = Ok (if u8 c =? 0 then str else NULL, m).
Proof. intros Hs Hl. destruct l as [|a l]; [done|]. by apply (strchr_ok m str c a l). Qed.

Lemma strtok_advance_ok (m : T) str delim l dl i fuel (Q : unit -> T * Z -> Prop) :
  string_at m str l -> string_at m delim dl -> dl <> [] -> (i <= length l < fuel)%nat ->
  Q tt (m, str + Z.of_nat (length l)) -> wp (strtok_advance fuel delim) Q (m, str + Z.of_nat i).
Proof.
  intros Hs Hd Hdl Hi HQ. destruct dl as [|a dl]; [done|].
  unfold strtok_advance, in_store, set_last.
  eapply (wp_while (fun n (_ : unit) st => exists i, st = (m, str + Z.of_nat i) /\ (i <= length l)%nat /\
    n = (length l - i)%nat)); [|instantiate (1 := (length l - i)%nat); lia|by exists i; split_and!; [|lia|]].
  assert (0 < fuel)%nat as Hf by lia. clear i Hi. intros n [] st (i & -> & Hi & ->). wp_steps. cbn [fst snd].
  destruct (lookup_lt_is_Some_2 (l ++ [0]) i) as [b Hb]; [rewrite length_app; cbn; lia|].
  eapply load8_ok; [by eapply string_at_byte|]. cbn [fst snd].
  destruct (char_lookup _ _ _ (proj1 Hs) Hb) as [(Hlt & [Hu Hb0] & _)|[-> ->]]; [|by cbn].
  destruct (Z.eqb_spec b 0); [done|]. wp_steps. cbn [fst snd].
  eapply wp_ok; [eapply strchr_ok; [exact Hd|lia]|]. rewrite u8_small by done.
  destruct (Z.eqb_spec b 0); [done|]. cbn [fst snd]. change (negb (NULL =? NULL)) with false. cbv iota.
  wp_steps. exists (length l - Datatypes.S i)%nat. split; [lia|]. exists (Datatypes.S i).
  cbn [fst snd]. split_and!; [f_equal; lia|lia|done].
Qed.

(** as a consequence [strtok] never returns a token when there is a
    delimiter: it walks to the end of the string and returns NULL, for the
    first call and for the later ones. *)
Theorem strtok_never (m : T) str delim l dl last fuel :
  string_at m str l -> string_at m delim dl -> dl <> [] -> str <> NULL -> (length l < fuel)%nat ->
  strtok fuel str delim (m, last) = Ok (NULL, (m, str + Z.of_nat (length l))) /\
  strtok fuel NULL delim (m, str + Z.of_nat (length l)) = Ok (NULL, (m, str + Z.of_nat (length l))).
Proof.
  intros Hs Hd Hdl Hnull Hf.
  assert (peek m (str + Z.of_nat (length l)) = Some 0) as Hz.
  { eapply string_at_byte; [exact Hs|]. rewrite lookup_app_r, Nat.sub_diag by lia. done. }
  assert (forall P : Z -> T * Z -> Prop, P NULL (m, str + Z.of_nat (length l)) ->
    wp (strtok fuel str delim) P (m, last)) as H1.
  { intros P HP. unfold strtok, in_store, set_last. destruct (Z.eqb_spec str NULL); [done|]. cbn [negb]. wp_steps. cbn [fst].
    replace (m, str) with (m, str + Z.of_nat 0) by (f_equal; lia).
    eapply strtok_advance_ok; [exact Hs|exact Hd|exact Hdl|lia|].
    wp_steps. cbn [fst snd]. eapply load8_ok; [exact Hz|]. cbn [Z.eqb]. by wp_step. }
  split.
  - assert (wp (strtok fuel str delim) (fun r s => r = NULL /\ s = (m, str + Z.of_nat (length l))) (m, last))
      as W by (by apply H1).
    apply wp_exact in W as (r & st & -> & -> & ->). done.
  - unfold strtok. cbn [Z.eqb NULL negb]. unfold bind at 1 2, gets at 1. cbn [snd].
    change (NULL =? NULL) with true. cbn [negb].
    destruct (Z.eqb_spec (str + Z.of_nat (length l)) NULL); [done|].
    unfold bind, in_store, zoom. cbn [fst snd]. by rewrite (load8_eq _ _ _ Hz).
Qed.
End Copying.

(** ** The theorems on a small array: "hi" at 1, "," at 4, room from 6 on *)

Definition demo_chars : list Z := [0; 104; 105; 0; 44; 0; 0; 0; 0; 0; 0; 0].

Lemma demo_chars_mapped a b : 0 <= a -> b <= 12 -> mapped demo_chars a b.
Proof.
  intros Ha Hb q Hq. cbn. unfold list_peek. destruct (Z.leb_spec 0 q); [|lia].
  apply lookup_lt_is_Some. cbn. lia.
Qed.

Lemma demo_hi : string_at demo_chars 1 [104; 105].
Proof.
  split; [|reflexivity]. repeat (apply Forall_cons; split; [split; [split; lia|lia]|]). by apply Forall_nil.
Qed.
Lemma demo_comma : string_at demo_chars 4 [44].
Proof.
  split; [|reflexivity]. repeat (apply Forall_cons; split; [split; [split; lia|lia]|]). by apply Forall_nil.
Qed.
Lemma demo_empty : string_at demo_chars 6 [].
Proof. split; [by apply Forall_nil|reflexivity]. Qed.

(** "hi" is still readable after a write from 6 on. *)
Lemma demo_reads (k : nat) :
  reads (fun m' => exists l, writes demo_chars 6 l m' /\ (length l <= k)%nat) load8 1 [104; 105].
Proof.
  split; [apply demo_hi|]. intros m i b (l & [_ Hf] & _) Hb. apply load8_eq.
  assert (i < 3)%nat by (apply lookup_lt_Some in Hb; cbn in Hb; lia).
  rewrite Hf by lia. by apply (string_at_byte demo_chars 1 [104; 105] i b demo_hi).
Qed.

Lemma memset_witness : exists m', memset 6 0x141 2 demo_chars = Ok (6, m').
Proof.
  pose proof (memset_spec demo_chars 6 0x141 2 ltac:(split; lia) (demo_chars_mapped 6 (6 + 2) ltac:(lia) ltac:(lia))) as W.
  destruct (proj1 (wp_exact _ _ _) W) as (r & m' & E & -> & _). exists m'. exact E.
Defined.

Lemma strlen_witness : strlen 5 1 demo_chars = Ok (2, demo_chars).
Proof. apply (strlen_spec demo_chars 1 [104; 105] 5 demo_hi); [split; cbn; lia|cbn; lia]. Defined.

Lemma strcmp_witness : exists r,
  strcmp 5 load8 load8 1 4 demo_chars = Ok (r, demo_chars) /\ (r = 0 <-> [104; 105] = [44]).
Proof.
  destruct (strcmp_spec load8 load8 demo_chars [104; 105] [44] 1 4 5 (string_at_reads _ _ _ demo_hi)
    (string_at_reads _ _ _ demo_comma) ltac:(cbn; lia)) as (r & E & H & _). exists r. exact (conj E H).
Defined.

Lemma strncpy_witness : exists m', strncpy 9 load8 6 1 4 demo_chars = Ok (6, m').
Proof.
  assert (reads (fun m' => exists k, writes demo_chars 6 k m' /\ Z.of_nat (length k) <= 4) load8 1 [104; 105]) as Hr.
  { split; [apply demo_hi|]. intros m i b (k & Hw & Hk). apply (proj2 (demo_reads 4)). exists k. split; [done|lia]. }
  pose proof (strncpy_spec load8 demo_chars 6 1 4 [104; 105] 9 Hr ltac:(split; lia)
    (demo_chars_mapped 6 (6 + 4) ltac:(lia) ltac:(lia)) ltac:(lia)) as W.
  destruct (proj1 (wp_exact _ _ _) W) as (r & m' & E & -> & _). exists m'. exact E.
Defined.

Lemma strncat_witness : exists m', strncat 9 load8 6 1 5 demo_chars = Ok (6, m') /\
  string_at m' 6 [104; 105].
Proof.
  pose proof (strncat_spec load8 demo_chars 6 1 5 [] [104; 105] 9 demo_empty) as W. cbv zeta in W.
  specialize (W (demo_reads 2) ltac:(split; lia) (demo_chars_mapped (6 + 0) (6 + 0 + 2 + 1) ltac:(lia) ltac:(lia))
    ltac:(cbn; lia) ltac:(cbn; lia)).
  destruct (proj1 (wp_exact _ _ _) W) as (r & m' & E & -> & _ & H). exists m'. exact (conj E H).
Defined.

Lemma strchr_witness : strchr 5 1 105 demo_chars = Ok (NULL, demo_chars).
Proof. apply (strchr_spec demo_chars 1 105 [104; 105] 5 demo_hi); [done|lia]. Defined.

Lemma strtok_witness : strtok 5 1 4 (demo_chars, 0) = Ok (NULL, (demo_chars, 3)).
Proof.
  apply (strtok_never demo_chars 1 4 [104; 105] [44] 0 5 demo_hi demo_comma); [done|done|cbn; lia].
Defined.
