(* ===== verification/Board.v ===== *)
(** * The board: memory-mapped registers (src/arch/arm_cortexm/rp2040/hardware_structs/)

    The drivers see the RP2040 as 32-bit registers at fixed addresses and as
    SRAM.  What a register read returns and what a register write does is the
    hardware's business: a parameter of the development ([Hardware]).  The
    register addresses are computed from the C structures.  The laws the
    drivers rely on, which restate the behaviour the RP2040 datasheet
    documents for each peripheral, are the classes at the end of the file,
    over an abstract view ([io]) of the devices. *)
From S2P Require Import Prelude Bytes.

(** ** Register addresses *)

(* uart.h *)
Definition UART_BASE : Z := 0x40034000.
Definition uart_DR : Z := UART_BASE.
Definition uart_FR : Z := UART_BASE + 0x18.
Definition uart_IBRD : Z := UART_BASE + 0x24.
Definition uart_FBRD : Z := UART_BASE + 0x28.
Definition uart_LCR_H : Z := UART_BASE + 0x2c.
Definition uart_LCR : Z := UART_BASE + 0x30.

(* spi.h *)
Definition SPI0_BASE : Z := 0x4003c000.
Definition spi0_CR0 : Z := SPI0_BASE.
Definition spi0_CR1 : Z := SPI0_BASE + 4.
Definition spi0_DR : Z := SPI0_BASE + 8.
Definition spi0_SR : Z := SPI0_BASE + 12.
Definition spi0_CPSR : Z := SPI0_BASE + 16.

(* sio.h *)
Definition SIO_BASE : Z := 0xd0000000.
Definition sio_OUT_SET : Z := SIO_BASE + 4 * 5.
Definition sio_OUT_CLR : Z := SIO_BASE + 4 * 6.
Definition sio_OUT_XOR : Z := SIO_BASE + 4 * 7.
Definition sio_OE_SET : Z := SIO_BASE + 4 * 9.

(* io_bank0.h: gpio[i] is a STATUS, CTRL pair *)
Definition IO_BANK0_BASE : Z := 0x40014000.
Definition io_bank0_gpio_CTRL (i : Z) : Z := IO_BANK0_BASE + 8 * i + 4.

(* pads_bank0.h: gpio[i] follows VOLTAGE_SELECT *)
Definition PADS_BANK0_BASE : Z := 0x4001c000.
Definition pads_bank0_gpio (i : Z) : Z := PADS_BANK0_BASE + 4 + 4 * i.

(* resets.h *)
Definition RESETS_BASE : Z := 0x4000c000.
Definition resets_RESET : Z := RESETS_BASE.
Definition resets_RESET_DONE : Z := RESETS_BASE + 8.

(* clocks.h *)
Definition CLOCKS_BASE : Z := 0x40008000.
Definition clocks_REF_CTRL : Z := CLOCKS_BASE + 4 * 12.
Definition clocks_REF_SELECTED : Z := CLOCKS_BASE + 4 * 14.
Definition clocks_SYS_CTRL : Z := CLOCKS_BASE + 4 * 15.
Definition clocks_SYS_SELECTED : Z := CLOCKS_BASE + 4 * 17.
Definition clocks_PERI_CTRL : Z := CLOCKS_BASE + 4 * 18.
Definition XOSC_BASE : Z := 0x40024000.
Definition XOSC_HZ : Z := 12000000.
Definition xosc_CTRL : Z := XOSC_BASE.
Definition xosc_STATUS : Z := XOSC_BASE + 4.
Definition ROSC_BASE : Z := 0x40060000.
Definition rosc_CTRL : Z := ROSC_BASE.
Definition PLL_SYS_BASE : Z := 0x40028000.
Definition CLK_SYS_HZ : Z := 200000000.
Definition pll_sys_CS : Z := PLL_SYS_BASE.
Definition pll_sys_PWR : Z := PLL_SYS_BASE + 4.
Definition pll_sys_FBDIV_INT : Z := PLL_SYS_BASE + 8.
Definition pll_sys_PRIM : Z := PLL_SYS_BASE + 12.
Definition WATCHDOG_BASE : Z := 0x40058000.
Definition watchdog_TICK : Z := WATCHDOG_BASE + 4 * 11.
Definition TIMER_BASE : Z := 0x40054000.
Definition timer_HR : Z := TIMER_BASE + 8.
Definition timer_LR : Z := TIMER_BASE + 12.

(* m0plus.h *)
Definition SYST_BASE : Z := 0xe0000010.
Definition syst_CSR : Z := SYST_BASE.
Definition syst_RVR : Z := SYST_BASE + 4.
Definition syst_CVR : Z := SYST_BASE + 8.
Definition SCB_BASE : Z := 0xe000ED1C.
Definition scb_SHPR2 : Z := SCB_BASE.
Definition scb_SHPR3 : Z := SCB_BASE + 4.

(* dma_channels.h: a channel is four aliases of four registers *)
Definition DMA_BASE : Z := 0x50000000.
Definition dma_al0_READ_ADDR (ch : Z) : Z := DMA_BASE + 64 * ch.
Definition dma_al0_WRITE_ADDR (ch : Z) : Z := DMA_BASE + 64 * ch + 4.
Definition dma_al0_TRANS_COUNT (ch : Z) : Z := DMA_BASE + 64 * ch + 8.
Definition dma_al0_CTRL_TRIG (ch : Z) : Z := DMA_BASE + 64 * ch + 12.
Definition dma_al1_CTRL (ch : Z) : Z := DMA_BASE + 64 * ch + 16.
Definition dma_chann_trig : Z := DMA_BASE + 0x430.
Definition DMA_CTRL_EN : Z := Z.shiftl 1 0.
Definition DMA_CTRL_DATA_SIZE_1BYTE : Z := Z.shiftl 0 2.
Definition DMA_CTRL_INCR_READ : Z := Z.shiftl 1 4.
Definition DMA_CTRL_INCR_WRITE : Z := Z.shiftl 1 5.
Definition DMA_CTRL_RING_SEL : Z := Z.shiftl 1 10.
Definition DMA_CTRL_CHAIN_TO (x : Z) : Z := Z.shiftl x 11.
Definition DMA_CTRL_TREQ_SEL (x : Z) : Z := Z.shiftl x 15.
Definition DMA_CTRL_BUSY : Z := Z.shiftl 1 24.

(** ** The machine *)

(** SRAM, which the CPU loads from and stores to, and the devices. *)
Record machine (D : Type) := Machine { ram : mem; dev : D }.
Arguments Machine {D} ram dev.
Arguments ram {D} m.
Arguments dev {D} m.

(** A register access may change the device and, when it lets a DMA transfer
    make progress, memory. *)
Class Hardware (D : Type) := {
  hw_read : Z -> machine D -> Z * machine D;
  hw_write : Z -> Z -> machine D -> machine D;
}.

Section Registers.
Context {D : Type} `{Hardware D}.

Definition reg_read (r : Z) : M (machine D) Z := fun s =>
  let '(v, s') := hw_read r s in Ok (u32 v, s').
Definition reg_write (r v : Z) : M (machine D) unit := fun s => Ok (tt, hw_write r (u32 v) s).

(** [reg |= v], [reg &= v]: a volatile read followed by a volatile write. *)
Definition reg_or (r v : Z) : M (machine D) unit :=
  let! x := reg_read r in reg_write r (Z.lor x v).
Definition reg_and (r v : Z) : M (machine D) unit :=
  let! x := reg_read r in reg_write r (Z.land x v).

(** Loads and stores that go to SRAM. *)
Definition in_ram {A} (m : M mem A) : M (machine D) A :=
  zoom ram (fun r s => Machine r (dev s)) m.

(** [while (!stop(reg)) step;]: the busy-wait loop of the drivers. *)
Definition spin_with `{Fuel} (r : Z) (stop : Z -> bool) (step : M (machine D) unit)
  : M (machine D) unit :=
  while_loop fuel (fun _ =>
    let! v := reg_read r in
    if stop v then ret (inr tt) else do! step in ret (inl tt)) tt.
Definition spin `{Fuel} (r : Z) (stop : Z -> bool) : M (machine D) unit :=
  spin_with r stop (ret tt).

Lemma in_ram_ok h {A} (m : M mem A) (Q : A -> machine D -> Prop) s :
  wpg h m (fun a r => Q a (Machine r (dev s))) (ram s) -> wpg h (in_ram m) Q s.
Proof. intros HQ. unfold in_ram. wp_step. exact HQ. Qed.

Lemma in_ram_pure h {A} (m : M mem A) a s (Q : A -> machine D -> Prop) :
  m (ram s) = Ok (a, ram s) -> Q a s -> wpg h (in_ram m) Q s.
Proof. intros E HQ. apply in_ram_ok. unfold wpg. rewrite E. by destruct s. Qed.
End Registers.

(** ** What the devices hold *)

(** The slave on SPI0: it is selected and deselected by its CS line, and
    every byte clocked out of the controller returns one from the slave. *)
Class SpiSlave (C : Type) := {
  xfer : Z -> C -> Z * C;
  select : bool -> C -> C;
}.

Record dma_channel := DmaChannel {
  ch_read : Z; ch_write : Z; ch_count : Z; ch_ctrl : Z; ch_busy : bool;
}.

Record io (C : Type) := Io {
  io_rx : list Z;        (* SPI0 receive FIFO, oldest first *)
  io_card : C;           (* the SPI slave *)
  io_cr0 : Z; io_cr1 : Z; io_cpsr : Z;   (* SPI0 configuration *)
  io_uart_out : list Z;  (* bytes the UART has accepted, oldest first *)
  io_uart_in : list Z;   (* bytes still to be received *)
  io_time : Z;           (* microseconds since the timer was reset *)
  io_latch : Z;          (* the value TIMEHR reports *)
  io_dma : Z -> dma_channel;
}.
Arguments Io {C}.
Arguments io_rx {C}. Arguments io_card {C}. Arguments io_cr0 {C}. Arguments io_cr1 {C}.
Arguments io_cpsr {C}. Arguments io_uart_out {C}. Arguments io_uart_in {C}.
Arguments io_time {C}. Arguments io_latch {C}. Arguments io_dma {C}.

Section IoUpdates.
Context {C : Type}.
Implicit Types v : io C.
Definition set_rx rx v := Io rx (io_card v) (io_cr0 v) (io_cr1 v) (io_cpsr v) (io_uart_out v)
  (io_uart_in v) (io_time v) (io_latch v) (io_dma v).
Definition set_card (c : C) v := Io (io_rx v) c (io_cr0 v) (io_cr1 v) (io_cpsr v) (io_uart_out v)
  (io_uart_in v) (io_time v) (io_latch v) (io_dma v).
Definition set_cr0 x v := Io (io_rx v) (io_card v) x (io_cr1 v) (io_cpsr v) (io_uart_out v)
  (io_uart_in v) (io_time v) (io_latch v) (io_dma v).
Definition set_cr1 x v := Io (io_rx v) (io_card v) (io_cr0 v) x (io_cpsr v) (io_uart_out v)
  (io_uart_in v) (io_time v) (io_latch v) (io_dma v).
Definition set_cpsr x v := Io (io_rx v) (io_card v) (io_cr0 v) (io_cr1 v) x (io_uart_out v)
  (io_uart_in v) (io_time v) (io_latch v) (io_dma v).
Definition set_uart_out l v := Io (io_rx v) (io_card v) (io_cr0 v) (io_cr1 v) (io_cpsr v) l
  (io_uart_in v) (io_time v) (io_latch v) (io_dma v).
Definition set_uart_in l v := Io (io_rx v) (io_card v) (io_cr0 v) (io_cr1 v) (io_cpsr v)
  (io_uart_out v) l (io_time v) (io_latch v) (io_dma v).
Definition set_time t l v := Io (io_rx v) (io_card v) (io_cr0 v) (io_cr1 v) (io_cpsr v)
  (io_uart_out v) (io_uart_in v) t l (io_dma v).
Definition set_dma ch x v := Io (io_rx v) (io_card v) (io_cr0 v) (io_cr1 v) (io_cpsr v)
  (io_uart_out v) (io_uart_in v) (io_time v) (io_latch v)
  (fun c => if c =? ch then x else io_dma v c).
End IoUpdates.

(** The abstract state of the devices. *)
Class View (D C : Type) := view : D -> io C.

(** SPI0 shifts 8-bit frames as a master: 8-bit data size, SSP enabled. *)
Definition spi_on {C} (v : io C) : Prop :=
  Z.land (io_cr0 v) 15 = 7 /\ bit_set (io_cr1 v) 1 = true.

(** Depth of the receive FIFO. *)
Definition spi_fifo_depth : nat := 8.

(** One byte clocked out: the slave answers, and the answer is queued unless
    the receive FIFO is full, in which case it is lost (receive overrun). *)
Definition spi_exchange {C} `{SpiSlave C} (b : Z) (v : io C) : io C :=
  let '(r, c) := xfer b (io_card v) in
  let rx := if (length (io_rx v) <? spi_fifo_depth)%nat then io_rx v ++ [r] else io_rx v in
  set_rx rx (set_card c v).

(** A one-byte-wide, unpaced, incrementing memory-to-memory transfer on [ch]. *)
Definition dma_copy_config (ch : Z) : Z :=
  Z.lor (Z.lor (Z.lor (Z.lor (Z.lor DMA_CTRL_DATA_SIZE_1BYTE DMA_CTRL_INCR_READ)
    DMA_CTRL_INCR_WRITE) (DMA_CTRL_CHAIN_TO ch)) (DMA_CTRL_TREQ_SEL 0x3F)) DMA_CTRL_EN.

(** ** Laws of the peripherals *)

Section Laws.
Context (D C : Type) `{Hardware D} `{SpiSlave C} `{View D C}.

(** SPI0 (PL022).  [spi_wait] bounds the status reads before a pending
    condition shows; [spi_room] holds when the transmit FIFO has room,
    [spi_idle] when nothing is being shifted, so that the status register
    shows every byte received. *)
Class SpiLaws := {
  spi_wait : D -> nat;
  spi_latency : nat;
  spi_room : D -> Prop;
  spi_idle : D -> Prop;
  spi_wait_bound : forall d, (spi_wait d <= spi_latency)%nat;
  spi_sr_read : forall s, let '(v, s') := hw_read spi0_SR s in
    ram s' = ram s /\ view (dev s') = view (dev s) /\
    (if bit_set (u32 v) 1 then spi_room (dev s') else (spi_wait (dev s') < spi_wait (dev s))%nat) /\
    (bit_set (u32 v) 2 = true -> io_rx (view (dev s)) <> []) /\
    (bit_set (u32 v) 2 = false ->
       io_rx (view (dev s)) = [] \/ (spi_wait (dev s') < spi_wait (dev s))%nat) /\
    (if bit_set (u32 v) 4 then (spi_wait (dev s') < spi_wait (dev s))%nat else spi_idle (dev s')) /\
    (spi_idle (dev s) -> io_rx (view (dev s)) <> [] -> bit_set (u32 v) 2 = true);
  spi_dr_write : forall b s, spi_on (view (dev s)) -> spi_room (dev s) ->
    ram (hw_write spi0_DR b s) = ram s /\
    view (dev (hw_write spi0_DR b s)) = spi_exchange (u8 b) (view (dev s));
  spi_dr_read : forall s b rx, io_rx (view (dev s)) = b :: rx ->
    let '(v, s') := hw_read spi0_DR s in
    u8 (u32 v) = b /\ ram s' = ram s /\ view (dev s') = set_rx rx (view (dev s));
  spi_cr0_write : forall x s, ram (hw_write spi0_CR0 x s) = ram s /\
    view (dev (hw_write spi0_CR0 x s)) = set_cr0 x (view (dev s));
  spi_cpsr_write : forall x s, ram (hw_write spi0_CPSR x s) = ram s /\
    view (dev (hw_write spi0_CPSR x s)) = set_cpsr x (view (dev s));
  spi_cr1_write : forall x s, ram (hw_write spi0_CR1 x s) = ram s /\
    view (dev (hw_write spi0_CR1 x s)) = set_cr1 x (view (dev s));
  spi_cr1_read : forall s, is_u32 (io_cr1 (view (dev s))) ->
    hw_read spi0_CR1 s = (io_cr1 (view (dev s)), snd (hw_read spi0_CR1 s)) /\
    ram (snd (hw_read spi0_CR1 s)) = ram s /\
    view (dev (snd (hw_read spi0_CR1 s))) = view (dev s);
}.

(** GPIO, pads and SIO: configuring a pin or an output enable touches no
    device; GPIO 9 drives the slave's active-low CS; the set and clear registers
    act on the bits written as one. *)
Class GpioLaws := {
  gpio_config : forall r v s,
    r = sio_OE_SET \/ (exists i, 0 <= i < 30 /\ (r = io_bank0_gpio_CTRL i \/ r = pads_bank0_gpio i)) ->
    ram (hw_write r v s) = ram s /\ view (dev (hw_write r v s)) = view (dev s);
  gpio_read : forall r s, r = sio_OUT_SET \/ r = sio_OUT_CLR ->
    ram (snd (hw_read r s)) = ram s /\ view (dev (snd (hw_read r s))) = view (dev s);
  gpio_set : forall v s, bit_set v 9 = true ->
    ram (hw_write sio_OUT_SET v s) = ram s /\
    view (dev (hw_write sio_OUT_SET v s)) =
      set_card (select false (io_card (view (dev s)))) (view (dev s));
  gpio_clr : forall v s, bit_set v 9 = true ->
    ram (hw_write sio_OUT_CLR v s) = ram s /\
    view (dev (hw_write sio_OUT_CLR v s)) =
      set_card (select true (io_card (view (dev s)))) (view (dev s));
}.

(** The timer counts microseconds modulo 2^64; reading TIMELR latches TIMEHR.
    Time does not go back, a register access takes less than 2^32
    microseconds, and time advances within [timer_latency] reads. *)
Class TimerLaws := {
  timer_wait : D -> nat;
  timer_latency : nat;
  timer_wait_bound : forall d, (timer_wait d <= timer_latency)%nat;
  timer_lr_read : forall s, let '(v, s') := hw_read timer_LR s in
    ram s' = ram s /\ exists t, v = t mod 4294967296 /\
      io_time (view (dev s)) <= t < io_time (view (dev s)) + 4294967296 /\
      view (dev s') = set_time t t (view (dev s)) /\
      (io_time (view (dev s)) < t \/ (timer_wait (dev s') < timer_wait (dev s))%nat);
  timer_hr_read : forall s, let '(v, s') := hw_read timer_HR s in
    ram s' = ram s /\ v = io_latch (view (dev s)) / 4294967296 mod 4294967296 /\
    view (dev s') = view (dev s) /\ timer_wait (dev s') = timer_wait (dev s);
}.

(** UART0 (PL011): FR bit 5 is "transmit FIFO full", bit 4 "receive FIFO empty". *)
Class UartLaws := {
  uart_wait : D -> nat;
  uart_latency : nat;
  uart_room : D -> Prop;
  uart_wait_bound : forall d, (uart_wait d <= uart_latency)%nat;
  uart_fr_read : forall s, let '(v, s') := hw_read uart_FR s in
    ram s' = ram s /\ view (dev s') = view (dev s) /\
    (if bit_set (u32 v) 5 then (uart_wait (dev s') < uart_wait (dev s))%nat else uart_room (dev s')) /\
    (bit_set (u32 v) 4 = false -> io_uart_in (view (dev s)) <> []) /\
    (bit_set (u32 v) 4 = true ->
       io_uart_in (view (dev s)) = [] \/ (uart_wait (dev s') < uart_wait (dev s))%nat);
  uart_dr_write : forall b s, uart_room (dev s) ->
    ram (hw_write uart_DR b s) = ram s /\
    view (dev (hw_write uart_DR b s)) =
      set_uart_out (io_uart_out (view (dev s)) ++ [u8 b]) (view (dev s));
  uart_dr_read : forall s b l, io_uart_in (view (dev s)) = b :: l ->
    let '(v, s') := hw_read uart_DR s in
    u8 (u32 v) = b /\ ram s' = ram s /\ view (dev s') = set_uart_in l (view (dev s));
}.

(** The DMA engine.  Nothing is said about a transfer in progress, except
    that its result is in memory once BUSY reads as zero. *)
Class DmaLaws := {
  dma_wait : D -> nat;
  dma_latency : nat;
  dma_wait_bound : forall d, (dma_wait d <= dma_latency)%nat;
  dma_wait_mono : forall r s, r = timer_LR \/ r = timer_HR ->
    (dma_wait (dev (snd (hw_read r s))) <= dma_wait (dev s))%nat;
  dma_read_addr_write : forall ch x s, 0 <= ch < 12 -> let c := io_dma (view (dev s)) ch in
    ch_busy c = false ->
    ram (hw_write (dma_al0_READ_ADDR ch) x s) = ram s /\
    view (dev (hw_write (dma_al0_READ_ADDR ch) x s)) =
      set_dma ch (DmaChannel x (ch_write c) (ch_count c) (ch_ctrl c) false) (view (dev s));
  dma_write_addr_write : forall ch x s, 0 <= ch < 12 -> let c := io_dma (view (dev s)) ch in
    ch_busy c = false ->
    ram (hw_write (dma_al0_WRITE_ADDR ch) x s) = ram s /\
    view (dev (hw_write (dma_al0_WRITE_ADDR ch) x s)) =
      set_dma ch (DmaChannel (ch_read c) x (ch_count c) (ch_ctrl c) false) (view (dev s));
  dma_count_write : forall ch x s, 0 <= ch < 12 -> let c := io_dma (view (dev s)) ch in
    ch_busy c = false ->
    ram (hw_write (dma_al0_TRANS_COUNT ch) x s) = ram s /\
    view (dev (hw_write (dma_al0_TRANS_COUNT ch) x s)) =
      set_dma ch (DmaChannel (ch_read c) (ch_write c) x (ch_ctrl c) false) (view (dev s));
  dma_ctrl_trig_write : forall ch x s, 0 <= ch < 12 -> let c := io_dma (view (dev s)) ch in
    ch_busy c = false -> bit_set x 0 = true ->
    ram (hw_write (dma_al0_CTRL_TRIG ch) x s) = ram s /\
    view (dev (hw_write (dma_al0_CTRL_TRIG ch) x s)) =
      set_dma ch (DmaChannel (ch_read c) (ch_write c) (ch_count c) x true) (view (dev s));
  dma_idle_read : forall ch s, 0 <= ch < 12 -> ch_busy (io_dma (view (dev s)) ch) = false ->
    let '(v, s') := hw_read (dma_al1_CTRL ch) s in
    bit_set (u32 v) 24 = false /\ ram s' = ram s /\ view (dev s') = view (dev s);
  dma_busy_read : forall ch s l, 0 <= ch < 12 -> let c := io_dma (view (dev s)) ch in
    ch_busy c = true -> ch_ctrl c = dma_copy_config ch ->
    peeks (ram s) (ch_read c) (Z.to_nat (ch_count c)) = Some l ->
    mapped (ram s) (ch_write c) (ch_write c + ch_count c) ->
    ch_read c + ch_count c <= ch_write c \/ ch_write c + ch_count c <= ch_read c ->
    let '(v, s') := hw_read (dma_al1_CTRL ch) s in
    (bit_set (u32 v) 24 = true /\ ram s' = ram s /\ view (dev s') = view (dev s) /\
       (dma_wait (dev s') < dma_wait (dev s))%nat) \/
    (bit_set (u32 v) 24 = false /\ pokes (ram s) (ch_write c) l = Some (ram s') /\
       view (dev s') = set_dma ch (DmaChannel (ch_read c + ch_count c) (ch_write c + ch_count c) 0
                                     (ch_ctrl c) false) (view (dev s)));
}.

(** Registers that hold what was last written to them: oscillators, PLL,
    clock multiplexers, resets, watchdog tick, exception priorities, and the
    UART's configuration.  SysTick is at the address the code gives it. *)
Definition config_registers : list Z :=
  [xosc_CTRL; rosc_CTRL; pll_sys_PWR; pll_sys_FBDIV_INT; pll_sys_PRIM; clocks_REF_CTRL; clocks_SYS_CTRL;
   clocks_PERI_CTRL; watchdog_TICK; resets_RESET; scb_SHPR2; scb_SHPR3; syst_RVR; syst_CVR; syst_CSR;
   uart_IBRD; uart_FBRD; uart_LCR_H; uart_LCR].

(** Bit [n] of status register [r] comes on when the configuration [c] is such
    that the crystal oscillator is enabled, the PLL is powered, a clock source
    is selected, or a block is out of reset. *)
Definition settles (c : Z -> Z) (r n : Z) : bool :=
  if r =? xosc_STATUS then (n =? 31) && (Z.land (Z.shiftr (c xosc_CTRL) 12) 0xFFF =? 0xFAB)
  else if r =? pll_sys_CS then (n =? 31) && negb (bit_set (c pll_sys_PWR) 0) && negb (bit_set (c pll_sys_PWR) 5)
         && negb (bit_set (c resets_RESET) 12) && (16 <=? c pll_sys_FBDIV_INT)
  else if r =? clocks_REF_SELECTED then (n =? 2) && (Z.land (c clocks_REF_CTRL) 3 =? 2)
  else if r =? clocks_SYS_SELECTED then (n =? 1) && (Z.land (c clocks_SYS_CTRL) 1 =? 1)
  else if r =? resets_RESET_DONE then (0 <=? n) && (n <? 25) && negb (bit_set (c resets_RESET) n)
  else false.

(** [cfg] is the contents of those registers.  A status bit that is due comes
    on within [boot_latency] reads. *)
Class BootLaws := {
  cfg : D -> Z -> Z;
  boot_wait : D -> nat;
  boot_latency : nat;
  boot_wait_bound : forall d, (boot_wait d <= boot_latency)%nat;
  cfg_read : forall r s, r ∈ config_registers ->
    let '(v, s') := hw_read r s in
    v = cfg (dev s) r /\ ram s' = ram s /\ view (dev s') = view (dev s) /\
    forall q, cfg (dev s') q = cfg (dev s) q;
  cfg_write : forall r x s, r ∈ config_registers ->
    ram (hw_write r x s) = ram s /\ view (dev (hw_write r x s)) = view (dev s) /\
    forall q, cfg (dev (hw_write r x s)) q = if q =? r then x else cfg (dev s) q;
  status_read : forall r n s, settles (cfg (dev s)) r n = true ->
    let '(v, s') := hw_read r s in
    ram s' = ram s /\ view (dev s') = view (dev s) /\ (forall q, cfg (dev s') q = cfg (dev s) q) /\
    (bit_set (u32 v) n = true \/ (boot_wait (dev s') < boot_wait (dev s))%nat);
}.
End Laws.

(** Only time has passed. *)
Definition only_time {D C} `{View D C} (s s' : machine D) : Prop :=
  ram s' = ram s /\ exists t l, io_time (view (dev s)) <= t /\
    view (dev s') = set_time t l (view (dev s)).

(** ** Reasoning about register accesses *)

Section RegisterRules.
Context {D : Type} `{Hardware D}.

Lemma reg_read_ok h r s (Q : Z -> machine D -> Prop) :
  (let '(v, s') := hw_read r s in Q (u32 v) s') -> wpg h (reg_read r) Q s.
Proof. unfold wpg, reg_read. by destruct (hw_read r s) as [v s']. Qed.

Lemma reg_write_ok h r v s (Q : unit -> machine D -> Prop) :
  Q tt (hw_write r (u32 v) s) -> wpg h (reg_write r v) Q s.
Proof. done. Qed.

(** A polling loop ends with an accepted value when an invariant of the
    machine is kept and a measure of the device decreases on refused ones. *)
Lemma wp_spin `{Fuel} (w : D -> nat) r (stop : Z -> bool) (I : machine D -> Prop) (Q : unit -> machine D -> Prop) s :
  I s -> (w (dev s) < fuel)%nat ->
  (forall s, I s -> let '(v, s') := hw_read r s in
     if stop (u32 v) then Q tt s' else I s' /\ (w (dev s') < w (dev s))%nat) ->
  wp (spin r stop) Q s.
Proof.
  intros HI Hw Hstep.
  apply (wp_while (fun n (_ : unit) s => I s /\ n = w (dev s)) _ _) with (n := w (dev s)); [|done..].
  intros n [] t [Ht ->]. wp_step. apply reg_read_ok. specialize (Hstep t Ht).
  destruct (hw_read r t) as [v t']. destruct (stop (u32 v)).
  - by apply wpg_ret.
  - wp_steps. destruct Hstep as [? ?]. eauto.
Qed.
End RegisterRules.
