(* ===== verification/SimBoard.v ===== *)
(** * A simulated board

    One executable instance of the peripheral laws of Board.v: devices that
    are always ready, a timer that advances at every read, a DMA engine that
    finishes a transfer when its status is polled.  It shows that the laws
    are satisfiable together and it is what the witnesses of the driver
    theorems run on. *)
From S2P Require Import Prelude Bytes Board.

(** A slave that answers bytes. *)
Class ByteSlave (C : Type) `{SpiSlave C} := xfer_u8 : forall b c, is_u8 (fst (xfer b c)).

(** The state is the abstract one; its queues are read modulo 256.  With it
    come the contents of the configuration registers, latest write first. *)
Record sim (C : Type) := SimWith { sim_io : io C; sim_cfg : list (Z * Z) }.
Arguments SimWith {C}. Arguments sim_io {C}. Arguments sim_cfg {C}.

(** A board straight out of reset. *)
Definition Sim {C} (v : io C) : sim C := SimWith v [].

(** The value of a register that has not been written is that after reset. *)
Definition reset_value (r : Z) : Z :=
  if r =? watchdog_TICK then 0x200 else if r =? resets_RESET then 0x01FFFFFF else
  if r =? pll_sys_PWR then 0x2D else if r =? pll_sys_PRIM then 0x77000 else 0.
Definition cfg_lookup (l : list (Z * Z)) (r : Z) : Z :=
  match List.find (fun p => fst p =? r) l with Some p => snd p | None => reset_value r end.

#[export] Instance sim_view {C} : View (sim C) C := fun d =>
  let v := sim_io d in
  Io (map u8 (io_rx v)) (io_card v) (io_cr0 v) (io_cr1 v) (io_cpsr v) (io_uart_out v)
     (map u8 (io_uart_in v)) (io_time v) (io_latch v) (io_dma v).

Section Sim.
Context {C : Type} `{SpiSlave C}.

Definition sim_set (f : io C -> io C) (s : machine (sim C)) : machine (sim C) :=
  Machine (ram s) (SimWith (f (sim_io (dev s))) (sim_cfg (dev s))).

(** Polling the status of a DMA channel completes its transfer. *)
Definition sim_dma_poll (ch : Z) (s : machine (sim C)) : machine (sim C) :=
  let c := io_dma (sim_io (dev s)) ch in
  if ch_busy c then
    match l ← peeks (ram s) (ch_read c) (Z.to_nat (ch_count c)); pokes (ram s) (ch_write c) l with
    | Some r => Machine r (SimWith (set_dma ch (DmaChannel (ch_read c + ch_count c)
                  (ch_write c + ch_count c) 0 (ch_ctrl c) false) (sim_io (dev s))) (sim_cfg (dev s)))
    | None => s
    end
  else s.

Definition sim_read (r : Z) (s : machine (sim C)) : Z * machine (sim C) :=
  let v := sim_io (dev s) in
  if r =? spi0_SR then (match io_rx v with [] => 2 | _ => 6 end, s)
  else if r =? spi0_DR then (hd 0 (io_rx v), sim_set (fun v => set_rx (tl (io_rx v)) v) s)
  else if r =? spi0_CR1 then (io_cr1 v, s)
  else if r =? timer_LR then
    ((io_time v + 1) mod 4294967296, sim_set (set_time (io_time v + 1) (io_time v + 1)) s)
  else if r =? timer_HR then (io_latch v / 4294967296 mod 4294967296, s)
  else if r =? uart_FR then (match io_uart_in v with [] => 16 | _ => 0 end, s)
  else if r =? uart_DR then
    (hd 0 (io_uart_in v), sim_set (fun v => set_uart_in (tl (io_uart_in v)) v) s)
  else if (DMA_BASE <=? r) && (r <? DMA_BASE + 64 * 12) && ((r - DMA_BASE) mod 64 =? 16) then
    (0, sim_dma_poll ((r - DMA_BASE) / 64) s)
  else if (r =? xosc_STATUS) || (r =? pll_sys_CS) then (2147483648, s)
  else if (r =? clocks_REF_SELECTED) || (r =? clocks_SYS_SELECTED) then (6, s)
  else if r =? resets_RESET_DONE then (0x01FFFFFF, s)
  else (cfg_lookup (sim_cfg (dev s)) r, s).

(** A write to register [k] of DMA channel [ch]. *)
Definition sim_dma_write (ch k x : Z) (v : io C) : io C :=
  let c := io_dma v ch in
  if k =? 0 then set_dma ch (DmaChannel x (ch_write c) (ch_count c) (ch_ctrl c) (ch_busy c)) v
  else if k =? 4 then set_dma ch (DmaChannel (ch_read c) x (ch_count c) (ch_ctrl c) (ch_busy c)) v
  else if k =? 8 then set_dma ch (DmaChannel (ch_read c) (ch_write c) x (ch_ctrl c) (ch_busy c)) v
  else if k =? 12 then
    set_dma ch (DmaChannel (ch_read c) (ch_write c) (ch_count c) x (bit_set x 0)) v
  else v.

Definition sim_write (r x : Z) (s : machine (sim C)) : machine (sim C) :=
  if r =? spi0_DR then sim_set (spi_exchange (u8 x)) s
  else if r =? spi0_CR0 then sim_set (set_cr0 x) s
  else if r =? spi0_CR1 then sim_set (set_cr1 x) s
  else if r =? spi0_CPSR then sim_set (set_cpsr x) s
  else if r =? sio_OUT_SET then
    if bit_set x 9 then sim_set (fun v => set_card (select false (io_card v)) v) s else s
  else if r =? sio_OUT_CLR then
    if bit_set x 9 then sim_set (fun v => set_card (select true (io_card v)) v) s else s
  else if r =? uart_DR then sim_set (fun v => set_uart_out (io_uart_out v ++ [u8 x]) v) s
  else if (DMA_BASE <=? r) && (r <? DMA_BASE + 64 * 12) then
    sim_set (sim_dma_write ((r - DMA_BASE) / 64) ((r - DMA_BASE) mod 64) x) s
  else Machine (ram s) (SimWith (sim_io (dev s)) ((r, x) :: sim_cfg (dev s))).

#[export] Instance sim_hardware : Hardware (sim C) := {
  hw_read := sim_read;
  hw_write := sim_write;
}.
End Sim.

(** ** The laws *)

Section SimLaws.
Context {C : Type} `{SL : SpiSlave C} `{BS : !ByteSlave C}.

Lemma u8_u32 x : u8 (u32 x) = u8 x.
Proof. unfold u8, u32. dlia. Qed.

Lemma spi_exchange_sim b (v : io C) :
  sim_view (Sim (spi_exchange b v)) = spi_exchange b (sim_view (Sim v)).
Proof.
  unfold spi_exchange, sim_view. cbn. pose proof (xfer_u8 b (io_card v)) as Hr.
  destruct (xfer b (io_card v)) as [r c]. cbn in Hr. rewrite length_map.
  destruct (_ <=? 7)%nat; [|done]. unfold set_rx, set_card; cbn. rewrite map_app. cbn.
  by rewrite (u8_small r).
Qed.

#[export] Instance sim_spi : SpiLaws (sim C) C.
Proof.
  refine {| spi_wait := fun _ => O; spi_latency := O; spi_room := fun _ => True;
            spi_idle := fun _ => True |}.
  - done.
  - intros [m [[[|b l] ? ? ? ? ? ? ? ? ?]]]; cbn; split_and!; try done; intros; try done; by left.
  - intros b s _ _. cbn. split; [done|]. destruct s as [m [v]]. cbn. apply spi_exchange_sim.
  - intros [m [[[|c l] ? ? ? ? ? ? ? ? ?]]] b rx; cbn; [done|]. intros [= <- <-]. split_and!; [apply (u8_u32 c)|done|done].
  - done.
  - done.
  - done.
  - done.
Defined.

Lemma sim_cs_write b v (s : machine (sim C)) :
  bit_set v 9 = true ->
  hw_write (if b : bool then sio_OUT_CLR else sio_OUT_SET) v s =
    sim_set (fun v => set_card (select b (io_card v)) v) s.
Proof.
  intros Hv. destruct b.
  - transitivity (if bit_set v 9
      then sim_set (fun v => set_card (select true (io_card v)) v) s else s); [done|by rewrite Hv].
  - transitivity (if bit_set v 9
      then sim_set (fun v => set_card (select false (io_card v)) v) s else s); [done|by rewrite Hv].
Qed.

#[export] Instance sim_gpio : GpioLaws (sim C) C.
Proof.
  split.
  - intros r v s Hr. assert (hw_write r v s = Machine (ram s) (SimWith (sim_io (dev s)) ((r, v) :: sim_cfg (dev s)))) as ->; [|done]. unfold hw_write, sim_hardware, sim_write.
    assert (r = sio_OE_SET \/ IO_BANK0_BASE <= r < PADS_BANK0_BASE + 124) as Hr'.
    { destruct Hr as [->|(i & Hi & [-> | ->])]; [by left|right..];
        unfold io_bank0_gpio_CTRL, pads_bank0_gpio, IO_BANK0_BASE, PADS_BANK0_BASE; lia. }
    unfold IO_BANK0_BASE, PADS_BANK0_BASE in Hr'.
    destruct Hr' as [->|Hr']; [done|].
    repeat match goal with |- context [r =? ?c] => destruct (Z.eqb_spec r c) as [->|_];
      [exfalso; revert Hr'; vm_compute; intros [??]; by auto|] end.
    unfold DMA_BASE. destruct (Z.leb_spec 0x50000000 r); [lia|done].
  - intros r s [-> | ->]; done.
  - intros v s Hv. by rewrite (sim_cs_write false v s Hv).
  - intros v s Hv. by rewrite (sim_cs_write true v s Hv).
Defined.

#[export] Instance sim_boot : BootLaws (sim C) C.
Proof.
  refine {| cfg := fun d => cfg_lookup (sim_cfg d); boot_wait := fun _ => O; boot_latency := O |}.
  - done.
  - intros r s Hr. repeat (apply elem_of_cons in Hr as [->|Hr]; [done|]). by apply elem_of_nil in Hr.
  - intros r x s Hr.
    assert (hw_write r x s = Machine (ram s) (SimWith (sim_io (dev s)) ((r, x) :: sim_cfg (dev s)))) as ->.
    { repeat (apply elem_of_cons in Hr as [->|Hr]; [done|]). by apply elem_of_nil in Hr. }
    split; [done|]. split; [done|]. intros q. cbn. unfold cfg_lookup. cbn. rewrite (Z.eqb_sym q).
    by destruct (r =? q).
  - intros r n s. unfold settles.
    destruct (Z.eqb_spec r xosc_STATUS) as [->|_].
    { intros [->%Z.eqb_eq _]%andb_prop. cbn. split_and!; try done. by left. }
    destruct (Z.eqb_spec r pll_sys_CS) as [->|_].
    { rewrite !andb_true_iff. intros [[[[->%Z.eqb_eq _] _] _] _]. cbn. split_and!; try done. by left. }
    destruct (Z.eqb_spec r clocks_REF_SELECTED) as [->|_].
    { intros [->%Z.eqb_eq _]%andb_prop. cbn. split_and!; try done. by left. }
    destruct (Z.eqb_spec r clocks_SYS_SELECTED) as [->|_].
    { intros [->%Z.eqb_eq _]%andb_prop. cbn. split_and!; try done. by left. }
    destruct (Z.eqb_spec r resets_RESET_DONE) as [->|_]; [|done].
    rewrite !andb_true_iff. intros [[Hn0%Z.leb_le Hn%Z.ltb_lt] _]. cbn -[bit_set]. split_and!; try done. left.
    rewrite bit_set_testbit by lia. change (u32 33554431) with (Z.ones 25). by apply Z.ones_spec_low.
Defined.

#[export] Instance sim_timer : TimerLaws (sim C) C.
Proof.
  refine {| timer_wait := fun _ => O; timer_latency := O |}.
  - done.
  - intros [m [v]]. cbn. split; [done|]. exists (io_time v + 1). split_and!; [done|lia|lia|done|left; lia].
  - intros [m [v]]. cbn. done.
Defined.

#[export] Instance sim_uart : UartLaws (sim C) C.
Proof.
  refine {| uart_wait := fun _ => O; uart_latency := O; uart_room := fun _ => True |}.
  - done.
  - intros [m [[? ? ? ? ? ? [|b l] ? ? ?]]]; cbn; split_and!; try done; intros; try done; by left.
  - intros b [m [v]] _. done.
  - intros [m [[? ? ? ? ? ? [|c k] ? ? ?]]] b l; cbn; [done|]. intros [= <- <-]. split_and!; [apply (u8_u32 c)|done|done].
Defined.

Lemma sim_dma_write_eq ch k x (s : machine (sim C)) :
  0 <= ch < 12 -> 0 <= k < 64 ->
  hw_write (DMA_BASE + 64 * ch + k) x s = sim_set (sim_dma_write ch k x) s.
Proof.
  intros Hc Hk. unfold hw_write, sim_hardware, sim_write.
  set (r := DMA_BASE + 64 * ch + k). assert (0x50000000 <= r < 0x50000300) as Hr by (subst r; unfold DMA_BASE; lia).
  repeat match goal with |- context [r =? ?c] => destruct (Z.eqb_spec r c) as [E|_];
    [exfalso; rewrite E in Hr; revert Hr; vm_compute; intros [??]; by auto|] end.
  unfold DMA_BASE at 1 2. destruct (Z.leb_spec 0x50000000 r); [|lia].
  destruct (Z.ltb_spec r (0x50000000 + 64 * 12)); [|lia]. cbn [andb].
  replace ((r - DMA_BASE) / 64) with ch by (subst r; dlia).
  by replace ((r - DMA_BASE) mod 64) with k by (subst r; dlia).
Qed.

Lemma sim_dma_read_eq ch (s : machine (sim C)) :
  0 <= ch < 12 -> hw_read (dma_al1_CTRL ch) s = (0, sim_dma_poll ch s).
Proof.
  intros Hc. unfold hw_read, sim_hardware, sim_read, dma_al1_CTRL.
  set (r := DMA_BASE + 64 * ch + 16). assert (0x50000000 <= r < 0x50000300) as Hr by (subst r; unfold DMA_BASE; lia).
  repeat match goal with |- context [r =? ?c] => destruct (Z.eqb_spec r c) as [E|_];
    [exfalso; rewrite E in Hr; revert Hr; vm_compute; intros [??]; by auto|] end.
  unfold DMA_BASE at 1 2. destruct (Z.leb_spec 0x50000000 r); [|lia].
  destruct (Z.ltb_spec r (0x50000000 + 64 * 12)); [|lia]. cbn [andb].
  replace ((r - DMA_BASE) / 64) with ch by (subst r; dlia).
  by replace ((r - DMA_BASE) mod 64) with 16 by (subst r; dlia).
Qed.

#[export] Instance sim_dma : DmaLaws (sim C) C.
Proof.
  refine {| dma_wait := fun _ => O; dma_latency := O |}.
  - done.
  - done.
  - intros ch x [m [v]] Hc c Hb. unfold dma_al0_READ_ADDR. rewrite <- (Z.add_0_r (_ + 64 * ch)).
    rewrite sim_dma_write_eq by lia. split; [done|]. subst c. cbn in *. by rewrite Hb.
  - intros ch x [m [v]] Hc c Hb. unfold dma_al0_WRITE_ADDR.
    rewrite sim_dma_write_eq by lia. split; [done|]. subst c. cbn in *. by rewrite Hb.
  - intros ch x [m [v]] Hc c Hb. unfold dma_al0_TRANS_COUNT.
    rewrite sim_dma_write_eq by lia. split; [done|]. subst c. cbn in *. by rewrite Hb.
  - intros ch x [m [v]] Hc c Hb Hx. unfold dma_al0_CTRL_TRIG.
    rewrite sim_dma_write_eq by lia. split; [done|]. cbn -[bit_set] in *. by rewrite Hx.
  - intros ch [m [v]] Hc Hb. rewrite sim_dma_read_eq by done. unfold sim_dma_poll. cbn in *. by rewrite Hb.
  - intros ch [m [v]] l Hc c Hb Hctl Hp Hm _. rewrite sim_dma_read_eq by done. right.
    subst c. unfold sim_dma_poll. cbn in *. rewrite Hb, Hp. cbn.
    destruct (pokes_mapped m (ch_write (io_dma v ch)) l) as [m' E].
    { rewrite (length_peeks _ _ _ _ Hp). intros q ?. apply Hm.
      destruct (Z.le_gt_cases 0 (ch_count (io_dma v ch))); lia. }
    rewrite E. done.
Defined.
End SimLaws.

(** ** A board to run on *)

(** An SPI slave that always answers 0xFF: an empty card slot. *)
#[export] Instance no_card : SpiSlave unit := { xfer := fun _ c => (255, c); select := fun _ c => c }.
#[export] Instance no_card_byte : ByteSlave unit.
Proof. intros b c. unfold is_u8. cbn. lia. Qed.

(** Memory [[a, a + n)] with byte [f p] at [p]. *)
Definition mem_of (a n : Z) (f : Z -> Z) : mem :=
  list_to_map ((fun i => (a + Z.of_nat i, f (a + Z.of_nat i))) <$> seq 0 (Z.to_nat n)).

Lemma mem_of_lookup a n f q : a <= q < a + n -> mem_of a n f !! q = Some (f q).
Proof.
  intros Hq. unfold mem_of. apply elem_of_list_to_map.
  - rewrite <- list_fmap_compose. apply NoDup_fmap_2; [|apply NoDup_seq]. intros i j. cbn. lia.
  - apply list_elem_of_fmap. exists (Z.to_nat (q - a)).
    replace (a + Z.of_nat (Z.to_nat (q - a))) with q by lia. split; [done|]. apply elem_of_seq. lia.
Qed.

Lemma mem_of_outside a n f q : 0 <= n -> ~ a <= q < a + n -> mem_of a n f !! q = None.
Proof.
  intros Hn Hq. unfold mem_of. apply not_elem_of_list_to_map. rewrite <- list_fmap_compose.
  intros (i & -> & Hi%elem_of_seq)%list_elem_of_fmap. cbn in Hq. lia.
Qed.

Lemma mem_of_unmapped a n f x y : 0 <= n -> x < y -> x < a \/ a + n <= x -> ~ mapped (mem_of a n f) x y.
Proof.
  intros Hn Hxy Hx H. destruct (H x ltac:(lia)) as [v E]. change (mem_of a n f !! x = Some v) in E.
  by rewrite mem_of_outside in E by lia.
Qed.

(** What is read there, without computing the map. *)
Lemma mem_of_peeks a n f p k : a <= p -> p + Z.of_nat k <= a + n ->
  peeks (mem_of a n f) p k = Some ((fun i => f (p + Z.of_nat i)) <$> seq 0 k).
Proof.
  revert p. induction k as [|k IH]; intros p Ha Hb; [done|]. cbn [peeks].
  change (peek (mem_of a n f) p) with (mem_of a n f !! p). rewrite mem_of_lookup by lia. cbn [mbind option_bind].
  rewrite IH by lia. cbn [seq]. rewrite fmap_cons, <- fmap_S_seq, <- list_fmap_compose. rewrite Z.add_0_r.
  cbn [mbind option_bind]. do 2 f_equal. apply list_fmap_ext. intros _ i _. cbn. f_equal. lia.
Qed.

Lemma mem_of_mapped a n f x y : a <= x -> y <= a + n -> mapped (mem_of a n f) x y.
Proof.
  intros Hx Hy q Hq. change (is_Some (mem_of a n f !! q)). rewrite <- elem_of_dom. unfold mem_of.
  rewrite dom_list_to_map, elem_of_list_to_set, list_elem_of_fmap.
  exists (a + Z.of_nat (Z.to_nat (q - a)), f (a + Z.of_nat (Z.to_nat (q - a)))). split; [cbn [fst]; lia|].
  apply list_elem_of_fmap. exists (Z.to_nat (q - a)). split; [done|]. apply elem_of_seq. lia.
Qed.

Lemma mem_of_word a n f p v : a <= p -> p + 4 <= a + n -> p mod 4 = 0 -> is_u32 v ->
  (fun i => f (p + Z.of_nat i)) <$> seq 0 4 = le_split 4 v -> word_at (mem_of a n f) p v.
Proof. intros Ha Hb Hp Hv E. split; [done|]. split; [done|]. by rewrite mem_of_peeks, E by lia. Qed.

(** SPI0 enabled with 8-bit frames, [l] waiting on the UART, DMA idle. *)
Definition sim_board {C} (m : mem) (c : C) (l : list Z) : machine (sim C) :=
  Machine m (Sim (Io [] c 7 2 0 [] l 0 0 (fun _ => DmaChannel 0 0 0 0 false))).

#[export] Instance sim_fuel : Fuel := Z.to_nat 100000.
