(* ===== verification/Unistd.v ===== *)
(** * Timed waits (libc/src/unistd/usleep.c, sleep.c)

    The timer is read as two registers; [usleep] busy-waits on it. *)
From S2P Require Import Prelude Bytes Board SimBoard.

Section Unistd.
Context {D : Type} `{Hardware D} `{Fuel}.

(** TIMELR must be read first: it latches TIMEHR. *)
Definition readTime : M (machine D) Z :=
  let! timeLR := reg_read timer_LR in
  let! timeHR := reg_read timer_HR in
  ret (Z.lor (Z.shiftl timeHR 32) timeLR).

(** The subtraction is on [uint64_t]. *)
Definition usleep (usec : Z) : M (machine D) Z :=
  let! timeOld := readTime in
  do! while_loop fuel (fun _ =>
        let! now := readTime in
        if (now - timeOld) mod 2 ^ 64 <? u32 usec then ret (inl tt) else ret (inr tt)) tt in
  ret 0.

(** [seconds * 1000000] is a product of [unsigned int]s. *)
Definition sleep (seconds : Z) : M (machine D) Z :=
  usleep (u32 (u32 seconds * 1000000)).
End Unistd.

(** ** Properties *)

Section UnistdProofs.
Context {D C : Type} `{HW : Hardware D} `{F : Fuel} `{V : View D C}.
Context `{T : !TimerLaws D C}.

Lemma only_time_refl (s : machine D) : only_time s s.
Proof.
  split; [done|]. exists (io_time (view (dev s))), (io_latch (view (dev s))). split; [lia|].
  by destruct (view (dev s)).
Qed.

Lemma only_time_trans (a b c : machine D) : only_time a b -> only_time b c -> only_time a c.
Proof.
  intros [R1 (t1 & l1 & L1 & E1)] [R2 (t2 & l2 & L2 & E2)]. split; [congruence|].
  exists t2, l2. rewrite E1 in L2. cbn in L2. split; [lia|]. rewrite E2, E1. done.
Qed.

(** [P] is any property of the machine the timer registers cannot break. *)
Context (P : machine D -> Prop).
Context (P_timer : forall r s, r = timer_LR \/ r = timer_HR -> P s -> P (snd (hw_read r s))).

Lemma readTime_ok (s : machine D) (Q : Z -> machine D -> Prop) :
  P s ->
  (forall s', P s' -> only_time s s' ->
     io_time (view (dev s')) < io_time (view (dev s)) + 4294967296 ->
     (io_time (view (dev s)) < io_time (view (dev s')) \/
      (timer_wait D C (dev s') < timer_wait D C (dev s))%nat) ->
     Q (io_time (view (dev s')) mod 2 ^ 64) s') ->
  wp readTime Q s.
Proof.
  intros HP HQ. unfold readTime. wp_step. apply reg_read_ok.
  pose proof (timer_lr_read D C s) as L. pose proof (P_timer timer_LR s (or_introl eq_refl) HP) as P1.
  destruct (hw_read timer_LR s) as [v s1]. cbn in P1.
  destruct L as (R1 & t & -> & Ht & E1 & M1). wp_step. apply reg_read_ok.
  pose proof (timer_hr_read D C s1) as L. pose proof (P_timer timer_HR s1 (or_intror eq_refl) P1) as P2.
  destruct (hw_read timer_HR s1) as [w s2]. cbn in P2. destruct L as (R2 & -> & E2 & M2).
  apply wpg_ret.
  assert (io_time (view (dev s2)) = t) as Et by by rewrite E2, E1.
  rewrite E1. cbn [io_latch set_time].
  assert (Z.lor (Z.shiftl (u32 (t / 4294967296 mod 4294967296)) 32)
            (u32 (t mod 4294967296)) = t mod 2 ^ 64) as ->.
  { rewrite Z.lor_comm, !u32_small by (unfold is_u32; dlia).
    change 4294967296 with (2 ^ 32). rewrite lor_shiftl_add by dlia. dlia. }
  rewrite <- Et at 1. apply HQ; [done| | |].
  - split; [congruence|]. exists t, t. split; [apply Ht|]. by rewrite E2.
  - rewrite Et. apply Ht.
  - rewrite Et, M2. done.
Qed.

(** The fuel a wait of [usec] microseconds needs. *)
Definition usleep_fuel (usec : Z) : nat :=
  (S (Z.to_nat usec) * S (timer_latency D C))%nat.

Lemma usleep_ok usec (s : machine D) (Q : Z -> machine D -> Prop) :
  is_u32 usec -> (usleep_fuel usec < fuel)%nat -> P s ->
  (forall s', P s' -> only_time s s' ->
     io_time (view (dev s)) + usec <= io_time (view (dev s')) -> Q 0 s') ->
  wp (usleep usec) Q s.
Proof.
  intros Hu Hf HP HQ. unfold usleep. wp_step. apply readTime_ok; [done|].
  intros s1 P1 O1 _ _. wp_step. set (t0 := io_time (view (dev s1))).
  apply (wp_while (fun n (_ : unit) s' => P s' /\ only_time s1 s' /\ io_time (view (dev s')) - t0 <= usec /\
    n = (Z.to_nat (usec - (io_time (view (dev s')) - t0)) * S (timer_latency D C)
         + timer_wait D C (dev s'))%nat) _ _)
    with (n := (Z.to_nat usec * S (timer_latency D C) + timer_wait D C (dev s1))%nat).
  - intros n [] s2 (P2 & O2 & B2 & ->). wp_step. apply readTime_ok; [done|].
    intros s3 P3 O3 B3 M3. set (t := io_time (view (dev s3))).
    assert (t0 <= io_time (view (dev s2)) /\ io_time (view (dev s2)) <= t) as [L1 L2].
    { split.
      - destruct O2 as (_ & t2 & l2 & Hle & E). rewrite E. done.
      - destruct O3 as (_ & t3 & l3 & Hle & E). subst t. rewrite E. done. }
    fold t in B3. rewrite <- Zminus_mod. unfold is_u32 in Hu.
    rewrite u32_small, Z.mod_small by (done || lia).
    destruct (Z.ltb_spec (t - t0) usec).
    + wp_step. eexists. split; [|split; [done|split; [by eapply only_time_trans|
        split; [fold t; lia|reflexivity]]]].
      fold t. destruct M3 as [M3|M3].
      * pose proof (timer_wait_bound D C (dev s3)). fold t in M3.
        assert (S (Z.to_nat (usec - (t - t0))) <= Z.to_nat (usec - (io_time (view (dev s2)) - t0)))%nat
          by lia. nia.
      * assert (Z.to_nat (usec - (t - t0)) <= Z.to_nat (usec - (io_time (view (dev s2)) - t0)))%nat
          by lia. nia.
    + wp_steps. apply HQ; [done|by eapply only_time_trans, only_time_trans|].
      destruct O1 as (_ & t1 & l1 & Hle & E). subst t t0. rewrite E in *. cbn in *. lia.
  - unfold usleep_fuel in Hf. pose proof (timer_wait_bound D C (dev s1)). lia.
  - split; [done|]. split; [apply only_time_refl|]. fold t0. unfold is_u32 in Hu.
    split; [lia|]. by rewrite Z.sub_diag, Z.sub_0_r.
Qed.
End UnistdProofs.

Section UnistdTheorems.
Context {D C : Type} `{HW : Hardware D} `{F : Fuel} `{V : View D C}.
Context `{T : !TimerLaws D C}.

(** [usleep] returns 0, after at least [usec] microseconds of the hardware
    timer, and changes nothing but the time. *)
Theorem usleep_spec usec (s : machine D) :
  is_u32 usec -> (usleep_fuel (D := D) (C := C) usec < fuel)%nat ->
  wp (usleep usec) (fun r s' => r = 0 /\ only_time s s' /\
    io_time (view (dev s)) + usec <= io_time (view (dev s'))) s.
Proof. intros Hu Hf. by apply (usleep_ok (fun _ => True)). Qed.

(** [sleep(seconds)] waits for [seconds * 10^6] microseconds only as long
    as that product fits 32 bits; it waits for the product modulo 2^32. *)
Theorem sleep_spec seconds (s : machine D) :
  is_u32 seconds ->
  (usleep_fuel (D := D) (C := C) (u32 (seconds * 1000000)) < fuel)%nat ->
  wp (sleep seconds) (fun r s' => r = 0 /\ only_time s s' /\
    io_time (view (dev s)) + (seconds * 1000000) mod 2 ^ 32 <= io_time (view (dev s'))) s.
Proof.
  intros Hs Hf. unfold sleep. rewrite (u32_small seconds) by done.
  apply (usleep_ok (fun _ => True)); [done|apply u32_range|done|done|]. done.
Qed.
End UnistdTheorems.

(** ** The theorems on the simulated board *)

Lemma usleep_witness : exists s', usleep 1000 (sim_board ∅ tt []) = Ok (0, s').
Proof.
  assert (is_u32 1000) as Hu by (split; lia).
  pose proof (usleep_spec (D := sim unit) (C := unit) 1000 (sim_board ∅ tt []) Hu) as W.
  specialize (W ltac:(apply Nat.ltb_lt; vm_compute; reflexivity)).
  destruct (proj1 (wp_exact _ _ _) W) as (r & s' & E & -> & _). exists s'. exact E.
Defined.

(** [sleep(4295)] is over after 32.704 milliseconds, give or take the reads. *)
Lemma sleep_witness : exists s', sleep 4295 (sim_board ∅ tt []) = Ok (0, s').
Proof.
  assert (is_u32 4295) as Hu by (split; lia).
  pose proof (sleep_spec (D := sim unit) (C := unit) 4295 (sim_board ∅ tt []) Hu) as W.
  specialize (W ltac:(apply Nat.ltb_lt; vm_compute; reflexivity)).
  destruct (proj1 (wp_exact _ _ _) W) as (r & s' & E & -> & _). exists s'. exact E.
Defined.
