(* ===== verification/Uart.v ===== *)
(** * The serial console (src/driver/uart/uart.c)

    Polled output and input on UART0.  A [const char *] argument is a byte
    store and a pointer into it, so that strings in SRAM and local arrays are
    printed by the same code. *)
From Stdlib Require Import String Ascii.
From stdpp Require Import list.
From S2P Require Import Prelude Bytes Hexutils Board SimBoard.

(** The bytes of a string literal, without and with its terminator. *)
Definition chars (s : string) : list Z := map (fun c => Z.of_N (N_of_ascii c)) (list_ascii_of_string s).
Definition c_string (s : string) : list Z := chars s ++ [0].

Definition crlf : string := String (ascii_of_nat 13) (String (ascii_of_nat 10) EmptyString).

Section Uart.
Context {D : Type} `{Hardware D} `{Fuel}.

Definition uartTx (x : Z) : M (machine D) unit :=
  do! spin uart_FR (fun v => negb (bit_set v 5)) in
  reg_write uart_DR (u8 x).

Section Strings.
Context {T : Type} `{ByteStore T}.

Definition uart_puts (m : T) (str len : Z) : M (machine D) unit :=
  let! _ := for_loop (Z.to_nat (u32 len)) 0 (fun _ str =>
              let! c := on m (load8 str) in
              do! uartTx c in
              ret (str + 1)) str in
  ret tt.

Definition uartTxStr (m : T) (x : Z) : M (machine D) unit :=
  while_loop fuel (fun x =>
    let! c := on m (load8 x) in
    if c =? 0 then ret (inr tt)
    else do! uartTx c in ret (inl (x + 1))) x.
End Strings.

Definition uartRx : M (machine D) Z :=
  do! spin uart_FR (fun v => negb (bit_set v 4)) in
  let! v := reg_read uart_DR in
  ret (u8 v).

(** Fills [str] up to and including the carriage return, then overwrites the
    carriage return with a terminator.  Returns the updated store. *)
Definition uartRxStr {T} `{ByteStore T} (m : T) (str : Z) : M (machine D) T :=
  let! '(m, i) := while_loop fuel (fun '(m, dat, i) =>
      if dat =? 13 then ret (inr (m, i))
      else let! dat := uartRx in
           let! '(_, m) := within m (store8 (str + i) dat) in
           ret (inl (m, dat, i + 1))) (m, 0, 0) in
  let! '(_, m) := within m (store8 (str + (i - 1)) 0) in
  ret m.

Definition uartTxHexByte (byte : Z) : M (machine D) unit :=
  let! '(_, hex) := within (replicate 3 0) (byteToStr 0 (u8 byte)) in
  uartTxStr hex 0.

Definition uartTxDecByte (byte : Z) : M (machine D) unit :=
  let! '(_, dec) := within (replicate 4 0) (byteToDec 0 (u8 byte)) in
  uartTxStr dec 0.

Definition uartTxHex (n : Z) : M (machine D) unit :=
  let! '(_, hex) := within (replicate 9 0) (hexToStr 0 (u32 n)) in
  uartTxStr hex 0.

Definition uartTxDec (n : Z) : M (machine D) unit :=
  let! '(_, dec) := within (replicate 11 0) (intToDec 0 (u32 n)) in
  uartTxStr dec 0.

(** The integer and fractional divisors [uart_init] computes; dividing by a
    zero baud rate faults. *)
Definition uart_divisors (baud_rate : Z) : option (Z * Z) :=
  if baud_rate =? 0 then None else
  let baud_rate_div := u32 (8 * CLK_SYS_HZ) / baud_rate in
  let ibrd := Z.shiftr baud_rate_div 7 in
  if ibrd =? 0 then Some (1, 0)
  else Some (ibrd, Z.shiftr (Z.land baud_rate_div 0x7f + 1) 1).

Definition uart_init (baud_rate : Z) : M (machine D) unit :=
  let! '(ibrd, fbrd) := of_option (uart_divisors (u32 baud_rate)) in
  do! reg_write uart_IBRD ibrd in
  do! reg_write uart_FBRD fbrd in
  do! reg_write uart_LCR_H (Z.lor (Z.shiftl 3 5) (Z.shiftl 1 4)) in
  do! reg_write uart_LCR (Z.lor (Z.lor (Z.shiftl 1 9) (Z.shiftl 1 8)) (Z.shiftl 1 0)) in
  do! reg_write (io_bank0_gpio_CTRL 0) 2 in
  reg_write (io_bank0_gpio_CTRL 1) 2.
End Uart.

(** ** Properties *)

(** [s'] is [s] after the UART has accepted the bytes [l]. *)
Definition uart_sent {D C} `{View D C} (l : list Z) (s s' : machine D) : Prop :=
  ram s' = ram s /\
  view (dev s') = set_uart_out (io_uart_out (view (dev s)) ++ l) (view (dev s)).

(** [s'] is [s] after the bytes [l] have been taken from the UART. *)
Definition uart_received {D C} `{View D C} (l : list Z) (s s' : machine D) : Prop :=
  ram s' = ram s /\
  exists rest, io_uart_in (view (dev s)) = l ++ rest /\
    view (dev s') = set_uart_in rest (view (dev s)).

Section UartProofs.
Context {D C : Type} `{HW : Hardware D} `{F : Fuel} `{V : View D C} `{U : !UartLaws D C}.
Context (enough : (uart_latency D C < fuel)%nat).

Lemma uart_sent_refl (s : machine D) : uart_sent [] s s.
Proof. split; [done|]. rewrite app_nil_r. by destruct (view (dev s)). Qed.

Lemma uart_sent_trans l k (a b c : machine D) :
  uart_sent l a b -> uart_sent k b c -> uart_sent (l ++ k) a c.
Proof.
  intros [R1 E1] [R2 E2]. split; [congruence|]. rewrite E2, E1. cbn. by rewrite app_assoc.
Qed.

Lemma uartTx_ok x (s : machine D) (Q : unit -> machine D -> Prop) :
  (forall s', uart_sent [u8 x] s s' -> Q tt s') -> wp (uartTx x) Q s.
Proof.
  intros HQ. unfold uartTx. wp_step.
  apply (wp_spin (uart_wait D C) _ _ (fun s' => ram s' = ram s /\ view (dev s') = view (dev s))).
  - done.
  - pose proof (uart_wait_bound D C (dev s)). lia.
  - intros s1 [R1 E1]. pose proof (uart_fr_read D C s1) as L. destruct (hw_read uart_FR s1) as [v s2].
    destruct L as (R2 & E2 & M & _ & _). destruct (bit_set (u32 v) 5); cbn [negb].
    + split; [|done]. split; congruence.
    + apply reg_write_ok. destruct (uart_dr_write D C (u32 (u8 x)) s2 M) as [R3 E3].
      apply HQ. split; [congruence|]. rewrite E3, E2, E1.
      rewrite (u32_small (u8 x)) by width_lia. by rewrite (u8_small (u8 x)) by apply u8_range.
Qed.

Section Strings.
Context {T : Type} `{ByteStore T}.

(** The loop of [uart_puts]. *)
Lemma uart_puts_loop (m : T) l str i (s : machine D) :
  peeks m str (length l) = Some l -> Forall is_u8 l ->
  wp (for_loop (length l) i (fun _ str =>
        let! c := on m (load8 str) in do! uartTx c in ret (str + 1)) str)
     (fun p s' => uart_sent l s s') s.
Proof.
  intros E Hl. revert str i s E. induction Hl as [|b l Hb Hl IH]; intros str i s E.
  - apply wpg_ret, uart_sent_refl.
  - cbn [length for_loop] in *. cbn [peeks] in E.
    destruct (peek m str) as [c|] eqn:Ec; [|done]. cbn [mbind option_bind] in E.
    destruct (peeks m (str + 1) (length l)) as [k|] eqn:Ek; [|done].
    cbn [mbind option_bind] in E. injection E as -> ->.
    do 3 wp_step. eapply load8_ok; [done|]. wp_step. apply uartTx_ok. intros s1 S1.
    wp_step. eapply wpg_mono; [apply IH; done|]. intros ? s2 S2. rewrite u8_small in S1 by done.
    by apply (uart_sent_trans [b] l s s1).
Qed.

(** [uart_puts] sends exactly the [len] bytes at [str], in order, and
    changes nothing else. *)
Theorem uart_puts_spec (m : T) str l (s : machine D) :
  peeks m str (length l) = Some l -> Forall is_u8 l -> is_u32 (Z.of_nat (length l)) ->
  wp (uart_puts m str (Z.of_nat (length l))) (fun _ s' => uart_sent l s s') s.
Proof.
  intros E Hl Hlen. unfold uart_puts. rewrite u32_small, Nat2Z.id by done. wp_step.
  eapply wpg_mono; [by apply uart_puts_loop|]. intros ? s' S. by apply wpg_ret.
Qed.

Lemma uartTxStr_ok (m : T) l x (s : machine D) :
  peeks m x (S (length l)) = Some (l ++ [0]) -> Forall (fun c => 1 <= c < 256) l ->
  (length l < fuel)%nat ->
  wp (uartTxStr m x) (fun _ s' => uart_sent l s s') s.
Proof.
  intros E Hl Hf. unfold uartTxStr.
  apply (wp_while (fun n p s' => exists l1 l2, l = l1 ++ l2 /\ p = x + Z.of_nat (length l1) /\
    n = length l2 /\ uart_sent l1 s s') _ _) with (n := length l); [|done|].
  - intros n p s1 (l1 & l2 & -> & -> & -> & S1). do 2 wp_step.
    assert (peek m (x + Z.of_nat (length l1)) = ((l1 ++ l2) ++ [0]) !! length l1) as Ep.
    { eapply peeks_lookup; [exact E|]. rewrite length_app. lia. }
    rewrite <- app_assoc, lookup_app_r, Nat.sub_diag in Ep by lia.
    rewrite Forall_app in Hl. destruct Hl as [_ Hl2].
    destruct l2 as [|c l2]; cbn in Ep; (eapply load8_ok; [done|]).
    + cbn [Z.eqb]. wp_step. by rewrite app_nil_r.
    + inversion Hl2 as [|? ? Hc _]; subst. destruct (Z.eqb_spec c 0); [lia|].
      wp_step. apply uartTx_ok. intros s2 S2. wp_step. exists (length l2). cbn. split; [lia|].
      exists (l1 ++ [c]), l2. rewrite <- app_assoc, length_app. cbn.
      split_and!; [done|lia|done|]. rewrite u8_small in S2 by (unfold is_u8; lia).
      by eapply uart_sent_trans.
  - exists [], l. split_and!; [done|cbn; lia|done|apply uart_sent_refl].
Qed.
End Strings.

(** Printing a string literal without embedded zero. *)
Lemma uartTxStr_literal x (s : machine D) (Q : unit -> machine D -> Prop) :
  forallb (fun c => (1 <=? c) && (c <? 256)) (chars x) = true -> (length (chars x) < fuel)%nat ->
  (forall s', uart_sent (chars x) s s' -> Q tt s') -> wp (uartTxStr (c_string x) 0) Q s.
Proof.
  intros Hl Hf HQ. eapply wpg_mono; [apply (uartTxStr_ok (c_string x) (chars x) 0 s); [| |done]|by intros []].
  - unfold c_string. rewrite list_peeks; [|lia|rewrite length_app; cbn [length]; lia].
    cbn [Z.to_nat]. rewrite drop_0, take_ge; [done|rewrite length_app; cbn [length]; lia].
  - apply List.Forall_forall. intros c Hc. rewrite forallb_forall in Hl. specialize (Hl c Hc). lia.
Qed.

(** A digit string in a local array is printed as it is. *)
Lemma uartTxStr_digits ds (buf : list Z) (s : machine D) n :
  writes (replicate n 0) 0 (ds ++ [0]) buf -> Forall (fun c => 1 <= c < 256) ds ->
  (length ds < fuel)%nat -> wp (uartTxStr buf 0) (fun _ s' => uart_sent ds s s') s.
Proof.
  intros [E _] Hd Hf. apply uartTxStr_ok; [|done|done].
  by rewrite length_app, Nat.add_1_r in E.
Qed.

Lemma replicate_mapped n : mapped (replicate n 0) 0 (Z.of_nat n).
Proof.
  clear enough. intros q Hq. cbn. unfold list_peek. destruct (Z.leb_spec 0 q); [|lia].
  apply lookup_lt_is_Some. rewrite length_replicate. lia.
Qed.

Lemma uartTxDec_ok n (s : machine D) :
  is_u32 n -> (10 < fuel)%nat ->
  wp (uartTxDec n) (fun _ s' => exists ds, parse_digits 10 0 ds = Some n /\
    Forall is_digit ds /\ (n <> 0 -> exists c tl, ds = c :: tl /\ c <> 48) /\ uart_sent ds s s') s.
Proof.
  intros Hn Hf. unfold uartTxDec. rewrite u32_small by done. do 2 wp_step.
  eapply wpg_mono; [apply intToDec_ok; [done|apply (replicate_mapped 11)]|].
  intros ? buf (ds & Hlen & Hd & Hp & Hz & Hw).
  eapply wpg_mono; [eapply uartTxStr_digits; [exact Hw| |lia]|].
  - eapply Forall_impl; [exact Hd|]. unfold is_digit. lia.
  - intros ? s' S. eauto 10.
Qed.

(** [uartTxDec] prints the decimal digits of [n], without leading zeros;
    its 11-byte buffer is large enough for every 32-bit number. *)
Theorem uartTxDec_spec n (s : machine D) :
  is_u32 n -> (10 < fuel)%nat ->
  wp (uartTxDec n) (fun _ s' => exists ds, parse_digits 10 0 ds = Some n /\
    Forall is_digit ds /\ (n <> 0 -> exists c tl, ds = c :: tl /\ c <> 48) /\ uart_sent ds s s') s.
Proof. apply uartTxDec_ok. Qed.

Lemma digit_value_range ds base acc v :
  parse_digits base acc ds = Some v -> Forall (fun c => 1 <= c < 256) ds.
Proof.
  revert acc. induction ds as [|c ds IH]; intros acc E; [constructor|]. cbn in E.
  destruct (digit_value c) as [d|] eqn:Ec; [|done]. cbn in E.
  destruct (d <? base); [|done]. constructor; [|by eapply IH].
  unfold digit_value in Ec.
  destruct (Z.leb_spec 48 c), (Z.leb_spec c 57), (Z.leb_spec 65 c), (Z.leb_spec c 70);
    cbn in Ec; (lia || done).
Qed.

(** [uartTxHex] prints the eight hexadecimal digits of [n]. *)
Lemma uartTxHex_spec n (s : machine D) :
  is_u32 n -> (10 < fuel)%nat ->
  wp (uartTxHex n) (fun _ s' => exists ds, length ds = 8%nat /\ parse_digits 16 0 ds = Some n /\
    uart_sent ds s s') s.
Proof.
  intros Hn Hf. unfold uartTxHex. rewrite u32_small by done. do 2 wp_step.
  eapply wpg_mono; [apply hexToStr_spec; [done|apply (replicate_mapped 9)]|].
  intros ? buf (ds & Hlen & Hp & Hw).
  eapply wpg_mono; [eapply uartTxStr_digits; [exact Hw| |lia]|].
  - by eapply digit_value_range.
  - intros ? s' S. eauto 10.
Qed.

Lemma uartRx_ok (s : machine D) b l (Q : Z -> machine D -> Prop) :
  io_uart_in (view (dev s)) = b :: l ->
  (forall s', uart_received [b] s s' -> Q b s') -> wp uartRx Q s.
Proof.
  intros Hin HQ. unfold uartRx. wp_step.
  apply (wp_spin (uart_wait D C) _ _ (fun s' => ram s' = ram s /\ view (dev s') = view (dev s))).
  - done.
  - pose proof (uart_wait_bound D C (dev s)). lia.
  - intros s1 [R1 E1]. pose proof (uart_fr_read D C s1) as L. destruct (hw_read uart_FR s1) as [v s2].
    destruct L as (R2 & E2 & _ & _ & M). destruct (bit_set (u32 v) 4); cbn [negb].
    + split; [split; congruence|]. rewrite E1, Hin in M. by destruct (M eq_refl).
    + wp_step. apply reg_read_ok. pose proof (uart_dr_read D C s2 b l) as L.
      rewrite E2, E1 in L. specialize (L Hin). destruct (hw_read uart_DR s2) as [w s3].
      destruct L as (-> & R3 & E3). apply wpg_ret, HQ. split; [congruence|]. by exists l.
Qed.

Lemma uart_received_trans l k (a b c : machine D) :
  uart_received l a b -> uart_received k b c -> uart_received (l ++ k) a c.
Proof.
  intros [R1 (r1 & I1 & E1)] [R2 (r2 & I2 & E2)]. split; [congruence|]. exists r2.
  rewrite E1 in I2. cbn in I2. split; [rewrite I1, I2; by rewrite app_assoc|]. by rewrite E2, E1.
Qed.

Lemma uart_received_nil (s : machine D) : uart_received [] s s.
Proof. split; [done|]. eexists. split; [done|]. by destruct (view (dev s)). Qed.

(** [uartRxStr] stores the next input line at [str] with its carriage
    return replaced by a terminator, and consumes the line, provided the
    buffer has room for the line and the carriage return. *)
Theorem uartRxStr_spec {T} `{ByteStore T} (m : T) str line rest (s : machine D) :
  io_uart_in (view (dev s)) = line ++ 13 :: rest ->
  Forall (fun c => is_u8 c /\ c <> 13) line ->
  mapped m str (str + Z.of_nat (length line) + 1) -> (S (length line) < fuel)%nat ->
  wp (uartRxStr m str) (fun m' s' =>
    writes m str (line ++ [0]) m' /\ uart_received (line ++ [13]) s s') s.
Proof.
  intros Hin Hl Hm Hf. unfold uartRxStr. wp_step.
  apply (wp_while (fun n '(m1, dat, i) s1 => exists l1 l2,
     line ++ [13] = l1 ++ l2 /\ n = length l2 /\ i = Z.of_nat (length l1) /\
     (l2 = [] <-> dat = 13) /\ writes m str l1 m1 /\ uart_received l1 s s1) _ _)
    with (n := length (line ++ [13])).
  - intros n [[m1 dat] i] s1 (l1 & l2 & Hs & -> & -> & Hd & Hw & Hr).
    destruct (Z.eqb_spec dat 13) as [Heq|Hne].
    + wp_steps. apply Hd in Heq. subst l2. rewrite app_nil_r in Hs. subst l1.
      apply store8_ok.
      { eapply writes_mapped; [done|done|]. rewrite length_app. cbn. lia. }
      intros m2 E2. wp_steps. split; [|done]. apply (writes_replace_last _ m1 _ _ _ 13); [done|].
      rewrite length_app in E2. cbn in E2. rewrite <- E2. f_equal. lia.
    + destruct l2 as [|b l2]; [exfalso; apply Hne, Hd; done|]. wp_step.
      assert (exists k, io_uart_in (view (dev s1)) = b :: k) as [k Hk].
      { destruct Hr as (_ & r & I1 & E1). rewrite E1. cbn. exists (l2 ++ rest).
        rewrite Hin in I1. change (13 :: rest) with ([13] ++ rest) in I1.
        rewrite app_assoc, Hs, <- app_assoc in I1. by apply app_inv_head in I1 as <-. }
      assert (length line + 1 = length l1 + S (length l2))%nat as Hlen.
      { apply (f_equal length) in Hs. rewrite !length_app in Hs. exact Hs. }
      assert (is_u8 b /\ (l2 = [] <-> b = 13)) as [Hb Hb'].
      { destruct l2 as [|c l2] using rev_ind.
        - apply app_inj_tail in Hs as [_ <-]. split; [unfold is_u8; lia|done].
        - rewrite app_comm_cons, app_assoc in Hs. apply app_inj_tail in Hs as [-> _].
          rewrite !Forall_app, Forall_cons in Hl. destruct Hl as (_ & [? ?] & _).
          split; [done|]. split; [|done]. by destruct l2. }
      eapply uartRx_ok; [exact Hk|]. intros s2 R2. do 2 wp_step.
      eapply store8_writes; [exact Hw|lia|exact Hm|lia|]. intros m2 W2. wp_step.
      exists (length l2). cbn [length]. split; [lia|]. exists (l1 ++ [b]), l2.
      rewrite u8_small in W2 by done.
      split_and!; [by rewrite <- app_assoc|done|rewrite length_app; cbn; lia|done|done|].
      by eapply uart_received_trans.
  - rewrite length_app. cbn. lia.
  - exists [], (line ++ [13]). split_and!; [done|done|done| |apply writes_nil|apply uart_received_nil].
    split; [by destruct line|lia].
Qed.
End UartProofs.

(** for every baud rate from 191 to 12500000 [uart_init] programs divisors
    in the range of their registers' values (the fractional part may reach 64,
    one more than its six-bit register holds), and the divisor
    [64 * ibrd + fbrd] is the ideal [4 * CLK_SYS_HZ / baud_rate] rounded to
    the nearest 64th.  A zero baud rate is a division by zero. *)
Theorem uart_divisors_spec baud_rate :
  191 <= baud_rate <= 12500000 ->
  exists ibrd fbrd, uart_divisors baud_rate = Some (ibrd, fbrd) /\
    1 <= ibrd <= 65535 /\ 0 <= fbrd <= 64 /\
    Z.abs (2 * baud_rate * (64 * ibrd + fbrd) - 8 * CLK_SYS_HZ) <= baud_rate /\
    uart_divisors 0 = None.
Proof.
  intros Hb. unfold uart_divisors. change (u32 (8 * CLK_SYS_HZ)) with 1600000000.
  change (8 * CLK_SYS_HZ) with 1600000000.
  destruct (Z.eqb_spec baud_rate 0); [lia|].
  set (d := 1600000000 / baud_rate).
  assert (baud_rate * d <= 1600000000 < baud_rate * d + baud_rate) as Hd
    by (subst d; clear -Hb; dlia).
  assert (128 <= d <= 8376963) as Hr by (clearbody d; nia).
  change 127 with (Z.ones 7). rewrite Z.land_ones, !Z.shiftr_div_pow2 by lia.
  change (2 ^ 7) with 128. change (2 ^ 1) with 2. clearbody d.
  destruct (Z.eqb_spec (d / 128) 0) as [Hz|_]; [exfalso; clear -Hr Hz; dlia|].
  eexists _, _. split; [done|].
  assert (64 * (d / 128) + (d mod 128 + 1) / 2 = (d + 1) / 2) as -> by (clear; dlia).
  split_and!; [clear -Hr; dlia|clear -Hr; dlia|clear; dlia|clear; dlia| |done].
  assert (2 * ((d + 1) / 2) = d \/ 2 * ((d + 1) / 2) = d + 1) as He by (clear; dlia).
  generalize dependent ((d + 1) / 2). intros q He. nia.
Qed.

(** The console's rate: divisor 108 + 32/64 at 115200 baud. *)
Example uart_divisors_115200 : uart_divisors 115200 = Some (108, 32).
Proof. reflexivity. Qed.

(** A rate for which the fractional divisor does not fit its register. *)
Example uart_divisors_fbrd_64 : uart_divisors 6274509 = Some (1, 64).
Proof. reflexivity. Qed.

(** ** The theorems on the simulated board *)

Definition uart_board (l : list Z) : machine (sim unit) := sim_board ∅ tt l.

Lemma sim_uart_enough : (uart_latency (sim unit) unit < fuel)%nat.
Proof. apply Nat.ltb_lt. vm_compute. reflexivity. Qed.

Lemma uart_puts_witness : exists s', uart_puts [72; 105] 0 2 (uart_board []) = Ok (tt, s').
Proof.
  pose proof (uart_puts_spec sim_uart_enough [72; 105] 0 [72; 105] (uart_board []) eq_refl) as W.
  specialize (W ltac:(repeat constructor; cbn; lia) ltac:(split; cbn; lia)).
  destruct (proj1 (wp_exact _ _ _) W) as ([] & s' & E & _). exists s'. exact E.
Defined.

Lemma uartTxDec_witness : exists s', uartTxDec 4096 (uart_board []) = Ok (tt, s').
Proof.
  pose proof (uartTxDec_spec sim_uart_enough 4096 (uart_board []) ltac:(split; lia)) as W.
  specialize (W ltac:(apply Nat.ltb_lt; vm_compute; reflexivity)).
  destruct (proj1 (wp_exact _ _ _) W) as ([] & s' & E & _). exists s'. exact E.
Defined.

Lemma uartRxStr_witness : exists m' s',
  uartRxStr [0; 0; 0; 0] 0 (uart_board [104; 105; 13; 33]) = Ok (m', s').
Proof.
  pose proof (uartRxStr_spec sim_uart_enough [0; 0; 0; 0] 0 [104; 105] [33]
                (uart_board [104; 105; 13; 33]) eq_refl) as W.
  specialize (W ltac:(repeat constructor; cbn; lia)).
  specialize (W ltac:(intros q Hq; cbn in *; unfold list_peek; destruct (Z.leb_spec 0 q); [|lia];
                      apply lookup_lt_is_Some; cbn; lia)).
  specialize (W ltac:(apply Nat.ltb_lt; vm_compute; reflexivity)).
  destruct (proj1 (wp_exact _ _ _) W) as (m' & s' & E & _). exists m', s'. exact E.
Defined.

Lemma uart_divisors_witness : exists ibrd fbrd,
  uart_divisors 115200 = Some (ibrd, fbrd) /\ 1 <= ibrd <= 65535.
Proof.
  destruct (uart_divisors_spec 115200 ltac:(lia)) as (i & f & E & Hi & _). by exists i, f.
Defined.
