(* ===== verification/Spi.v ===== *)
(** * The SPI driver (src/driver/spi/spi.c)

    Polled full-duplex transfers on SPI0.  Sending and receiving are separate
    operations: a byte sent by [spi_send_byte] leaves the slave's answer in
    the receive FIFO, from which [spi_read_byte] takes the oldest. *)
From S2P Require Import Prelude Bytes Board SimBoard.

Section Spi.
Context {D : Type} `{Hardware D} `{Fuel}.

Definition spi_send_byte (data : Z) : M (machine D) unit :=
  do! spin spi0_SR (fun v => bit_set v 1) in
  reg_write spi0_DR (u8 data).

(** The loops of [spi_rw] and [spi_rw_blocking] differ in the byte sent. *)
Definition spi_rw_loop {T} `{ByteStore T} (out : Z -> M T Z) (m : T) (data len : Z)
  : M (machine D) T :=
  for_loop (Z.to_nat (u32 len)) 0 (fun i m =>
    do! spin spi0_SR (fun v => bit_set v 1) in
    let! b := on m (out i) in
    do! reg_write spi0_DR b in
    do! spin spi0_SR (fun v => negb (bit_set v 4)) in
    let! v := reg_read spi0_SR in
    if bit_set v 2 then
      let! r := reg_read spi0_DR in
      let! '(_, m) := within m (store8 (data + i) r) in
      ret m
    else ret m) m.

Definition spi_rw {T} `{ByteStore T} (m : T) (data len : Z) : M (machine D) T :=
  spi_rw_loop (fun i => load8 (data + i)) m data len.

Definition spi_rw_blocking {T} `{ByteStore T} (m : T) (data len : Z) : M (machine D) T :=
  spi_rw_loop (fun _ => ret 0xFF) m data len.

Definition spi_read_byte : M (machine D) Z :=
  do! spin spi0_SR (fun v => bit_set v 2) in
  let! v := reg_read spi0_DR in
  ret (u8 v).

Definition spi_rw_byte (byte : Z) : M (machine D) Z :=
  do! reg_write spi0_DR (u8 byte) in
  do! spin spi0_SR (fun v => negb (bit_set v 4)) in
  let! v := reg_read spi0_DR in
  ret (u8 v).

Definition spi_init : M (machine D) unit :=
  do! reg_write spi0_CR0 (Z.shiftl 7 0) in
  do! reg_write spi0_CPSR 254 in
  do! reg_and spi0_CR1 (Z.lnot (Z.shiftl 1 2)) in
  do! reg_write (io_bank0_gpio_CTRL 16) 1 in
  do! reg_write (io_bank0_gpio_CTRL 18) 1 in
  do! reg_write (io_bank0_gpio_CTRL 19) 1 in
  do! reg_write (io_bank0_gpio_CTRL 9) 5 in
  do! reg_write sio_OE_SET (Z.shiftl 1 9) in
  do! reg_write (pads_bank0_gpio 18) (Z.lor (Z.shiftl 1 1) (Z.shiftl 1 8)) in
  do! reg_write (pads_bank0_gpio 19) (Z.lor (Z.shiftl 1 1) (Z.shiftl 1 8)) in
  reg_or spi0_CR1 (Z.shiftl 1 1).

Definition spi_set_speed (divisor : Z) : M (machine D) unit :=
  reg_write spi0_CPSR (u8 divisor).
End Spi.

(** ** Properties *)

(** The machine [s'] differs from [s] by a change [f] of the devices only. *)
Definition io_step {D C} `{View D C} (f : io C -> io C) (s s' : machine D) : Prop :=
  ram s' = ram s /\ view (dev s') = f (view (dev s)).

Section SpiProofs.
Context {D C : Type} `{HW : Hardware D} `{SL : SpiSlave C} `{F : Fuel} `{V : View D C}.
Context `{SP : !SpiLaws D C}.
Context (enough : (spi_latency D C < fuel)%nat).

Lemma spi_poll_ok (stop : Z -> bool) (s : machine D) (Q : unit -> machine D -> Prop) :
  (forall t, io_step id s t -> let '(v, t') := hw_read spi0_SR t in
     if stop (u32 v) then io_step id s t' -> Q tt t'
     else (spi_wait D C (dev t') < spi_wait D C (dev t))%nat) ->
  wp (spin spi0_SR stop) Q s.
Proof.
  intros Hs. apply (wp_spin (spi_wait D C) _ _ (fun t => io_step id s t)).
  - done.
  - pose proof (spi_wait_bound D C (dev s)). lia.
  - intros t Ht. specialize (Hs t Ht). pose proof (spi_sr_read D C t) as L.
    destruct (hw_read spi0_SR t) as [v t']. destruct L as (R & E & _), Ht as [R0 E0].
    assert (io_step id s t') as Ht' by (split; unfold id in *; congruence).
    destruct (stop (u32 v)); [by apply Hs|]. by split.
Qed.

Lemma spi_send_ok b (s : machine D) (Q : unit -> machine D -> Prop) :
  spi_on (view (dev s)) ->
  (forall s', io_step (spi_exchange (u8 b)) s s' -> Q tt s') -> wp (spi_send_byte b) Q s.
Proof.
  intros Hon HQ. unfold spi_send_byte. wp_step. apply spi_poll_ok. intros t [Rt Et].
  pose proof (spi_sr_read D C t) as L. destruct (hw_read spi0_SR t) as [v t'].
  destruct L as (_ & _ & M & _). destruct (bit_set (u32 v) 1); [|done].
  intros [R1 E1]. unfold id in *. apply reg_write_ok.
  destruct (spi_dr_write D C (u32 (u8 b)) t') as [R2 E2]; [by rewrite E1|done|].
  apply HQ. split; [congruence|].
  rewrite E2, E1, (u32_small (u8 b)) by width_lia. by rewrite (u8_small (u8 b)) by apply u8_range.
Qed.

Lemma spi_read_ok b rx (s : machine D) (Q : Z -> machine D -> Prop) :
  io_rx (view (dev s)) = b :: rx ->
  (forall s', io_step (set_rx rx) s s' -> Q b s') -> wp spi_read_byte Q s.
Proof.
  intros Hrx HQ. unfold spi_read_byte. wp_step. apply spi_poll_ok. intros t [Rt Et].
  unfold id in *. pose proof (spi_sr_read D C t) as L. destruct (hw_read spi0_SR t) as [v t'].
  destruct L as (_ & _ & _ & _ & M & _). rewrite Et, Hrx in M.
  destruct (bit_set (u32 v) 2).
  - intros [R1 E1]. unfold id in *. wp_step. apply reg_read_ok.
    pose proof (spi_dr_read D C t' b rx) as L. rewrite E1 in L. specialize (L Hrx).
    destruct (hw_read spi0_DR t') as [w t2]. destruct L as (-> & R2 & E2).
    apply wpg_ret, HQ. split; congruence.
  - by destruct (M eq_refl).
Qed.

Lemma spi_read_byte_empty (s : machine D) :
  io_rx (view (dev s)) = [] -> spi_read_byte s = Hang.
Proof.
  intros Hrx. unfold spi_read_byte, bind, spin, spin_with.
  assert (forall n t, view (dev t) = view (dev s) ->
    while_loop n (fun _ : unit => let! v := reg_read spi0_SR in
      if bit_set v 2 then ret (inr tt) else do! ret tt in ret (inl tt)) tt t
    = (Hang : outcome (unit * machine D))) as Hn.
  { induction n as [|n IH]; intros t Ht; [done|]. cbn [while_loop]. unfold bind at 1 2, reg_read at 1.
    pose proof (spi_sr_read D C t) as L. destruct (hw_read spi0_SR t) as [v t'].
    destruct L as (_ & E & _ & M & _). rewrite Ht, Hrx in M.
    destruct (bit_set (u32 v) 2); [by destruct (M eq_refl)|]. cbn. apply IH. congruence. }
  by rewrite Hn.
Qed.

(** [spi_read_byte] only ever returns a byte that is already in the
    receive FIFO: nothing clocks the bus while it waits, so with an empty
    FIFO it never returns, whatever the fuel. *)
Theorem spi_read_byte_empty_hangs (s : machine D) :
  io_rx (view (dev s)) = [] -> spi_read_byte s = Hang.
Proof. apply spi_read_byte_empty. Qed.

(** The bytes the slave returns for the bytes [l], and its state afterwards. *)
Fixpoint exchange_all (l : list Z) (c : C) : list Z * C :=
  match l with
  | [] => ([], c)
  | b :: l' => let '(r, c1) := xfer b c in
               let '(rs, c2) := exchange_all l' c1 in (r :: rs, c2)
  end.

Lemma length_exchange_all l c : length (fst (exchange_all l c)) = length l.
Proof.
  revert c. induction l as [|b l IH]; intros c; [done|]. cbn. destruct (xfer b c) as [r c1].
  specialize (IH c1). destruct (exchange_all l c1). cbn in *. by rewrite IH.
Qed.

Lemma exchange_all_snoc l b (c : C) :
  exchange_all (l ++ [b]) c =
    (fst (exchange_all l c) ++ [fst (xfer b (snd (exchange_all l c)))],
     snd (xfer b (snd (exchange_all l c)))).
Proof.
  revert c. induction l as [|a l IH]; intros c; cbn.
  - by destruct (xfer b c).
  - destruct (xfer a c) as [r c1]. rewrite IH. by destruct (exchange_all l c1).
Qed.

(** One full-duplex byte, starting and ending with an empty receive FIFO. *)
Lemma spi_rw_loop_ok {T} `{ByteStore T} (out : Z -> M T Z) (m : T) p l (s : machine D) :
  spi_on (view (dev s)) -> io_rx (view (dev s)) = [] -> Forall is_u8 l ->
  is_u32 (Z.of_nat (length l)) -> mapped m p (p + Z.of_nat (length l)) ->
  (forall b c, is_u8 (fst (xfer b c))) ->
  (forall i b m1 rs, l !! i = Some b -> length rs = i -> writes m p rs m1 ->
     out (Z.of_nat i) m1 = Ok (b, m1)) ->
  let '(rs, c) := exchange_all l (io_card (view (dev s))) in
  wp (spi_rw_loop out m p (Z.of_nat (length l)))
     (fun m' s' => writes m p rs m' /\ io_step (set_card c) s s') s.
Proof.
  intros Hon Hrx Hl Hlen Hm Hx Hout. destruct (exchange_all l _) as [rs c] eqn:Eall.
  unfold spi_rw_loop. rewrite u32_small, Nat2Z.id by done.
  set (ex i := exchange_all (take (Z.to_nat i) l) (io_card (view (dev s)))).
  eapply wpg_mono.
  - apply (wpg_for _ (fun i m' s' => writes m p (fst (ex i)) m' /\
      io_step (set_card (snd (ex i))) s s')).
    + split; [apply writes_nil|]. split; [done|]. cbn. by destruct (view (dev s)).
    + intros i m1 s1 Hi [Hw [R1 E1]].
      destruct (lookup_lt_is_Some_2 l (Z.to_nat i)) as [b Hb]; [lia|].
      assert (is_u8 b) as Hb8 by (by eapply Forall_lookup_1).
      assert (ex (i + 1) = (fst (ex i) ++ [fst (xfer b (snd (ex i)))], snd (xfer b (snd (ex i)))))
        as Hnext.
      { subst ex. cbv beta. replace (Z.to_nat (i + 1)) with (S (Z.to_nat i)) by lia.
        rewrite (take_S_r _ _ _ Hb). apply exchange_all_snoc. }
      assert (length (fst (ex i)) = Z.to_nat i) as Hlx
        by (subst ex; cbv beta; rewrite length_exchange_all, length_take; lia).
      specialize (Hx b (snd (ex i))). rewrite Hnext. cbn [fst snd].
      destruct (xfer b (snd (ex i))) as [r c'] eqn:Ex. cbn [fst snd] in *.
      wp_step. apply spi_poll_ok. intros t [Rt Et].
      pose proof (spi_sr_read D C t) as L. destruct (hw_read spi0_SR t) as [v t'].
      destruct L as (_ & _ & M & _). destruct (bit_set (u32 v) 1); [|done].
      intros [R2 E2]. unfold id in *. do 2 wp_step.
      eapply (wp_ok _ _ _ b m1).
      { rewrite <- (Z2Nat.id i) by lia. by eapply Hout. }
      wp_step. apply reg_write_ok.
      destruct (spi_dr_write D C (u32 b) t') as [R3 E3]; [by rewrite E2, E1|done|].
      assert (view (dev (hw_write spi0_DR (u32 b) t')) =
              set_rx [r] (set_card c' (view (dev s)))) as E3'.
      { rewrite E3, E2, E1. rewrite u32_small, u8_small by width_lia.
        unfold spi_exchange. cbn. rewrite Ex, Hrx. done. }
      wp_step. apply spi_poll_ok. intros t2 [Rt2 Et2]. unfold id in *.
      pose proof (spi_sr_read D C t2) as L. destruct (hw_read spi0_SR t2) as [v2 t3].
      destruct L as (_ & _ & _ & _ & _ & M2 & _). destruct (bit_set (u32 v2) 4); [done|].
      cbn [negb]. intros [R4 E4]. unfold id in *. wp_step. apply reg_read_ok.
      pose proof (spi_sr_read D C t3) as L. destruct (hw_read spi0_SR t3) as [v4 t4].
      destruct L as (R5 & E5 & _ & _ & _ & _ & Hidle).
      rewrite Hidle by (done || by rewrite E4, E3').
      wp_step. apply reg_read_ok.
      pose proof (spi_dr_read D C t4 r []) as L. rewrite E5, E4, E3' in L. specialize (L eq_refl).
      destruct (hw_read spi0_DR t4) as [v5 t5]. destruct L as (Hv & R6 & E6).
      do 2 wp_step. eapply store8_writes; [exact Hw|lia|exact Hm|lia|].
      intros m2 W2. rewrite Hv in W2. wp_step. split; [done|].
      split; [congruence|]. rewrite E6. by destruct (view (dev s)); cbn in *; subst.
  - cbv beta. intros m' s' [Hw Hs]. subst ex. cbv beta in *.
    rewrite Z.add_0_l, Nat2Z.id, take_ge, Eall in Hw, Hs by lia. done.
Qed.

(** [spi_rw] is a full-duplex exchange: started with an empty receive FIFO
    it sends the [len] bytes at [data] in order and replaces each by the byte
    the slave returned for it, leaving the FIFO empty. *)
Theorem spi_rw_spec {T} `{ByteStore T} (m : T) data l (s : machine D) :
  spi_on (view (dev s)) -> io_rx (view (dev s)) = [] -> Forall is_u8 l ->
  is_u32 (Z.of_nat (length l)) -> peeks m data (length l) = Some l ->
  (forall b c, is_u8 (fst (xfer b c))) ->
  let '(rs, c) := exchange_all l (io_card (view (dev s))) in
  wp (spi_rw m data (Z.of_nat (length l)))
     (fun m' s' => writes m data rs m' /\ io_step (set_card c) s s') s.
Proof.
  intros Hon Hrx Hl Hlen Hp Hx. apply spi_rw_loop_ok; try done.
  - apply peeks_mapped. eauto.
  - intros i b m1 rs Hb Hi [_ Fr]. apply load8_eq. rewrite Fr by lia.
    rewrite <- Hb. eapply peeks_lookup; [done|]. by eapply lookup_lt_Some.
Qed.

Lemma io_step_trans f g (a b c : machine D) :
  io_step f a b -> io_step g b c -> io_step (fun v => g (f v)) a c.
Proof. intros [R1 E1] [R2 E2]. split; [congruence|]. by rewrite E2, E1. Qed.

Context `{GL : !GpioLaws D C}.

(** A pin configuration write: the devices do not notice. *)
Lemma config_write_ok r v (s : machine D) (Q : unit -> machine D -> Prop) :
  r = sio_OE_SET \/ (exists i, 0 <= i < 30 /\ (r = io_bank0_gpio_CTRL i \/ r = pads_bank0_gpio i)) ->
  (forall s', io_step id s s' -> Q tt s') -> wp (reg_write r v) Q s.
Proof. intros Hr HQ. apply reg_write_ok. by apply HQ, (gpio_config D C). Qed.

Lemma cr1_read_ok (s : machine D) (Q : Z -> machine D -> Prop) :
  is_u32 (io_cr1 (view (dev s))) ->
  (forall s', io_step id s s' -> Q (io_cr1 (view (dev s))) s') -> wp (reg_read spi0_CR1) Q s.
Proof.
  intros Hc HQ. apply reg_read_ok. destruct (spi_cr1_read D C s Hc) as (E & R & V1).
  rewrite E. rewrite u32_small by done. by apply HQ.
Qed.

Lemma cr1_write_ok v (s : machine D) (Q : unit -> machine D -> Prop) :
  (forall s', io_step (set_cr1 (u32 v)) s s' -> Q tt s') -> wp (reg_write spi0_CR1 v) Q s.
Proof. intros HQ. apply reg_write_ok, HQ, (spi_cr1_write D C). Qed.

Ltac pin_write :=
  wp_step; apply config_write_ok;
  [first [by left | right; eexists; split; [|by left]; lia | right; eexists; split; [|by right]; lia]
  |intros ? [? ?]; unfold id in *].

Lemma spi_init_ok (s : machine D) :
  is_u32 (io_cr1 (view (dev s))) ->
  wp spi_init (fun _ s' => spi_on (view (dev s')) /\ bit_set (io_cr1 (view (dev s'))) 2 = false /\
    exists cr1, io_step (fun v => set_cr1 cr1 (set_cpsr 254 (set_cr0 7 v))) s s') s.
Proof.
  intros Hc. unfold spi_init, reg_and, reg_or.
  wp_step. apply reg_write_ok. destruct (spi_cr0_write D C (u32 (Z.shiftl 7 0)) s) as [R1 E1].
  set (s1 := hw_write spi0_CR0 _ s) in *. change (u32 (Z.shiftl 7 0)) with 7 in E1.
  wp_step. apply reg_write_ok. destruct (spi_cpsr_write D C (u32 254) s1) as [R2 E2].
  set (s2 := hw_write spi0_CPSR _ s1) in *. change (u32 254) with 254 in E2.
  rewrite E1 in E2. wp_step. wp_step. apply cr1_read_ok; [by rewrite E2|].
  intros s3 [R3 E3]. apply cr1_write_ok. intros s4 [R4 E4]. unfold id in *.
  rewrite E3, !E2 in E4. cbn [io_cr1 set_cpsr set_cr0] in E4.
  do 7 pin_write.
  wp_step. apply cr1_read_ok.
  { repeat match goal with E : view (dev ?t) = _ |- context [dev ?t] => rewrite E end. apply u32_range. }
  intros s12 [R12 E12]. apply cr1_write_ok. intros s13 [R13 E13]. unfold id in *.
  set (x := u32 (Z.land (io_cr1 (view (dev s))) (Z.lnot (Z.shiftl 1 2)))) in *.
  assert (view (dev s12) = set_cr1 x (set_cpsr 254 (set_cr0 7 (view (dev s))))) as Ev by congruence.
  assert (io_cr1 (view (dev s12)) = x) as Ex by by rewrite Ev.
  rewrite E12 in Ex. rewrite Ex, Ev in E13. set (y := u32 (Z.lor x (Z.shiftl 1 1))) in *.
  assert (is_u32 x) as Hx by apply u32_range.
  assert (forall n, 0 <= n < 32 -> Z.testbit y n = Z.testbit x n || (n =? 1)) as Hy.
  { intros n Hn. subst y. unfold u32. change 4294967296 with (2 ^ 32).
    rewrite Z.mod_pow2_bits_low, Z.lor_spec by lia. f_equal.
    rewrite Z.shiftl_1_l, Z.pow2_bits_eqb by lia. apply Z.eqb_sym. }
  rewrite E13. split_and!.
  - split; [done|]. cbn. rewrite bit_set_testbit, Hy by lia. by rewrite orb_true_r.
  - cbn. rewrite bit_set_testbit, Hy by lia. rewrite orb_false_r. subst x.
    unfold u32. change 4294967296 with (2 ^ 32). rewrite Z.mod_pow2_bits_low, Z.land_spec by lia.
    apply andb_false_r.
  - exists y. split; [congruence|]. by rewrite E13.
Qed.

(** [spi_init] leaves SPI0 enabled as a master with 8-bit frames and clock
    divisor 254, whatever its configuration was, and keeps everything else. *)
Theorem spi_init_spec (s : machine D) :
  is_u32 (io_cr1 (view (dev s))) ->
  wp spi_init (fun _ s' => spi_on (view (dev s')) /\ bit_set (io_cr1 (view (dev s'))) 2 = false /\
    exists cr1, io_step (fun v => set_cr1 cr1 (set_cpsr 254 (set_cr0 7 v))) s s') s.
Proof. apply spi_init_ok. Qed.
End SpiProofs.

(** ** The theorems on the simulated board *)

Definition spi_board : machine (sim unit) := sim_board ∅ tt [].

Lemma sim_spi_enough : (spi_latency (sim unit) unit < fuel)%nat.
Proof. apply Nat.ltb_lt. vm_compute. reflexivity. Qed.

Lemma spi_read_byte_empty_hangs_witness : spi_read_byte spi_board = Hang.
Proof. apply (spi_read_byte_empty_hangs spi_board). reflexivity. Defined.

Lemma spi_rw_witness : exists m' s', spi_rw [1; 2; 3] 0 3 spi_board = Ok (m', s').
Proof.
  pose proof (spi_rw_spec sim_spi_enough [1; 2; 3] 0 [1; 2; 3] spi_board) as W.
  specialize (W ltac:(by split) eq_refl ltac:(repeat constructor; cbn; lia) ltac:(split; cbn; lia)
                eq_refl xfer_u8).
  destruct (proj1 (wp_exact _ _ _) W) as (m' & s' & E & _). exists m', s'. exact E.
Defined.

Lemma spi_init_witness : exists s', spi_init spi_board = Ok (tt, s').
Proof.
  pose proof (spi_init_spec sim_spi_enough spi_board ltac:(split; cbn; lia)) as W.
  destruct (proj1 (wp_exact _ _ _) W) as ([] & s' & E & _). exists s'. exact E.
Defined.
