(* ===== verification/Dma.v ===== *)
(** * The DMA driver and memcpy (src/driver/dma/dma.c, libc/src/string/memcpy.c)

    Control-word construction, channel start and busy-wait, and the C
    library's [memcpy], which is a byte-wide DMA transfer on channel 0. *)
From S2P Require Import Prelude Bytes Board SimBoard Unistd.

(* dma.h *)
Definition DMA_TREQ_PERMANENT : Z := 0x3F.

Definition dma_get_default_config (channel : Z) : Z :=
  u32 (Z.lor (Z.lor (Z.lor (Z.lor DMA_CTRL_DATA_SIZE_1BYTE DMA_CTRL_INCR_READ) DMA_CTRL_INCR_WRITE)
    (DMA_CTRL_CHAIN_TO (u8 channel))) (DMA_CTRL_TREQ_SEL DMA_TREQ_PERMANENT)).

Definition dma_config_set_data_size (config size : Z) : Z :=
  u32 (Z.lor (Z.land config (Z.lnot (Z.shiftl 3 2))) (Z.shiftl (Z.land (u8 size) 3) 2)).

Definition dma_config_set_read_increment (config : Z) (set : bool) : Z :=
  u32 (Z.lor (Z.land config (Z.lnot DMA_CTRL_INCR_READ)) (if set then DMA_CTRL_INCR_READ else 0)).

Definition dma_config_set_write_increment (config : Z) (set : bool) : Z :=
  u32 (Z.lor (Z.land config (Z.lnot DMA_CTRL_INCR_WRITE)) (if set then DMA_CTRL_INCR_WRITE else 0)).

Definition dma_config_set_chain (config channel : Z) : Z :=
  u32 (Z.lor (Z.land config (Z.lnot (Z.shiftl 15 11))) (Z.shiftl (Z.land (u8 channel) 15) 11)).

Definition dma_config_set_treq (config treq : Z) : Z :=
  u32 (Z.lor (Z.land config (Z.lnot (Z.shiftl 63 15))) (Z.shiftl (Z.land (u8 treq) 63) 15)).

Definition dma_config_set_ring (config : Z) (write : bool) (exponent : Z) : Z :=
  let config := u32 (Z.lor (Z.land config (Z.lnot (Z.shiftl 15 6)))
                           (Z.shiftl (Z.land (u8 exponent) 15) 6)) in
  u32 (Z.lor (Z.land config (Z.lnot DMA_CTRL_RING_SEL)) (if write then DMA_CTRL_RING_SEL else 0)).

Section Dma.
Context {D : Type} `{Hardware D} `{Fuel}.

Definition dma_channel_busy (channel : Z) : M (machine D) bool :=
  let! v := reg_read (dma_al1_CTRL (u8 channel)) in
  ret (negb (Z.land v DMA_CTRL_BUSY =? 0)).

Definition dma_transfer_await (channel : Z) : M (machine D) unit :=
  while_loop fuel (fun _ =>
    let! b := dma_channel_busy channel in
    if b then do! usleep 1000 in ret (inl tt) else ret (inr tt)) tt.

Definition dma_channel_configure (channel config src dst n : Z) (start : bool)
  : M (machine D) unit :=
  do! dma_transfer_await channel in
  do! reg_write (dma_al0_READ_ADDR (u8 channel)) src in
  do! reg_write (dma_al0_WRITE_ADDR (u8 channel)) dst in
  do! reg_write (dma_al0_TRANS_COUNT (u8 channel)) n in
  if start
  then reg_write (dma_al0_CTRL_TRIG (u8 channel)) (Z.lor config DMA_CTRL_EN)
  else reg_write (dma_al1_CTRL (u8 channel)) (Z.lor config DMA_CTRL_EN).

Definition dma_channel_start (channel : Z) : M (machine D) unit :=
  reg_write dma_chann_trig (Z.shiftl 1 (Z.land (u8 channel) 15)).

Definition dma_transfer_start (src dst n channel : Z) : M (machine D) unit :=
  do! dma_transfer_await channel in
  let config :=
    u32 (Z.lor (Z.lor (Z.lor (Z.lor DMA_CTRL_DATA_SIZE_1BYTE DMA_CTRL_INCR_READ)
      DMA_CTRL_INCR_WRITE) (DMA_CTRL_CHAIN_TO (u8 channel))) (DMA_CTRL_TREQ_SEL DMA_TREQ_PERMANENT)) in
  dma_channel_configure channel config src dst n true.

(** memcpy.c *)
Definition memcpy (destination source num : Z) : M (machine D) Z :=
  do! dma_transfer_start source destination num 0 in
  do! dma_transfer_await 0 in
  ret destination.
End Dma.

(** ** Properties *)

(** [c'] is [c] with the [w]-bit field at bit [o] replaced by [v]. *)
Definition field_set (o w v c c' : Z) : Prop :=
  forall n, 0 <= n < 32 ->
    Z.testbit c' n = if (o <=? n) && (n <? o + w) then Z.testbit v (n - o) else Z.testbit c n.

Lemma set_field_spec o w v c :
  0 <= o -> 0 <= w ->
  field_set o w v c (u32 (Z.lor (Z.land c (Z.lnot (Z.shiftl (Z.ones w) o)))
                                (Z.shiftl (Z.land v (Z.ones w)) o))).
Proof.
  intros Ho Hw n Hn. unfold u32. change 4294967296 with (2 ^ 32).
  rewrite Z.mod_pow2_bits_low, Z.lor_spec, Z.land_spec, Z.lnot_spec by lia.
  rewrite !Z.shiftl_spec, Z.land_spec by lia.
  destruct (Z.leb_spec o n); cbn [andb].
  - rewrite Z.testbit_ones by done. rewrite (proj2 (Z.leb_le 0 (n - o))) by lia.
    destruct (Z.ltb_spec n (o + w)), (Z.ltb_spec (n - o) w); try lia; cbn.
    + by rewrite andb_false_r, andb_true_r.
    + by rewrite andb_true_r, andb_false_r, orb_false_r.
  - rewrite (Z.testbit_neg_r v), (Z.testbit_neg_r (Z.ones w)) by lia. cbn.
    by rewrite andb_true_r, orb_false_r.
Qed.

Lemma set_flag_spec o (b : bool) c :
  0 <= o ->
  field_set o 1 (Z.b2z b) c (u32 (Z.lor (Z.land c (Z.lnot (Z.shiftl 1 o)))
                                        (if b then Z.shiftl 1 o else 0))).
Proof.
  intros Ho. pose proof (set_field_spec o 1 (Z.b2z b) c Ho ltac:(lia)) as E.
  change (Z.ones 1) with 1 in E. destruct b; cbn [Z.b2z] in *.
  - exact E.
  - change (Z.land 0 1) with 0 in E. by rewrite Z.shiftl_0_l in E.
Qed.

(** every control-word setter replaces exactly its own field (data size at
    bit 2, read and write increment at 4 and 5, ring size at 6 with the ring
    selector at 10, chain target at 11, transfer request at 15) and leaves
    the other 32-bit control bits alone. *)
Theorem dma_config_setters config v (b : bool) :
  is_u8 v ->
  field_set 2 2 v config (dma_config_set_data_size config v) /\
  field_set 4 1 (Z.b2z b) config (dma_config_set_read_increment config b) /\
  field_set 5 1 (Z.b2z b) config (dma_config_set_write_increment config b) /\
  field_set 11 4 v config (dma_config_set_chain config v) /\
  field_set 15 6 v config (dma_config_set_treq config v) /\
  exists c, field_set 6 4 v config c /\ field_set 10 1 (Z.b2z b) c (dma_config_set_ring config b v).
Proof.
  intros Hv. unfold dma_config_set_data_size, dma_config_set_read_increment,
    dma_config_set_write_increment, dma_config_set_chain, dma_config_set_treq, dma_config_set_ring.
  rewrite !(u8_small v) by done. split_and!.
  - by apply (set_field_spec 2 2).
  - by apply (set_flag_spec 4).
  - by apply (set_flag_spec 5).
  - by apply (set_field_spec 11 4).
  - by apply (set_field_spec 15 6).
  - eexists. split; [by apply (set_field_spec 6 4)|]. by apply (set_flag_spec 10).
Qed.

(** The machine after a completed copy: memory is updated, time has passed and
    channel 0 is idle again; the other devices are untouched. *)
Definition same_devices {C} (v v' : io C) : Prop :=
  exists t l dma, v' = Io (io_rx v) (io_card v) (io_cr0 v) (io_cr1 v) (io_cpsr v) (io_uart_out v)
    (io_uart_in v) t l dma /\ io_time v <= t.

Section DmaProofs.
Context {D C : Type} `{HW : Hardware D} `{F : Fuel} `{V : View D C}.
Context `{T : !TimerLaws D C} `{DM : !DmaLaws D C}.
Context (enough : (usleep_fuel (D := D) (C := C) 1000 < fuel)%nat).
Context (enough_dma : (dma_latency D C < fuel)%nat).

Lemma busy_flag v : negb (Z.land v DMA_CTRL_BUSY =? 0) = bit_set v 24.
Proof. done. Qed.

Lemma dma_await_idle (s : machine D) (Q : unit -> machine D -> Prop) :
  ch_busy (io_dma (view (dev s)) 0) = false ->
  (forall s', ram s' = ram s -> view (dev s') = view (dev s) -> Q tt s') ->
  wp (dma_transfer_await 0) Q s.
Proof.
  intros Hi HQ. unfold dma_transfer_await. destruct fuel as [|f] eqn:Ef; [lia|]. cbn [while_loop].
  wp_step. unfold dma_channel_busy. do 2 wp_step. apply reg_read_ok.
  pose proof (dma_idle_read D C 0 s ltac:(lia) Hi) as L. change (u8 0) with 0.
  destruct (hw_read (dma_al1_CTRL 0) s) as [v s']. destruct L as (B & R & E).
  wp_step. rewrite busy_flag, B. do 2 wp_step. by apply HQ.
Qed.

(** A started byte copy between disjoint mapped regions completes. *)
Lemma dma_await_copy src dst n l (s : machine D) (Q : unit -> machine D -> Prop) :
  io_dma (view (dev s)) 0 = DmaChannel src dst n (dma_copy_config 0) true ->
  peeks (ram s) src (Z.to_nat n) = Some l -> mapped (ram s) dst (dst + n) ->
  src + n <= dst \/ dst + n <= src ->
  (forall s', pokes (ram s) dst l = Some (ram s') -> same_devices (view (dev s)) (view (dev s')) ->
     ch_busy (io_dma (view (dev s')) 0) = false -> Q tt s') ->
  wp (dma_transfer_await 0) Q s.
Proof.
  intros Hc Hp Hm Hdis HQ. unfold dma_transfer_await.
  apply (wp_while (fun k (_ : unit) s1 => only_time s s1 /\ dma_wait D C (dev s1) = k) _ _)
    with (n := dma_wait D C (dev s)).
  - intros k [] s1 [[R1 (t & lt & Ht & E1)] <-]. wp_step. unfold dma_channel_busy.
    wp_step. apply reg_read_ok. change (u8 0) with 0.
    pose proof (dma_busy_read D C 0 s1 l ltac:(lia)) as L. cbv zeta in L.
    rewrite E1 in L. cbn [io_dma set_time] in L. rewrite Hc in L.
    cbn [ch_busy ch_ctrl ch_read ch_write ch_count] in L. rewrite R1 in L.
    specialize (L eq_refl eq_refl Hp Hm Hdis).
    destruct (hw_read (dma_al1_CTRL 0) s1) as [v s2].
    destruct L as [(B & R2 & E2 & W)|(B & P2 & E2)]; wp_step; rewrite busy_flag, B.
    + wp_step. apply (usleep_ok (C := C) (fun s' => (dma_wait D C (dev s') <= dma_wait D C (dev s2))%nat)).
      * intros r s' Hr Hle. etrans; [by apply (dma_wait_mono D C)|done].
      * unfold is_u32; lia.
      * done.
      * done.
      * intros s3 Hle O3 _. wp_step. exists (dma_wait D C (dev s3)). split; [lia|]. split; [|done].
        eapply (only_time_trans s s2); [|done]. split; [congruence|]. exists t, lt.
        split; [done|]. congruence.
    + wp_steps. apply HQ; [done| |].
      * rewrite E2. eexists t, lt, _. split; [|done]. done.
      * by rewrite E2.
  - pose proof (dma_wait_bound D C (dev s)). lia.
  - split; [apply only_time_refl|done].
Qed.

Lemma memcpy_ok destination source num l (s : machine D) :
  is_u32 num -> is_u32 source -> is_u32 destination ->
  ch_busy (io_dma (view (dev s)) 0) = false ->
  peeks (ram s) source (Z.to_nat num) = Some l ->
  mapped (ram s) destination (destination + num) ->
  source + num <= destination \/ destination + num <= source ->
  wp (memcpy destination source num) (fun r s' =>
    r = destination /\ writes (ram s) destination l (ram s') /\
    same_devices (view (dev s)) (view (dev s')) /\
    ch_busy (io_dma (view (dev s')) 0) = false) s.
Proof.
  intros Hn Hs Hd Hi Hp Hm Hdis. unfold memcpy, dma_transfer_start, dma_channel_configure.
  wp_step. wp_step. apply dma_await_idle; [done|]. intros s1 R1 E1.
  wp_step. apply dma_await_idle; [by rewrite E1|]. intros s2 R2 E2. rewrite E1 in E2.
  change (u8 0) with 0.
  wp_step. apply reg_write_ok. rewrite (u32_small source) by done.
  destruct (dma_read_addr_write D C 0 source s2 ltac:(lia)) as [R3 E3]; [by rewrite E2|].
  set (s3 := hw_write (dma_al0_READ_ADDR 0) source s2) in *. rewrite E2 in E3.
  wp_step. apply reg_write_ok. rewrite (u32_small destination) by done.
  destruct (dma_write_addr_write D C 0 destination s3 ltac:(lia)) as [R4 E4]; [by rewrite E3|].
  set (s4 := hw_write (dma_al0_WRITE_ADDR 0) destination s3) in *. rewrite E3 in E4.
  wp_step. apply reg_write_ok. rewrite (u32_small num) by done.
  destruct (dma_count_write D C 0 num s4 ltac:(lia)) as [R5 E5]; [by rewrite E4|].
  set (s5 := hw_write (dma_al0_TRANS_COUNT 0) num s4) in *. rewrite E4 in E5.
  apply reg_write_ok.
  change (u32 (Z.lor _ DMA_CTRL_EN)) with (dma_copy_config 0).
  destruct (dma_ctrl_trig_write D C 0 (dma_copy_config 0) s5 ltac:(lia)) as [R6 E6];
    [by rewrite E5|done|].
  set (s6 := hw_write (dma_al0_CTRL_TRIG 0) (dma_copy_config 0) s5) in *. rewrite E5 in E6.
  assert (ram s6 = ram s) as Rs by congruence.
  wp_step. apply (dma_await_copy source destination num l).
  - rewrite E6. done.
  - by rewrite Rs.
  - by rewrite Rs.
  - done.
  - intros s7 P7 S7 I7. wp_step. rewrite Rs in P7. split_and!; [done|by apply writes_pokes| |done].
    destruct S7 as (t & lt & dma & E7 & Ht). rewrite E7, E6. rewrite E6 in Ht.
    exists t, lt, dma. split; [done|]. exact Ht.
Qed.

(** C38: [memcpy] copies [num] bytes between disjoint mapped regions and returns
    the destination: the destination holds the source's old contents,
    every other byte of memory keeps its value, no device but the timer and
    the DMA channel is touched, and the channel is left idle. *)
Theorem memcpy_spec destination source num l (s : machine D) :
  is_u32 num -> is_u32 source -> is_u32 destination ->
  ch_busy (io_dma (view (dev s)) 0) = false ->
  peeks (ram s) source (Z.to_nat num) = Some l ->
  mapped (ram s) destination (destination + num) ->
  source + num <= destination \/ destination + num <= source ->
  wp (memcpy destination source num) (fun r s' =>
    r = destination /\ writes (ram s) destination l (ram s') /\
    same_devices (view (dev s)) (view (dev s')) /\
    ch_busy (io_dma (view (dev s')) 0) = false) s.
Proof. apply memcpy_ok. Qed.
End DmaProofs.

(** ** The theorems on the simulated board *)

Lemma sim_usleep_enough : (usleep_fuel (D := sim unit) (C := unit) 1000 < fuel)%nat.
Proof. apply Nat.ltb_lt. vm_compute. reflexivity. Qed.
Lemma sim_dma_enough : (dma_latency (sim unit) unit < fuel)%nat.
Proof. apply Nat.ltb_lt. vm_compute. reflexivity. Qed.

Lemma dma_config_setters_witness :
  field_set 2 2 1 0xF (dma_config_set_data_size 0xF 1).
Proof. apply (dma_config_setters 0xF 1 true). split; lia. Defined.

(** Memory [[4096, 4112)]; four bytes are copied over the next four. *)
Definition dma_board : machine (sim unit) := sim_board (mem_of 4096 16 (fun p => p - 4096)) tt [].

Lemma memcpy_witness : exists s',
  memcpy 4100 4096 4 dma_board = Ok (4100, s') /\ peeks (ram s') 4100 4 = Some [0; 1; 2; 3].
Proof.
  pose proof (memcpy_spec sim_usleep_enough sim_dma_enough 4100 4096 4 [0; 1; 2; 3] dma_board) as W.
  specialize (W ltac:(split; lia) ltac:(split; lia) ltac:(split; lia) eq_refl eq_refl).
  specialize (W (proj2 (peeks_mapped (ram dma_board) 4100 4) (mk_is_Some _ [4; 5; 6; 7] eq_refl))).
  specialize (W ltac:(lia)).
  destruct (proj1 (wp_exact _ _ _) W) as (r & s' & E & -> & [Hw _] & _). exists s'. exact (conj E Hw).
Defined.
