(* ===== verification/Registers.v ===== *)
(** * The register map (src/arch/arm_cortexm/rp2040/hardware_structs/, src/driver/dma/dma.h)

    The C structures that lie over the registers, field by field, and the
    check that the addresses of Board.v are those of their fields; the bits
    of a DMA control word and the transfer requests that go into it. *)
From stdpp Require Import list strings.
From S2P Require Import Prelude Board Dma.

#[local] Open Scope string_scope.

(** ** Structures *)

(** Words with the given names. *)
Definition words (fields : list string) : list (string * Z) := (fun f => (f, 4)) <$> fields.

Definition uart_hw_t : list (string * Z) :=
  words ["DR"; "RSR"] ++ [("_gap0", 4 * 4)] ++
  words ["FR"; "_gap1"; "ILPR"; "IBRD"; "FBRD"; "LCR_H"; "LCR"].
Definition spi0_hw_t : list (string * Z) := words ["CR0"; "CR1"; "DR"; "SR"; "CPSR"].
Definition sio_hw_t : list (string * Z) :=
  [("_reserved", 4 * 3)] ++
  words ["_gap"; "OUT"; "OUT_SET"; "OUT_CLR"; "OUT_XOR"; "OE"; "OE_SET"; "OE_CLR"; "OE_XOR"].
Definition io_bank0_gpio : list (string * Z) := words ["STATUS"; "CTRL"].
Definition io_bank0_hw_t : list (string * Z) := [("gpio", packed_size io_bank0_gpio * 30)].
Definition pads_bank0_hw_t : list (string * Z) := words ["VOLATAGE_SELECT"] ++ [("gpio", 4 * 30)].
Definition resets_hw_t : list (string * Z) := words ["RESET"; "WDSEL"; "RESET_DONE"].
Definition clocks_hw_t : list (string * Z) :=
  words ["GPOUT0_CTRL"; "GPOUT0_DIV"; "GPOUT0_SELECTED"; "GPOUT1_CTRL"; "GPOUT1_DIV"; "GPOUT1_SELECTED";
         "GPOUT2_CTRL"; "GPOUT2_DIV"; "GPOUT2_SELECTED"; "GPOUT3_CTRL"; "GPOUT3_DIV"; "GPOUT3_SELECTED";
         "REF_CTRL"; "REF_DIV"; "REF_SELECTED"; "SYS_CTRL"; "SYS_DIV"; "SYS_SELECTED";
         "PERI_CTRL"; "_gap"; "PERI_DIV"; "PERI_SELECTED"].
Definition xosc_hw_t : list (string * Z) := words ["CTRL"; "STATUS"; "DORMANT"; "STARTUP"; "COUNT"].
Definition rosc_hw_t : list (string * Z) := words ["CTRL"].
Definition pll_sys_hw_t : list (string * Z) := words ["CS"; "PWR"; "FBDIV_INT"; "PRIM"].
Definition watchdog_hw_t : list (string * Z) := [("_reserved", 4 * 11)] ++ words ["TICK"].
Definition timer_hw_t : list (string * Z) := words ["HW"; "LW"; "HR"; "LR"].
Definition syst_hw_t : list (string * Z) := words ["CSR"; "RVR"; "CVR"; "CALIB"].
Definition nvic_hw_t : list (string * Z) :=
  words ["ISER"] ++ [("gap1", 4 * 0x1F)] ++ words ["ICER"] ++ [("gap2", 4 * 0x1F)] ++
  words ["ISPR"] ++ [("gap3", 4 * 0x1F)] ++ words ["ICPR"] ++ [("gap4", 4 * 0x5F); ("IPR", 4 * 8)].
Definition NVIC_BASE : Z := 0xe0000100.
Definition scb_hw_t : list (string * Z) := words ["SHPR2"; "SHPR3"].

Definition dma_channel_al0_t : list (string * Z) := words ["READ_ADDR"; "WRITE_ADDR"; "TRANS_COUNT"; "CTRL_TRIG"].
Definition dma_channel_al1_t : list (string * Z) := words ["CTRL"; "READ_ADDR"; "WRITE_ADDR"; "TRANS_COUNT_TRIG"].
Definition dma_channel_al2_t : list (string * Z) := words ["CTRL"; "TRANS_COUNT"; "READ_ADDR"; "WRITE_ADDR_TRIG"].
Definition dma_channel_al3_t : list (string * Z) := words ["CTRL"; "WRITE_ADDR"; "TRANS_COUNT"; "READ_ADD_TRIG"].
Definition dma_channel_t : list (string * Z) :=
  [("al0", packed_size dma_channel_al0_t); ("al1", packed_size dma_channel_al1_t);
   ("al2", packed_size dma_channel_al2_t); ("al3", packed_size dma_channel_al3_t)].
Definition dma_channel_num : Z := 12.
Definition dma_intr : Z := DMA_BASE + 0x400.

(** Each register the drivers use: its address in Board.v, the base of its
    structure, the structure, and its field. *)
Definition register_map : list (Z * (Z * (list (string * Z) * string))) :=
  [(uart_DR, (UART_BASE, (uart_hw_t, "DR"))); (uart_FR, (UART_BASE, (uart_hw_t, "FR")));
   (uart_IBRD, (UART_BASE, (uart_hw_t, "IBRD"))); (uart_FBRD, (UART_BASE, (uart_hw_t, "FBRD")));
   (uart_LCR_H, (UART_BASE, (uart_hw_t, "LCR_H"))); (uart_LCR, (UART_BASE, (uart_hw_t, "LCR")));
   (spi0_CR0, (SPI0_BASE, (spi0_hw_t, "CR0"))); (spi0_CR1, (SPI0_BASE, (spi0_hw_t, "CR1")));
   (spi0_DR, (SPI0_BASE, (spi0_hw_t, "DR"))); (spi0_SR, (SPI0_BASE, (spi0_hw_t, "SR")));
   (spi0_CPSR, (SPI0_BASE, (spi0_hw_t, "CPSR")));
   (sio_OUT_SET, (SIO_BASE, (sio_hw_t, "OUT_SET"))); (sio_OUT_CLR, (SIO_BASE, (sio_hw_t, "OUT_CLR")));
   (sio_OUT_XOR, (SIO_BASE, (sio_hw_t, "OUT_XOR"))); (sio_OE_SET, (SIO_BASE, (sio_hw_t, "OE_SET")));
   (resets_RESET, (RESETS_BASE, (resets_hw_t, "RESET")));
   (resets_RESET_DONE, (RESETS_BASE, (resets_hw_t, "RESET_DONE")));
   (clocks_REF_CTRL, (CLOCKS_BASE, (clocks_hw_t, "REF_CTRL")));
   (clocks_REF_SELECTED, (CLOCKS_BASE, (clocks_hw_t, "REF_SELECTED")));
   (clocks_SYS_CTRL, (CLOCKS_BASE, (clocks_hw_t, "SYS_CTRL")));
   (clocks_SYS_SELECTED, (CLOCKS_BASE, (clocks_hw_t, "SYS_SELECTED")));
   (clocks_PERI_CTRL, (CLOCKS_BASE, (clocks_hw_t, "PERI_CTRL")));
   (xosc_CTRL, (XOSC_BASE, (xosc_hw_t, "CTRL"))); (xosc_STATUS, (XOSC_BASE, (xosc_hw_t, "STATUS")));
   (rosc_CTRL, (ROSC_BASE, (rosc_hw_t, "CTRL")));
   (pll_sys_CS, (PLL_SYS_BASE, (pll_sys_hw_t, "CS"))); (pll_sys_PWR, (PLL_SYS_BASE, (pll_sys_hw_t, "PWR")));
   (pll_sys_FBDIV_INT, (PLL_SYS_BASE, (pll_sys_hw_t, "FBDIV_INT")));
   (pll_sys_PRIM, (PLL_SYS_BASE, (pll_sys_hw_t, "PRIM")));
   (watchdog_TICK, (WATCHDOG_BASE, (watchdog_hw_t, "TICK")));
   (timer_HR, (TIMER_BASE, (timer_hw_t, "HR"))); (timer_LR, (TIMER_BASE, (timer_hw_t, "LR")));
   (syst_CSR, (SYST_BASE, (syst_hw_t, "CSR"))); (syst_RVR, (SYST_BASE, (syst_hw_t, "RVR")));
   (syst_CVR, (SYST_BASE, (syst_hw_t, "CVR")));
   (scb_SHPR2, (SCB_BASE, (scb_hw_t, "SHPR2"))); (scb_SHPR3, (SCB_BASE, (scb_hw_t, "SHPR3")))].

#[local] Close Scope string_scope.

(** The address is that of a field of the structure, and a word's. *)
Definition register_ok (r : Z * (Z * (list (string * Z) * string))) : bool :=
  let '(a, (base, (fields, f))) := r in
  (a =? base + offset_of f fields) && (a mod 4 =? 0) && existsb (fun x => String.eqb x.1 f && (x.2 =? 4)) fields.

(** ** DMA control words *)

Definition DMA_CTRL_HIGH_PRIO : Z := Z.shiftl 1 1.
Definition DMA_CTRL_DATA_SIZE_2BYTE : Z := Z.shiftl 1 2.
Definition DMA_CTRL_DATA_SIZE_4BYTE : Z := Z.shiftl 2 2.
Definition DMA_CTRL_IRQ_QUIET : Z := Z.shiftl 1 21.
Definition DMA_CTRL_BSWAP : Z := Z.shiftl 1 22.
Definition DMA_CTRL_SNIFF_EN : Z := Z.shiftl 1 23.
Definition DMA_CTRL_WRITE_ERROR : Z := Z.shiftl 1 29.
Definition DMA_CTRL_READ_ERROR : Z := Z.shiftl 1 30.
Definition DMA_CTRL_AHB_ERROR : Z := i32 (Z.shiftl 1 31).

Definition DMA_SIZE_8BIT : Z := 0.
Definition DMA_SIZE_16BIT : Z := 1.
Definition DMA_SIZE_32BIT : Z := 2.

(** The transfer requests: those of the peripherals are numbered in order. *)
Definition dma_dreqs : list string :=
  ["PIO0_TX0"; "PIO0_TX1"; "PIO0_TX2"; "PIO0_TX3"; "PIO0_RX0"; "PIO0_RX1"; "PIO0_RX2"; "PIO0_RX3";
   "PIO1_TX0"; "PIO1_TX1"; "PIO1_TX2"; "PIO1_TX3"; "PIO1_RX0"; "PIO1_RX1"; "PIO1_RX2"; "PIO1_RX3";
   "SPI0_TX"; "SPI0_RX"; "SPI1_TX"; "SPI1_RX"; "UART0_TX"; "UART0_RX"; "UART1_TX"; "UART1_RX";
   "PWM_WRAP0"; "PWM_WRAP1"; "PWM_WRAP2"; "PWM_WRAP3"; "PWM_WRAP4"; "PWM_WRAP5"; "PWM_WRAP6"; "PWM_WRAP7";
   "I2C0_TX"; "I2C0_RX"; "I2C1_TX"; "I2C1_RX"; "ADC"; "XIP_STREAM"; "XIP_SSITX"; "XIP_SSIRX"]%string.
Definition dma_treqs : list (string * Z) :=
  zip dma_dreqs (seqZ 0 40) ++
  [("TIMER0", 0x3B); ("TIMER1", 0x3C); ("TIMER2", 0x3D); ("TIMER3", 0x3E);
   ("PERMANENT", DMA_TREQ_PERMANENT)]%string.

(** ** Properties *)

(** Every register the drivers use is a field of its structure at the address
    that Board.v gives, and no two of them are the same. *)
Theorem registers_in_structures :
  Forall (fun r => register_ok r = true) register_map /\ NoDup register_map.*1.
Proof. split; [|apply (bool_decide_unpack _)]; vm_compute; [repeat constructor|done]. Qed.

(** The registers of a GPIO pin and of a DMA channel, which are indexed. *)
Lemma indexed_registers i :
  io_bank0_gpio_CTRL i = IO_BANK0_BASE + packed_size io_bank0_gpio * i + offset_of "CTRL"%string io_bank0_gpio /\
  pads_bank0_gpio i = PADS_BANK0_BASE + offset_of "gpio"%string pads_bank0_hw_t + 4 * i /\
  let channel := DMA_BASE + packed_size dma_channel_t * i in
  dma_al0_READ_ADDR i = channel + offset_of "al0"%string dma_channel_t + offset_of "READ_ADDR"%string dma_channel_al0_t /\
  dma_al0_WRITE_ADDR i = channel + offset_of "al0"%string dma_channel_t + offset_of "WRITE_ADDR"%string dma_channel_al0_t /\
  dma_al0_TRANS_COUNT i = channel + offset_of "al0"%string dma_channel_t + offset_of "TRANS_COUNT"%string dma_channel_al0_t /\
  dma_al0_CTRL_TRIG i = channel + offset_of "al0"%string dma_channel_t + offset_of "CTRL_TRIG"%string dma_channel_al0_t /\
  dma_al1_CTRL i = channel + offset_of "al1"%string dma_channel_t + offset_of "CTRL"%string dma_channel_al1_t.
Proof.
  unfold io_bank0_gpio_CTRL, pads_bank0_gpio, dma_al0_READ_ADDR, dma_al0_WRITE_ADDR, dma_al0_TRANS_COUNT,
    dma_al0_CTRL_TRIG, dma_al1_CTRL.
  assert (packed_size io_bank0_gpio = 8 /\ packed_size dma_channel_t = 64) as [-> ->] by (split; reflexivity).
  assert (offset_of "CTRL"%string io_bank0_gpio = 4 /\ offset_of "gpio"%string pads_bank0_hw_t = 4 /\
    offset_of "al0"%string dma_channel_t = 0 /\ offset_of "al1"%string dma_channel_t = 16) as (-> & -> & -> & ->)
    by (split_and!; reflexivity).
  assert (offset_of "READ_ADDR"%string dma_channel_al0_t = 0 /\ offset_of "WRITE_ADDR"%string dma_channel_al0_t = 4 /\
    offset_of "TRANS_COUNT"%string dma_channel_al0_t = 8 /\ offset_of "CTRL_TRIG"%string dma_channel_al0_t = 12 /\
    offset_of "CTRL"%string dma_channel_al1_t = 0) as (-> & -> & -> & -> & ->) by (split_and!; reflexivity).
  lia.
Qed.

(** Two channels share no register with each other, with the interrupt
    registers or with the trigger register. *)
Lemma channels_apart i j :
  0 <= i < dma_channel_num -> 0 <= j < dma_channel_num -> i <> j ->
  (DMA_BASE + packed_size dma_channel_t * i + packed_size dma_channel_t <= DMA_BASE + packed_size dma_channel_t * j \/
   DMA_BASE + packed_size dma_channel_t * j + packed_size dma_channel_t <= DMA_BASE + packed_size dma_channel_t * i) /\
  DMA_BASE + packed_size dma_channel_t * i + packed_size dma_channel_t <= dma_intr < dma_chann_trig.
Proof.
  unfold dma_channel_num, dma_intr, dma_chann_trig. change (packed_size dma_channel_t) with 64. lia.
Qed.

(** The transfer requests have distinct numbers, and each fits its field of the
    control word: dma_config_set_treq selects the request it is given. *)
Lemma treq_numbers : NoDup dma_treqs.*2 /\ Forall (fun r => 0 <= r.2 < 64) dma_treqs.
Proof.
  split; [apply (bool_decide_unpack _); vm_compute; done|].
  apply (bool_decide_unpack _). vm_compute. done.
Qed.

Lemma treqs_select config name n :
  (name, n) ∈ dma_treqs -> field_set 15 6 n config (dma_config_set_treq config n) /\ u8 n = n /\ Z.land n 63 = n.
Proof.
  intros Hin. destruct treq_numbers as [_ Hn]. rewrite Forall_forall in Hn. specialize (Hn _ Hin). cbn in Hn.
  unfold dma_config_set_treq. rewrite u8_small by (unfold is_u8; lia).
  split; [apply (set_field_spec 15 6); lia|]. split; [done|].
  change 63 with (Z.ones 6). rewrite Z.land_ones by lia. apply Z.mod_small. lia.
Qed.
