(* ===== verification/Heap.v ===== *)
(** * The allocator (libc/src/stdlib/heap.c)

    A first-fit allocator over a doubly linked list of headers kept inside
    the heap itself, modelled on byte-addressed memory: every field access
    of the C code is an aligned load or store.  The file defines the code,
    then a model of what it does to the sequence of blocks that tile the
    heap ([abs_malloc], [abs_free]), and proves that the code implements it.

    [head] is the C global; the allocator reads it, only [init_malloc]
    writes it.  [prev] pointers are the delicate part: [splitMemorySpace]
    does not repair the one of the block that follows the new leftover. *)
From S2P Require Import Prelude Bytes Board SimBoard Unistd Dma.
From Stdlib Require Import Sorted.

(** The linker symbols that bound the heap. *)
Class HeapLayout := {
  heap_start : Z;
  heap_end : Z;
}.

(** [memory_space_t] is 16 bytes: prev, next, size, isAllocated, padding. *)
Definition sizeof_memory_space_t : Z := 16.
Definition off_prev : Z := 0.
Definition off_next : Z := 4.
Definition off_size : Z := 8.
Definition off_isAllocated : Z := 12.

(** [ALIGN_4BYTE(x)]: the sum wraps. *)
Definition ALIGN_4BYTE (x : Z) : Z := Z.land (u32 (x + (4 - 1))) (-4).

(** ** The C functions, on memory *)

Definition load_flag (p : Z) : M mem bool :=
  let! b := load8 p in ret (negb (b =? 0)).

Definition find_free_space (fuel : nat) (head size : Z) : M mem Z :=
  let! curr := while_loop fuel (fun curr =>
      let! next := load32 (curr + off_next) in
      if next =? 0 then ret (inr curr) else
      let! isAllocated := load_flag (curr + off_isAllocated) in
      let! skip := (if isAllocated then ret true
                    else let! sz := load32 (curr + off_size) in ret (sz <? size)) in
      if skip then ret (inl next) else ret (inr curr)) head in
  let! sz := load32 (curr + off_size) in
  if sz <? size then ret 0 else
  let! isAllocated := load_flag (curr + off_isAllocated) in
  if isAllocated then ret 0 else ret curr.

Definition mergeNextMemorySpace (memory_space : Z) : M mem bool :=
  let! next := load32 (memory_space + off_next) in
  if next =? 0 then ret false else
  let! isAllocated := load_flag (next + off_isAllocated) in
  if isAllocated then ret false else
  let! next_er := load32 (next + off_next) in
  do! (if next_er =? 0 then ret tt else store32 (next_er + off_prev) memory_space) in
  do! store32 (memory_space + off_next) next_er in
  let! size := load32 (memory_space + off_size) in
  let! next_size := load32 (next + off_size) in
  do! store32 (memory_space + off_size) (size + (sizeof_memory_space_t + next_size)) in
  ret true.

Definition splitMemorySpace (memory_space size : Z) : M mem bool :=
  let! sz := load32 (memory_space + off_size) in
  if u32 (u32 (size + sizeof_memory_space_t) + 4) <? sz then
    let next := u32 (memory_space + sizeof_memory_space_t + size) in
    do! store32 (next + off_prev) memory_space in
    let! old_next := load32 (memory_space + off_next) in
    do! store32 (next + off_next) old_next in
    let! sz := load32 (memory_space + off_size) in
    do! store32 (next + off_size) (sz - size - sizeof_memory_space_t) in
    do! store8 (next + off_isAllocated) 0 in
    do! store32 (memory_space + off_next) next in
    do! store32 (memory_space + off_size) size in
    let! _ := mergeNextMemorySpace next in
    ret true
  else ret false.

Definition malloc_mem (fuel : nat) (head size : Z) : M mem Z :=
  let size := ALIGN_4BYTE size in
  let! free_space := find_free_space fuel head size in
  if free_space =? 0 then ret 0 else
  let! _ := splitMemorySpace free_space size in
  do! store8 (free_space + off_isAllocated) 1 in
  ret (u32 (free_space + sizeof_memory_space_t)).

Definition free_mem (ptr : Z) : M mem unit :=
  if ptr =? 0 then ret tt else
  let memory_space := u32 (ptr - sizeof_memory_space_t) in
  do! store8 (memory_space + off_isAllocated) 0 in
  let! _ := mergeNextMemorySpace memory_space in
  let! prev := load32 (memory_space + off_prev) in
  if prev =? 0 then ret tt else
  let! isAllocated := load_flag (prev + off_isAllocated) in
  if isAllocated then ret tt else
  let! _ := mergeNextMemorySpace prev in
  ret tt.

(** Returns the new value of [head]. *)
Definition init_malloc_mem `{HeapLayout} : M mem Z :=
  let head := ALIGN_4BYTE heap_start in
  do! store32 (head + off_prev) 0 in
  do! store32 (head + off_next) 0 in
  do! store32 (head + off_size) ((heap_end - ALIGN_4BYTE heap_start) - sizeof_memory_space_t) in
  do! store8 (head + off_isAllocated) 0 in
  ret head.

(** ** The C functions, on the machine *)

(** The machine and the allocator's global. *)
Record heap_state (D : Type) := HeapState { mach : machine D; head : Z }.
Arguments HeapState {D}. Arguments mach {D}. Arguments head {D}.

Section HeapMachine.
Context {D : Type} `{Hardware D} `{Fuel} `{HeapLayout}.

Definition on_machine {A} (m : M (machine D) A) : M (heap_state D) A :=
  zoom mach (fun s h => HeapState s (head h)) m.
Definition on_memory {A} (m : M mem A) : M (heap_state D) A := on_machine (in_ram m).

Definition init_malloc : M (heap_state D) unit :=
  let! h := on_memory init_malloc_mem in
  modify (fun s => HeapState (mach s) h).

Definition malloc (size : Z) : M (heap_state D) Z :=
  let! h := gets head in on_memory (malloc_mem fuel h size).

Definition free (ptr : Z) : M (heap_state D) unit := on_memory (free_mem ptr).

Definition realloc (ptr size : Z) : M (heap_state D) Z :=
  let memory_space := u32 (ptr - sizeof_memory_space_t) in
  let! oldSize := on_memory (load32 (memory_space + off_size)) in
  let! new := malloc size in
  if new =? 0 then ret 0 else
  let toCopy := if oldSize <? size then oldSize else size in
  let! _ := on_machine (memcpy new ptr toCopy) in
  do! free ptr in
  ret new.
End HeapMachine.

(** ** The block model *)

Record block := Block { bsize : Z; balloc : bool }.

(** The blocks [bs] laid out from address [a] end at [end_of a bs]. *)
Fixpoint end_of (a : Z) (bs : list block) : Z :=
  match bs with
  | [] => a
  | b :: bs' => end_of (a + 16 + bsize b) bs'
  end.

Definition fits (size : Z) (b : block) : bool := negb (balloc b) && (size <=? bsize b).

(** The first free block that is large enough, with what surrounds it. *)
Fixpoint first_fit (size : Z) (bs : list block) : option (list block * block * list block) :=
  match bs with
  | [] => None
  | b :: bs' =>
      if fits size b then Some ([], b, bs')
      else '(l1, c, l2) ← first_fit size bs'; Some (b :: l1, c, l2)
  end.

(** The first block absorbs the second when that one is free. *)
Definition merge_head (bs : list block) : list block :=
  match bs with
  | b1 :: b2 :: bs' =>
      if balloc b2 then bs else Block (bsize b1 + 16 + bsize b2) (balloc b1) :: bs'
  | _ => bs
  end.

(** Allocate [size] bytes at the start of the free block [b], followed by [l2]. *)
Definition place (size : Z) (b : block) (l2 : list block) : list block :=
  if size + 20 <? bsize b
  then Block size true :: merge_head (Block (bsize b - size - 16) false :: l2)
  else Block (bsize b) true :: l2.

Definition abs_malloc (head size : Z) (bs : list block) : Z * list block :=
  match first_fit size bs with
  | Some (l1, b, l2) => (end_of head l1 + 16, l1 ++ place size b l2)
  | None => (0, bs)
  end.

(** Free the block [b] between [l1] and [l2]. *)
Definition abs_free (l1 : list block) (b : block) (l2 : list block) : list block :=
  let rest := merge_head (Block (bsize b) false :: l2) in
  match last l1 with
  | Some p => if balloc p then l1 ++ rest else removelast l1 ++ merge_head (p :: rest)
  | None => rest
  end.

(** ** Representation *)

(** A header at [a] describing [b], whose next field is [nx]. *)
Definition hdr (m : mem) (a : Z) (b : block) (nx : Z) : Prop :=
  (exists pv, word_at m a pv) /\ word_at m (a + 4) nx /\ word_at m (a + 8) (bsize b) /\
  m !! (a + 12) = Some (Z.b2z (balloc b)).

(** Where a header points whose block is followed by [bs] at [a]. *)
Definition next_of (bs : list block) (a nx : Z) : Z := match bs with [] => nx | _ => a end.

(** Headers of the blocks [bs] from address [a]; the last one points to [nx]. *)
Fixpoint seg (m : mem) (a : Z) (bs : list block) (nx : Z) : Prop :=
  match bs with
  | [] => True
  | b :: bs' =>
      hdr m a b (next_of bs' (a + 16 + bsize b) nx) /\
      seg m (a + 16 + bsize b) bs' nx
  end.

(** The prev fields: each points to the block before, the first to [pv]. *)
Fixpoint prevs (m : mem) (pv a : Z) (bs : list block) : Prop :=
  match bs with
  | [] => True
  | b :: bs' => word_at m a pv /\ prevs m a (a + 16 + bsize b) bs'
  end.

Definition block_ok (b : block) : Prop := 0 <= bsize b.

(** Every header is at a word's address. *)
Fixpoint aligned (a : Z) (bs : list block) : Prop :=
  match bs with
  | [] => True
  | b :: bs' => a mod 4 = 0 /\ aligned (a + 16 + bsize b) bs'
  end.

(** Blocks that tile a region of the address space starting at [a]; its end
    need not be a word's address. *)
Definition layout (a : Z) (bs : list block) : Prop :=
  0 < a /\ aligned a bs /\ Forall block_ok bs /\ end_of a bs < 4294967296.

(** The blocks [bs] tile the heap from [a], which is mapped, and the list of
    headers in memory is theirs. *)
Definition heap_at (m : mem) (a : Z) (bs : list block) : Prop :=
  layout a bs /\ bs <> [] /\ seg m a bs 0 /\ mapped m a (end_of a bs).

(** [q] is a payload byte of an allocated block. *)
Fixpoint owned (a : Z) (bs : list block) (q : Z) : Prop :=
  match bs with
  | [] => False
  | b :: bs' => (balloc b = true /\ a + 16 <= q < a + 16 + bsize b) \/
                owned (a + 16 + bsize b) bs' q
  end.

(** The allocations: payload address and size, in address order. *)
Fixpoint live (a : Z) (bs : list block) : list (Z * Z) :=
  match bs with
  | [] => []
  | b :: bs' => (if balloc b then [(a + 16, bsize b)] else []) ++ live (a + 16 + bsize b) bs'
  end.

(** Where the use of the heap ends: at the payload of a last block that is
    free, or at the end of the heap. *)
Fixpoint top (a : Z) (bs : list block) : Z :=
  match bs with
  | [] => a
  | b :: [] => if balloc b then a + 16 + bsize b else a + 16
  | b :: bs' => top (a + 16 + bsize b) bs'
  end.

(** Memory from there on is left alone. *)
Definition tail_kept (m m' : mem) (a : Z) (bs : list block) : Prop :=
  forall q, top a bs <= q -> m' !! q = m !! q.

(** The first header is at the first word of the heap.  The linker scripts
    guarantee room for it and that the heap is memory; the program's script
    puts the end of its heap at an odd address. *)
Definition heap_base `{HL : HeapLayout} : Z := ALIGN_4BYTE heap_start.

Definition heap_layout_ok `{HL : HeapLayout} (m : mem) : Prop :=
  0 < heap_start /\ heap_base + 16 <= heap_end < 4294967296 /\ heap_start + 3 < 4294967296 /\
  mapped m heap_base heap_end.

(** No two neighbours are free. *)
Fixpoint coalesced (bs : list block) : Prop :=
  match bs with
  | b1 :: (b2 :: _) as bs' => (balloc b1 = true \/ balloc b2 = true) /\ coalesced bs'
  | _ => True
  end.

(** ** Lemmas: layout *)

Ltac unfold_offsets :=
  unfold off_prev, off_next, off_size, off_isAllocated, sizeof_memory_space_t in *.

Lemma end_of_app a l1 l2 : end_of a (l1 ++ l2) = end_of (end_of a l1) l2.
Proof. revert a. induction l1 as [|b l1 IH]; intros a; [done|]. apply IH. Qed.

Lemma end_of_ge a bs : Forall block_ok bs -> a <= end_of a bs.
Proof.
  intros Hb. revert a. induction Hb as [|b bs Hb _ IH]; intros a; cbn; [lia|]. red in Hb.
  specialize (IH (a + 16 + bsize b)). lia.
Qed.

Lemma aligned_app a l1 l2 : aligned a (l1 ++ l2) <-> aligned a l1 /\ aligned (end_of a l1) l2.
Proof. revert a. induction l1 as [|b l1 IH]; intros a; cbn [app aligned end_of]; [tauto|]. rewrite IH. tauto. Qed.

Lemma layout_app a l1 l2 : layout a (l1 ++ l2) <-> layout a l1 /\ layout (end_of a l1) l2.
Proof.
  unfold layout. rewrite Forall_app, end_of_app, aligned_app. split.
  - intros (Ha & Hm & [H1 H2] & He).
    pose proof (end_of_ge a l1 H1). pose proof (end_of_ge (end_of a l1) l2 H2).
    split_and!; tauto || lia.
  - intros ((Ha & Hm & H1 & _) & (_ & Hm2 & H2 & He)). done.
Qed.

Lemma layout_cons a b bs :
  layout a (b :: bs) <->
  0 < a /\ a mod 4 = 0 /\ 0 <= bsize b /\ a + 16 + bsize b < 4294967296 /\
  layout (a + 16 + bsize b) bs.
Proof.
  unfold layout. rewrite Forall_cons. unfold block_ok at 1. cbn [end_of aligned]. split.
  - intros (Ha & Hm & [Hb H2] & He). pose proof (end_of_ge (a + 16 + bsize b) bs H2).
    split_and!; try tauto; lia.
  - intros (Ha & Hm & Hb & Hlt & _ & Hm2 & H2 & He). done.
Qed.

Lemma layout_pos a bs : layout a bs -> 0 < a.
Proof. by intros [? _]. Qed.

Lemma layout_end a bs : layout a bs -> a <= end_of a bs < 4294967296.
Proof. intros (_ & _ & Hb & He). pose proof (end_of_ge a bs Hb). lia. Qed.

Lemma top_app a l1 l2 : l2 <> [] -> top a (l1 ++ l2) = top (end_of a l1) l2.
Proof.
  intros Hne. revert a. induction l1 as [|b l1 IH]; intros a; [done|]. cbn [app end_of]. rewrite <- IH.
  destruct l1; [by destruct l2|done].
Qed.

Lemma top_bounds a b bs : Forall block_ok (b :: bs) -> a + 16 <= top a (b :: bs) <= end_of a (b :: bs).
Proof.
  intros Hb. revert a b Hb. induction bs as [|c bs IH]; intros a b [Hb Hbs]%Forall_cons; red in Hb.
  - cbn. destruct (balloc b); lia.
  - specialize (IH (a + 16 + bsize b) c Hbs). change (top a (b :: c :: bs)) with (top (a + 16 + bsize b) (c :: bs)).
    change (end_of a (b :: c :: bs)) with (end_of (a + 16 + bsize b) (c :: bs)). lia.
Qed.

(** ** Lemmas: headers *)


Lemma hdr_frame m m' a b nx :
  hdr m a b nx -> (forall q, a <= q < a + 16 -> m' !! q = m !! q) -> hdr m' a b nx.
Proof.
  intros ([pv Hp] & Hn & Hs & Hf) Hq. split; [exists pv|split; [|split]].
  1-3: eapply word_at_frame; [done|]; intros; apply Hq; lia.
  rewrite Hq by lia. done.
Qed.

(** The prev field is not part of what [hdr] promises. *)
Lemma hdr_set_prev m m' a b nx v :
  hdr m a b nx -> word_at m' a v -> (forall q, a + 4 <= q < a + 16 -> m' !! q = m !! q) ->
  hdr m' a b nx.
Proof.
  intros (_ & Hn & Hs & Hf) Hv Hq. split; [by exists v|split; [|split]].
  1-2: eapply word_at_frame; [done|]; intros; apply Hq; lia.
  rewrite Hq by lia. done.
Qed.

Lemma seg_frame m m' a bs nx :
  Forall block_ok bs -> seg m a bs nx ->
  (forall q, a <= q < end_of a bs -> m' !! q = m !! q) -> seg m' a bs nx.
Proof.
  intros Hb. revert a. induction Hb as [|b bs Hb Hbs IH]; intros a Hs Hq; [done|]. red in Hb.
  destruct Hs as [Hh Hs]. cbn [end_of] in Hq.
  pose proof (end_of_ge (a + 16 + bsize b) bs Hbs).
  split; [eapply hdr_frame; [done|]; intros; apply Hq; lia|].
  apply IH; [done|]. intros; apply Hq; lia.
Qed.

Lemma seg_app m a l1 l2 nx :
  seg m a (l1 ++ l2) nx <->
  seg m a l1 (next_of l2 (end_of a l1) nx) /\ seg m (end_of a l1) l2 nx.
Proof.
  revert a. induction l1 as [|b l1 IH]; intros a; [by cbn; tauto|]. cbn [app seg end_of].
  rewrite IH. destruct l1; cbn; tauto.
Qed.

Lemma prevs_app m pv a l1 l2 :
  prevs m pv a (l1 ++ l2) <->
  prevs m pv a l1 /\
  prevs m (match last l1 with Some _ => end_of a (removelast l1) | None => pv end) (end_of a l1) l2.
Proof.
  revert pv a. induction l1 as [|b l1 IH]; intros pv a; [by cbn; tauto|].
  cbn [app prevs end_of]. rewrite IH. destruct l1 as [|c l1]; [cbn; tauto|].
  replace (last (b :: c :: l1)) with (last (c :: l1)) by done.
  destruct (last (c :: l1)) eqn:E; [|by apply last_None in E].
  change (removelast (b :: c :: l1)) with (b :: removelast (c :: l1)). cbn [end_of]. tauto.
Qed.

Lemma prevs_frame m m' pv a bs :
  Forall block_ok bs -> prevs m pv a bs ->
  (forall q, a <= q < end_of a bs -> m' !! q = m !! q) -> prevs m' pv a bs.
Proof.
  intros Hb. revert pv a. induction Hb as [|b bs Hb Hbs IH]; intros pv a Hs Hq; [done|]. red in Hb.
  destruct Hs as [Hh Hs]. cbn [end_of] in Hq.
  pose proof (end_of_ge (a + 16 + bsize b) bs Hbs).
  split; [eapply word_at_frame; [done|]; intros; apply Hq; lia|].
  apply IH; [done|]. intros; apply Hq; lia.
Qed.

Lemma owned_range a bs q : Forall block_ok bs -> owned a bs q -> a + 16 <= q < end_of a bs.
Proof.
  intros Hb. revert a. induction Hb as [|b bs Hb Hbs IH]; intros a Hq; [done|]. red in Hb.
  cbn [owned end_of] in *. pose proof (end_of_ge (a + 16 + bsize b) bs Hbs).
  destruct Hq as [[_ Hq] | Hq]; [lia|]. apply IH in Hq. lia.
Qed.

Lemma load_flag_ok h m a b nx Q :
  hdr m a b nx -> Q (balloc b) m -> wpg h (load_flag (a + off_isAllocated)) Q m.
Proof.
  intros (_ & _ & _ & Hf) HQ. unfold load_flag. wp_step. unfold_offsets.
  eapply load8_ok; [exact Hf|]. wp_step. by destruct (balloc b).
Qed.

Lemma hdr_mapped m a b nx : hdr m a b nx -> mapped m a (a + 13).
Proof.
  intros ([pv Hp] & Hn & Hs & Hf) q Hq.
  apply word_at_mapped in Hp, Hn, Hs. destruct (Z.eq_dec q (a + 12)) as [->|]; [eauto|].
  destruct (Z.lt_ge_cases q (a + 4)); [apply Hp; lia|].
  destruct (Z.lt_ge_cases q (a + 8)); [apply Hn; lia|]. apply Hs; lia.
Qed.

(** Memory lookups through a chain of stores whose frames are hypotheses. *)
Ltac mem_frame :=
  repeat match goal with
  | F : (forall q, _ -> ?m' !! q = ?m !! q) |- ?m' !! _ = _ => rewrite F by lia
  end; try done.

(** A word is still there after stores elsewhere. *)
Ltac keep_word H := eapply word_at_frame; [exact H|]; intros; mem_frame.

(** Setting the prev field of the header at [x], if the list continues there. *)
Definition prev_fixed (m m' : mem) (x v : Z) (bs : list block) : Prop :=
  seg m' x bs 0 /\
  (forall q, q < x \/ end_of x bs <= q \/ x + 4 <= q -> m' !! q = m !! q) /\
  (forall y z, mapped m y z -> mapped m' y z) /\
  (forall pv, prevs m pv x bs -> prevs m' v x bs).

Lemma fix_prev_ok h m x v bs :
  layout x bs -> is_u32 v -> seg m x bs 0 ->
  wpg h (if next_of bs x 0 =? 0 then ret tt else store32 (next_of bs x 0 + off_prev) v)
    (fun _ m' => prev_fixed m m' x v bs) m.
Proof.
  intros Hl Hv Hs. destruct bs as [|b bs]; cbn [next_of].
  { cbn [Z.eqb]. wp_step. by split_and!. }
  destruct Hs as [Hh Hs]. apply layout_cons in Hl as (Hx & _ & Hb0 & _ & Hl).
  destruct (Z.eqb_spec x 0); [lia|]. unfold_offsets. rewrite Z.add_0_r.
  pose proof (layout_end _ _ Hl). destruct Hh as ([pv Hp] & Hh).
  eapply store32_over; [exact Hp|done|]. intros m' Hw Hq Hm.
  split_and!; [split| |done|].
  - eapply hdr_set_prev; [by split; [exists pv|]|done|]. intros; mem_frame.
  - eapply seg_frame; [apply Hl|done|]. intros; mem_frame.
  - cbn [end_of]. intros; mem_frame.
  - intros pv' [_ Hpv]. split; [done|]. eapply prevs_frame; [apply Hl|done|]. intros; mem_frame.
Qed.

(** Storing the flag byte. *)
Lemma store_flag_ok h (m : mem) p v (Q : unit -> mem -> Prop) :
  is_Some (m !! p) ->
  (forall m', m' !! p = Some (u8 v) -> (forall q, q < p \/ p + 1 <= q -> m' !! q = m !! q) ->
     (forall a b, mapped m a b -> mapped m' a b) -> Q tt m') ->
  wpg h (store8 p v) Q m.
Proof.
  intros Hp HQ. apply store8_ok; [exact Hp|]. intros m' E. apply HQ.
  - exact (peek_poke_eq m p (u8 v) m' E).
  - intros q Hq. exact (peek_poke_ne m p q (u8 v) m' E ltac:(lia)).
  - intros a b. eapply (mapped_pokes m m' p [u8 v]). cbn [pokes]. by rewrite E.
Qed.

(** Either there is no next block, or it can be absorbed. *)
Definition head_free (bs : list block) : Prop :=
  match bs with [] => True | b :: _ => balloc b = false end.

(** The header at [a] describes a block that reaches to [X], and the list
    goes on there with [l], whose first prev field names [a]. *)
Lemma merged_intro m m1 m' a b b2 l :
  let X := a + 16 + bsize b + 16 + bsize b2 in
  layout X l -> 0 <= bsize b -> 0 <= bsize b2 -> seg m a (b :: b2 :: l) 0 -> balloc b2 = false ->
  prev_fixed m m1 X a l ->
  word_at m' (a + 4) (next_of l X 0) -> word_at m' (a + 8) (bsize b + 16 + bsize b2) ->
  (forall q, q < a + 4 \/ a + 12 <= q -> m' !! q = m1 !! q) ->
  seg m' a (merge_head (b :: b2 :: l)) 0 /\
  (forall q, q < a + 4 \/ end_of a (b :: b2 :: l) <= q \/ owned a (b :: b2 :: l) q -> m' !! q = m !! q) /\
  (forall pv pv', word_at m a pv -> prevs m pv' (a + 16 + bsize b) (b2 :: l) ->
     prevs m' pv a (merge_head (b :: b2 :: l))) /\
  tail_kept m m' a (merge_head (b :: b2 :: l)).
Proof.
  intros X Hl Hb Hb2 [([pv Hp] & _ & _ & Hf) _] Ef (Hs1 & F1 & _ & Hpv1) Wn Wz F.
  pose proof (layout_end _ _ Hl) as [HX _]. cbn [merge_head]. rewrite Ef.
  assert (a + 16 + (bsize b + 16 + bsize b2) = X) as EX by (unfold X; lia). assert (a + 32 <= X) by (unfold X; lia).
  split; [|split; [|split]].
  - cbn [seg bsize]. rewrite EX. split; [|eapply seg_frame; [apply Hl|exact Hs1|]; intros; apply F; lia].
    split; [exists pv; keep_word Hp|split_and!; [done|done|]]. cbn [balloc]. rewrite <- Hf. mem_frame.
  - cbn [end_of owned]. fold X. intros q Hq. pose proof (owned_range X l q ltac:(apply Hl)) as Hr.
    assert ((q < a + 4 \/ a + 12 <= q) /\ (q < X \/ end_of X l <= q \/ X + 4 <= q)) as [Hq1 Hq2].
    { destruct Hq as [?|[?|[[_ ?]|[[??]|Ho]]]]; [lia|lia|unfold X; lia|congruence|]. specialize (Hr Ho). lia. }
    rewrite F by done. by apply F1.
  - intros pw pv' Hpv [_ Hpv2]. cbn [prevs bsize]. rewrite EX. split; [keep_word Hpv|].
    eapply prevs_frame; [apply Hl|by eapply Hpv1|]. intros; apply F; lia.
  - intros q. unfold top; fold top. cbn [balloc bsize]. rewrite EX. destruct l as [|c l]; cbn [end_of] in F1.
    + destruct (balloc b); intros Hq; rewrite F by lia; apply F1; lia.
    + pose proof (top_bounds X c l ltac:(apply Hl)). intros Hq. rewrite F by lia. apply F1. lia.
Qed.

(** What [mergeNextMemorySpace] does to the list that starts at its argument. *)
Lemma merge_ok h m a b l (Q : bool -> mem -> Prop) :
  layout a (b :: l) -> seg m a (b :: l) 0 ->
  (forall m' r,
     seg m' a (merge_head (b :: l)) 0 ->
     (forall q, q < a + 4 \/ end_of a (b :: l) <= q \/ owned a (b :: l) q -> m' !! q = m !! q) ->
     (forall x y, mapped m x y -> mapped m' x y) ->
     (forall pv pv', word_at m a pv -> prevs m pv' (a + 16 + bsize b) l ->
        pv' = a \/ head_free l -> prevs m' pv a (merge_head (b :: l))) ->
     tail_kept m m' a (merge_head (b :: l)) -> Q r m') ->
  wpg h (mergeNextMemorySpace a) Q m.
Proof.
  intros Hl Hs HQ. unfold mergeNextMemorySpace. wp_step.
  destruct Hs as [Hh Hs]. assert (Hh' := Hh). destruct Hh' as (Hp & Hn & Hz & Hf).
  eapply load32_ok; [exact Hn|]. destruct l as [|b2 l].
  { cbn [next_of Z.eqb]. wp_step. by apply HQ. }
  apply layout_cons in Hl as (Ha & Hm & Hb0 & _ & Hl).
  apply layout_cons in Hl as (Ha2 & Hm2 & Hc0 & Hlt & Hl).
  cbn [next_of]. destruct (Z.eqb_spec (a + 16 + bsize b) 0); [lia|].
  destruct Hs as [Hh2 Hs]. wp_step. eapply load_flag_ok; [exact Hh2|].
  destruct (balloc b2) eqn:Eb2.
  { wp_step. apply HQ; cbn [merge_head]; rewrite ?Eb2; try done.
    intros pv pv' Hpv Hpv' [->|Hfr]; [done|]. cbn in Hfr. congruence. }
  destruct Hh2 as (Hp2 & Hn2 & Hz2 & Hf2).
  wp_step. eapply load32_ok; [exact Hn2|].
  set (X := a + 16 + bsize b + 16 + bsize b2) in *.
  set (nx := next_of l X 0) in *.
  assert (is_u32 nx) as Hnx by (subst nx; destruct l; cbn; unfold is_u32; lia).
  pose proof (layout_end _ _ Hl) as [HX HXe].
  wp_step.
  apply (wpg_mono h _ (fun _ m1 => prev_fixed m m1 X a l)).
  { subst nx. apply fix_prev_ok; [done|unfold is_u32; lia|done]. }
  intros [] m1 P1. pose proof P1 as (_ & Hq1 & Hm1 & _). wp_step.
  eapply (store32_over h m1 (a + off_next) (a + 16 + bsize b) nx); [|done|].
  { eapply word_at_frame; [exact Hn|]. intros; apply Hq1. unfold_offsets. lia. }
  intros m2 Hn3 Hq2 Hm2'. unfold_offsets. wp_step. eapply load32_ok; [keep_word Hz|].
  wp_step. eapply load32_ok; [keep_word Hz2|].
  wp_step. eapply (store32_over h m2 (a + 8) (bsize b) _); [keep_word Hz|unfold is_u32; lia|].
  intros m3 Hz3 Hq3 Hm3. wp_step. rewrite Z.add_assoc in Hz3.
  destruct (merged_intro m m1 m3 a b b2 l) as (R1 & R2 & R3 & R4); try done.
  - keep_word Hn3.
  - intros q Hq. mem_frame.
  - apply HQ; [done|done| |intros pv pv' Hpv Hpv' _; by eapply R3|done]. intros. by apply Hm3, Hm2', Hm1.
Qed.

(** ** The first-fit search *)

Lemma first_fit_skip size l1 l2 :
  Forall (fun b => fits size b = false) l1 ->
  first_fit size (l1 ++ l2) = '(x, c, y) ← first_fit size l2; Some (l1 ++ x, c, y).
Proof.
  induction 1 as [|b l1 Hb _ IH]; cbn [app first_fit].
  - by destruct (first_fit size l2) as [[[??]?]|].
  - rewrite Hb, IH. by destruct (first_fit size l2) as [[[??]?]|].
Qed.

Lemma first_fit_some size bs l1 b l2 :
  first_fit size bs = Some (l1, b, l2) ->
  bs = l1 ++ b :: l2 /\ fits size b = true /\ Forall (fun b => fits size b = false) l1.
Proof.
  revert l1 b l2. induction bs as [|c bs IH]; intros l1 b l2 H; [done|]. cbn [first_fit] in H.
  destruct (fits size c) eqn:E; [by simplify_eq|].
  destruct (first_fit size bs) as [[[x d] y]|] eqn:E'; [|done]. cbn in H. simplify_eq.
  destruct (IH x b l2) as (-> & Hf & Hx); [done|]. split_and!; [done|done|by constructor].
Qed.

Lemma first_fit_none size bs :
  first_fit size bs = None -> Forall (fun b => fits size b = false) bs.
Proof.
  induction bs as [|c bs IH]; [by constructor|]. cbn [first_fit].
  destruct (fits size c) eqn:E; [done|].
  destruct (first_fit size bs) as [[[x d] y]|] eqn:E'; [done|]. intros _. constructor; auto.
Qed.

Lemma find_free_space_ok fuel m a size bs (Q : Z -> mem -> Prop) :
  layout a bs -> bs <> [] -> seg m a bs 0 -> (length bs <= fuel)%nat ->
  Q (match first_fit size bs with Some (l1, _, _) => end_of a l1 | None => 0 end) m ->
  wp (find_free_space fuel a size) Q m.
Proof.
  intros Hl Hne Hs Hf HQ. unfold find_free_space. wp_step.
  eapply (wpg_mono _ _ (fun c s => s = m /\ exists l1 b l2, bs = l1 ++ b :: l2 /\ c = end_of a l1 /\
            Forall (fun b => fits size b = false) l1 /\ (l2 = [] \/ fits size b = true))).
  - eapply (wp_while (fun n c s => s = m /\ exists l1 b l2, bs = l1 ++ b :: l2 /\ c = end_of a l1 /\
              Forall (fun b => fits size b = false) l1 /\ n = length l2)); [|instantiate (1 := (length bs - 1)%nat)|].
    + intros n c s (-> & l1 & b & l2 & -> & -> & Hno & ->).
      apply seg_app in Hs as [_ [Hh Hs]]. apply layout_app in Hl as [_ Hl].
      pose proof (layout_pos _ _ Hl).
      assert (Hh' := Hh). destruct Hh' as (_ & Hn & Hz & _).
      wp_step. eapply load32_ok; [exact Hn|].
      destruct l2 as [|c l2]; cbn [next_of].
      { cbn [Z.eqb]. wp_step. split; [done|]. exists l1, b, []. auto. }
      apply layout_cons in Hl as (_ & _ & _ & _ & Hl). pose proof (layout_pos _ _ Hl).
      destruct (Z.eqb_spec (end_of a l1 + 16 + bsize b) 0); [lia|].
      wp_step. eapply load_flag_ok; [exact Hh|]. wp_step.
      apply (wpg_mono _ _ (fun r s => r = negb (fits size b) /\ s = m)).
      { unfold fits. destruct (balloc b); cbn [negb andb]; [by wp_step|].
        wp_step. eapply load32_ok; [exact Hz|]. wp_step. by rewrite Z.leb_antisym, negb_involutive. }
      intros r s [-> ->]. destruct (fits size b) eqn:E; cbn [negb]; wp_step.
      { split; [done|]. exists l1, b, (c :: l2). auto. }
      exists (length l2). split; [cbn; lia|]. split; [done|]. exists (l1 ++ [b]), c, l2.
      rewrite end_of_app, <- app_assoc. split_and!; try done. apply Forall_app. auto.
    + destruct bs; cbn in *; [done|lia].
    + split; [done|]. destruct bs as [|b bs]; [done|]. exists [], b, bs.
      split_and!; try done. cbn. lia.
  - intros c s (-> & l1 & b & l2 & -> & -> & Hno & Hend).
    apply seg_app in Hs as [_ [Hh Hs]]. assert (Hh' := Hh). destruct Hh' as (_ & _ & Hz & _).
    rewrite (first_fit_skip size l1 _ Hno) in HQ. cbn [first_fit] in HQ.
    wp_step. eapply load32_ok; [exact Hz|].
    destruct (fits size b) eqn:E.
    + unfold fits in E. destruct (balloc b) eqn:Eb; cbn [negb andb] in E; [done|].
      destruct (Z.ltb_spec (bsize b) size); [lia|].
      wp_step. eapply load_flag_ok; [exact Hh|]. rewrite Eb. wp_step.
      cbn in HQ. by rewrite app_nil_r in HQ.
    + destruct Hend as [->|Hend]; [|congruence]. cbn in HQ.
      unfold fits in E. destruct (balloc b) eqn:Eb; cbn [negb andb] in E.
      * destruct (bsize b <? size); wp_step; [done|]. eapply load_flag_ok; [exact Hh|].
        rewrite Eb. by wp_step.
      * destruct (Z.ltb_spec (bsize b) size); [by wp_step|lia].
Qed.

(** ** Splitting and allocating *)

(** The blocks after [splitMemorySpace] on the free block [b] followed by [l]. *)
Definition split_block (size : Z) (b : block) (l : list block) : list block :=
  if size + 20 <? bsize b
  then Block size false :: merge_head (Block (bsize b - size - 16) false :: l)
  else b :: l.

Lemma next_of_merge_head b l a nx : next_of (merge_head (b :: l)) a nx = a.
Proof. destruct l as [|c l]; cbn; [done|]. by destruct (balloc c). Qed.

Lemma merge_head_end a b l : end_of a (merge_head (b :: l)) = end_of a (b :: l).
Proof.
  destruct l as [|c l]; [done|]. cbn [merge_head]. destruct (balloc c); [done|]. cbn. f_equal. lia.
Qed.

Lemma merge_head_layout a b l : layout a (b :: l) -> layout a (merge_head (b :: l)).
Proof.
  destruct l as [|c l]; [done|]. cbn [merge_head]. destruct (balloc c); [done|].
  rewrite !layout_cons. cbn [bsize]. intros (? & ? & ? & ? & ? & ? & ? & ? & Hl).
  replace (a + 16 + (bsize b + 16 + bsize c)) with (a + 16 + bsize b + 16 + bsize c) by lia.
  split_and!; done || lia.
Qed.

Lemma merge_head_head b l : exists r b', merge_head (b :: l) = b' :: r /\ balloc b' = balloc b.
Proof.
  destruct l as [|c l]; [by exists [], b|]. cbn [merge_head].
  destruct (balloc c); [by exists (c :: l), b|]. by eexists l, _.
Qed.

Lemma place_top a size b l :
  size + 20 < bsize b ->
  top a (place size b l) = top (a + 16 + size) (merge_head (Block (bsize b - size - 16) false :: l)).
Proof.
  intros H. unfold place. destruct (Z.ltb_spec (size + 20) (bsize b)); [|lia].
  destruct (merge_head_head (Block (bsize b - size - 16) false) l) as (r & c & -> & _). done.
Qed.

(** A header for what is left of the free block [b] at [a] is in place after
    [size] bytes, and linked into the list. *)
Definition linked (m m' : mem) (a size : Z) (b : block) (l : list block) : Prop :=
  hdr m' a (Block size false) (a + 16 + size) /\
  seg m' (a + 16 + size) (Block (bsize b - size - 16) false :: l) 0 /\ word_at m' (a + 16 + size) a /\
  (forall q, q < a + 4 \/ a + 16 + size + 16 <= q -> m' !! q = m !! q) /\
  (forall x y, mapped m x y -> mapped m' x y).

Lemma linked_intro m m' a size b l :
  layout a (b :: l) -> seg m a (b :: l) 0 -> balloc b = false -> 0 <= size -> size + 20 < bsize b ->
  let N := a + 16 + size in
  word_at m' N a -> word_at m' (N + 4) (next_of l (a + 16 + bsize b) 0) ->
  word_at m' (N + 8) (bsize b - size - 16) -> m' !! (N + 12) = Some 0 ->
  word_at m' (a + 4) N -> word_at m' (a + 8) size ->
  (forall q, q < a + 4 \/ a + 12 <= q < N \/ N + 13 <= q -> m' !! q = m !! q) ->
  (forall x y, mapped m x y -> mapped m' x y) -> linked m m' a size b l.
Proof.
  intros Hl [([pv Hp] & _ & _ & Hf) Hs] Hfree Hsz Hlt N W1 W2 W3 W4 W5 W6 F M.
  apply layout_cons in Hl as (_ & _ & _ & _ & Hl). rewrite Hfree in Hf. unfold linked. fold N. split_and!; try done.
  - split; [exists pv|split_and!; [done|done|]]; [eapply word_at_frame; [exact Hp|]; intros; apply F; lia|].
    rewrite F by (unfold N; lia). exact Hf.
  - cbn [seg bsize]. replace (N + 16 + (bsize b - size - 16)) with (a + 16 + bsize b) by (unfold N; lia).
    split; [by split; [exists a|split_and!]|]. eapply seg_frame; [apply Hl|exact Hs|]. intros. apply F. lia.
  - intros q Hq. apply F. unfold N. lia.
Qed.

(** The stores of [splitMemorySpace], before it merges. *)
Lemma split_writes_ok h m a b l size (Q : bool -> mem -> Prop) :
  layout a (b :: l) -> seg m a (b :: l) 0 -> mapped m a (end_of a (b :: l)) ->
  balloc b = false -> 0 <= size -> size + 20 < bsize b -> size mod 4 = 0 ->
  (forall m', linked m m' a size b l ->
     wpg h (let! _ := mergeNextMemorySpace (a + 16 + size) in ret true) Q m') ->
  wpg h (splitMemorySpace a size) Q m.
Proof.
  intros Hl Hs Hmap Hfree Hsz Hlt Hsz4 HQ. assert (Hs' := Hs). destruct Hs' as [(_ & Hn & Hz & _) _].
  assert (Hl' := Hl). apply layout_cons in Hl' as (Ha & Hm & Hb0 & Hle & Hl2).
  pose proof (layout_end _ _ Hl2). cbn [end_of] in Hmap. unfold splitMemorySpace. wp_step. assert (4 <= a) by dlia.
  eapply load32_ok; [exact Hz|]. unfold_offsets. rewrite (u32_small (size + 16)) by (unfold is_u32; lia).
  rewrite (u32_small (size + 16 + 4)) by (unfold is_u32; lia).
  destruct (Z.ltb_spec (size + 16 + 4) (bsize b)); [|lia].
  rewrite (u32_small (a + 16 + size)) by (unfold is_u32; lia). set (N := a + 16 + size) in *. rewrite Z.add_0_r.
  wp_step. apply store32_ok; [unfold N; dlia|intros q ?; apply Hmap; lia|]. intros m1 W1 F1 M1.
  wp_step. eapply load32_ok; [keep_word Hn|].
  wp_step. apply store32_ok; [unfold N; dlia|intros q ?; apply M1 in Hmap; apply Hmap; lia|]. intros m2 W2 F2 M2.
  wp_step. eapply load32_ok; [keep_word Hz|].
  wp_step. apply store32_ok; [unfold N; dlia|intros q ?; apply M1, M2 in Hmap; apply Hmap; lia|]. intros m3 W3 F3 M3.
  wp_step. apply store_flag_ok; [apply M1, M2, M3 in Hmap; apply Hmap; lia|]. intros m4 W4 F4 M4.
  wp_step. eapply (store32_over h m4 (a + 4)); [keep_word Hn|unfold is_u32; lia|]. intros m5 W5 F5 M5.
  wp_step. eapply (store32_over h m5 (a + 8)); [keep_word Hz|unfold is_u32; lia|]. intros m6 W6 F6 M6.
  rewrite (u32_small a) in W1 by (unfold is_u32; lia).
  rewrite (u32_small (next_of _ _ _)) in W2 by (destruct l; cbn; unfold is_u32; lia).
  rewrite (u32_small (_ - _ - _)) in W3 by (unfold is_u32; lia).
  apply HQ, linked_intro; try done; try (fold N).
  - keep_word W1.
  - keep_word W2.
  - keep_word W3.
  - etransitivity; [|exact W4]. mem_frame.
  - keep_word W5.
  - intros q Hq. mem_frame.
  - intros x y Hxy. by apply M6, M5, M4, M3, M2, M1.
Qed.

Lemma split_ok h m a b l size (Q : bool -> mem -> Prop) :
  layout a (b :: l) -> seg m a (b :: l) 0 -> mapped m a (end_of a (b :: l)) ->
  balloc b = false -> 0 <= size <= bsize b -> size mod 4 = 0 ->
  (forall m' r,
     seg m' a (split_block size b l) 0 ->
     (forall q, q < a + 4 \/ end_of a (b :: l) <= q \/ owned a (b :: l) q -> m' !! q = m !! q) ->
     (forall x y, mapped m x y -> mapped m' x y) ->
     (forall pv, prevs m pv a (b :: l) -> bsize b <= size + 20 \/ head_free l ->
        prevs m' pv a (split_block size b l)) ->
     tail_kept m m' a (place size b l) -> Q r m') ->
  wpg h (splitMemorySpace a size) Q m.
Proof.
  intros Hl Hs Hmap Hfree Hsz Hsz4 HQ.
  assert (Hl' := Hl). apply layout_cons in Hl' as (Ha & Hm & Hb0 & Hlt & Hl2). pose proof (layout_end _ _ Hl2).
  assert (4 <= a) by dlia. unfold split_block in HQ. destruct (Z.ltb_spec (size + 20) (bsize b)) as [Hbig|Hsmall].
  2: { unfold splitMemorySpace. wp_step. destruct Hs as [Hh Hs]. eapply load32_ok; [apply Hh|]. unfold_offsets.
    rewrite (u32_small (size + 16)), (u32_small (size + 16 + 4)) by (unfold is_u32; lia).
    destruct (Z.ltb_spec (size + 16 + 4) (bsize b)); [lia|]. wp_step. apply HQ; done || auto; by split. }
  apply (split_writes_ok h m a b l size); try done; [lia|]. intros m6 (Hh6 & Hs6 & Wp & F6 & M6).
  set (N := a + 16 + size) in *. set (rest := Block (bsize b - size - 16) false :: l) in *.
  assert (N + 16 + (bsize b - size - 16) = a + 16 + bsize b) as EN by (unfold N; lia).
  assert (layout N rest) as Hlr.
  { apply layout_cons; cbn [bsize]. rewrite EN. unfold N. split_and!; done || lia || dlia. }
  assert (end_of N rest = end_of a (b :: l)) as Eend by (cbn [rest end_of bsize]; by rewrite EN).
  wp_step. apply (merge_ok h m6 N (Block (bsize b - size - 16) false) l); [done|done|].
  fold rest. intros m7 r Hs7 F7 M7 P7 T7. wp_step. rewrite Eend in F7. apply HQ.
  - split; [|exact Hs7]. cbn [bsize]. fold N. unfold rest. rewrite next_of_merge_head.
    eapply hdr_frame; [exact Hh6|]. intros. apply F7. unfold N. lia.
  - intros q Hq. assert (q < a + 4 \/ a + 16 + bsize b <= q) as Hq'.
    { destruct Hq as [?|[?|[[??]|Ho]]]; [lia|cbn in *; lia|congruence|].
      apply owned_range in Ho; [lia|apply Hl2]. }
    rewrite F7; [apply F6; lia|]. destruct Hq as [?|[?|[[??]|Ho]]]; [lia|tauto|congruence|].
    right. right. right. cbn [bsize]. by rewrite EN.
  - intros x y Hxy. by apply M7, M6.
  - intros pv [Hpv Hpv'] [|Hor]; [lia|]. cbn [prevs bsize]. fold N. split.
    { eapply word_at_frame; [exact Hpv|]. intros. rewrite F7 by (unfold N; lia). apply F6. lia. }
    apply (P7 a a); [exact Wp| |by right].
    cbn [bsize]. rewrite EN. eapply prevs_frame; [apply Hl2|exact Hpv'|]. intros. apply F6. lia.
  - intros q. rewrite place_top by done. fold N rest. intros Hq. rewrite (T7 q Hq). apply F6. right.
    destruct (merge_head_head (Block (bsize b - size - 16) false) l) as (r' & c & E & _). fold rest in E.
    assert (Forall block_ok (c :: r')) as Hc by (rewrite <- E; apply (merge_head_layout N _ _ Hlr)).
    rewrite E in Hq. pose proof (top_bounds N c r' Hc). unfold N in *. lia.
Qed.

Lemma split_block_place size b l :
  place size b l =
  match split_block size b l with c :: r => Block (bsize c) true :: r | [] => [] end.
Proof. unfold place, split_block. by destruct (_ <? _). Qed.

Lemma split_block_layout a size b l :
  layout a (b :: l) -> 0 <= size <= bsize b -> size mod 4 = 0 ->
  layout a (split_block size b l) /\ end_of a (split_block size b l) = end_of a (b :: l).
Proof.
  intros Hl Hsz H4. unfold split_block. destruct (Z.ltb_spec (size + 20) (bsize b)); [|done].
  assert (end_of a (Block size false :: merge_head (Block (bsize b - size - 16) false :: l)) =
          end_of a (b :: l)) as E.
  { cbn [end_of]. rewrite merge_head_end. cbn. f_equal. lia. }
  split; [|done]. apply layout_cons in Hl as (Ha & Hm & Hb0 & Hlt & Hl). apply layout_cons. cbn [bsize].
  split_and!; [done|done|lia|lia|]. apply merge_head_layout, layout_cons. cbn [bsize].
  replace (a + 16 + size + 16 + (bsize b - size - 16)) with (a + 16 + bsize b) by lia.
  split_and!; done || lia || dlia.
Qed.

Lemma place_layout a size b l :
  layout a (b :: l) -> 0 <= size <= bsize b -> size mod 4 = 0 ->
  layout a (place size b l) /\ end_of a (place size b l) = end_of a (b :: l).
Proof.
  intros Hl Hsz H4. rewrite split_block_place.
  destruct (split_block_layout a size b l Hl Hsz H4) as [H1 H2].
  destruct (split_block size b l) as [|c r]; [done|]. cbn [end_of bsize] in *.
  split; [|done]. apply layout_cons in H1. by apply layout_cons.
Qed.

Lemma seg_set_alloc m m' a b l v nx :
  layout a (b :: l) -> seg m a (b :: l) nx -> m' !! (a + 12) = Some (Z.b2z v) ->
  (forall q, q < a + 12 \/ a + 12 + 1 <= q -> m' !! q = m !! q) ->
  seg m' a (Block (bsize b) v :: l) nx.
Proof.
  intros Hl [Hh Hs] Hv Hq. apply layout_cons in Hl as (_ & _ & Hb & _ & Hl).
  destruct Hh as ([pv Hp] & Hn & Hz & _). split.
  - split; [exists pv|split_and!]; cbn [bsize balloc]; [| | |done];
      (eapply word_at_frame; [done|]); intros; mem_frame.
  - cbn [bsize]. eapply seg_frame; [apply Hl|exact Hs|]. intros; mem_frame.
Qed.

Lemma prevs_set_alloc m m' pv a b l v :
  layout a (b :: l) -> prevs m pv a (b :: l) ->
  (forall q, q < a + 12 \/ a + 12 + 1 <= q -> m' !! q = m !! q) ->
  prevs m' pv a (Block (bsize b) v :: l).
Proof.
  intros Hl [Hp Hs] Hq. apply layout_cons in Hl as (_ & _ & Hb & _ & Hl). split.
  - keep_word Hp.
  - cbn [bsize]. eapply prevs_frame; [apply Hl|exact Hs|]. intros; mem_frame.
Qed.

Lemma ALIGN_4BYTE_eq x : ALIGN_4BYTE x = u32 (x + 3) / 4 * 4.
Proof.
  unfold ALIGN_4BYTE. change (4 - 1) with 3. change (-4) with (Z.lnot (Z.ones 2)).
  by rewrite <- Z.ldiff_land, Z.ldiff_ones_r, Z.shiftr_div_pow2, Z.shiftl_mul_pow2 by lia.
Qed.

Lemma ALIGN_4BYTE_range x :
  0 <= ALIGN_4BYTE x < 4294967296 /\ ALIGN_4BYTE x mod 4 = 0.
Proof. rewrite ALIGN_4BYTE_eq. pose proof (u32_range (x + 3)). unfold is_u32 in *. dlia. Qed.

Lemma ALIGN_4BYTE_ge x : 0 <= x <= 4294967292 -> x <= ALIGN_4BYTE x.
Proof. intros Hx. rewrite ALIGN_4BYTE_eq, u32_small by (unfold is_u32; lia). dlia. Qed.

Lemma owned_app a l1 l2 q : owned a (l1 ++ l2) q <-> owned a l1 q \/ owned (end_of a l1) l2 q.
Proof.
  revert a. induction l1 as [|b l1 IH]; intros a; cbn [app owned end_of]; [tauto|]. rewrite IH. tauto.
Qed.

(** ** [malloc] *)

(** Memory outside the heap and the payloads of the allocated blocks are
    left alone. *)
Definition heap_frame (m m' : mem) (a : Z) (bs : list block) : Prop :=
  forall q, q < a \/ end_of a bs <= q \/ owned a bs q -> m' !! q = m !! q.

(** No header after the block chosen for [size] will be left with a stale
    prev field. *)
Definition prev_safe (size : Z) (bs : list block) : Prop :=
  match first_fit size bs with
  | Some (_, b, l2) => bsize b <= size + 20 \/ head_free l2
  | None => True
  end.

(** Lift an operation on the blocks from [end_of a l1] on to the whole heap. *)
Lemma heap_at_suffix m m' a l1 l2 l2' :
  heap_at m a (l1 ++ l2) -> l2 <> [] -> l2' <> [] ->
  layout (end_of a l1) l2' -> end_of (end_of a l1) l2' = end_of (end_of a l1) l2 ->
  seg m' (end_of a l1) l2' 0 ->
  (forall q, q < end_of a l1 -> m' !! q = m !! q) ->
  (forall x y, mapped m x y -> mapped m' x y) ->
  heap_at m' a (l1 ++ l2').
Proof.
  intros (Hl & _ & Hs & Hm) Hne Hne' Hl' He Hs' Hq Hmm.
  apply layout_app in Hl as [Hl1 Hl2]. apply seg_app in Hs as [Hs1 _].
  split_and!.
  - by apply layout_app.
  - by destruct l1.
  - apply seg_app. split; [|done].
    destruct l2; [done|]. destruct l2'; [done|]. cbn [next_of] in *.
    eapply seg_frame; [apply Hl1|exact Hs1|]. intros; mem_frame.
  - rewrite end_of_app, He, <- end_of_app. by apply Hmm.
Qed.

Lemma prevs_suffix m m' a l1 l2 l2' :
  layout a l1 -> prevs m 0 a (l1 ++ l2) ->
  (forall q, q < end_of a l1 -> m' !! q = m !! q) ->
  (forall pv, prevs m pv (end_of a l1) l2 -> prevs m' pv (end_of a l1) l2') ->
  prevs m' 0 a (l1 ++ l2').
Proof.
  intros Hl [Hp1 Hp2]%prevs_app Hq Hp. apply prevs_app. split; [|by apply Hp].
  eapply prevs_frame; [apply Hl|exact Hp1|]. intros; mem_frame.
Qed.

Lemma heap_frame_suffix m m' a l1 l2 :
  layout a (l1 ++ l2) ->
  (forall q, q < end_of a l1 \/ end_of (end_of a l1) l2 <= q \/ owned (end_of a l1) l2 q ->
     m' !! q = m !! q) ->
  heap_frame m m' a (l1 ++ l2).
Proof.
  intros [Hl1 Hl2]%layout_app Hq q. rewrite end_of_app, owned_app.
  pose proof (layout_end _ _ Hl1). intros [?|[?|[Ho|?]]]; apply Hq; [lia|tauto| |tauto].
  apply owned_range in Ho; [lia|apply Hl1].
Qed.

Lemma malloc_mem_ok fuel m hd size bs (Q : Z -> mem -> Prop) :
  heap_at m hd bs -> (length bs <= fuel)%nat ->
  (forall m',
     heap_at m' hd (snd (abs_malloc hd (ALIGN_4BYTE size) bs)) -> heap_frame m m' hd bs ->
     (prevs m 0 hd bs -> prev_safe (ALIGN_4BYTE size) bs ->
        prevs m' 0 hd (snd (abs_malloc hd (ALIGN_4BYTE size) bs))) ->
     (forall l1 b l2 pv, first_fit (ALIGN_4BYTE size) bs = Some (l1, b, l2) ->
        word_at m (end_of hd l1) pv -> word_at m' (end_of hd l1) pv) ->
     tail_kept m m' hd (snd (abs_malloc hd (ALIGN_4BYTE size) bs)) ->
     Q (fst (abs_malloc hd (ALIGN_4BYTE size) bs)) m') ->
  wp (malloc_mem fuel hd size) Q m.
Proof.
  intros Hh Hf HQ. assert (Hh' := Hh). destruct Hh' as (Hl & Hne & Hs & Hm).
  unfold malloc_mem. set (sz := ALIGN_4BYTE size) in *.
  destruct (ALIGN_4BYTE_range size) as [Hsz Hsz4]. fold sz in Hsz, Hsz4.
  wp_step. apply (find_free_space_ok fuel m hd sz bs); try done.
  unfold abs_malloc, prev_safe in HQ.
  destruct (first_fit sz bs) as [[[l1 b] l2]|] eqn:Eff; cbn [fst snd] in HQ.
  2: { cbn [Z.eqb]. wp_step. by apply HQ. }
  apply first_fit_some in Eff as (-> & Hfit & _).
  unfold fits in Hfit. apply andb_true_iff in Hfit as [Hb%negb_true_iff Hle%Z.leb_le].
  assert (Hl' := Hl). apply layout_app in Hl' as [Hl1 Hl2].
  apply seg_app in Hs as [_ Hs2]. cbn [next_of] in Hs2.
  pose proof (layout_pos _ _ Hl2). pose proof (layout_end _ _ Hl2).
  assert (end_of (end_of hd l1) (b :: l2) = end_of hd (l1 ++ b :: l2)) as Eend by (by rewrite end_of_app).
  set (a := end_of hd l1) in *. destruct (Z.eqb_spec a 0); [lia|].
  pose proof (layout_end _ _ Hl1).
  wp_step. apply (split_ok False m a b l2 sz); [done|done| |done|lia|done|].
  { intros q ?. apply Hm. rewrite <- Eend. fold a in H1. lia. }
  intros m1 r S1 F1 M1 P1 T1. wp_step. unfold_offsets.
  destruct (split_block_layout a sz b l2 Hl2) as [Hl3 E3]; [lia|done|].
  destruct (place_layout a sz b l2 Hl2) as [Hl4 E4]; [lia|done|].
  rewrite split_block_place in *.
  destruct (split_block sz b l2) as [|c rest] eqn:Esp.
  { exfalso. revert Esp. unfold split_block. by destruct (_ <? _). }
  apply store_flag_ok.
  { destruct S1 as [(_&_&_&->) _]. eauto. }
  intros m2 W2 F2 M2. wp_step. rewrite u32_small by (cbn in *; unfold is_u32; apply layout_cons in Hl2; lia).
  assert (forall q, q < a + 4 -> m2 !! q = m !! q) as Hlow by (intros; rewrite F2, F1 by lia; done).
  apply HQ.
  - eapply heap_at_suffix; try done. 
    + eapply seg_set_alloc; [exact Hl3|exact S1|exact W2|exact F2].
    + intros. apply Hlow. fold a. lia.
    + intros. by apply M2, M1.
  - apply heap_frame_suffix; [done|]. fold a. intros q Hq. rewrite F2; [apply F1; destruct Hq as [?|[?|?]]; [left; lia|tauto|tauto]|].
    destruct Hq as [?|[?|Ho]]; [lia| |].
    + right. apply layout_cons in Hl2 as (_ & _ & ? & _ & Hl2). cbn [end_of] in *.
      pose proof (layout_end _ _ Hl2). lia.
    + apply owned_range in Ho; [lia|apply Hl2].
  - intros Hp Hsafe. eapply prevs_suffix; [done|exact Hp|intros; apply Hlow; fold a; lia|].
    intros pv Hpv. eapply prevs_set_alloc; [exact Hl3| |exact F2]. by apply P1.
  - intros l1' b' l2' pv E Hpv. simplify_eq.
    eapply word_at_frame; [exact Hpv|]. intros. apply Hlow. fold a. lia.
  - intros q. rewrite top_app by done. fold a. intros Hq.
    pose proof (top_bounds a (Block (bsize c) true) rest ltac:(apply Hl4)). rewrite F2 by lia. by apply T1.
Qed.

(** ** [free] *)

(** The address of the header before [end_of a l1]; 0 for the first block. *)
Definition pred (a : Z) (l1 : list block) : Z :=
  match last l1 with Some _ => end_of a (removelast l1) | None => 0 end.

Lemma abs_free_nil b l2 : abs_free [] b l2 = merge_head (Block (bsize b) false :: l2).
Proof. done. Qed.

Lemma abs_free_snoc l0 p b l2 :
  abs_free (l0 ++ [p]) b l2 =
  if balloc p then l0 ++ p :: merge_head (Block (bsize b) false :: l2)
  else l0 ++ merge_head (p :: merge_head (Block (bsize b) false :: l2)).
Proof.
  unfold abs_free. rewrite last_snoc, removelast_last. destruct (balloc p); [|done].
  by rewrite <- app_assoc.
Qed.

Lemma pred_snoc a l0 p : pred a (l0 ++ [p]) = end_of a l0.
Proof. unfold pred. by rewrite last_snoc, removelast_last. Qed.

Lemma merge_head_ne b l : merge_head (b :: l) <> [].
Proof. destruct l as [|c l]; cbn; [done|]. by destruct (balloc c). Qed.

(** Freeing and merging make the heap's use end no later. *)
Lemma merge_head_top a b l :
  layout a (b :: l) -> balloc b = false -> top a (merge_head (b :: l)) <= top a (b :: l).
Proof.
  intros Hl Hf. destruct l as [|c l]; [done|]. cbn [merge_head]. destruct (balloc c) eqn:E; [done|].
  apply layout_cons in Hl as (_ & _ & Hb & _ & Hl). change (top a (b :: c :: l)) with (top (a + 16 + bsize b) (c :: l)).
  destruct l as [|d l]; cbn [top bsize balloc]; [rewrite E, Hf; lia|].
  by replace (a + 16 + (bsize b + 16 + bsize c)) with (a + 16 + bsize b + 16 + bsize c) by lia.
Qed.

Lemma top_set_free a b l : 0 <= bsize b -> top a (Block (bsize b) false :: l) <= top a (b :: l).
Proof. intros Hb. destruct l; cbn [top bsize balloc]; [destruct (balloc b); lia|done]. Qed.

Lemma merged_top hd l1 b l2 :
  layout hd (l1 ++ b :: l2) -> balloc b = false -> top hd (l1 ++ merge_head (b :: l2)) <= top hd (l1 ++ b :: l2).
Proof. intros [_ Hl]%layout_app Hb. rewrite !top_app by (done || apply merge_head_ne). by apply merge_head_top. Qed.

Lemma freed_top hd l1 b l2 :
  layout hd (l1 ++ b :: l2) ->
  top hd (l1 ++ merge_head (Block (bsize b) false :: l2)) <= top hd (l1 ++ b :: l2).
Proof.
  intros [_ Hl]%layout_app. rewrite !top_app by (done || apply merge_head_ne). etransitivity; [|apply top_set_free; apply layout_cons in Hl; tauto].
  apply merge_head_top; [|done]. apply layout_cons in Hl. by apply layout_cons.
Qed.

Lemma tail_kept_below m m' a bs bs' : tail_kept m m' a bs -> top a bs <= top a bs' -> tail_kept m m' a bs'.
Proof. intros T Hle q Hq. apply T. lia. Qed.

(** Clearing the flag and merging forwards. *)
Lemma free_forward_ok h m hd l1 b l2 (Q : mem -> Prop) :
  let a := end_of hd l1 in
  heap_at m hd (l1 ++ b :: l2) ->
  (forall m', let l2' := merge_head (Block (bsize b) false :: l2) in
     heap_at m' hd (l1 ++ l2') -> heap_frame m m' hd (l1 ++ Block (bsize b) false :: l2) ->
     (forall q, q < a + 4 -> m' !! q = m !! q) ->
     (prevs m 0 hd (l1 ++ b :: l2) -> prevs m' 0 hd (l1 ++ l2')) ->
     tail_kept m m' hd (l1 ++ l2') -> Q m') ->
  wpg h (do! store8 (a + off_isAllocated) 0 in mergeNextMemorySpace a) (fun _ => Q) m.
Proof.
  intros a Hh HQ. assert (Hh' := Hh). destruct Hh' as (Hl & _ & Hs & Hm).
  assert (Hl' := Hl). apply layout_app in Hl' as [Hl1 Hl2].
  apply seg_app in Hs as [_ Hs2]. fold a in Hl2, Hs2.
  wp_step. unfold_offsets. apply store_flag_ok.
  { destruct Hs2 as [(_&_&_&->) _]. eauto. }
  intros m1 W1 F1 M1.
  set (b' := Block (bsize b) false) in *.
  assert (layout a (b' :: l2)) as Hl3 by (apply layout_cons in Hl2; by apply layout_cons).
  eapply (merge_ok h m1 a b' l2); [done|by eapply seg_set_alloc|].
  intros m2 r S2 F2 M2 P2 T2.
  assert (forall q, q < a + 4 -> m2 !! q = m !! q) as Hlow by (intros; rewrite F2, F1 by lia; done).
  apply HQ; [| |exact Hlow| |].
  - eapply heap_at_suffix; [exact Hh|done|apply merge_head_ne|by apply merge_head_layout| |exact S2| |].
    + by rewrite merge_head_end.
    + intros. apply Hlow. fold a in H. lia.
    + intros. by apply M2, M1.
  - apply heap_frame_suffix; [by apply layout_app|]. fold a. intros q Hq.
    rewrite F2; [apply F1|destruct Hq as [?|[?|?]]; [left; lia|tauto|tauto]].
    apply layout_cons in Hl2 as (_ & _ & ? & _ & Hl2). cbn [end_of owned] in *.
    pose proof (layout_end _ _ Hl2). cbn [bsize b'] in Hq.
    destruct Hq as [?|[?|[[??]|Ho]]]; [lia|lia|done|].
    apply owned_range in Ho; [lia|apply Hl2].
  - intros Hp. eapply prevs_suffix; [done|exact Hp|intros; apply Hlow; fold a in H; lia|].
    intros pv Hpv. fold a in Hpv |- *. eapply (prevs_set_alloc m m1 pv a b l2 false) in Hpv as [??]; [|done|done].
    eapply P2; [done|done|by left].
  - intros q. rewrite top_app by apply merge_head_ne. fold a. intros Hq. rewrite (T2 q Hq). apply F1.
    destruct (merge_head_head b' l2) as (r' & c & E & _). rewrite E in Hq.
    assert (layout a (c :: r')) as Hc by (rewrite <- E; by apply merge_head_layout).
    pose proof (top_bounds a c r' ltac:(apply Hc)). lia.
Qed.

(** Merging in the middle of the heap. *)
Lemma merge_heap_ok h m hd l1 b l2 (Q : bool -> mem -> Prop) :
  let a := end_of hd l1 in
  heap_at m hd (l1 ++ b :: l2) ->
  (forall m' r, heap_at m' hd (l1 ++ merge_head (b :: l2)) -> heap_frame m m' hd (l1 ++ b :: l2) ->
     (prevs m 0 hd (l1 ++ b :: l2) -> prevs m' 0 hd (l1 ++ merge_head (b :: l2))) ->
     tail_kept m m' hd (l1 ++ merge_head (b :: l2)) -> Q r m') ->
  wpg h (mergeNextMemorySpace a) Q m.
Proof.
  intros a Hh HQ. assert (Hh' := Hh). destruct Hh' as (Hl & _ & Hs & Hm).
  assert (Hl' := Hl). apply layout_app in Hl' as [Hl1 Hl2].
  apply seg_app in Hs as [_ Hs2]. fold a in Hl2, Hs2.
  apply (merge_ok h m a b l2); [done|done|]. intros m2 r S2 F2 M2 P2 T2.
  assert (forall q, q < a -> m2 !! q = m !! q) as Hlow by (intros; rewrite F2 by lia; done).
  apply HQ.
  - eapply heap_at_suffix; [exact Hh|done|apply merge_head_ne|by apply merge_head_layout| |exact S2| |done].
    + by rewrite merge_head_end.
    + intros. by apply Hlow.
  - apply heap_frame_suffix; [done|]. fold a. intros q Hq.
    apply F2; destruct Hq as [?|[?|?]]; [left; lia|tauto|tauto].
  - intros Hp. eapply prevs_suffix; [done|exact Hp|done|].
    intros pv [??]. eapply P2; [done|done|by left].
  - intros q. rewrite top_app by apply merge_head_ne. apply T2.
Qed.

Lemma owned_merge_free a s l q :
  owned a (merge_head (Block s false :: l)) q <-> owned a (Block s false :: l) q.
Proof.
  destruct l as [|c l]; [done|]. cbn [merge_head]. destruct (balloc c) eqn:E; [done|].
  cbn [owned bsize balloc]. rewrite E.
  replace (a + 16 + (s + 16 + bsize c)) with (a + 16 + s + 16 + bsize c) by lia. intuition discriminate.
Qed.

Lemma heap_frame_trans m1 m2 m3 a bs bs' :
  heap_frame m1 m2 a bs -> heap_frame m2 m3 a bs' -> end_of a bs' = end_of a bs ->
  (forall q, owned a bs q -> owned a bs' q) -> heap_frame m1 m3 a bs.
Proof.
  intros H1 H2 He Ho q Hq. rewrite H2; [by apply H1|]. rewrite He.
  destruct Hq as [?|[?|?]]; [tauto|tauto|auto].
Qed.

Lemma free_mem_ok h m hd l1 b l2 (Q : unit -> mem -> Prop) :
  heap_at m hd (l1 ++ b :: l2) -> word_at m (end_of hd l1) (pred hd l1) ->
  (forall m',
     heap_at m' hd (abs_free l1 b l2) -> heap_frame m m' hd (l1 ++ Block (bsize b) false :: l2) ->
     (prevs m 0 hd (l1 ++ b :: l2) -> prevs m' 0 hd (abs_free l1 b l2)) ->
     tail_kept m m' hd (l1 ++ b :: l2) -> Q tt m') ->
  wpg h (free_mem (end_of hd l1 + 16)) Q m.
Proof.
  intros Hh Hpv HQ. assert (Hl := proj1 Hh). assert (Hl0' := Hl).
  apply layout_app in Hl0' as [Hl1 Hl2].
  pose proof (layout_pos _ _ Hl2). assert (Hb := Hl2). apply layout_cons in Hb as (_&_&?&?&_).
  pose proof (layout_pos _ _ Hl1). pose proof (layout_end _ _ Hl1).
  unfold free_mem. destruct (Z.eqb_spec (end_of hd l1 + 16) 0); [lia|].
  unfold sizeof_memory_space_t. replace (u32 (end_of hd l1 + 16 - 16)) with (end_of hd l1)
    by (rewrite u32_small by (unfold is_u32; lia); lia).
  rewrite <- bind_assoc. wp_step.
  eapply free_forward_ok; [exact Hh|]. intros m1 l2' Hh1 F1 L1 P1 T1.
  eapply tail_kept_below in T1; [|by apply freed_top].
  wp_step. unfold off_prev. rewrite Z.add_0_r.
  eapply load32_ok; [eapply word_at_frame; [exact Hpv|]; intros; apply L1; lia|].
  destruct l1 as [|p l0 _] using rev_ind.
  { cbn [pred last Z.eqb]. wp_step. by apply HQ. }
  pose proof (freed_top hd (l0 ++ [p]) b l2 Hl) as Htop. fold l2' in Htop.
  rewrite pred_snoc. assert (layout hd l0) as Hl0 by (apply layout_app in Hl1; tauto).
  pose proof (layout_end _ _ Hl0). destruct (Z.eqb_spec (end_of hd l0) 0); [lia|].
  rewrite <- app_assoc in Hh1. cbn [app] in Hh1.
  assert (exists nx, hdr m1 (end_of hd l0) p nx) as [nx Hp].
  { destruct Hh1 as (_ & _ & [_ [Hp _]]%seg_app & _). eauto. }
  wp_step. eapply load_flag_ok; [exact Hp|]. rewrite abs_free_snoc in HQ. fold l2' in HQ.
  destruct (balloc p) eqn:Ep.
  { wp_step. apply HQ; [done|done| |done]. rewrite <- (app_assoc l0 [p] l2') in P1. exact P1. }
  wp_step. eapply merge_heap_ok; [exact Hh1|]. intros m2 r Hh2 F2 P2 T2. wp_step.
  apply HQ; [done| | |].
  - eapply heap_frame_trans; [exact F1|exact F2| |]; rewrite <- app_assoc; cbn [app].
    + rewrite !end_of_app. cbn [end_of]. unfold l2'. by rewrite merge_head_end.
    + intros q. rewrite !owned_app. cbn [owned]. unfold l2'. rewrite owned_merge_free. cbn [owned]. tauto.
  - intros Hpp. apply P2. rewrite <- (app_assoc l0 [p] l2') in P1. by apply P1.
  - pose proof (merged_top hd l0 p l2' (proj1 Hh1) Ep). intros q Hq.
    rewrite <- (app_assoc l0 [p] l2') in Htop. cbn [app] in Htop. rewrite T2 by lia. by apply T1.
Qed.

(** ** What the block model guarantees *)

Lemma live_app a l1 l2 : live a (l1 ++ l2) = live a l1 ++ live (end_of a l1) l2.
Proof.
  revert a. induction l1 as [|b l1 IH]; intros a; [done|]. cbn [app live end_of].
  by rewrite IH, app_assoc.
Qed.

Lemma live_merge_free a s l : live a (merge_head (Block s false :: l)) = live (a + 16 + s) l.
Proof.
  destruct l as [|c l]; [done|]. cbn [merge_head].
  destruct (balloc c) eqn:E; cbn [live balloc bsize]; rewrite ?E; [done|].
  cbn [app]. f_equal. lia.
Qed.

(** Live payloads lie apart, a header between any two of them. *)
Lemma live_sorted a bs :
  Forall block_ok bs ->
  StronglySorted (fun x y => fst x + snd x + 16 <= fst y) (live a bs) /\
  Forall (fun x => a + 16 <= fst x /\ 0 <= snd x /\ fst x + snd x <= end_of a bs) (live a bs).
Proof.
  intros Hb. revert a. induction Hb as [|b bs Hb Hbs IH]; intros a; [by split; constructor|]. red in Hb.
  destruct (IH (a + 16 + bsize b)) as [H1 H2]. cbn [live end_of].
  pose proof (end_of_ge (a + 16 + bsize b) bs Hbs).
  destruct (balloc b); cbn [app].
  - split; constructor; cbn [fst snd]; [done| |lia|];
      (eapply Forall_impl; [exact H2|]); cbn; intros [??]; cbn; lia.
  - split; [done|]. eapply Forall_impl; [exact H2|]. cbn; intros [??]; cbn; lia.
Qed.

Lemma live_owned a bs p n q :
  Forall block_ok bs -> (p, n) ∈ live a bs -> p <= q < p + n -> owned a bs q.
Proof.
  intros Hb. revert a. induction Hb as [|b bs Hb Hbs IH]; intros a Hin Hq; cbn in *.
  { by apply elem_of_nil in Hin. }
  destruct (balloc b); [|right; by apply IH].
  apply elem_of_cons in Hin as [[= -> ->]|Hin]; [left; split; [done|lia]|right; by apply IH].
Qed.

Lemma coalesced_app l1 b l2 : coalesced (l1 ++ b :: l2) <-> coalesced (l1 ++ [b]) /\ coalesced (b :: l2).
Proof.
  induction l1 as [|c l1 IH]; [cbn; tauto|]. destruct l1 as [|d l1].
  - cbn [app coalesced]. tauto.
  - change (coalesced ((c :: d :: l1) ++ b :: l2)) with
      ((balloc c = true \/ balloc d = true) /\ coalesced ((d :: l1) ++ b :: l2)).
    change (coalesced ((c :: d :: l1) ++ [b])) with
      ((balloc c = true \/ balloc d = true) /\ coalesced ((d :: l1) ++ [b])).
    rewrite IH. tauto.
Qed.

(** Only whether a block is free matters, and an allocated one is always fine. *)
Lemma coalesced_snoc_weaken l1 b b' :
  coalesced (l1 ++ [b]) -> balloc b' = balloc b \/ balloc b' = true -> coalesced (l1 ++ [b']).
Proof.
  induction l1 as [|c l1 IH]; [done|]. intros Hc Hb. destruct l1 as [|d l1].
  - cbn [app coalesced] in *. split; [|done]. destruct Hc as [[?|?] _]; [tauto|].
    right. destruct Hb; congruence.
  - change ((balloc c = true \/ balloc d = true) /\ coalesced ((d :: l1) ++ [b])) in Hc.
    change ((balloc c = true \/ balloc d = true) /\ coalesced ((d :: l1) ++ [b'])).
    split; [tauto|]. apply IH; [apply Hc|done].
Qed.

Lemma coalesced_head b b' l :
  coalesced (b :: l) -> balloc b' = balloc b \/ balloc b' = true -> coalesced (b' :: l).
Proof.
  intros Hc Hb. destruct l as [|c l]; [done|]. destruct Hc as [Hc1 Hc2]. split; [|done].
  destruct Hc1 as [?|?]; [|tauto]. left. destruct Hb; congruence.
Qed.

Lemma coalesced_tail b l : coalesced (b :: l) -> coalesced l.
Proof. destruct l; [done|]. by intros [_ ?]. Qed.

(** After merging, a block is followed by an allocated one. *)
Lemma coalesced_merge b l : coalesced l -> coalesced (merge_head (b :: l)).
Proof.
  intros Hc. destruct l as [|c l]; [done|]. cbn [merge_head]. destruct (balloc c) eqn:E.
  - split; [by right|done].
  - destruct l as [|d l]; [done|]. destruct Hc as [[?|?] Hc]; [congruence|]. split; [by right|done].
Qed.

Lemma abs_malloc_coalesced hd size bs :
  coalesced bs -> coalesced (snd (abs_malloc hd size bs)).
Proof.
  intros Hc. unfold abs_malloc. destruct (first_fit size bs) as [[[l1 b] l2]|] eqn:E; [|done].
  apply first_fit_some in E as (-> & _ & _). apply coalesced_app in Hc as [H1 H2].
  cbn [snd]. unfold place. pose proof (coalesced_tail _ _ H2). destruct (_ <? _).
  - apply coalesced_app. split; [by eapply coalesced_snoc_weaken; [|right]|].
    pose proof (coalesced_merge (Block (bsize b - size - 16) false) l2 H) as Hm.
    destruct (merge_head_head (Block (bsize b - size - 16) false) l2) as (r & b' & E & _).
    rewrite E in *. split; [by left|done].
  - apply coalesced_app. split; [by eapply coalesced_snoc_weaken; [|right]|].
    by eapply coalesced_head; [|right].
Qed.

Lemma abs_free_coalesced l1 b l2 :
  coalesced (l1 ++ b :: l2) -> coalesced (abs_free l1 b l2).
Proof.
  intros Hc. apply coalesced_app in Hc as [H1 H2].
  pose proof (coalesced_merge (Block (bsize b) false) l2 (coalesced_tail _ _ H2)) as Hm.
  destruct l1 as [|p l0 _] using rev_ind; [done|].
  rewrite <- app_assoc in H1. cbn [app] in H1. apply coalesced_app in H1 as [H0 _].
  rewrite abs_free_snoc. destruct (balloc p) eqn:Ep.
  - apply coalesced_app. split; [done|].
    destruct (merge_head_head (Block (bsize b) false) l2) as (r & b' & E & _).
    rewrite E in *. split; [by left|done].
  - pose proof (coalesced_merge p _ Hm) as Hm2.
    destruct (merge_head_head p (merge_head (Block (bsize b) false :: l2))) as (r & b' & E & Hb').
    rewrite E in *. apply coalesced_app. split; [|done].
    eapply coalesced_snoc_weaken; [exact H0|]. by left.
Qed.

(** The allocation [abs_malloc] adds, with the room it really gets. *)
Lemma abs_malloc_live hd size bs l1 b l2 :
  first_fit size bs = Some (l1, b, l2) ->
  exists n, size <= n /\
    live hd (snd (abs_malloc hd size bs)) =
      live hd l1 ++ (end_of hd l1 + 16, n) :: live (end_of hd l1 + 16 + bsize b) l2 /\
    live hd bs = live hd l1 ++ live (end_of hd l1 + 16 + bsize b) l2.
Proof.
  intros E. unfold abs_malloc. rewrite E. cbn [snd].
  apply first_fit_some in E as (-> & Hfit & _). unfold fits in Hfit.
  apply andb_true_iff in Hfit as [Hb%negb_true_iff Hle%Z.leb_le].
  assert (live hd (l1 ++ b :: l2) = live hd l1 ++ live (end_of hd l1 + 16 + bsize b) l2) as E2.
  { rewrite live_app. cbn [live]. by rewrite Hb. }
  unfold place. destruct (size + 20 <? bsize b).
  - exists size. split_and!; [lia| |done]. rewrite live_app. cbn [live balloc bsize app].
    rewrite live_merge_free. do 3 f_equal. lia.
  - exists (bsize b). split_and!; [lia| |done]. by rewrite live_app.
Qed.

Lemma abs_free_live hd l1 b l2 :
  live hd (abs_free l1 b l2) = live hd l1 ++ live (end_of hd l1 + 16 + bsize b) l2.
Proof.
  destruct l1 as [|p l0 _] using rev_ind.
  - rewrite abs_free_nil, live_merge_free. done.
  - rewrite abs_free_snoc. destruct (balloc p) eqn:Ep.
    + rewrite !live_app. cbn [live]. rewrite Ep, live_merge_free, <- app_assoc, end_of_app. done.
    + destruct p as [n f]; cbn in Ep; subst f.
      rewrite !live_app, live_merge_free, end_of_app. cbn [live balloc bsize app end_of].
      rewrite app_nil_r. destruct l2 as [|c l2]; cbn [merge_head live balloc bsize app]; [done|].
      destruct (balloc c) eqn:Ec; cbn [live balloc bsize app]; rewrite ?Ec; [done|].
      cbn [app]. do 2 f_equal. lia.
Qed.

Lemma live_split hd bs p n :
  (p, n) ∈ live hd bs ->
  exists l1 b l2, bs = l1 ++ b :: l2 /\ p = end_of hd l1 + 16 /\ n = bsize b /\ balloc b = true.
Proof.
  revert hd. induction bs as [|b bs IH]; intros hd Hin; cbn in Hin; [by apply elem_of_nil in Hin|].
  assert ((balloc b = true /\ (p, n) = (hd + 16, bsize b)) \/ (p, n) ∈ live (hd + 16 + bsize b) bs)
    as [[Hb [= -> ->]]|Hin'].
  { destruct (balloc b); [|by right]. apply elem_of_cons in Hin. tauto. }
  - by exists [], b, bs.
  - apply IH in Hin' as (l1 & c & l2 & -> & -> & -> & Hc). by exists (b :: l1), c, l2.
Qed.

Lemma owned_abs_free hd l1 b l2 q :
  owned hd (abs_free l1 b l2) q <-> owned hd (l1 ++ Block (bsize b) false :: l2) q.
Proof.
  destruct l1 as [|p l0 _] using rev_ind; [by rewrite abs_free_nil, owned_merge_free|].
  rewrite abs_free_snoc. destruct p as [n [|]]; cbn [balloc];
    rewrite <- app_assoc, !owned_app; cbn [app owned bsize balloc].
  - rewrite owned_merge_free. cbn [owned bsize balloc]. tauto.
  - rewrite owned_merge_free. cbn [owned bsize balloc]. rewrite owned_merge_free.
    cbn [owned bsize balloc]. tauto.
Qed.

Lemma abs_free_end hd l1 b l2 : end_of hd (abs_free l1 b l2) = end_of hd (l1 ++ b :: l2).
Proof.
  destruct l1 as [|p l0 _] using rev_ind; [by rewrite abs_free_nil, merge_head_end|].
  rewrite abs_free_snoc. destruct (balloc p); rewrite <- app_assoc, !end_of_app; cbn [app];
    rewrite ?merge_head_end; cbn [end_of]; by rewrite merge_head_end.
Qed.

Lemma heap_frame_weaken m m' a bs bs' :
  heap_frame m m' a bs -> end_of a bs' = end_of a bs ->
  (forall q, owned a bs' q -> owned a bs q) -> heap_frame m m' a bs'.
Proof. intros Hf He Ho q. rewrite He. intros [?|[?|?]]; apply Hf; auto. Qed.

(** Freeing what was just allocated restores the list of blocks. *)
Lemma abs_malloc_free hd size bs l1 b l2 :
  coalesced bs -> first_fit size bs = Some (l1, b, l2) ->
  exists c r, snd (abs_malloc hd size bs) = l1 ++ c :: r /\ balloc c = true /\ abs_free l1 c r = bs /\
    size <= bsize c.
Proof.
  intros Hc E. unfold abs_malloc. rewrite E. cbn [snd].
  apply first_fit_some in E as (-> & Hfit & _). unfold fits in Hfit.
  apply andb_true_iff in Hfit as [Hb%negb_true_iff Hle%Z.leb_le].
  destruct b as [n f]; cbn in Hb, Hle; subst f. apply coalesced_app in Hc as [H1 H2].
  assert (head_free l2 -> l2 = []) as Hnf.
  { destruct l2 as [|c l2]; [done|]. cbn. intros Hf. destruct H2 as [[?|?] _]; cbn in *; congruence. }
  assert (merge_head (Block n false :: l2) = Block n false :: l2) as Em.
  { destruct l2 as [|c l2]; [done|]. cbn [merge_head]. destruct (balloc c) eqn:Ec; [done|].
    by apply Hnf in Ec. }
  assert (forall c r, merge_head (Block (bsize c) false :: r) = Block n false :: l2 ->
            abs_free l1 c r = l1 ++ Block n false :: l2) as Hfree.
  { intros c r Er. destruct l1 as [|p l0 _] using rev_ind; [by rewrite abs_free_nil|].
    rewrite abs_free_snoc, Er. destruct (balloc p) eqn:Ep; [by rewrite <- app_assoc|].
    rewrite <- app_assoc in H1. apply coalesced_app in H1 as [_ [[?|?] _]]; cbn in *; congruence. }
  unfold place. cbn [bsize]. destruct (size + 20 <? n).
  - eexists _, _. split; [done|]. split; [done|]. split; [|cbn; lia]. apply Hfree. cbn [bsize].
    destruct l2 as [|c l2]; cbn [merge_head balloc bsize]; [by repeat f_equal; lia|].
    destruct (balloc c) eqn:Ec; [|by apply Hnf in Ec]. cbn [merge_head balloc bsize].
    by replace (size + 16 + (n - size - 16)) with n by lia.
  - eexists _, _. split; [done|]. split; [done|]. split; [|cbn; lia]. by apply Hfree.
Qed.

(** ** The C functions on the machine *)

Section HeapProperties.
Context {D : Type} `{HW : Hardware D} `{F : Fuel}.
Implicit Types s : heap_state D.

(** The list of headers in memory is the one of the blocks [bs]. *)
Definition heap_ok s (bs : list block) : Prop := heap_at (ram (mach s)) (head s) bs.

(** Every prev field names the header before it. *)
Definition prevs_ok s (bs : list block) : Prop := prevs (ram (mach s)) 0 (head s) bs.

(** What an allocator call leaves alone: the devices, the global, all memory
    outside the heap and the payloads of the allocated blocks of [bs]. *)
Definition undisturbed s s' (bs : list block) : Prop :=
  dev (mach s') = dev (mach s) /\ head s' = head s /\
  heap_frame (ram (mach s)) (ram (mach s')) (head s) bs.

Lemma on_memory_ok h {A} (m : M mem A) s (Q : A -> heap_state D -> Prop) :
  wpg h m (fun a r => Q a (HeapState (Machine r (dev (mach s))) (head s))) (ram (mach s)) ->
  wpg h (on_memory m) Q s.
Proof. intros Hm. unfold on_memory, on_machine, in_ram. by do 2 wp_step. Qed.

Lemma malloc_ok size s bs (Q : Z -> heap_state D -> Prop) :
  heap_ok s bs -> (length bs <= fuel)%nat ->
  (forall s', let bs' := snd (abs_malloc (head s) (ALIGN_4BYTE size) bs) in
     heap_ok s' bs' -> undisturbed s s' bs ->
     (prevs_ok s bs -> prev_safe (ALIGN_4BYTE size) bs -> prevs_ok s' bs') ->
     (forall l1 b l2 pv, first_fit (ALIGN_4BYTE size) bs = Some (l1, b, l2) ->
        word_at (ram (mach s)) (end_of (head s) l1) pv ->
        word_at (ram (mach s')) (end_of (head s) l1) pv) ->
     tail_kept (ram (mach s)) (ram (mach s')) (head s) bs' ->
     Q (fst (abs_malloc (head s) (ALIGN_4BYTE size) bs)) s') ->
  wp (malloc size) Q s.
Proof.
  intros Hh Hf HQ. unfold malloc. do 2 wp_step. apply on_memory_ok.
  eapply malloc_mem_ok; [exact Hh|done|]. intros m' H1 H2 H3 H4 H5. by apply HQ.
Qed.

(** C13: [malloc] implements the block model: it returns the payload of the
    first free block that is large enough (0 when there is none), leaves in
    memory the list of headers that the model prescribes, and touches neither
    memory outside the heap, nor the payload of an allocated block, nor the
    free rest of the heap behind the last header.  The prev fields stay right when no header follows the leftover of a split. *)
Theorem malloc_spec size s bs :
  heap_ok s bs -> (length bs <= fuel)%nat ->
  wp (malloc size) (fun p s' => exists bs',
    abs_malloc (head s) (ALIGN_4BYTE size) bs = (p, bs') /\
    heap_ok s' bs' /\ undisturbed s s' bs /\ tail_kept (ram (mach s)) (ram (mach s')) (head s) bs' /\
    (coalesced bs -> coalesced bs') /\ (prevs_ok s bs -> prev_safe (ALIGN_4BYTE size) bs -> prevs_ok s' bs')) s.
Proof.
  intros Hh Hf. apply (malloc_ok size s bs); [done|done|]. cbv zeta. intros s' H1 H2 H3 _ H4.
  exists (snd (abs_malloc (head s) (ALIGN_4BYTE size) bs)).
  split_and!; [by destruct (abs_malloc _ _ _)|done|done|done|apply abs_malloc_coalesced|done].
Qed.

(** C15: what [malloc] promises its callers: NULL only when every free block
    is too small, and then no allocation changes; otherwise a word-aligned
    payload of at least the rounded size, distinct from and disjoint with
    every other allocation. *)
Theorem malloc_allocates size s bs :
  heap_ok s bs -> (length bs <= fuel)%nat ->
  wp (malloc size) (fun p s' => exists bs', heap_ok s' bs' /\
    (p = 0 -> bs' = bs /\
       Forall (fun b => balloc b = false -> bsize b < ALIGN_4BYTE size) bs) /\
    (p <> 0 -> p mod 4 = 0 /\ exists n, ALIGN_4BYTE size <= n /\
       (0 <= size <= 4294967292 -> size <= n) /\
       live (head s') bs' ≡ₚ (p, n) :: live (head s) bs) /\
    StronglySorted (fun x y => fst x + snd x + 16 <= fst y) (live (head s') bs')) s.
Proof.
  intros Hh Hf. apply (malloc_ok size s bs); [done|done|]. cbv zeta. intros s' H1 (_ & Hd & _) _ _ _.
  eexists. split; [exact H1|]. assert (Hh' := H1). destruct Hh' as ((_ & _ & Hok & _) & _).
  rewrite Hd in *. destruct Hh as (Hl & _).
  split_and!; [| |by apply live_sorted];
    unfold abs_malloc; destruct (first_fit _ bs) as [[[l1 b] l2]|] eqn:E; cbn [fst snd]; try done.
  - assert (Hl' := Hl). apply first_fit_some in E as (-> & _). apply layout_app in Hl' as [_ Hl2].
    apply layout_pos in Hl2. lia.
  - intros _. split; [done|]. apply first_fit_none in E. eapply Forall_impl; [exact E|].
    cbv beta. unfold fits. intros b Hb Hb'. rewrite Hb' in Hb. cbn [negb andb] in Hb. lia.
  - intros _. destruct (abs_malloc_live (head s) _ _ _ _ _ E) as (n & Hn & E1 & E2).
    unfold abs_malloc in E1. rewrite E in E1. cbn [snd] in E1.
    split.
    + apply first_fit_some in E as (-> & _). apply layout_app in Hl as [_ Hl].
      apply layout_cons in Hl. dlia.
    + exists n. split; [done|]. split; [intros; pose proof (ALIGN_4BYTE_ge size); lia|].
      rewrite E1, E2. by rewrite Permutation_middle.
Qed.

Lemma free_ok s l1 b l2 (Q : unit -> heap_state D -> Prop) :
  heap_ok s (l1 ++ b :: l2) -> word_at (ram (mach s)) (end_of (head s) l1) (pred (head s) l1) ->
  (forall s', heap_ok s' (abs_free l1 b l2) ->
     undisturbed s s' (l1 ++ Block (bsize b) false :: l2) ->
     (prevs_ok s (l1 ++ b :: l2) -> prevs_ok s' (abs_free l1 b l2)) ->
     tail_kept (ram (mach s)) (ram (mach s')) (head s) (l1 ++ b :: l2) -> Q tt s') ->
  wp (free (end_of (head s) l1 + 16)) Q s.
Proof.
  intros Hh Hw HQ. unfold free. apply on_memory_ok. eapply free_mem_ok; [exact Hh|done|].
  intros m' H1 H2 H3 H4. by apply HQ.
Qed.

Lemma prevs_word m a l1 b l2 :
  prevs m 0 a (l1 ++ b :: l2) -> word_at m (end_of a l1) (pred a l1).
Proof. intros [_ [Hw _]]%prevs_app. done. Qed.

Lemma free_live_ok p n s bs :
  heap_ok s bs -> prevs_ok s bs -> (p, n) ∈ live (head s) bs ->
  wp (free p) (fun _ s' => exists bs', heap_ok s' bs' /\ prevs_ok s' bs' /\
    live (head s) bs ≡ₚ (p, n) :: live (head s') bs' /\
    undisturbed s s' bs' /\ (coalesced bs -> coalesced bs')) s.
Proof.
  intros Hh Hp (l1 & b & l2 & -> & -> & -> & Hb)%live_split.
  apply (free_ok s l1 b l2); [done|by eapply prevs_word|]. intros s' H1 (U1 & U2 & U3) H3 _.
  exists (abs_free l1 b l2). 
  split; [done|]. split; [by apply H3|]. split; [|split; [|apply abs_free_coalesced]].
  - rewrite U2, abs_free_live, live_app. cbn [live]. rewrite Hb. cbn [app].
    by rewrite Permutation_middle.
  - split; [done|]. split; [done|]. eapply heap_frame_weaken; [exact U3| |].
    + rewrite abs_free_end, !end_of_app. done.
    + intros q. by rewrite owned_abs_free.
Qed.

(** C14: [free] of an allocation, when the prev fields are right: exactly that
    allocation disappears, the block is merged with its free neighbours (so
    that no two neighbours are free if none were), the prev fields stay right
    and the other allocations keep their bytes. *)
Theorem free_spec p n s bs :
  heap_ok s bs -> prevs_ok s bs -> (p, n) ∈ live (head s) bs ->
  wp (free p) (fun _ s' => exists bs', heap_ok s' bs' /\ prevs_ok s' bs' /\
    live (head s) bs ≡ₚ (p, n) :: live (head s') bs' /\
    undisturbed s s' bs' /\ (coalesced bs -> coalesced bs')) s.
Proof. apply free_live_ok. Qed.

Lemma init_malloc_ok `{HeapLayout} s :
  heap_layout_ok (ram (mach s)) ->
  wp init_malloc (fun _ s' => exists bs,
    bs = [Block (heap_end - heap_base - 16) false] /\ head s' = heap_base /\
    heap_ok s' bs /\ prevs_ok s' bs /\ coalesced bs /\ live heap_base bs = [] /\
    dev (mach s') = dev (mach s) /\
    (forall q, q < heap_base \/ heap_base + 16 <= q -> ram (mach s') !! q = ram (mach s) !! q)) s.
Proof.
  intros (H0 & Hle & Hlt & Hm). unfold heap_base in *. set (start := ALIGN_4BYTE heap_start) in *.
  destruct (ALIGN_4BYTE_range heap_start) as [Hr Hr4].
  assert (heap_start <= start) as Hge.
  { subst start. rewrite ALIGN_4BYTE_eq, u32_small by (unfold is_u32; lia). dlia. }
  fold start in Hr, Hr4. unfold init_malloc. wp_step. apply on_memory_ok.
  unfold init_malloc_mem. fold start. unfold_offsets. rewrite Z.add_0_r.
  wp_step. apply store32_ok; [done|intros q ?; apply Hm; lia|]. intros m1 W1 F1 M1.
  wp_step. apply store32_ok; [dlia|intros q ?; apply M1 in Hm; apply Hm; lia|]. intros m2 W2 F2 M2.
  wp_step. apply store32_ok; [dlia|intros q ?; apply M1, M2 in Hm; apply Hm; lia|]. intros m3 W3 F3 M3.
  wp_step. apply store_flag_ok; [apply M1, M2, M3 in Hm; apply Hm; lia|]. intros m4 W4 F4 M4.
  wp_step. wp_step. rewrite u32_small in W3 by (unfold is_u32; lia).
  assert (word_at m4 start 0) as Wp.
  { keep_word W1. }
  exists [Block (heap_end - start - 16) false].
  split; [done|]. split; [done|]. split; [|split; [by split|]].
  - unfold heap_ok, heap_at. cbn [mach ram dev head end_of bsize].
    replace (start + 16 + (heap_end - start - 16)) with heap_end by lia. split.
    { split; [lia|]. split; [by split|]. cbn [end_of bsize]. split; [|lia].
      constructor; [|done]. red. cbn [bsize]. lia. }
    split; [done|]. split; [|by apply M4, M3, M2, M1].
    split; [|done]. split; [by exists 0|]. cbn [next_of bsize balloc]. split; [|split].
    + keep_word W2.
    + keep_word W3.
    + exact W4.
  - split; [done|]. split; [done|]. split; [done|]. cbn [mach ram]. intros q Hq. mem_frame.
Qed.

(** [init_malloc] makes the whole region between the linker's symbols
    (rounded up to a word) one free block, with valid links. *)
Theorem init_malloc_spec `{HeapLayout} s :
  heap_layout_ok (ram (mach s)) ->
  wp init_malloc (fun _ s' => exists bs,
    bs = [Block (heap_end - heap_base - 16) false] /\ head s' = heap_base /\
    heap_ok s' bs /\ prevs_ok s' bs /\ coalesced bs /\ live heap_base bs = [] /\
    dev (mach s') = dev (mach s) /\
    (forall q, q < heap_base \/ heap_base + 16 <= q -> ram (mach s') !! q = ram (mach s) !! q)) s.
Proof. apply init_malloc_ok. Qed.

(** C37: on a heap with no two free neighbours, freeing what [malloc] just
    returned restores the list of blocks exactly: no memory leaks into
    fragments. *)
Theorem malloc_free_roundtrip size s bs :
  heap_ok s bs -> prevs_ok s bs -> coalesced bs -> (length bs <= fuel)%nat ->
  wp (let! p := malloc size in do! free p in ret p)
     (fun p s' => heap_ok s' bs /\ undisturbed s s' bs) s.
Proof.
  intros Hh Hp Hc Hf. wp_step. apply (malloc_ok size s bs); [done|done|]. cbv zeta.
  intros s1 H1 (U1 & U2 & U3) _ Hw _. wp_step.
  destruct (first_fit (ALIGN_4BYTE size) bs) as [[[l1 b] l2]|] eqn:E.
  - destruct (abs_malloc_free (head s) _ _ _ _ _ Hc E) as (c & r & Es & Hc' & Ef & _).
    unfold abs_malloc in *. rewrite E in *. cbn [fst snd] in *. rewrite Es in H1.
    rewrite <- U2. apply (free_ok s1 l1 c r); [done| |].
    + rewrite U2. eapply Hw; [done|]. apply first_fit_some in E as (-> & _).
      by eapply prevs_word.
    + intros s2 H2 (V1 & V2 & V3) _ _. wp_step. rewrite Ef in H2. split; [done|].
      split; [congruence|]. split; [congruence|]. rewrite U2 in V3.
      eapply heap_frame_trans; [exact U3|exact V3| |].
      * rewrite <- Ef. by rewrite abs_free_end, !end_of_app.
      * intros q. rewrite <- owned_abs_free, Ef. done.
  - unfold abs_malloc in *. rewrite E in *. cbn [fst snd] in *.
    unfold free. apply on_memory_ok. unfold free_mem. cbn [Z.eqb]. wp_steps. by destruct s1.
Qed.

(** sizes from 0xFFFFFFFD on wrap to zero when they are rounded up, so
    such a request is served as one for no bytes at all. *)
Theorem malloc_size_wraps size :
  4294967293 <= size < 4294967296 -> malloc (D := D) size = malloc 0.
Proof.
  intros Hs. unfold malloc, malloc_mem. rewrite !ALIGN_4BYTE_eq.
  replace (u32 (size + 3) / 4 * 4) with 0 by (unfold u32; dlia).
  by change (u32 (0 + 3) / 4 * 4) with 0.
Qed.
End HeapProperties.

(** ** Writing to a payload *)

Lemma payload_frame m m' hd l1 b l2 p l :
  heap_at m hd (l1 ++ b :: l2) -> writes m p l m' ->
  end_of hd l1 + 16 <= p -> p + Z.of_nat (length l) <= end_of hd l1 + 16 + bsize b ->
  heap_at m' hd (l1 ++ b :: l2) /\
  (prevs m 0 hd (l1 ++ b :: l2) -> prevs m' 0 hd (l1 ++ b :: l2)).
Proof.
  intros (Hl & Hne & Hs & Hm) Hw Hp Hpl. assert (Hw' := Hw). destruct Hw' as [_ Hq].
  change (forall q, q < p \/ p + Z.of_nat (length l) <= q -> m' !! q = m !! q) in Hq.
  assert (Hl' := Hl). apply layout_app in Hl' as [Hl1 Hl2].
  apply layout_cons in Hl2 as (_ & _ & ? & _ & Hl2).
  split.
  - split; [done|]. split; [done|]. split; [|by eapply writes_mapped].
    apply seg_app in Hs as [Hs1 [Hh Hs2]]. apply seg_app. split; [|split].
    + eapply seg_frame; [apply Hl1|exact Hs1|]. intros; mem_frame.
    + eapply hdr_frame; [exact Hh|]. intros; mem_frame.
    + eapply seg_frame; [apply Hl2|exact Hs2|]. intros; mem_frame.
  - intros [Hp1 [Hw2 Hp2]]%prevs_app. apply prevs_app. split; [|split].
    + eapply prevs_frame; [apply Hl1|exact Hp1|]. intros; mem_frame.
    + keep_word Hw2.
    + eapply prevs_frame; [apply Hl2|exact Hp2|]. intros; mem_frame.
Qed.

(** The headers end where the use of the heap does. *)
Lemma seg_top_frame m m' a bs nx :
  Forall block_ok bs -> seg m a bs nx -> (forall q, a <= q < top a bs -> m' !! q = m !! q) -> seg m' a bs nx.
Proof.
  intros Hb. revert a. induction bs as [|b bs IH]; intros a Hs Hq; [done|]. destruct Hs as [Hh Hs].
  pose proof (top_bounds a b bs Hb) as Ht. apply Forall_cons in Hb as [Hb Hbs]. red in Hb.
  split; [eapply hdr_frame; [exact Hh|]; intros; apply Hq; lia|]. destruct bs as [|c bs]; [done|].
  apply IH; [done|done|]. intros q ?. apply Hq. change (top a (b :: c :: bs)) with (top (a + 16 + bsize b) (c :: bs)). lia.
Qed.

(** The heap depends on the part of its region that is in use. *)
Lemma heap_at_frame m m' a bs :
  (forall q, a <= q < top a bs -> m' !! q = m !! q) -> (forall x y, mapped m x y -> mapped m' x y) ->
  heap_at m a bs -> heap_at m' a bs.
Proof.
  intros Hq Hm' (Hl & Hne & Hs & Hm). split; [done|]. split; [done|]. split; [eapply seg_top_frame; [apply Hl|exact Hs|exact Hq]|].
  by apply Hm'.
Qed.

(** Two allocations next to each other in the list do not overlap. *)
Lemma live_apart a bs l x r y :
  Forall block_ok bs -> live a bs = l ++ x :: r -> y ∈ l ++ r ->
  fst y + snd y + 16 <= fst x \/ fst x + snd x + 16 <= fst y.
Proof.
  intros Hb E Hy. destruct (live_sorted a bs Hb) as [Hs _]. rewrite E in Hs. clear E.
  apply elem_of_app in Hy as [Hy|Hy].
  - left. induction l as [|z l IH]; [by apply elem_of_nil in Hy|].
    cbn [app] in Hs. inversion Hs as [|? ? Hs' Hz]; subst.
    apply elem_of_cons in Hy as [->|Hy]; [|by apply IH].
    rewrite Forall_forall in Hz. apply (Hz x). apply elem_of_app. right. by left.
  - right. induction l as [|z l IH]; cbn [app] in Hs; inversion Hs as [|? ? Hs' Hz]; subst; [|by apply IH].
    rewrite Forall_forall in Hz. by apply Hz.
Qed.

Lemma live_bounds m a bs p n :
  heap_at m a bs -> (p, n) ∈ live a bs ->
  0 < p /\ 0 <= n /\ p + n < 4294967296 /\ mapped m p (p + n).
Proof.
  intros ((Ha & _ & Hb & He) & _ & _ & Hm) Hin. destruct (live_sorted a bs Hb) as [_ Hf].
  rewrite Forall_forall in Hf. specialize (Hf _ Hin). cbn in Hf.
  split_and!; [lia|lia|lia|]. intros q ?. apply Hm. lia.
Qed.

(** Copying from one allocation to another. *)
Section Realloc.
Context {D C : Type} `{HW : Hardware D} `{F : Fuel} `{V : View D C}.
Context `{T : !TimerLaws D C} `{DM : !DmaLaws D C}.
Context (enough : (Unistd.usleep_fuel (D := D) (C := C) 1000 < fuel)%nat).
Context (enough_dma : (dma_latency D C < fuel)%nat).
Implicit Types s : heap_state D.

Lemma copy_payload_ok s bs l x r p n len :
  heap_ok s bs -> ch_busy (io_dma (view (dev (mach s))) 0) = false ->
  live (head s) bs = l ++ x :: r -> (p, n) ∈ l ++ r ->
  0 <= len <= n -> len <= snd x ->
  wp (on_machine (memcpy (fst x) p len)) (fun _ s' =>
    heap_ok s' bs /\ (prevs_ok s bs -> prevs_ok s' bs) /\ head s' = head s /\
    ch_busy (io_dma (view (dev (mach s'))) 0) = false /\
    (forall i, 0 <= i < len -> ram (mach s') !! (fst x + i) = ram (mach s) !! (p + i)) /\
    (forall q, q < fst x \/ fst x + len <= q -> ram (mach s') !! q = ram (mach s) !! q)) s.
Proof.
  intros Hh Hi E Hin Hlen Hx.
  assert (x ∈ live (head s) bs) as Hxin by (rewrite E; apply elem_of_app; right; by left).
  assert ((p, n) ∈ live (head s) bs) as Hpin.
  { rewrite E. apply elem_of_app in Hin as [?|?]; apply elem_of_app; [by left|right; by right]. }
  destruct x as [d k]; cbn [fst snd] in *.
  destruct (live_bounds _ _ _ _ _ Hh Hxin) as (? & ? & ? & Hmx).
  destruct (live_bounds _ _ _ _ _ Hh Hpin) as (? & ? & ? & Hmp).
  assert (p + n + 16 <= d \/ d + k + 16 <= p) as Hdis.
  { destruct Hh as (Hl & _). by apply (live_apart _ _ _ _ _ (p, n) (proj1 (proj2 (proj2 Hl))) E). }
  destruct (proj1 (peeks_mapped (ram (mach s)) p (Z.to_nat len))) as [b Hb].
  { intros q ?. apply Hmp. lia. }
  unfold on_machine. wp_step.
  eapply wpg_mono; [apply (memcpy_ok enough enough_dma d p len b (mach s))|].
  1-3: unfold is_u32; lia.
  1-2: done.
  1: intros q ?; apply Hmx; lia.
  1: lia.
  intros ? s' (_ & Hw & _ & Hi'). pose proof (length_peeks _ _ _ _ Hb) as Hlb.
  apply live_split in Hxin as (l1 & c & l2 & -> & -> & -> & _).
  destruct (payload_frame _ _ _ _ _ _ _ _ Hh Hw) as [Hh' Hp']; [lia|lia|].
  cbn [mach head]. do 4 (split; [done|]). destruct Hw as [W1 W2]. split.
  - intros i Hil. rewrite Hlb in W1.
    pose proof (peeks_lookup _ _ _ _ (Z.to_nat i) W1 ltac:(lia)) as R1.
    pose proof (peeks_lookup _ _ _ _ (Z.to_nat i) Hb ltac:(lia)) as R2.
    rewrite Z2Nat.id in R1, R2 by lia. unfold peek in R1, R2; cbn in R1, R2.
    unfold mem_peek in *. by rewrite R1, R2.
  - intros q Hq. apply W2. lia.
Qed.

(** The second half of [realloc]: copy into the new allocation [x], free the
    old one. *)
Lemma move_payload_ok s bs l x r p n len :
  heap_ok s bs -> prevs_ok s bs -> ch_busy (io_dma (view (dev (mach s))) 0) = false ->
  live (head s) bs = l ++ x :: r -> (p, n) ∈ l ++ r -> 0 <= len <= n -> len <= snd x ->
  wp (do! on_machine (memcpy (fst x) p len) in do! free p in ret (fst x))
    (fun d s' => d = fst x /\ exists bs',
      heap_ok s' bs' /\ prevs_ok s' bs' /\ head s' = head s /\
      live (head s) bs ≡ₚ (p, n) :: live (head s') bs' /\
      (forall i, 0 <= i < len -> ram (mach s') !! (fst x + i) = ram (mach s) !! (p + i)) /\
      (forall q j i, (q, j) ∈ l ++ r -> (q, j) ∈ live (head s') bs' -> 0 <= i < j ->
         ram (mach s') !! (q + i) = ram (mach s) !! (q + i))) s.
Proof.
  intros Hh Hp Hi E Hin Hlen Hx. wp_step.
  eapply wpg_mono; [by eapply (copy_payload_ok s bs l x r p n len)|].
  intros _ s1 (H1 & P1 & D1 & _ & C1 & F1). wp_step.
  assert (Forall block_ok bs) as Hb by (destruct Hh as ((_ & _ & ? & _) & _); done).
  assert ((p, n) ∈ live (head s1) bs) as Hpin.
  { rewrite D1, E. apply elem_of_app in Hin as [?|?]; apply elem_of_app; [by left|right; by right]. }
  eapply wpg_mono; [by apply (free_live_ok p n s1 bs); [|apply P1|]|].
  intros _ s2 (bs' & H2 & P2 & L2 & (_ & D2 & F2) & _). wp_step. split; [done|].
  assert (forall q j i, (q, j) ∈ live (head s2) bs' -> 0 <= i < j ->
            ram (mach s2) !! (q + i) = ram (mach s1) !! (q + i)) as Fl.
  { intros q j i Hq Hij. apply F2. right. right. rewrite D2 in Hq.
    eapply live_owned; [|exact Hq|lia]. destruct H2 as ((_ & _ & ? & _) & _). done. }
  exists bs'. split; [done|]. split; [done|]. split; [congruence|]. rewrite D1 in L2.
  split; [done|]. split.
  - intros i Hi'. destruct x as [d k]. cbn [fst snd] in *. rewrite (Fl d k); [by apply C1| |lia].
    assert ((d, k) ∈ (p, n) :: live (head s2) bs') as Hd.
    { rewrite <- L2, E. apply elem_of_app. right. by left. }
    apply elem_of_cons in Hd as [[= -> ->]|]; [|done].
    pose proof (live_apart _ _ _ _ _ _ Hb E Hin). cbn in *. lia.
  - intros q j i Hq Hq' Hij. rewrite (Fl q j) by done. apply F1.
    pose proof (live_apart _ _ _ _ _ _ Hb E Hq). cbn in *. lia.
Qed.

(** The size that the header of an allocation records. *)
Lemma stored_size_ok s bs p n (Q : Z -> heap_state D -> Prop) :
  heap_ok s bs -> (p, n) ∈ live (head s) bs -> Q n s ->
  wp (on_memory (load32 (u32 (p - sizeof_memory_space_t) + off_size))) Q s.
Proof.
  clear enough enough_dma. intros Hh Hin HQ. destruct (live_bounds _ _ _ _ _ Hh Hin) as (_ & Hn0 & Hn & _).
  apply live_split in Hin as (l1 & b & l2 & -> & -> & -> & Hb).
  destruct Hh as ([_ Hl]%layout_app & _ & [_ [(_ & _ & Hw & _) _]]%seg_app & _). apply layout_pos in Hl.
  unfold_offsets. apply on_memory_ok.
  replace (u32 (end_of (head s) l1 + 16 - 16)) with (end_of (head s) l1)
    by (rewrite u32_small; [lia|unfold is_u32; lia]).
  eapply load32_ok; [exact Hw|]. by destruct s as [[]].
Qed.

(** [realloc] of an allocation of [n] bytes, when the prev fields are
    right and stay right: either it returns NULL and the old allocation is
    still there with its bytes, or the allocation is replaced by one of at
    least the requested size that holds the first [min n size] bytes.  No
    other allocation changes. *)
Theorem realloc_spec ptr n size s bs :
  heap_ok s bs -> prevs_ok s bs -> (length bs <= fuel)%nat ->
  ch_busy (io_dma (view (dev (mach s))) 0) = false ->
  (ptr, n) ∈ live (head s) bs -> 0 <= size <= 4294967292 ->
  prev_safe (ALIGN_4BYTE size) bs ->
  wp (realloc ptr size) (fun p s' => exists bs' k rest,
    heap_ok s' bs' /\ prevs_ok s' bs' /\ live (head s) bs ≡ₚ (ptr, n) :: rest /\
    (if p =? 0
     then live (head s') bs' = live (head s) bs
     else live (head s') bs' ≡ₚ (p, k) :: rest /\ size <= k /\
          forall i, 0 <= i < Z.min n size ->
            ram (mach s') !! (p + i) = ram (mach s) !! (ptr + i)) /\
    forall q j i, (q, j) ∈ rest -> 0 <= i < j ->
      ram (mach s') !! (q + i) = ram (mach s) !! (q + i)) s.
Proof.
  intros Hh Hp Hf Hi Hin Hsz Hsafe. unfold realloc.
  destruct (live_bounds _ _ _ _ _ Hh Hin) as (_ & Hn0 & Hn & _). pose proof Hin as [rest Eperm]%elem_of_Permutation.
  wp_step. apply (stored_size_ok s bs ptr n); [done|done|].
  wp_step. apply (malloc_ok size s bs); [done|done|]. cbv zeta. intros s1 H1 (Ud & Uh & Uf) P1 _ _.
  specialize (P1 Hp Hsafe).
  assert (forall q j i, (q, j) ∈ live (head s) bs -> 0 <= i < j ->
            ram (mach s1) !! (q + i) = ram (mach s) !! (q + i)) as Fl.
  { intros q j i Hq ?. apply Uf. right. right. eapply live_owned; [apply Hh|exact Hq|lia]. }
  destruct (first_fit (ALIGN_4BYTE size) bs) as [[[k1 c] k2]|] eqn:E.
  2: { unfold abs_malloc in *. rewrite E in *. cbn [fst snd Z.eqb] in *. wp_step.
    exists bs, 0, rest. rewrite Uh. split_and!; try done. intros q j i Hq. apply Fl. rewrite Eperm. by right. }
  destruct (abs_malloc_live (head s) _ _ _ _ _ E) as (k & Hk & E1 & E2). pose proof (ALIGN_4BYTE_ge size Hsz).
  assert (fst (abs_malloc (head s) (ALIGN_4BYTE size) bs) = end_of (head s) k1 + 16) as -> by (unfold abs_malloc; by rewrite E).
  rewrite <- Uh in E1 at 1. assert (0 < end_of (head s) k1).
  { apply first_fit_some in E as (-> & _). destruct Hh as ([_ Hl]%layout_app & _). by apply layout_pos in Hl. }
  destruct (Z.eqb_spec (end_of (head s) k1 + 16) 0); [lia|].
  assert ((if n <? size then n else size) = Z.min n size) as -> by (destruct (Z.ltb_spec n size); lia).
  eapply wpg_mono.
  { eapply (move_payload_ok s1 _ _ (end_of (head s) k1 + 16, k) _ _ n); try done;
      [by rewrite Ud|by rewrite <- E2|lia|cbn [snd]; lia]. }
  cbn [fst]. intros p s2 (-> & bs' & H2 & P2 & D2 & L2 & C2 & F2).
  assert (live (head s2) bs' ≡ₚ (end_of (head s) k1 + 16, k) :: rest) as Lrest.
  { apply (Permutation_cons_inv (a := (ptr, n))). rewrite <- L2, E1.
    rewrite <- Permutation_middle, <- E2, Eperm. apply perm_swap. }
  exists bs', k, rest. split; [done|]. split; [done|]. split; [done|].
  destruct (Z.eqb_spec (end_of (head s) k1 + 16) 0); [lia|]. split; [split; [done|split; [lia|]]|].
  - intros i Hi'. rewrite C2 by lia. eapply Fl; [exact Hin|lia].
  - intros q j i Hq Hij. rewrite (F2 q j i); [|rewrite <- E2, Eperm; by right|rewrite Lrest; by right|done].
    eapply Fl; [|exact Hij]. rewrite Eperm. by right.
Qed.
End Realloc.

(** ** The stale prev field *)

Section StalePrev.
#[local] Instance demo_layout : HeapLayout := {| heap_start := 0x1000; heap_end := 0x1200 |}.

Definition demo_mem : mem :=
  list_to_map ((fun i => (0x1000 + Z.of_nat i, 0)) <$> seq 0 512).

(** A client that only frees what it allocated, once.  [p5] reuses the memory
    where the header of [p3] was; the prev field of [p2]'s header still
    names that header.  The result is byte 20 of [p5] before and after
    [p2] is freed. *)
Definition stale_prev_client : M mem (Z * Z) :=
  let! h := init_malloc_mem in
  let! p0 := malloc_mem 20 h 16 in
  let! p1 := malloc_mem 20 h 100 in
  let! p2 := malloc_mem 20 h 8 in
  do! free_mem p1 in
  let! p3 := malloc_mem 20 h 8 in
  let! p4 := malloc_mem 20 h 60 in
  do! free_mem p3 in
  do! free_mem p0 in
  let! p5 := malloc_mem 20 h 40 in
  do! free_mem p4 in
  let! before := load8 (p5 + 20) in
  do! free_mem p2 in
  let! after := load8 (p5 + 20) in
  ret (before, after).

End StalePrev.

(** ** The theorems on a heap of 512 bytes *)

Section HeapWitnesses.
#[local] Existing Instance demo_layout.

(** After [init_malloc] and [malloc(16)]. *)
Definition demo_board : machine (sim unit) := sim_board demo_mem tt [].
Definition demo_heap : heap_state (sim unit) :=
  match (do! init_malloc in malloc 16) (HeapState demo_board 0) with
  | Ok (_, s) => s
  | _ => HeapState demo_board 0
  end.
Definition demo_blocks : list block := [Block 16 true; Block 464 false].

Lemma demo_mapped a b : 0x1000 <= a -> b <= 0x1200 -> mapped (ram demo_board) a b.
Proof.
  intros Ha Hb q Hq. apply (proj2 (peeks_mapped (ram demo_board) 0x1000 512)); [|cbn; lia].
  eexists. vm_compute. reflexivity.
Qed.

Ltac demo_word := split; [reflexivity|split; [split; vm_compute; congruence|vm_compute; reflexivity]].

Lemma demo_heap_head : head demo_heap = 0x1000.
Proof. vm_compute. reflexivity. Qed.

Lemma demo_heap_ok : heap_ok demo_heap demo_blocks.
Proof.
  unfold heap_ok. rewrite demo_heap_head. split; [|split; [done|split]].
  - split; [done|]. split; [done|]. split; [|vm_compute; congruence].
    repeat (apply Forall_cons; split; [discriminate|]). done.
  - cbn [seg demo_blocks next_of bsize]. split; [|split; [|done]].
    + split; [exists 0; demo_word|]. split; [demo_word|]. split; [demo_word|]. vm_compute. reflexivity.
    + split; [exists 0x1000; demo_word|]. split; [demo_word|]. split; [demo_word|]. vm_compute. reflexivity.
  - apply (peeks_mapped _ 0x1000 512). eexists. vm_compute. reflexivity.
Qed.

Lemma demo_prevs_ok : prevs_ok demo_heap demo_blocks.
Proof.
  unfold prevs_ok. rewrite demo_heap_head. cbn [prevs demo_blocks bsize].
  split; [demo_word|]. split; [demo_word|done].
Qed.

Lemma demo_fuel : (length demo_blocks <= fuel)%nat.
Proof. apply Nat.leb_le. vm_compute. reflexivity. Qed.

Lemma demo_live : (0x1010, 16) ∈ live (head demo_heap) demo_blocks.
Proof. rewrite demo_heap_head. vm_compute. left. Qed.

Lemma init_malloc_witness : exists s', init_malloc (HeapState demo_board 0) = Ok (tt, s').
Proof.
  assert (heap_layout_ok (ram demo_board)) as Hl.
  { split; [reflexivity|]. split; [split; vm_compute; congruence|]. split; [reflexivity|].
    replace heap_base with 0x1000 by (vm_compute; reflexivity). by apply demo_mapped. }
  pose proof (init_malloc_spec (HeapState demo_board 0) Hl) as W.
  destruct (proj1 (wp_exact _ _ _) W) as ([] & s' & E & _). exists s'. exact E.
Defined.

Lemma malloc_spec_witness : exists p s', malloc 100 demo_heap = Ok (p, s').
Proof.
  pose proof (malloc_spec 100 demo_heap demo_blocks demo_heap_ok demo_fuel) as W.
  destruct (proj1 (wp_exact _ _ _) W) as (p & s' & E & _). exists p, s'. exact E.
Defined.

Lemma malloc_allocates_witness : exists p s', malloc 1000 demo_heap = Ok (p, s').
Proof.
  pose proof (malloc_allocates 1000 demo_heap demo_blocks demo_heap_ok demo_fuel) as W.
  destruct (proj1 (wp_exact _ _ _) W) as (p & s' & E & _). exists p, s'. exact E.
Defined.

Lemma free_spec_witness : exists s', free 0x1010 demo_heap = Ok (tt, s').
Proof.
  pose proof (free_spec 0x1010 16 demo_heap demo_blocks demo_heap_ok demo_prevs_ok demo_live) as W.
  destruct (proj1 (wp_exact _ _ _) W) as ([] & s' & E & _). exists s'. exact E.
Defined.

Lemma malloc_free_roundtrip_witness : exists p s',
  (let! p := malloc 100 in do! free p in ret p) demo_heap = Ok (p, s') /\ heap_ok s' demo_blocks.
Proof.
  pose proof (malloc_free_roundtrip 100 demo_heap demo_blocks demo_heap_ok demo_prevs_ok
                ltac:(cbn; tauto) demo_fuel) as W.
  destruct (proj1 (wp_exact _ _ _) W) as (p & s' & E & H & _). exists p, s'. exact (conj E H).
Defined.

Lemma malloc_size_wraps_witness : malloc (D := sim unit) 0xFFFFFFFF = malloc 0.
Proof. apply (malloc_size_wraps 0xFFFFFFFF). lia. Defined.

Lemma realloc_witness : exists p s', realloc 0x1010 40 demo_heap = Ok (p, s').
Proof.
  pose proof (realloc_spec sim_usleep_enough sim_dma_enough 0x1010 16 40 demo_heap demo_blocks
                demo_heap_ok demo_prevs_ok demo_fuel) as W.
  specialize (W ltac:(vm_compute; reflexivity) demo_live ltac:(lia) ltac:(vm_compute; by right)).
  destruct (proj1 (wp_exact _ _ _) W) as (p & s' & E & _). exists p, s'. exact E.
Defined.
End HeapWitnesses.
