(* ===== verification/HeapSession.v ===== *)
(** * The allocator as its clients see it

    An abstract heap: a list of blocks, and the bytes that the clients have
    stored in their allocations.  Sessions of malloc, realloc, free and of
    stores and loads in live allocations behave as on the abstract heap, as
    long as no split leaves a stale prev field; a client that frees its
    allocations in the reverse of their order never meets one. *)
From stdpp Require Import gmap list.
From S2P Require Import Prelude Session Bytes Board SimBoard Unistd Dma Heap.

(** ** The abstract heap *)

Record aheap := AHeap { blocks : list block; bytes : gmap Z Z }.

Inductive op := Malloc (size : Z) | Realloc (p size : Z) | Free (p : Z) | Store (q v : Z) | Load (q : Z).
Inductive reply := Pointer (p : Z) | Done | Byte (v : Z).

(** The allocation at [p], and what surrounds it. *)
Fixpoint cut (a p : Z) (bs : list block) : option (list block * block * list block) :=
  match bs with
  | [] => None
  | b :: bs' =>
      if balloc b && (p =? a + 16) then Some ([], b, bs')
      else '(l1, c, l2) ← cut (a + 16 + bsize b) p bs'; Some (b :: l1, c, l2)
  end.

Section Spec.
Context (hd : Z).

(** The bytes of [n] addresses from [a] on are unknown. *)
Definition forget (a n : Z) (m : gmap Z Z) : gmap Z Z := filter (fun x => ~ (a <= x.1 < a + n)) m.

(** The [n] bytes at [a], known or not, are copied to [b]. *)
Definition copy_known (a b n : Z) (m : gmap Z Z) : gmap Z Z :=
  kmap (Z.add (b - a)) (filter (fun x => a <= x.1 < a + n) m) ∪ forget b n m.

Definition spec_free (h : aheap) (p : Z) : aheap :=
  match cut hd p (blocks h) with
  | Some (l1, b, l2) => AHeap (abs_free l1 b l2) (forget p (bsize b) (bytes h))
  | None => h
  end.

Definition spec_step (h : aheap) (o : op) : reply * aheap :=
  match o with
  | Malloc size =>
      let '(p, bs) := abs_malloc hd (ALIGN_4BYTE size) (blocks h) in (Pointer p, AHeap bs (bytes h))
  | Realloc p size =>
      match abs_malloc hd (ALIGN_4BYTE size) (blocks h), cut hd p (blocks h) with
      | (new, bs), Some (_, b, _) =>
          if new =? 0 then (Pointer 0, h)
          else (Pointer new, spec_free (AHeap bs (copy_known p new (Z.min (bsize b) size) (bytes h))) p)
      | _, None => (Pointer 0, h)
      end
  | Free p => (Done, spec_free h p)
  | Store q v => (Done, AHeap (blocks h) (<[q := u8 v]> (bytes h)))
  | Load q => (Byte (default 0 (bytes h !! q)), h)
  end.

(** A correct client frees allocations or NULL, stores to their bytes, loads bytes it
    has stored; and no split leaves a stale prev field. *)
Definition op_ok (h : aheap) (o : op) : Prop :=
  match o with
  | Malloc size => prev_safe (ALIGN_4BYTE size) (blocks h)
  | Realloc p size => is_Some (cut hd p (blocks h)) /\ 0 <= size <= 4294967292 /\ prev_safe (ALIGN_4BYTE size) (blocks h)
  | Free p => p = 0 \/ is_Some (cut hd p (blocks h))
  | Store q _ => owned hd (blocks h) q
  | Load q => is_Some (bytes h !! q)
  end.
End Spec.

(** ** The client of the C code *)

Section Client.
Context {D : Type} `{HW : Hardware D} `{F : Fuel}.

Definition run_op (o : op) : M (heap_state D) reply :=
  match o with
  | Malloc size => let! p := malloc size in ret (Pointer p)
  | Realloc p size => let! p := realloc p size in ret (Pointer p)
  | Free p => do! free p in ret Done
  | Store q v => do! on_memory (store8 q v) in ret Done
  | Load q => let! v := on_memory (load8 q) in ret (Byte v)
  end.
End Client.

(** ** The simulation *)

Lemma cut_some a p bs l1 b l2 :
  cut a p bs = Some (l1, b, l2) -> bs = l1 ++ b :: l2 /\ p = end_of a l1 + 16 /\ balloc b = true.
Proof.
  revert a l1. induction bs as [|c bs IH]; intros a l1; cbn [cut]; [done|].
  destruct (balloc c) eqn:Ec, (Z.eqb_spec p (a + 16)); cbn [andb];
    try (intros [= <- <- <-]; done);
    (destruct (cut _ _ bs) as [[[l1' c'] l2']|] eqn:E; [|done]; intros [= <- <- <-];
     destruct (IH _ _ E) as (-> & -> & ->); done).
Qed.

Lemma abs_malloc_end hd size bs :
  layout hd bs -> 0 <= size -> size mod 4 = 0 -> end_of hd (abs_malloc hd size bs).2 = end_of hd bs.
Proof.
  intros Hl H0 H4. unfold abs_malloc. destruct (first_fit size bs) as [[[l1 b] l2]|] eqn:E; [|done].
  apply first_fit_some in E as (-> & Hf & _). cbn [snd]. rewrite !end_of_app.
  unfold fits in Hf. apply layout_app in Hl as [_ Hl]. apply place_layout; [done|lia|done].
Qed.

Lemma owned_abs_malloc hd size bs q : owned hd bs q -> owned hd (abs_malloc hd size bs).2 q.
Proof.
  unfold abs_malloc. destruct (first_fit size bs) as [[[l1 b] l2]|] eqn:E; [|done].
  apply first_fit_some in E as (-> & Hf & _). cbn [snd]. rewrite !owned_app. intros [?|Ho]; [by left|].
  right. unfold fits in Hf. destruct b as [n [|]]; cbn [balloc negb andb bsize] in *; [done|].
  destruct Ho as [[? _]|Ho]; [done|]. unfold place. cbn [bsize balloc].
  destruct (_ <? _); cbn [owned bsize]; [|by right]. rewrite owned_merge_free. cbn [owned bsize].
  right. right. by replace (end_of hd l1 + 16 + size + 16 + (n - size - 16)) with (end_of hd l1 + 16 + n) by lia.
Qed.

(** Each block takes a header. *)
Lemma length_blocks a bs : Forall block_ok bs -> 16 * Z.of_nat (length bs) <= end_of a bs - a.
Proof.
  intros Hb. revert a. induction Hb as [|b bs Hb _ IH]; intros a; cbn [length end_of]; [lia|]. red in Hb.
  specialize (IH (a + 16 + bsize b)). lia.
Qed.

Lemma cut_app a l1 b l2 :
  Forall block_ok l1 -> balloc b = true -> cut a (end_of a l1 + 16) (l1 ++ b :: l2) = Some (l1, b, l2).
Proof.
  intros Hl Hb. revert a. induction Hl as [|c l1 Hc Hl IH]; intros a; cbn [app cut end_of]; [|red in Hc].
  - by rewrite Hb, Z.eqb_refl.
  - pose proof (end_of_ge (a + 16 + bsize c) l1 Hl).
    destruct (Z.eqb_spec (end_of (a + 16 + bsize c) l1 + 16) (a + 16)); [lia|]. rewrite andb_false_r. by rewrite IH.
Qed.

Lemma cut_live hd bs p n :
  Forall block_ok bs -> (p, n) ∈ live hd bs ->
  exists l1 b l2, cut hd p bs = Some (l1, b, l2) /\ bs = l1 ++ b :: l2 /\ bsize b = n.
Proof.
  intros Hb (l1 & b & l2 & -> & -> & -> & Hal)%live_split. exists l1, b, l2. split; [|done].
  apply Forall_app in Hb as [Hb _]. by apply cut_app.
Qed.

Lemma cut_in_live hd bs p l1 b l2 : cut hd p bs = Some (l1, b, l2) -> (p, bsize b) ∈ live hd bs.
Proof.
  intros (-> & -> & Hb)%cut_some. rewrite live_app. apply elem_of_app. right. cbn [live]. rewrite Hb. by left.
Qed.

Lemma forget_lookup a n m q v : forget a n m !! q = Some v <-> m !! q = Some v /\ ~ (a <= q < a + n).
Proof. apply map_lookup_filter_Some. Qed.

Lemma copy_known_lookup a b n m q v :
  copy_known a b n m !! q = Some v ->
  (exists i, 0 <= i < n /\ q = b + i /\ m !! (a + i) = Some v) \/ (m !! q = Some v /\ ~ (b <= q < b + n)).
Proof.
  unfold copy_known. intros [Hq|[_ Hq]]%lookup_union_Some_raw; [left|by right; apply forget_lookup].
  apply lookup_kmap_Some in Hq as (x & -> & [Hx Hin]%map_lookup_filter_Some); [|intros ? ? ?; lia].
  cbn in Hin. exists (x - a). split; [lia|]. split; [lia|]. rewrite <- Hx. f_equal. lia.
Qed.

Section Simulation.
Context {D C : Type} `{HW : Hardware D} `{F : Fuel} `{V : View D C} `{T : !TimerLaws D C} `{DM : !DmaLaws D C}.
Context (enough : (usleep_fuel (D := D) (C := C) 1000 < fuel)%nat) (enough_dma : (dma_latency D C < fuel)%nat).
Context (hd : Z).
Implicit Types s : heap_state D.

(** The list of headers is that of the blocks, the stored bytes are in memory
    inside allocations, the DMA channel is idle, and the fuel covers the
    longest list the heap has room for. *)
Record heap_rel s (h : aheap) : Prop := {
  rel_head : head s = hd;
  rel_heap : heap_ok s (blocks h);
  rel_prevs : prevs_ok s (blocks h);
  rel_bytes : forall q v, bytes h !! q = Some v -> owned hd (blocks h) q /\ ram (mach s) !! q = Some v;
  rel_idle : ch_busy (io_dma (view (dev (mach s))) 0) = false;
  rel_fuel : end_of hd (blocks h) - hd <= 16 * Z.of_nat fuel;
}.

Abbreviation heap_refines := (refines run_op (spec_step hd) (op_ok hd) heap_rel).

Lemma heap_rel_fuel s h : heap_rel s h -> (length (blocks h) <= fuel)%nat.
Proof.
  clear enough enough_dma. intros [<- ((_ & _ & Hb & _) & _) _ _ _ Hf]. pose proof (length_blocks (head s) _ Hb). lia.
Qed.

Lemma heap_rel_blocks s h : heap_rel s h -> layout hd (blocks h).
Proof. intros [<- (Hl & _) _ _ _ _]. exact Hl. Qed.

Lemma malloc_sim size s h (Q : Z -> heap_state D -> Prop) :
  heap_rel s h -> prev_safe (ALIGN_4BYTE size) (blocks h) ->
  (forall s', heap_rel s' (AHeap (abs_malloc hd (ALIGN_4BYTE size) (blocks h)).2 (bytes h)) ->
     (forall q, owned hd (blocks h) q -> ram (mach s') !! q = ram (mach s) !! q) ->
     Q (abs_malloc hd (ALIGN_4BYTE size) (blocks h)).1 s') ->
  wp (malloc size) Q s.
Proof.
  clear enough enough_dma. intros HR Hsafe HQ. pose proof HR as [Hd Hh Hp Hb Hi Hf]. pose proof (heap_rel_blocks _ _ HR) as Hl.
  pose proof (ALIGN_4BYTE_range size) as [Hsz H4]. apply (malloc_ok size s (blocks h)); [done|by eapply heap_rel_fuel|].
  cbv zeta. intros s' H1 (Hdev & Hd' & Fr) H3 _ _. rewrite Hd in *.
  assert (forall q, owned hd (blocks h) q -> ram (mach s') !! q = ram (mach s) !! q) as Fo
    by (intros q Hq; apply Fr; by right; right).
  apply HQ; [|done]. constructor; cbn [blocks bytes]; [congruence|done|by apply H3| |by rewrite Hdev|].
  - intros q v [Ho Hq]%Hb. split; [by apply owned_abs_malloc|]. by rewrite Fo.
  - by rewrite abs_malloc_end by (done || lia).
Qed.

Lemma malloc_refines size : heap_refines (Malloc size).
Proof.
  intros s h HR Hsafe. cbn [run_op spec_step op_ok] in *. wp_step. apply (malloc_sim size s h); [done|done|].
  intros s' HR' _. wp_step. by destruct (abs_malloc hd _ _).
Qed.

Lemma free_sim p s h (Q : unit -> heap_state D -> Prop) :
  heap_rel s h -> is_Some (cut hd p (blocks h)) -> (forall s', heap_rel s' (spec_free hd h p) -> Q tt s') ->
  wp (free p) Q s.
Proof.
  clear enough enough_dma. intros HR [[[l1 b] l2] Hcut] HQ. pose proof HR as [Hd Hh Hp Hb Hi Hf].
  unfold spec_free in HQ. rewrite Hcut in HQ. apply cut_some in Hcut as (E & -> & Ha). rewrite E in *.
  rewrite <- Hd at 1. apply (free_ok s l1 b l2); [done|by eapply prevs_word|].
  intros s' H1 (Hdev & Hd' & Fr) H3 _. rewrite Hd in *. apply HQ.
  constructor; cbn [blocks bytes]; [congruence|done|by apply H3| |by rewrite Hdev|by rewrite abs_free_end].
  intros q v [[Ho Hq]%Hb Hnot]%forget_lookup.
  assert (owned hd (l1 ++ Block (bsize b) false :: l2) q) as Ho'.
  { apply owned_app in Ho as [Ho|[[_ Ho]|Ho]]; apply owned_app; [by left|lia|by right; right]. }
  split; [by apply owned_abs_free|]. rewrite Fr; [done|]. by right; right.
Qed.

(** NULL is no allocation. *)
Lemma rel_cut_null s h : heap_rel s h -> cut hd 0 (blocks h) = None.
Proof.
  clear enough enough_dma. intros HR. pose proof (heap_rel_blocks _ _ HR) as (Hpos & _ & Hb & _).
  destruct (cut hd 0 (blocks h)) as [[[l1 b] l2]|] eqn:E; [|done]. apply cut_some in E as (E & H0 & _).
  rewrite E in Hb. apply Forall_app in Hb as [Hb _]. pose proof (end_of_ge hd l1 Hb). lia.
Qed.

Lemma free_refines p : heap_refines (Free p).
Proof.
  intros s h HR Hok. cbn [run_op spec_step op_ok] in *. wp_step. destruct (decide (p = 0)) as [->|Hne].
  - apply on_memory_ok. change (free_mem 0) with (@ret mem unit tt). do 2 wp_step. unfold spec_free.
    rewrite (rel_cut_null s h) by done. by destruct s as [[]].
  - destruct Hok as [?|Hok]; [done|]. apply (free_sim p s h); [done|done|]. intros s' HR'. by wp_step.
Qed.

Lemma owned_split a bs q :
  owned a bs q -> exists l1 b l2, bs = l1 ++ b :: l2 /\ end_of a l1 + 16 <= q < end_of a l1 + 16 + bsize b.
Proof.
  revert a. induction bs as [|b bs IH]; intros a; [done|]. intros [[_ Hq]|Ho].
  - by exists [], b, bs.
  - destruct (IH _ Ho) as (l1 & c & l2 & -> & Hq). by exists (b :: l1), c, l2.
Qed.

Lemma owned_mapped s h q : heap_rel s h -> owned hd (blocks h) q -> is_Some (peek (ram (mach s)) q).
Proof.
  intros [<- ((_ & _ & Hb & _) & _ & _ & Hm) _ _ _ _] Ho. apply Hm. pose proof (owned_range _ _ _ Hb Ho). lia.
Qed.

Lemma store_refines q v : heap_refines (Store q v).
Proof.
  intros s h HR Ho. pose proof HR as [Hd Hh Hp Hb Hi Hf]. cbn [run_op spec_step op_ok] in *.
  wp_step. apply on_memory_ok. apply store8_ok; [by eapply owned_mapped|]. intros m' E. wp_step.
  split; [done|].
  assert (writes (ram (mach s)) q [u8 v] m') as W by (apply writes_pokes; cbn [pokes]; by rewrite E).
  destruct (owned_split _ _ _ Ho) as (l1 & b & l2 & Ebs & Hq).
  destruct (payload_frame (ram (mach s)) m' hd l1 b l2 q [u8 v]) as [H1 H2];
    [rewrite <- Ebs, <- Hd; exact Hh|exact W|lia|cbn [length]; lia|].
  constructor; cbn [fst snd blocks bytes mach ram head]; [done| | | |done|done].
  - unfold heap_ok. cbn [mach ram head]. by rewrite Ebs, Hd.
  - unfold prevs_ok in *. cbn [mach ram head]. rewrite Ebs, Hd in *. by apply H2.
  - intros q' v' Hq'. destruct (decide (q' = q)) as [->|Hne].
    + rewrite lookup_insert_eq in Hq'. injection Hq' as <-. split; [done|].
      exact (mem_peek_poke_eq _ _ _ _ E).
    + rewrite lookup_insert_ne in Hq' by done. apply Hb in Hq' as [Ho' Hv]. split; [done|].
      rewrite <- Hv. exact (mem_peek_poke_ne _ _ _ _ _ E (not_eq_sym Hne)).
Qed.

Lemma load_refines q : heap_refines (Load q).
Proof.
  intros s h HR [v Hv]. pose proof HR as [Hd Hh Hp Hb Hi Hf]. cbn [run_op spec_step]. rewrite Hv. cbn [default].
  wp_step. apply on_memory_ok. apply Hb in Hv as [Ho Hv]. eapply load8_ok; [exact Hv|]. wp_step. 
  destruct s as [[r d] a]. done.
Qed.


(** The copy of [realloc]: from one allocation to another. *)
Lemma copy_sim s h l x r p n len (Q : Z -> heap_state D -> Prop) :
  heap_rel s h -> live hd (blocks h) = l ++ x :: r -> (p, n) ∈ l ++ r -> 0 <= len <= n -> len <= snd x ->
  (forall v s', heap_rel s' (AHeap (blocks h) (copy_known p (fst x) len (bytes h))) -> Q v s') ->
  wp (on_machine (memcpy (fst x) p len)) Q s.
Proof.
  intros HR E Hin Hlen Hx HQ. pose proof HR as [Hd Hh Hp Hb Hi Hf].
  eapply wpg_mono; [apply (copy_payload_ok enough enough_dma s (blocks h) l x r p n len); try done; by rewrite Hd|].
  intros v s' (H1 & P1 & D1 & I1 & C1 & F1). apply HQ.
  constructor; cbn [blocks bytes]; [congruence|done|by apply P1| |done|done].
  assert (Forall block_ok (blocks h)) as Hbs by (apply Hh). destruct x as [d k]; cbn [fst snd] in *.
  intros q w [(i & Hil & -> & [Ho Hw]%Hb)|[Hq%Hb Hout]]%copy_known_lookup.
  - split; [|by rewrite C1]. eapply (live_owned hd _ d k); [done| |lia]. rewrite E. apply elem_of_app. right. by left.
  - destruct Hq as [Ho Hw]. split; [done|]. rewrite F1 by lia. done.
Qed.

Lemma abs_malloc_ptr hd' size bs l1 b l2 :
  first_fit size bs = Some (l1, b, l2) -> (abs_malloc hd' size bs).1 = end_of hd' l1 + 16.
Proof. intros E. unfold abs_malloc. by rewrite E. Qed.

Lemma realloc_refines p size : heap_refines (Realloc p size).
Proof.
  intros s h HR ([[[l1 b] l2] Hcut] & Hsz & Hsafe). pose proof HR as [Hd Hh Hp Hb Hi Hf].
  pose proof (heap_rel_blocks _ _ HR) as (Hpos & _ & Hbs & _). pose proof (cut_in_live _ _ _ _ _ _ Hcut) as Hin.
  cbn [run_op spec_step]. rewrite Hcut. wp_step. unfold realloc. wp_step.
  apply (stored_size_ok s (blocks h) p (bsize b)); [done|by rewrite Hd|]. wp_step.
  apply (malloc_sim size s h); [done|done|]. intros s1 HR1 _.
  destruct (first_fit (ALIGN_4BYTE size) (blocks h)) as [[[k1 c] k2]|] eqn:E.
  2: { unfold abs_malloc. rewrite E. cbn [fst snd Z.eqb]. do 2 wp_step. split; [done|].
    unfold abs_malloc in HR1. rewrite E in HR1. by destruct h. }
  destruct (abs_malloc_live hd _ _ _ _ _ E) as (k & Hk & E1 & E2). pose proof (ALIGN_4BYTE_ge size Hsz).
  pose proof (abs_malloc_ptr hd _ _ _ _ _ E) as Ep. destruct (abs_malloc hd _ _) as [new bs]. cbn [fst snd] in *. subst new.
  assert (hd <= end_of hd k1).
  { apply first_fit_some in E as (E & _). rewrite E in Hbs. apply Forall_app in Hbs as [Hbs _]. by apply end_of_ge. }
  destruct (Z.eqb_spec (end_of hd k1 + 16) 0); [lia|].
  assert ((if bsize b <? size then bsize b else size) = Z.min (bsize b) size) as -> by (destruct (Z.ltb_spec (bsize b) size); lia).
  assert (0 <= bsize b) by (destruct (live_bounds _ _ _ _ _ Hh ltac:(by rewrite Hd)); lia).
  wp_step. apply (copy_sim s1 _ _ (end_of hd k1 + 16, k) _ p (bsize b) _ _ HR1 E1); [by rewrite <- E2|lia|cbn [snd]; lia|].
  cbn [fst blocks bytes]. intros v s2 HR2. wp_step. eapply free_sim; [exact HR2| |].
  - cbn [blocks]. destruct (cut_live hd bs p (bsize b)) as (m1 & c' & m2 & Hc & _); [|rewrite E1|by eexists].
    + apply (rel_heap _ _ HR2).
    + rewrite E2 in Hin. apply elem_of_app in Hin as [?|?]; apply elem_of_app; [by left|right; by right].
  - intros s3 HR3. by do 2 wp_step.
Qed.

Lemma op_refines o : heap_refines o.
Proof. destruct o; [apply malloc_refines|apply realloc_refines|apply free_refines|apply store_refines|apply load_refines]. Qed.

(** C11: Sessions of malloc, realloc, free, and of stores and loads in live
    allocations get the replies of the abstract heap, in which an allocation is
    memory of its own: a load returns the byte last stored at its address, or
    moved there by realloc, whatever was allocated and freed in between. Every
    call returns. The one proviso is that no split leaves a stale prev field
    behind. *)
Theorem heap_session_refines os s h :
  heap_rel s h -> session_ok (spec_step hd) (op_ok hd) h os ->
  wp (run run_op os) (fun rs s' => rs = (spec_run (spec_step hd) h os).1 /\
    heap_rel s' (spec_run (spec_step hd) h os).2) s.
Proof. apply run_refines, op_refines. Qed.

(** ** Clients that free in reverse order *)

(** Only the last block may be free. *)
Definition stacked (bs : list block) : Prop :=
  exists l, Forall (fun b => balloc b = true) l /\ (bs = l \/ exists n, bs = l ++ [Block n false]).

(** The only allocation that may be freed is the last one. *)
Definition lifo_ok (h : aheap) (o : op) : Prop :=
  match o with
  | Malloc _ => True
  | Realloc _ _ => False
  | Free p => p = 0 \/ exists n, last (live hd (blocks h)) = Some (p, n)
  | _ => op_ok hd h o
  end.

Lemma full_first_fit size l bs :
  Forall (fun b => balloc b = true) l ->
  first_fit size (l ++ bs) = ('(l1, b, l2) ← first_fit size bs; Some (l ++ l1, b, l2)).
Proof.
  induction 1 as [|b l Hb _ IH]; cbn [app first_fit]; [by destruct (first_fit size bs) as [[[]]|]|].
  unfold fits at 1. rewrite Hb, IH. cbn [negb andb]. by destruct (first_fit size bs) as [[[]]|].
Qed.

Lemma stacked_fit size bs l1 b l2 :
  stacked bs -> first_fit size bs = Some (l1, b, l2) ->
  l2 = [] /\ Forall (fun b => balloc b = true) l1.
Proof.
  intros (l & Hl & Hbs) E.
  assert (bs = l ++ [] \/ exists n, bs = l ++ [Block n false]) as [->|[n ->]]
    by (destruct Hbs as [->|?]; [left; by rewrite app_nil_r|by right]).
  all: rewrite (full_first_fit _ _ _ Hl) in E; cbn [first_fit] in E.
  - done.
  - destruct (fits size _); cbn in E; [|done]. injection E as <- <- <-. by rewrite app_nil_r.
Qed.

Lemma stacked_malloc a size bs : stacked bs -> stacked (abs_malloc a size bs).2.
Proof.
  intros Hs. unfold abs_malloc. destruct (first_fit size bs) as [[[l1 b] l2]|] eqn:E; [|done].
  destruct (stacked_fit _ _ _ _ _ Hs E) as [-> Hl]. cbn [snd]. unfold place.
  destruct (_ <? _); cbn [merge_head].
  - exists (l1 ++ [Block size true]). split; [by apply Forall_app; repeat constructor|]. right.
    eexists. by rewrite <- app_assoc.
  - exists (l1 ++ [Block (bsize b) true]). split; [by apply Forall_app; repeat constructor|]. by left.
Qed.

Lemma stacked_free l1 b l2 :
  Forall (fun b => balloc b = true) l1 -> l2 = [] \/ (exists n, l2 = [Block n false]) -> stacked (abs_free l1 b l2).
Proof.
  intros Hl Hl2. assert (exists n, merge_head (Block (bsize b) false :: l2) = [Block n false]) as [n E]
    by (destruct Hl2 as [->|[n ->]]; eexists; reflexivity).
  exists l1. split; [done|]. right. exists n. unfold abs_free. rewrite E.
  destruct (last l1) as [p|] eqn:El.
  - apply last_Some in El as [l0 ->]. apply Forall_app in Hl as [_ Hp]. apply Forall_inv in Hp. by rewrite Hp.
  - by apply last_None in El as ->.
Qed.

(** The last allocation of a stack of blocks. *)
Lemma stacked_last bs p n :
  Forall block_ok bs -> stacked bs -> last (live hd bs) = Some (p, n) ->
  exists l1 b l2, cut hd p bs = Some (l1, b, l2) /\ Forall (fun b => balloc b = true) l1 /\
    (l2 = [] \/ exists n, l2 = [Block n false]).
Proof.
  intros Hb (l & Hl & Hbs) Hlast.
  assert (exists tl, bs = l ++ tl /\ live (end_of hd l) tl = [] /\ (tl = [] \/ exists n, tl = [Block n false]))
    as (tl & -> & Htl & Ht).
  { destruct Hbs as [->|[k ->]]; [exists []; rewrite app_nil_r; eauto|exists [Block k false]; eauto]. }
  clear Hbs. rewrite live_app, Htl, app_nil_r in Hlast.
  destruct l as [|b l0 _] using rev_ind; [done|]. apply Forall_app in Hl as [Hl0 Hb0]. apply Forall_inv in Hb0.
  rewrite live_app in Hlast. cbn [live] in Hlast. rewrite Hb0 in Hlast. cbn [app] in Hlast. rewrite last_snoc in Hlast. injection Hlast as <- _.
  exists l0, b, tl. rewrite <- app_assoc in *. cbn [app] in *. apply Forall_app in Hb as [Hb _].
  split; [by apply cut_app|done].
Qed.

(** What a last-in first-out client may do is all right, and keeps the shape. *)
Lemma lifo_step s h o :
  heap_rel s h -> stacked (blocks h) -> lifo_ok h o -> op_ok hd h o /\ stacked (blocks (spec_step hd h o).2).
Proof.
  intros HR Hs Hok. destruct o as [size|? ?|p|q v|q]; cbn [lifo_ok op_ok spec_step] in *; [|done| |done|done].
  - split.
    + unfold prev_safe. destruct (first_fit _ _) as [[[l1 b] l2]|] eqn:E; [|done].
      destruct (stacked_fit _ _ _ _ _ Hs E) as [-> _]. by right.
    + pose proof (stacked_malloc hd (ALIGN_4BYTE size) _ Hs). by destruct (abs_malloc _ _ _).
  - unfold spec_free. destruct Hok as [->|[n Hn]].
    { split; [by left|]. by rewrite (rel_cut_null s h). }
    destruct (stacked_last (blocks h) p n) as (l1 & b & l2 & E & Hl1 & Hl2);
      [apply (rel_heap _ _ HR)|done|done|].
    rewrite E. split; [right; by eexists|]. by apply stacked_free.
Qed.

Lemma lifo_refines o : refines run_op (spec_step hd) lifo_ok (fun s h => heap_rel s h /\ stacked (blocks h)) o.
Proof.
  intros s h [HR Hs] Hok. destruct (lifo_step s h o HR Hs Hok) as [Hop Hs'].
  eapply wpg_mono; [by apply op_refines|]. intros r s' [-> HR']. done.
Qed.

(** C12: A client that frees its allocations in the reverse of the order in which
    it made them never meets the stale prev field: in every such session the
    heap stays well formed, at most its last block is free, and each
    allocation is memory of its own. *)
Theorem lifo_session_refines os s h :
  heap_rel s h -> stacked (blocks h) -> session_ok (spec_step hd) lifo_ok h os ->
  wp (run run_op os) (fun rs s' => rs = (spec_run (spec_step hd) h os).1 /\
    heap_rel s' (spec_run (spec_step hd) h os).2 /\ stacked (blocks (spec_run (spec_step hd) h os).2)) s.
Proof. intros HR Hs Hok. by apply (run_refines _ _ _ _ _ _ _ lifo_refines). Qed.
End Simulation.

(** ** Two sessions on a heap of 512 bytes *)

Section SessionWitnesses.
#[local] Existing Instance demo_layout.

Lemma demo_rel : heap_rel (C := unit) 0x1000 demo_heap (AHeap demo_blocks ∅).
Proof.
  constructor; cbn [blocks bytes]; [exact demo_heap_head|exact demo_heap_ok|exact demo_prevs_ok|done|reflexivity|].
  assert (32 <= fuel)%nat as Hf by (apply Nat.leb_le; vm_compute; reflexivity).
  change (end_of 0x1000 demo_blocks - 0x1000) with 512. generalize dependent (@fuel sim_fuel). lia.
Qed.

(** The second allocation outlives the first, whose block is used again. *)
Definition demo_session : list op :=
  [Malloc 8; Store 0x1030 7; Store 0x1010 300; Load 0x1010; Free 0x1010; Malloc 4; Store 0x1010 1; Load 0x1010; Load 0x1030;
   Realloc 0x1010 40; Load 0x1048; Free 0; Free 0x1030; Load 0x1048].

Lemma heap_session_refines_witness : exists s', run run_op demo_session demo_heap =
  Ok ([Pointer 0x1030; Done; Done; Byte 44; Done; Pointer 0x1010; Done; Byte 1; Byte 7;
       Pointer 0x1048; Byte 1; Done; Done; Byte 1], s').
Proof.
  assert (session_ok (spec_step 0x1000) (op_ok 0x1000) (AHeap demo_blocks ∅) demo_session) as Hok.
  { cbn [session_ok demo_session]. split_and!; try done; vm_compute; intuition (congruence || eauto). }
  destruct (proj1 (wp_exact _ _ _) (heap_session_refines sim_usleep_enough sim_dma_enough 0x1000 demo_session demo_heap (AHeap demo_blocks ∅) demo_rel Hok))
    as (rs & s' & E & -> & _).
  exists s'. rewrite E. vm_compute. reflexivity.
Defined.

(** Three allocations one inside the other. *)
Definition demo_lifo : list op :=
  [Malloc 100; Malloc 20; Store 0x1030 5; Free 0x10a4; Malloc 300; Load 0x1030; Free 0x10a4; Free 0x1030; Free 0x1010; Malloc 496].

Lemma lifo_session_refines_witness : exists s', run run_op demo_lifo demo_heap =
  Ok ([Pointer 0x1030; Pointer 0x10a4; Done; Done; Pointer 0x10a4; Byte 5; Done; Done; Done; Pointer 0x1010], s').
Proof.
  assert (stacked demo_blocks) as Hs by (exists [Block 16 true]; split; [by repeat constructor|right; by exists 464]).
  assert (session_ok (spec_step 0x1000) (lifo_ok 0x1000) (AHeap demo_blocks ∅) demo_lifo) as Hok.
  { cbn [session_ok demo_lifo]. split_and!; try done; vm_compute; intuition (congruence || eauto). }
  destruct (proj1 (wp_exact _ _ _) (lifo_session_refines sim_usleep_enough sim_dma_enough 0x1000 demo_lifo demo_heap (AHeap demo_blocks ∅) demo_rel Hs Hok))
    as (rs & s' & E & -> & _).
  exists s'. rewrite E. vm_compute. reflexivity.
Defined.
End SessionWitnesses.
