(* ===== verification/Block.v ===== *)
(** * The interface between the file system and the SD card driver

    What src/driver/fs/FAT32.c uses of src/lib/sd/SD.c: reading a block, or a
    part of one, into a buffer, and writing a block.  [BlockDevice] has the operations, [BlockLaws]
    what their implementation promises: SD.v discharges it for a card that
    keeps to the SD protocol, FAT32.v is verified against it. *)
From S2P Require Import Prelude Bytes.

Definition SD_BLOCK_SIZE : Z := 512.

(** The buffer is a byte store and an address in it; the operations return
    whether they succeeded and the updated store.  Nothing is promised of
    writing: SD.v shows that sdWriteBlock does not return, and the file
    system never calls it. *)
Class BlockDevice (S : Type) := {
  read_block : forall {T} `{ByteStore T}, T -> Z -> Z -> M S (bool * T);
  read_partial : forall {T} `{ByteStore T}, T -> Z -> Z -> Z -> Z -> M S (bool * T);
  write_block : forall {T} `{ByteStore T}, T -> Z -> Z -> M S bool;
}.

(** [bd_data s a] is block [a] of the medium, [None] when the medium refuses
    to read it. *)
Class BlockLaws (S : Type) `{BlockDevice S} := {
  bd_ok : S -> Prop;
  bd_data : S -> Z -> option (list Z);
  bd_size : forall s a data, bd_ok s -> bd_data s a = Some data ->
    length data = Z.to_nat SD_BLOCK_SIZE /\ Forall is_u8 data;
  read_block_ok : forall {T} `{ByteStore T} (m : T) s a buffer data,
    bd_ok s -> is_u32 a -> bd_data s a = Some data -> mapped m buffer (buffer + SD_BLOCK_SIZE) ->
    wp (read_block m a buffer) (fun '(ok, m') s' =>
      ok = true /\ writes m buffer data m' /\ bd_ok s' /\ bd_data s' = bd_data s) s;
  read_block_fails : forall {T} `{ByteStore T} (m : T) s a buffer,
    bd_ok s -> is_u32 a -> bd_data s a = None ->
    wp (read_block m a buffer) (fun '(ok, m') s' =>
      ok = false /\ m' = m /\ bd_ok s' /\ bd_data s' = bd_data s) s;
  read_partial_ok : forall {T} `{ByteStore T} (m : T) s a offset buffer n data,
    bd_ok s -> is_u32 a -> bd_data s a = Some data ->
    0 <= offset -> 0 <= n -> offset + n <= SD_BLOCK_SIZE -> mapped m buffer (buffer + n) ->
    wp (read_partial m a offset buffer n) (fun '(ok, m') s' =>
      ok = true /\ writes m buffer (take (Z.to_nat n) (drop (Z.to_nat offset) data)) m' /\
      bd_ok s' /\ bd_data s' = bd_data s) s;
  read_partial_fails : forall {T} `{ByteStore T} (m : T) s a offset buffer n,
    bd_ok s -> is_u32 a -> bd_data s a = None ->
    wp (read_partial m a offset buffer n) (fun '(ok, m') s' =>
      ok = false /\ m' = m /\ bd_ok s' /\ bd_data s' = bd_data s) s;
}.
