(* ===== verification/SD.v ===== *)
(** * The SD card driver (src/lib/sd/SD.c)

    Commands over SPI0.  The driver sends without reading and reads without
    sending, so the receive FIFO works as a delay line: once SDInit has filled
    it, every byte read is one the card sent eight bytes earlier, and what
    the card answers while a command is sent is lost.  The file defines the
    code, states the card's side of the protocol ([SdCard]), and proves that
    the driver implements the block interface of Block.v. *)
From Stdlib Require Import String.
From stdpp Require Import list.
From S2P Require Import Prelude Bytes Board SimBoard Unistd Uart Spi Block.

(** ** The driver *)

Section SD.
Context {D : Type} `{Hardware D} `{Fuel}.

Definition deassertCS : M (machine D) unit :=
  do! reg_or sio_OUT_SET (Z.shiftl 1 9) in
  spi_send_byte 0xFF.

Definition SDSendCommand (command args crc : Z) : M (machine D) unit :=
  do! reg_or sio_OUT_CLR (Z.shiftl 1 9) in
  do! spi_send_byte command in
  do! spi_send_byte (Z.land (Z.shiftr args 24) 0xFF) in
  do! spi_send_byte (Z.land (Z.shiftr args 16) 0xFF) in
  do! spi_send_byte (Z.land (Z.shiftr args 8) 0xFF) in
  do! spi_send_byte (Z.land args 0xFF) in
  do! spi_send_byte crc in
  spi_send_byte 0xFF.

(** [buf = spi_read_byte(); spi_send_byte(0xFF);] *)
Definition pull : M (machine D) Z :=
  let! res := spi_read_byte in
  do! spi_send_byte 0xFF in
  ret res.

(** The polling loop of [read_r1_response] and of the two token waits: the
    last byte read and what is left of the timeout. *)
Definition poll_byte (timeout_val : Z) : M (machine D) (Z * Z) :=
  while_loop fuel (fun timeout =>
    let! res := pull in
    let timeout := u16 (timeout - 1) in
    if (res =? 0xFF) && (0 <? timeout) then ret (inl timeout)
    else ret (inr (res, timeout))) (u16 timeout_val).

Definition read_r1_response (timeout_val : Z) : M (machine D) Z :=
  let! '(res, _) := poll_byte timeout_val in ret res.

(** [n] bytes into [buffer], and [n] bytes dropped. *)
Definition read_into {T} `{ByteStore T} (m : T) (buffer n : Z) : M (machine D) T :=
  for_loop (Z.to_nat n) 0 (fun i m =>
    let! b := spi_read_byte in
    let! '(_, m) := within m (store8 (buffer + i) b) in
    do! spi_send_byte 0xFF in
    ret m) m.
Definition discard (n : Z) : M (machine D) unit :=
  for_loop (Z.to_nat n) 0 (fun _ _ => let! _ := pull in ret tt) tt.

Definition read_bytes {T} `{ByteStore T} (m : T) (buffer count : Z) : M (machine D) T :=
  read_into m buffer (u8 count).

Definition read_data_block {T} `{ByteStore T} (m : T) (buffer timeout_val : Z)
  : M (machine D) (bool * T) :=
  let! '(token, timeout) := poll_byte timeout_val in
  if timeout =? 0 then ret (false, m) else
  if negb (token =? 0xFE) then ret (false, m) else
  let! m := read_into m buffer SD_BLOCK_SIZE in
  let! crc_low := pull in
  let! crc_high := pull in
  ret (true, m).

(** The ACMD41 loop: [None] when CMD55 is refused, else the timeout left. *)
Definition acmd41_loop (acmd41_timeout : Z) : M (machine D) (option Z) :=
  while_loop fuel (fun timeout =>
    do! SDSendCommand 0x77 0x00000000 0x65 in
    let! cmd55_r1 := read_r1_response 0xFF in
    do! deassertCS in
    if negb (cmd55_r1 =? 0x01) then ret (inr None) else
    do! SDSendCommand 0x69 0x40000000 0x77 in
    let! acmd41_r1 := read_r1_response 0xFF in
    do! deassertCS in
    if acmd41_r1 =? 0x00 then ret (inr (Some timeout)) else
    let timeout := u16 (timeout - 1) in
    let! _ := usleep 1000 in
    if 0 <? timeout then ret (inl timeout) else ret (inr (Some timeout))) acmd41_timeout.

(** CMD8: whether the card is a version 2 card that accepts the voltage. *)
Definition check_version : M (machine D) bool :=
  do! SDSendCommand 0x48 0x000001AA 0x87 in
  let! CMD8_r1 := read_r1_response 0xFF in
  if CMD8_r1 =? 0x1 then
    let! r7_data := read_bytes (replicate 4 0) 0 4 in
    do! deassertCS in
    let! r2 := on r7_data (load8 2) in
    let! r3 := on r7_data (load8 3) in
    ret ((r2 =? 0x01) && (r3 =? 0xAA))
  else if CMD8_r1 =? 0x05 then
    do! uartTxStr (c_string ("Unsupported card" ++ crlf)) 0 in
    do! deassertCS in
    ret false
  else
    do! deassertCS in
    ret false.

(** CMD58: whether the card is a high capacity card; CS stays asserted when
    it is. *)
Definition check_capacity : M (machine D) bool :=
  do! SDSendCommand 0x7A 0x00000000 0x01 in
  let! cmd58_r1 := read_r1_response 0xFF in
  if cmd58_r1 =? 0x00 then
    let! ocr_data := read_into (replicate 4 0) 0 4 in
    let! o := on ocr_data (load8 0) in
    if Z.land o 0x40 =? 0 then do! deassertCS in ret false else ret true
  else
    do! deassertCS in
    ret false.

Definition SDInit : M (machine D) bool :=
  let! _ := usleep 10000 in
  do! reg_or sio_OUT_SET (Z.shiftl 1 9) in
  do! for_loop 10 0 (fun _ _ => spi_send_byte 0xFF) tt in
  do! SDSendCommand 0x40 0x00000000 0x95 in
  let! cmd0_r1 := read_r1_response 0xFF in
  if negb (cmd0_r1 =? 0x01) then do! deassertCS in ret false else
  let! v2 := check_version in
  if negb v2 then ret false else
  let! r := acmd41_loop 5000 in
  match r with
  | None => ret false
  | Some acmd41_timeout =>
      if acmd41_timeout =? 0 then ret false else
      let! hc := check_capacity in
      if negb hc then ret false else
      do! spi_set_speed 8 in
      ret true
  end.

(** CMD17 and then [read], releasing the card on every path. *)
Definition read_command {T} (m : T) (block_address : Z) (read : M (machine D) (bool * T))
  : M (machine D) (bool * T) :=
  do! SDSendCommand 0x51 block_address 0x01 in
  let! cmd17_r1 := read_r1_response 0xFF in
  if negb (cmd17_r1 =? 0x00) then do! deassertCS in ret (false, m) else
  let! '(ok, m) := read in
  if negb ok then do! deassertCS in ret (false, m) else
  do! deassertCS in
  ret (true, m).

Definition sdReadBlock {T} `{ByteStore T} (m : T) (block_address data_buffer : Z)
  : M (machine D) (bool * T) :=
  read_command m block_address (read_data_block m data_buffer 0xFFFF).

Definition sdWaitForNotBusy (timeout_ms : Z) : M (machine D) bool :=
  while_loop fuel (fun timeout_counter =>
    let! b := spi_read_byte in
    if negb (b =? 0x00) then ret (inr true) else
    let timeout_counter := u32 (timeout_counter + 1) in
    if 1000000 <? timeout_counter then ret (inr false) else ret (inl timeout_counter)) 0.

Definition sdWriteBlock {T} `{ByteStore T} (m : T) (block_address data_buffer : Z)
  : M (machine D) bool :=
  do! SDSendCommand 0x58 block_address 0x01 in
  let! cmd24_r1 := read_r1_response 0xFF in
  if negb (cmd24_r1 =? 0x00) then do! deassertCS in ret false else
  do! spi_send_byte 0xFE in
  do! for_loop (Z.to_nat SD_BLOCK_SIZE) 0 (fun i _ =>
        let! b := on m (load8 (data_buffer + i)) in
        spi_send_byte b) tt in
  do! spi_send_byte 0xFF in
  do! spi_send_byte 0xFF in
  let! r := for_exit 1000 0 (fun _ _ =>
        let! data_response := spi_read_byte in
        if negb (data_response =? 0xFF) then ret (inr data_response)
        else ret (inl data_response)) 0 in
  let data_response := match r with inl b | inr b => b end in
  if negb (Z.land data_response 0x1F =? 0x05) then do! deassertCS in ret false else
  let! ok := sdWaitForNotBusy 500 in
  if negb ok then do! deassertCS in ret false else
  do! deassertCS in
  ret true.

Definition SDShutdown : M (machine D) bool :=
  do! SDSendCommand 0x40 0x00000000 0x95 in
  let! cmd0_r1 := read_r1_response 0xFF in
  if cmd0_r1 =? 0x01 then do! deassertCS in ret true else ret false.

Definition read_data_block_partial {T} `{ByteStore T} (m : T)
  (start_offset buffer count timeout_val : Z) : M (machine D) (bool * T) :=
  let! '(token, timeout) := poll_byte timeout_val in
  if (timeout =? 0) || negb (token =? 0xFE) then ret (false, m) else
  do! discard (u16 start_offset) in
  let! m := read_into m buffer (u16 count) in
  do! discard (u16 ((SD_BLOCK_SIZE - u16 start_offset - u16 count) + 2)) in
  ret (true, m).

Definition sdReadPartialBlock {T} `{ByteStore T} (m : T) (block_number offset buffer length : Z)
  : M (machine D) (bool * T) :=
  read_command m block_number (read_data_block_partial m offset buffer length 0xFFFF).
End SD.

(** ** The delay line *)

Section Line.
Context {D C : Type} `{HW : Hardware D} `{SL : SpiSlave C} `{F : Fuel} `{V : View D C}.
Context `{SP : !SpiLaws D C} `{GL : !GpioLaws D C}.
Context (enough : (spi_latency D C < fuel)%nat).
Implicit Types (s : machine D) (c : C) (l : list Z).

(** Only the receive FIFO and the card have changed. *)
Definition spi_only s s' : Prop :=
  ram s' = ram s /\ exists rx c, view (dev s') = set_rx rx (set_card c (view (dev s))).

(** The receive FIFO is full and [c] is the card. *)
Definition line_full s (rx : list Z) c : Prop :=
  spi_on (view (dev s)) /\ length rx = 8%nat /\ io_rx (view (dev s)) = rx /\
  io_card (view (dev s)) = c.

(** As long as 0xFF is sent for each byte read, the next bytes to be read are
    [l], the first eight being in the FIFO; the card is in state [c] when
    all of them have been clocked in. *)
Definition feed s l c : Prop :=
  spi_on (view (dev s)) /\ (8 <= length l)%nat /\ io_rx (view (dev s)) = take 8 l /\
  exchange_all (repeat 255 (length l - 8)) (io_card (view (dev s))) = (drop 8 l, c).

(** Between the read and the send. *)
Definition feed_mid s l c : Prop :=
  spi_on (view (dev s)) /\ (8 <= length l)%nat /\ io_rx (view (dev s)) = take 7 l /\
  exchange_all (repeat 255 (length l - 7)) (io_card (view (dev s))) = (drop 7 l, c).

Lemma spi_only_refl s : spi_only s s.
Proof. split; [done|]. exists (io_rx (view (dev s))), (io_card (view (dev s))). by destruct (view (dev s)). Qed.

Lemma spi_only_trans s1 s2 s3 : spi_only s1 s2 -> spi_only s2 s3 -> spi_only s1 s3.
Proof.
  intros [R1 (rx & c & E1)] [R2 (rx' & c' & E2)]. split; [congruence|].
  exists rx', c'. by rewrite E2, E1.
Qed.

Lemma line_full_feed s rx c : line_full s rx c <-> feed s rx c /\ length rx = 8%nat.
Proof.
  clear enough. unfold line_full, feed. split.
  - intros (Hon & Hl & Hrx & Hc). split; [|done]. rewrite Hl, Nat.sub_diag. cbn [repeat exchange_all].
    rewrite Hc, take_ge, drop_ge by lia. done.
  - intros [(Hon & _ & Hrx & He) Hl]. rewrite Hl, Nat.sub_diag in He. cbn [repeat exchange_all] in He.
    rewrite take_ge in Hrx by lia. by simplify_eq.
Qed.

Lemma feed_read_ok b l c s (Q : Z -> machine D -> Prop) :
  feed s (b :: l) c -> (8 <= length l)%nat ->
  (forall s', feed_mid s' l c -> spi_only s s' -> Q b s') -> wp spi_read_byte Q s.
Proof.
  intros (Hon & Hl & Hrx & He) Hl8 HQ.
  apply (spi_read_ok enough b (take 7 l)); [by rewrite Hrx|].
  intros s' [R E]. apply HQ.
  - split; [by rewrite E|]. split; [done|]. rewrite E. split; [done|]. exact He.
  - split; [done|]. exists (take 7 l), (io_card (view (dev s))). rewrite E. by destruct (view (dev s)).
Qed.

Lemma feed_send_ok l c s (Q : unit -> machine D -> Prop) :
  feed_mid s l c -> (forall s', feed s' l c -> spi_only s s' -> Q tt s') ->
  wp (spi_send_byte 0xFF) Q s.
Proof.
  intros (Hon & Hl & Hrx & He) HQ. apply (spi_send_ok enough); [done|]. intros s' [R E].
  change (u8 0xFF) with 255 in E. unfold spi_exchange in E.
  replace (length l - 7)%nat with (S (length l - 8)) in He by lia. cbn [repeat exchange_all] in He.
  destruct (xfer 255 (io_card (view (dev s)))) as [r c1].
  destruct (exchange_all (repeat 255 (length l - 8)) c1) as [rs c2] eqn:E2.
  injection He as Hd ->.
  rewrite Hrx in E. rewrite length_take, Nat.min_l in E by lia.
  change ((7 <? spi_fifo_depth)%nat) with true in E. cbv iota in E. apply HQ.
  - assert (take 8 l = take 7 l ++ [r]) as Ht.
    { rewrite <- (take_drop 7 l) at 1. rewrite <- Hd, take_app, length_take, Nat.min_l by lia.
      rewrite take_take. done. }
    assert (drop 8 l = rs) as Hd8.
    { assert (drop 8 l = drop 1 (drop 7 l)) as -> by (by rewrite drop_drop). by rewrite <- Hd. }
    split; [by rewrite E|]. split; [done|]. rewrite E. split; [by rewrite Ht|].
    cbn [io_card set_rx set_card]. by rewrite Hd8.
  - split; [done|]. by eexists _, _.
Qed.

Lemma pull_ok b l c s (Q : Z -> machine D -> Prop) :
  feed s (b :: l) c -> (8 <= length l)%nat ->
  (forall s', feed s' l c -> spi_only s s' -> Q b s') -> wp pull Q s.
Proof.
  intros Hf Hl HQ. unfold pull. wp_step. eapply feed_read_ok; [done|done|]. intros s1 H1 S1.
  wp_step. eapply feed_send_ok; [done|]. intros s2 H2 S2. wp_step.
  apply HQ; [done|by eapply spi_only_trans].
Qed.

(** Polling skips idle bytes. *)
Lemma poll_byte_ok timeout n b l c s (Q : Z * Z -> machine D -> Prop) :
  feed s (repeat 255 n ++ b :: l) c -> b <> 255 -> (8 <= length l)%nat ->
  Z.of_nat n + 1 <= timeout < 65536 -> (n < fuel)%nat ->
  (forall s', feed s' l c -> spi_only s s' -> Q (b, timeout - Z.of_nat n - 1) s') ->
  wp (poll_byte timeout) Q s.
Proof.
  intros Hf Hb Hl Ht Hn HQ. unfold poll_byte. rewrite u16_small by (unfold is_u16; lia).
  eapply (wp_while (fun k t s' => feed s' (repeat 255 k ++ b :: l) c /\ spi_only s s' /\
            t - Z.of_nat k = timeout - Z.of_nat n /\ Z.of_nat k + 1 <= t < 65536)); [|done|].
  2: { split; [done|]. split; [apply spi_only_refl|]. lia. }
  intros k t s1 (H1 & S1 & Hk & Hkt). wp_step.
  destruct k as [|k]; cbn [repeat app] in H1.
  - eapply pull_ok; [done|done|]. intros s2 H2 S2. rewrite u16_small by (unfold is_u16; lia).
    destruct (Z.eqb_spec b 255); [done|]. cbn [andb]. wp_step.
    replace (t - 1) with (timeout - Z.of_nat n - 1) by lia.
    apply HQ; [done|by eapply spi_only_trans].
  - eapply pull_ok; [done|rewrite length_app; cbn; lia|]. intros s2 H2 S2.
    rewrite u16_small by (unfold is_u16; lia). cbn [Z.eqb Pos.eqb andb].
    destruct (Z.ltb_spec 0 (t - 1)); [|lia]. wp_step.
    exists k. split; [lia|]. split; [done|]. split; [by eapply spi_only_trans|]. lia.
Qed.

Lemma read_r1_ok timeout n b l c s (Q : Z -> machine D -> Prop) :
  feed s (repeat 255 n ++ b :: l) c -> b <> 255 -> (8 <= length l)%nat ->
  Z.of_nat n + 1 <= timeout < 65536 -> (n < fuel)%nat ->
  (forall s', feed s' l c -> spi_only s s' -> Q b s') -> wp (read_r1_response timeout) Q s.
Proof.
  intros. unfold read_r1_response. wp_step. eapply poll_byte_ok; [done..|]. intros s' H' S'.
  wp_step. eauto.
Qed.

(** Reading a run of bytes into a buffer. *)
Lemma read_into_ok {T} `{ByteStore T} (m : T) buffer k l c s (Q : T -> machine D -> Prop) :
  feed s (k ++ l) c -> (8 <= length l)%nat -> Forall is_u8 k ->
  mapped m buffer (buffer + Z.of_nat (length k)) ->
  (forall m' s', writes m buffer k m' -> feed s' l c -> spi_only s s' -> Q m' s') ->
  wp (read_into m buffer (Z.of_nat (length k))) Q s.
Proof.
  intros Hf Hl Hu Hm HQ. unfold read_into. rewrite Nat2Z.id.
  eapply wpg_mono.
  - apply (wpg_for False (fun i m' s' => 0 <= i /\ spi_only s s' /\
      writes m buffer (take (Z.to_nat i) k) m' /\ feed s' (drop (Z.to_nat i) k ++ l) c)).
    + split; [done|]. split; [apply spi_only_refl|]. by split; [apply writes_nil|].
    + intros i m1 s1 Hi (Hi0 & S1 & W1 & F1).
      destruct (lookup_lt_is_Some_2 k (Z.to_nat i)) as [b Eb]; [lia|].
      rewrite (drop_S _ _ _ Eb) in F1. cbn [app] in F1.
      wp_step. eapply feed_read_ok; [done|rewrite length_app; lia|]. intros s2 F2 S2.
      wp_steps. eapply store8_writes; [exact W1| |exact Hm| |].
      * rewrite length_take, Nat.min_l by lia. lia.
      * lia.
      * intros m2 W2. wp_steps. eapply feed_send_ok; [done|]. intros s3 F3 S3. wp_step.
        split; [lia|]. split; [by do 2 (eapply spi_only_trans; [done|])|].
        replace (Z.to_nat (i + 1)) with (S (Z.to_nat i)) by lia.
        rewrite (take_S_r _ _ _ Eb). rewrite u8_small in W2; [done|].
        rewrite Forall_lookup in Hu. eauto.
  - intros m' s' (_ & S' & W' & F'). rewrite Z.add_0_l, Nat2Z.id in W', F'.
    rewrite take_ge in W' by lia. rewrite drop_ge in F' by lia. by apply HQ.
Qed.

Lemma discard_ok k l c s (Q : unit -> machine D -> Prop) :
  feed s (k ++ l) c -> (8 <= length l)%nat ->
  (forall s', feed s' l c -> spi_only s s' -> Q tt s') ->
  wp (discard (Z.of_nat (length k))) Q s.
Proof.
  intros Hf Hl HQ. unfold discard. rewrite Nat2Z.id. eapply wpg_mono.
  - apply (wpg_for False (fun i (_ : unit) s' => 0 <= i /\ spi_only s s' /\ feed s' (drop (Z.to_nat i) k ++ l) c)).
    + split; [done|]. by split; [apply spi_only_refl|].
    + intros i [] s1 Hi (Hi0 & S1 & F1).
      destruct (lookup_lt_is_Some_2 k (Z.to_nat i)) as [b Eb]; [lia|].
      rewrite (drop_S _ _ _ Eb) in F1. cbn [app] in F1.
      wp_step. eapply pull_ok; [done|rewrite length_app; lia|]. intros s2 F2 S2. wp_step.
      split; [lia|]. split; [by eapply spi_only_trans|].
      by replace (Z.to_nat (i + 1)) with (S (Z.to_nat i)) by lia.
  - intros [] s' (_ & S' & F'). rewrite Z.add_0_l, Nat2Z.id in F'. rewrite drop_ge in F' by lia. by apply HQ.
Qed.

(** With the FIFO full, a byte sent reaches the card and its answer is lost. *)
Lemma send_lost_ok b rx c s (Q : unit -> machine D -> Prop) :
  line_full s rx c ->
  (forall s', line_full s' rx (snd (xfer (u8 b) c)) -> spi_only s s' -> Q tt s') ->
  wp (spi_send_byte b) Q s.
Proof.
  intros (Hon & Hl & Hrx & Hc) HQ. apply (spi_send_ok enough); [done|]. intros s' [R E].
  unfold spi_exchange in E. rewrite Hrx, Hl, Hc in E.
  change ((8 <? spi_fifo_depth)%nat) with false in E. cbv iota in E.
  destruct (xfer (u8 b) c) as [r c1]. cbn [snd] in *. apply HQ.
  - split; [by rewrite E|]. split; [done|]. rewrite E. done.
  - split; [done|]. by eexists _, _.
Qed.

Lemma cs_step_ok (b : bool) s (Q : unit -> machine D -> Prop) :
  (forall s', io_step (fun v => set_card (select b (io_card v)) v) s s' -> Q tt s') ->
  wp (reg_or (if b then sio_OUT_CLR else sio_OUT_SET) (Z.shiftl 1 9)) Q s.
Proof.
  clear enough. intros HQ. unfold reg_or. wp_step. apply reg_read_ok.
  destruct (gpio_read D C (if b then sio_OUT_CLR else sio_OUT_SET) s) as [R1 E1]; [destruct b; auto|].
  destruct (hw_read _ s) as [v s1]. cbn [snd] in *. apply reg_write_ok.
  set (x := u32 (Z.lor (u32 v) (Z.shiftl 1 9))).
  assert (bit_set x 9 = true) as Hx.
  { rewrite bit_set_testbit by lia. subst x. unfold u32 at 1. change 4294967296 with (2 ^ 32).
    rewrite Z.mod_pow2_bits_low, Z.lor_spec by lia. by rewrite orb_true_r. }
  apply HQ. unfold io_step. rewrite <- R1, <- E1.
  destruct b; [by apply (gpio_clr D C)|by apply (gpio_set D C)].
Qed.

Lemma cs_ok (b : bool) rx c s (Q : unit -> machine D -> Prop) :
  line_full s rx c ->
  (forall s', line_full s' rx (select b c) -> spi_only s s' -> Q tt s') ->
  wp (reg_or (if b then sio_OUT_CLR else sio_OUT_SET) (Z.shiftl 1 9)) Q s.
Proof.
  intros (Hon & Hl & Hrx & Hc) HQ. apply cs_step_ok. intros s' [R E]. rewrite Hc in E. apply HQ.
  - split; [by rewrite E|]. split; [done|]. rewrite E. done.
  - split; [done|]. exists rx, (select b c). rewrite E, <- Hrx. by destruct (view (dev s)).
Qed.
End Line.

(** ** The card's side of the protocol *)

Section Protocol.
Context {C : Type} `{SL : SpiSlave C}.
Implicit Types (c : C) (l : list Z).

(** The six bytes of a command. *)
Definition frame (command args crc : Z) : list Z :=
  [command; Z.land (Z.shiftr args 24) 0xFF; Z.land (Z.shiftr args 16) 0xFF;
   Z.land (Z.shiftr args 8) 0xFF; Z.land args 0xFF; crc].

(** Clocked with 0xFF, the card answers [l] and is then in state [c']. *)
Definition answers c l c' : Prop := exchange_all (repeat 255 (length l)) c = (l, c').

(** Selected and given a command, the card answers [l] after one to eight
    idle bytes (the command response time N_CR). *)
Definition reply c (command args crc : Z) l c' : Prop :=
  exists ncr, (1 <= ncr <= 8)%nat /\
    answers (snd (exchange_all (frame command args crc) (select true c))) (repeat 255 ncr ++ l) c'.

Lemma exchange_all_app l1 l2 c :
  exchange_all (l1 ++ l2) c =
  let '(r1, c1) := exchange_all l1 c in let '(r2, c2) := exchange_all l2 c1 in (r1 ++ r2, c2).
Proof.
  revert c. induction l1 as [|b l1 IH]; intros c; cbn; [by destruct (exchange_all l2 c)|].
  destruct (xfer b c) as [r c1]. rewrite IH. destruct (exchange_all l1 c1) as [r1 c2].
  by destruct (exchange_all l2 c2).
Qed.

Lemma exchange_all_state b l c :
  snd (exchange_all (b :: l) c) = snd (exchange_all l (snd (xfer b c))).
Proof. cbn. destruct (xfer b c) as [r c1]. cbn. by destruct (exchange_all l c1). Qed.

Lemma answers_app c1 l1 c2 l2 c3 : answers c1 l1 c2 -> answers c2 l2 c3 -> answers c1 (l1 ++ l2) c3.
Proof. unfold answers. rewrite length_app, repeat_app, exchange_all_app. by intros -> ->. Qed.

Lemma answers_cons c b l c' :
  answers c (b :: l) c' <-> xfer 255 c = (b, snd (xfer 255 c)) /\ answers (snd (xfer 255 c)) l c'.
Proof.
  unfold answers. cbn [length repeat exchange_all]. destruct (xfer 255 c) as [r c1]. cbn [snd].
  destruct (exchange_all (repeat 255 (length l)) c1) as [rs c2]. split.
  - by intros [= -> -> ->].
  - by intros [[= ->] [= -> ->]].
Qed.
End Protocol.

(** An initialised SDHC card.  [card_idle] means that no command is in
    progress; [card_data] is what the card stores, block by block. *)
Class SdCard (C : Type) `{SpiSlave C} := {
  card_idle : C -> Prop;
  card_data : C -> Z -> option (list Z);
  card_block : forall c a data, card_idle c -> card_data c a = Some data ->
    length data = Z.to_nat SD_BLOCK_SIZE /\ Forall is_u8 data;
  card_clock : forall c, card_idle c ->
    fst (xfer 255 c) = 255 /\ card_idle (snd (xfer 255 c)) /\
    card_data (snd (xfer 255 c)) = card_data c;
  card_deselect : forall c, card_idle c ->
    card_idle (select false c) /\ card_data (select false c) = card_data c;
  card_read : forall c a data, card_idle c -> is_u32 a -> card_data c a = Some data ->
    exists gap crc c', Z.of_nat gap < 65000 /\ length crc = 2%nat /\
      reply c 0x51 a 0x01 (0x00 :: repeat 255 gap ++ 0xFE :: data ++ crc) c' /\
      card_idle c' /\ card_data c' = card_data c;
  card_refuse : forall c a, card_idle c -> is_u32 a -> card_data c a = None ->
    exists r c', r <> 0x00 /\ r <> 0xFF /\ reply c 0x51 a 0x01 [r] c' /\
      card_idle c' /\ card_data c' = card_data c;
}.

Section Card.
Context {D C : Type} `{HW : Hardware D} `{SL : SpiSlave C} `{F : Fuel} `{V : View D C}.
Context `{SP : !SpiLaws D C} `{GL : !GpioLaws D C} `{SC : !SdCard C}.
Context (enough : (spi_latency D C < fuel)%nat) (enough_polls : 65536 < Z.of_nat fuel).
Implicit Types (s : machine D) (c : C) (l : list Z).

(** Between two operations of the driver the FIFO is full of idle bytes. *)
Definition idle_line : list Z := repeat 255 8.

Definition sd_ready s : Prop :=
  spi_on (view (dev s)) /\ io_rx (view (dev s)) = idle_line /\ card_idle (io_card (view (dev s))).

Lemma sd_ready_line s : sd_ready s <-> exists c, line_full s idle_line c /\ card_idle c.
Proof.
  unfold sd_ready, line_full. split.
  - intros (H1 & H2 & H3). by exists (io_card (view (dev s))).
  - by intros (c & (H1 & _ & H2 & <-) & H3).
Qed.

(** States in which the card only answers idle bytes, selected or not. *)
Definition quiet (I : C -> Prop) : Prop :=
  forall c, I c -> fst (xfer 255 c) = 255 /\ I (snd (xfer 255 c)) /\ I (select false c).

Lemma quiet_answers (I : C -> Prop) n c :
  quiet I -> I c -> exists c', answers c (repeat 255 n) c' /\ I c'.
Proof.
  intros HI. revert c. induction n as [|n IH]; intros c Hc; [by exists c|].
  destruct (HI c Hc) as (Hr & Hi & _). destruct (IH _ Hi) as (c' & Ha & Hi').
  exists c'. split; [|done]. cbn [repeat]. apply answers_cons. split; [|done].
  destruct (xfer 255 c); cbn in *; congruence.
Qed.

(** The card is idle and stores [d]. *)
Definition holds (d : Z -> option (list Z)) c : Prop := card_idle c /\ card_data c = d.

Lemma holds_quiet d : quiet (holds d).
Proof.
  intros c [Hc <-]. destruct (card_clock c Hc) as (? & ? & ?). destruct (card_deselect c Hc).
  unfold holds. split_and!; done || congruence.
Qed.

Lemma SDSendCommand_ok command args crc rx c s (Q : unit -> machine D -> Prop) :
  is_u8 command -> is_u8 crc -> line_full s rx c ->
  (forall s', line_full s' rx (snd (xfer 255 (snd (exchange_all (frame command args crc) (select true c))))) ->
     spi_only s s' -> Q tt s') ->
  wp (SDSendCommand command args crc) Q s.
Proof.
  intros Hcmd Hcrc Hl HQ. unfold SDSendCommand.
  assert (forall x, u8 (Z.land x 255) = Z.land x 255) as Hand.
  { intros x. apply u8_small. change 255 with (Z.ones 8). rewrite Z.land_ones by lia.
    unfold is_u8. apply Z.mod_pos_bound. lia. }
  wp_step. eapply (cs_ok true); [done|]. intros s0 L0 S0.
  do 6 (wp_step; eapply (send_lost_ok enough); [done|]; intros ? ? ?).
  eapply (send_lost_ok enough); [done|]. intros s7 L7 S7.
  rewrite !Hand, (u8_small command), (u8_small crc) in * by done. change (u8 255) with 255 in *.
  apply HQ.
  - replace (snd (exchange_all (frame command args crc) (select true c))) with
      (snd (xfer crc (snd (xfer (Z.land args 255) (snd (xfer (Z.land (Z.shiftr args 8) 255)
        (snd (xfer (Z.land (Z.shiftr args 16) 255) (snd (xfer (Z.land (Z.shiftr args 24) 255)
          (snd (xfer command (select true c))))))))))))); [done|].
    unfold frame. by rewrite !exchange_all_state.
  - repeat (eapply spi_only_trans; [eassumption|]). apply spi_only_refl.
Qed.

Lemma deassertCS_ok (I : C -> Prop) rx c s (Q : unit -> machine D -> Prop) :
  quiet I -> line_full s rx c -> I c ->
  (forall s' c', line_full s' rx c' -> I c' -> spi_only s s' -> Q tt s') ->
  wp deassertCS Q s.
Proof.
  intros HI Hl Hc HQ. unfold deassertCS. wp_step. eapply (cs_ok false); [done|].
  intros s1 L1 S1. eapply (send_lost_ok enough); [done|]. change (u8 0xFF) with 255. intros s2 L2 S2.
  destruct (HI c Hc) as (_ & _ & Hd). destruct (HI _ Hd) as (_ & Hx & _).
  eapply HQ; [done|done|by eapply spi_only_trans].
Qed.

(** A command whose answer starts with the R1 response [r]. *)
Lemma command_ok (I : C -> Prop) command args crc r l c c' s (Q : Z -> machine D -> Prop) :
  is_u8 command -> is_u8 crc -> quiet I -> line_full s idle_line c ->
  reply c command args crc (r :: l) c' -> I c' -> r <> 255 ->
  (forall s' c2, feed s' (l ++ idle_line) c2 -> I c2 -> spi_only s s' -> Q r s') ->
  wp (do! SDSendCommand command args crc in read_r1_response 0xFF) Q s.
Proof.
  intros Hcmd Hcrc HI Hl (ncr & Hncr & Ha) Hc' Hr HQ. wp_step.
  apply (SDSendCommand_ok command args crc idle_line c); [done|done|done|]. intros s1 L1 S1.
  set (c0 := snd (exchange_all (frame command args crc) (select true c))) in *.
  destruct ncr as [|n]; [lia|]. cbn [repeat app] in Ha. apply answers_cons in Ha as [_ Ha].
  destruct (quiet_answers I 8 c' HI Hc') as (c2 & Ha2 & Hc2).
  pose proof (answers_app _ _ _ _ _ Ha Ha2) as Hall. unfold answers in Hall.
  apply (read_r1_ok enough 0xFF (8 + n) r (l ++ idle_line) c2); [|done| |lia|lia|].
  - destruct L1 as (Hon & _ & Hrx & Hcard). split; [done|].
    assert (repeat 255 (8 + n) ++ r :: l ++ idle_line =
      idle_line ++ (repeat 255 n ++ r :: l) ++ repeat 255 8) as ->.
    { rewrite repeat_app, <- !app_assoc. done. }
    split; [rewrite !length_app; cbn; lia|].
    rewrite Hrx, Hcard. split; [done|].
    change (drop 8 _) with ((repeat 255 n ++ r :: l) ++ repeat 255 8).
    etransitivity; [|exact Hall]. do 2 f_equal. rewrite !length_app. cbn. lia.
  - rewrite length_app. cbn. lia.
  - intros s2 F2 S2. apply (HQ s2 c2); [done|done|by eapply spi_only_trans].
Qed.

(** [let! _ := a in let! r := b in k r], read as one computation before [k]. *)
Lemma wp_bind2 {St A B R} h (a : M St A) (b : M St B) (k : B -> M St R) Q (st : St) :
  wpg h (do! a in b) (fun r st' => wpg h (k r) Q st') st -> wpg h (do! a in let! r := b in k r) Q st.
Proof. unfold wpg, bind. destruct (a st) as [[? st1]| |]; [|done..]. by destruct (b st1) as [[? ?]| |]. Qed.

(** Reading a block: the whole of it, or a part. *)
Lemma wait_block_ok data crc gap c s (Q : Z * Z -> machine D -> Prop) :
  Z.of_nat gap < 65000 -> length crc = 2%nat ->
  feed s ((repeat 255 gap ++ 0xFE :: data ++ crc) ++ idle_line) c ->
  (forall s' t, 0 < t -> feed s' (data ++ crc ++ idle_line) c -> spi_only s s' -> Q (0xFE, t) s') ->
  wp (poll_byte 0xFFFF) Q s.
Proof.
  intros Hg Hc Hf HQ.
  apply (poll_byte_ok enough 0xFFFF gap 0xFE (data ++ crc ++ idle_line) c); [|done| |lia|lia|].
  - rewrite <- app_assoc in Hf. cbn [app] in Hf. by rewrite <- app_assoc in Hf.
  - rewrite !length_app. cbn. lia.
  - intros s' F' S'. apply HQ; [lia|done|done].
Qed.

Lemma read_data_block_ok {T} `{ByteStore T} (m : T) buffer data crc gap c s (Q : bool * T -> machine D -> Prop) :
  Z.of_nat gap < 65000 -> length crc = 2%nat ->
  length data = Z.to_nat SD_BLOCK_SIZE -> Forall is_u8 data ->
  mapped m buffer (buffer + SD_BLOCK_SIZE) ->
  feed s ((repeat 255 gap ++ 0xFE :: data ++ crc) ++ idle_line) c ->
  (forall m' s', writes m buffer data m' -> line_full s' idle_line c -> spi_only s s' -> Q (true, m') s') ->
  wp (read_data_block m buffer 0xFFFF) Q s.
Proof.
  intros Hg Hc Hd Hu Hm Hf HQ. unfold read_data_block. wp_step.
  eapply wait_block_ok; [done|done|done|]. intros s1 t Ht F1 S1.
  destruct (Z.eqb_spec t 0); [lia|]. cbn [Z.eqb Pos.eqb negb]. wp_step.
  assert (SD_BLOCK_SIZE = Z.of_nat (length data)) as E by (rewrite Hd; done). rewrite E in Hm |- *.
  eapply (read_into_ok enough); [done|rewrite length_app; cbn; lia|done|done|].
  intros m2 s2 W2 F2 S2. destruct crc as [|x [|y [|? ?]]]; try done. cbn [app] in F2.
  wp_step. eapply (pull_ok enough); [exact F2|cbn; lia|]. intros s3 F3 S3.
  wp_step. eapply (pull_ok enough); [exact F3|cbn; lia|]. intros s4 F4 S4. wp_step.
  apply HQ; [done| |by repeat (eapply spi_only_trans; [eassumption|]); apply spi_only_refl].
  by apply line_full_feed.
Qed.

(** A part of the block: what comes before and after is read and dropped. *)
Lemma read_data_block_partial_ok {T} `{ByteStore T} (m : T) offset buffer n data crc gap c s
    (Q : bool * T -> machine D -> Prop) :
  Z.of_nat gap < 65000 -> length crc = 2%nat ->
  length data = Z.to_nat SD_BLOCK_SIZE -> Forall is_u8 data ->
  0 <= offset -> 0 <= n -> offset + n <= SD_BLOCK_SIZE -> mapped m buffer (buffer + n) ->
  feed s ((repeat 255 gap ++ 0xFE :: data ++ crc) ++ idle_line) c ->
  (forall m' s', writes m buffer (take (Z.to_nat n) (drop (Z.to_nat offset) data)) m' ->
     line_full s' idle_line c -> spi_only s s' -> Q (true, m') s') ->
  wp (read_data_block_partial m offset buffer n 0xFFFF) Q s.
Proof.
  unfold SD_BLOCK_SIZE. intros Hg Hc Hd Hu Ho Hn Hon Hm Hf HQ. unfold read_data_block_partial. wp_step.
  eapply wait_block_ok; [done|done|done|]. intros s1 t Ht F1 S1.
  destruct (Z.eqb_spec t 0); [lia|]. cbn [Z.eqb Pos.eqb negb orb].
  rewrite !(u16_small offset), (u16_small n) by (unfold is_u16; lia). unfold SD_BLOCK_SIZE.
  rewrite (u16_small (512 - _ - _ + 2)) by (unfold is_u16; lia).
  set (pre := take (Z.to_nat offset) data). set (mid := take (Z.to_nat n) (drop (Z.to_nat offset) data)) in *.
  set (post := drop (Z.to_nat n) (drop (Z.to_nat offset) data) ++ crc).
  assert (data ++ crc ++ idle_line = pre ++ mid ++ post ++ idle_line) as E.
  { subst pre mid post. by rewrite <- !app_assoc, (app_assoc (take (Z.to_nat n) _)), take_drop,
      (app_assoc (take _ _)), take_drop. }
  assert (offset = Z.of_nat (length pre)) as Eo by (subst pre; rewrite length_take; lia).
  assert (n = Z.of_nat (length mid)) as En by (subst mid; rewrite length_take, length_drop; lia).
  assert (512 - offset - n + 2 = Z.of_nat (length post)) as Ep.
  { subst post. rewrite length_app, !length_drop. lia. }
  rewrite E in F1. rewrite Ep. rewrite Eo at 1. rewrite En in Hm |- *. wp_step.
  eapply (discard_ok enough); [exact F1|rewrite !length_app; cbn; lia|]. intros s2 F2 S2. wp_step.
  eapply (read_into_ok enough); [exact F2|rewrite length_app; cbn; lia| |exact Hm|].
  { subst mid. by apply Forall_take, Forall_drop. }
  intros m3 s3 W3 F3 S3. wp_step.
  eapply (discard_ok enough); [exact F3|cbn; lia|]. intros s4 F4 S4. wp_step.
  apply HQ; [done| |by repeat (eapply spi_only_trans; [eassumption|]); apply spi_only_refl].
  by apply line_full_feed.
Qed.

(** The driver between operations: idle line, idle card that stores [d]. *)
Definition sd_holds (d : Z -> option (list Z)) s : Prop :=
  exists c, line_full s idle_line c /\ holds d c.

Lemma sd_holds_ready d s : sd_holds d s <-> sd_ready s /\ card_data (io_card (view (dev s))) = d.
Proof.
  unfold sd_holds, sd_ready, line_full, holds. split.
  - by intros (c & (H1 & _ & H2 & <-) & H3 & H4).
  - intros [(H1 & H2 & H3) H4]. by exists (io_card (view (dev s))).
Qed.

Lemma read_command_ok {T} (m : T) a d data (read : M (machine D) (bool * T)) (R : T -> Prop) s :
  sd_holds d s -> is_u32 a -> d a = Some data ->
  (forall gap crc c s1, Z.of_nat gap < 65000 -> length crc = 2%nat ->
     length data = Z.to_nat SD_BLOCK_SIZE -> Forall is_u8 data ->
     feed s1 ((repeat 255 gap ++ 0xFE :: data ++ crc) ++ idle_line) c ->
     wp read (fun '(ok, m') s2 => ok = true /\ R m' /\ line_full s2 idle_line c /\ spi_only s1 s2) s1) ->
  wp (read_command m a read) (fun '(ok, m') s' => ok = true /\ R m' /\ sd_holds d s' /\ spi_only s s') s.
Proof.
  intros (c & Hl & Hi & <-) Ha Hd Hread. unfold read_command.
  destruct (card_read c a data Hi Ha Hd) as (gap & crc & c' & Hg & Hcrc & Hrep & Hi' & Hd').
  destruct (card_block c a data Hi Hd) as [Hlen Hu].
  apply wp_bind2. eapply (command_ok (holds (card_data c))); [split; lia|split; lia|apply holds_quiet|done|done|by split|lia|].
  intros s1 c2 F1 Hc2 S1. cbn [Z.eqb negb]. wp_step.
  eapply wpg_mono; [by eapply Hread|]. intros [ok m2] s2 (-> & HR & L2 & S2). cbn [negb].
  wp_step. eapply (deassertCS_ok (holds (card_data c))); [apply holds_quiet|done|done|].
  intros s3 c3 L3 Hc3 S3. wp_step. split; [done|]. split; [done|]. split; [by exists c3|].
  by repeat (eapply spi_only_trans; [eassumption|]); apply spi_only_refl.
Qed.

Lemma read_command_fails {T} (m : T) a d (read : M (machine D) (bool * T)) s :
  sd_holds d s -> is_u32 a -> d a = None ->
  wp (read_command m a read) (fun '(ok, m') s' => ok = false /\ m' = m /\ sd_holds d s' /\ spi_only s s') s.
Proof.
  intros (c & Hl & Hi & <-) Ha Hd. unfold read_command.
  destruct (card_refuse c a Hi Ha Hd) as (r & c' & Hr0 & Hr & Hrep & Hi' & Hd').
  apply wp_bind2. eapply (command_ok (holds (card_data c))); [split; lia|split; lia|apply holds_quiet|done|done|by split|done|].
  intros s1 c2 F1 Hc2 S1. destruct (Z.eqb_spec r 0); [done|]. cbn [negb].
  wp_step. eapply (deassertCS_ok (holds (card_data c))); [apply holds_quiet|by apply line_full_feed|done|].
  intros s3 c3 L3 Hc3 S3. wp_step. split; [done|]. split; [done|]. split; [by exists c3|].
  by repeat (eapply spi_only_trans; [eassumption|]); apply spi_only_refl.
Qed.

Lemma sdReadBlock_ok {T} `{ByteStore T} (m : T) block_address data_buffer d s :
  sd_holds d s -> is_u32 block_address -> mapped m data_buffer (data_buffer + SD_BLOCK_SIZE) ->
  wp (sdReadBlock m block_address data_buffer) (fun '(ok, m') s' =>
    match d block_address with
    | Some data => ok = true /\ writes m data_buffer data m'
    | None => ok = false /\ m' = m
    end /\ sd_holds d s' /\ spi_only s s') s.
Proof.
  intros Hs Ha Hm. unfold sdReadBlock. destruct (d block_address) as [data|] eqn:E.
  - eapply wpg_mono; [eapply (read_command_ok m _ d data _ (fun m' => writes m data_buffer data m')); [done..|]|].
    + intros gap crc c s1 Hg Hc Hl Hu F1.
      eapply (read_data_block_ok m); [done..|]. intros m' s' W L S. done.
    + intros [ok m'] s' (-> & W & Hs' & S'). done.
  - eapply wpg_mono; [by eapply (read_command_fails m _ d)|]. intros [ok m'] s' (-> & -> & Hs' & S'). done.
Qed.

(** C10: [sdReadBlock] on an idle card: if the card holds the block, its 512
    bytes end up in the buffer and nothing else changes there; if the card
    refuses the address, the call fails and the buffer is untouched.  Either
    way the card is released, the FIFO is full of idle bytes again and the
    card's contents are the same. *)
Theorem sdReadBlock_spec {T} `{ByteStore T} (m : T) block_address data_buffer d s :
  sd_holds d s -> is_u32 block_address -> mapped m data_buffer (data_buffer + SD_BLOCK_SIZE) ->
  wp (sdReadBlock m block_address data_buffer) (fun '(ok, m') s' =>
    match d block_address with
    | Some data => ok = true /\ writes m data_buffer data m'
    | None => ok = false /\ m' = m
    end /\ sd_holds d s' /\ spi_only s s') s.
Proof. intros. by apply sdReadBlock_ok. Qed.

Lemma sdReadPartialBlock_ok {T} `{ByteStore T} (m : T) block_number offset buffer n d s :
  sd_holds d s -> is_u32 block_number -> 0 <= offset -> 0 <= n -> offset + n <= SD_BLOCK_SIZE ->
  mapped m buffer (buffer + n) ->
  wp (sdReadPartialBlock m block_number offset buffer n) (fun '(ok, m') s' =>
    match d block_number with
    | Some data => ok = true /\ writes m buffer (take (Z.to_nat n) (drop (Z.to_nat offset) data)) m'
    | None => ok = false /\ m' = m
    end /\ sd_holds d s' /\ spi_only s s') s.
Proof.
  intros Hs Ha Ho Hn Hon Hm. unfold sdReadPartialBlock. destruct (d block_number) as [data|] eqn:E.
  - eapply wpg_mono; [eapply (read_command_ok m _ d data _
      (fun m' => writes m buffer (take (Z.to_nat n) (drop (Z.to_nat offset) data)) m')); [done..|]|].
    + intros gap crc c s1 Hg Hc Hl Hu F1.
      eapply (read_data_block_partial_ok m); [done..|]. intros m' s' W L S. done.
    + intros [ok m'] s' (-> & W & Hs' & S'). done.
  - eapply wpg_mono; [by eapply (read_command_fails m _ d)|]. intros [ok m'] s' (-> & -> & Hs' & S'). done.
Qed.

(** C33: [sdReadPartialBlock] within a block: exactly the requested bytes of
    the block end up in the buffer; the rest is consumed, so that the next
    command finds the card idle. *)
Theorem sdReadPartialBlock_spec {T} `{ByteStore T} (m : T) block_number offset buffer n d s :
  sd_holds d s -> is_u32 block_number -> 0 <= offset -> 0 <= n -> offset + n <= SD_BLOCK_SIZE ->
  mapped m buffer (buffer + n) ->
  wp (sdReadPartialBlock m block_number offset buffer n) (fun '(ok, m') s' =>
    match d block_number with
    | Some data => ok = true /\ writes m buffer (take (Z.to_nat n) (drop (Z.to_nat offset) data)) m'
    | None => ok = false /\ m' = m
    end /\ sd_holds d s' /\ spi_only s s') s.
Proof. intros. by apply sdReadPartialBlock_ok. Qed.
End Card.

(** ** Writing never returns *)

Lemma hang_bind {St A B} (a : M St A) (k : A -> M St B) st :
  wp a (fun r st' => k r st' = Hang) st -> bind a k st = Hang.
Proof. unfold wpg, bind. by destruct (a st) as [[r st']| |]. Qed.

Lemma hang_bind_l {St A B} (a : M St A) (k : A -> M St B) st : a st = Hang -> bind a k st = Hang.
Proof. unfold bind. by intros ->. Qed.

Lemma hang_bind2 {St A B R} (a : M St A) (b : M St B) (k : B -> M St R) st :
  wp (do! a in b) (fun r st' => k r st' = Hang) st -> (do! a in let! r := b in k r) st = Hang.
Proof. unfold wpg, bind. destruct (a st) as [[? st1]| |]; [|done..]. by destruct (b st1) as [[? ?]| |]. Qed.

Section Write.
Context {D C : Type} `{HW : Hardware D} `{SL : SpiSlave C} `{F : Fuel} `{V : View D C}.
Context `{SP : !SpiLaws D C} `{GL : !GpioLaws D C} `{SC : !SdCard C}.
Context (enough : (spi_latency D C < fuel)%nat) (enough_polls : 65536 < Z.of_nat fuel).
Implicit Types (s : machine D) (c : C).

(** Reading without sending: after as many idle bytes as the FIFO holds, the
    next read never returns. *)
Lemma drain_hangs k n i x s :
  io_rx (view (dev s)) = repeat 255 k -> (k < n)%nat ->
  for_exit n i (fun _ (_ : Z) =>
    let! data_response := spi_read_byte in
    if negb (data_response =? 0xFF) then ret (inr data_response)
    else ret (inl data_response)) x s = Hang.
Proof.
  revert n i x s. induction k as [|k IH]; intros n i x s Hrx Hn; (destruct n as [|n]; [lia|]);
    cbn [for_exit].
  - by apply hang_bind_l, hang_bind_l, spi_read_byte_empty.
  - apply hang_bind. wp_step. apply (spi_read_ok enough 255 (repeat 255 k)); [done|].
    intros s1 [_ E1]. cbn [Z.eqb Pos.eqb negb]. wp_step. apply IH; [by rewrite E1|lia].
Qed.

(** C35: when the card accepts CMD24, [sdWriteBlock] never returns, whatever
    the fuel: it sends the data without reading, and then waits for the data
    response without clocking the bus, so it only ever sees the eight stale
    idle bytes of the FIFO. *)
Theorem sdWriteBlock_hangs {T} `{ByteStore T} (m : T) block_address data_buffer (I : C -> Prop) c c' s :
  line_full s idle_line c -> reply c 0x58 block_address 0x01 [0x00] c' ->
  quiet I -> I c' -> mapped m data_buffer (data_buffer + SD_BLOCK_SIZE) ->
  sdWriteBlock m block_address data_buffer s = Hang.
Proof.
  intros Hl Hrep HI Hc' Hm. unfold sdWriteBlock. apply hang_bind2.
  eapply (command_ok enough enough_polls I); [split; lia|split; lia|done|done|done|done|lia|].
  intros s1 c2 F1 Hc2 _. cbn [Z.eqb negb].
  pose proof (proj2 (line_full_feed _ _ _) (conj F1 eq_refl)) as F1'.
  apply hang_bind. eapply (send_lost_ok enough); [exact F1'|]. intros s2 L2 _.
  apply hang_bind. eapply wpg_mono.
  { apply (wpg_for False (fun _ (_ : unit) s' => exists c', line_full s' idle_line c')); [by eexists|].
    intros i [] s3 Hi [c3 L3]. wp_steps.
    destruct (Hm (data_buffer + i)) as [b Hb]; [unfold SD_BLOCK_SIZE in *; lia|].
    eapply load8_ok; [exact Hb|]. eapply (send_lost_ok enough); [exact L3|]. intros s4 L4 _. eauto. }
  intros [] s3 [c3 L3].
  apply hang_bind. eapply (send_lost_ok enough); [exact L3|]. intros s4 L4 _.
  apply hang_bind. eapply (send_lost_ok enough); [exact L4|]. intros s5 (_ & _ & Hrx & _) _.
  apply hang_bind_l. apply (drain_hangs 8); [done|lia].
Qed.
End Write.

(** ** Initialisation *)

(** The CRC-7 of the SD protocol (polynomial x^7 + x^3 + 1), most significant
    bit first. *)
Definition crc7_bit (crc : Z) (b : bool) : Z :=
  let crc' := Z.land (Z.shiftl crc 1) 0x7F in
  if xorb (Z.testbit crc 6) b then Z.lxor crc' 0x09 else crc'.
Definition crc7_byte (crc b : Z) : Z :=
  fold_left (fun crc i => crc7_bit crc (Z.testbit b i)) [7; 6; 5; 4; 3; 2; 1; 0] crc.

(** The last byte of a command: its CRC and the end bit. *)
Definition frame_crc (command args : Z) : Z :=
  Z.lor (Z.shiftl (fold_left crc7_byte (take 5 (frame command args 0)) 0) 1) 1.

(** A card that has not been initialised yet: after power-up; in the idle
    state, with [n] more ACMD41 to answer "busy" to; between CMD55 and
    ACMD41; ready. *)
Inductive boot_state := Powered | IdleState (n : nat) | AppState (n : nat) | ReadyState.

(** A version 2 high capacity card during initialisation.  It checks the CRC
    of the commands. *)
Class SdBoot (C : Type) `{SC : SdCard C} := {
  in_state : boot_state -> C -> Prop;
  boot_quiet : forall st c, in_state st c ->
    fst (xfer 255 c) = 255 /\
    (in_state st (snd (xfer 255 c)) /\ card_data (snd (xfer 255 c)) = card_data c) /\
    in_state st (select false c) /\ card_data (select false c) = card_data c;
  boot_cmd0 : forall c, in_state Powered c -> exists n c',
    reply c 0x40 0 (frame_crc 0x40 0) [0x01] c' /\ Z.of_nat n < 5000 /\
    in_state (IdleState n) c' /\ card_data c' = card_data c;
  boot_cmd8 : forall n c, in_state (IdleState n) c -> exists r0 r1 c',
    is_u8 r0 /\ is_u8 r1 /\
    reply c 0x48 0x1AA (frame_crc 0x48 0x1AA) [0x01; r0; r1; 0x01; 0xAA] c' /\
    in_state (IdleState n) c' /\ card_data c' = card_data c;
  boot_cmd55 : forall n c, in_state (IdleState n) c -> exists c',
    reply c 0x77 0 (frame_crc 0x77 0) [0x01] c' /\
    in_state (AppState n) c' /\ card_data c' = card_data c;
  boot_acmd41 : forall n c, in_state (AppState n) c -> exists c',
    reply c 0x69 0x40000000 (frame_crc 0x69 0x40000000) [match n with O => 0x00 | _ => 0x01 end] c' /\
    in_state (match n with O => ReadyState | S n' => IdleState n' end) c' /\
    card_data c' = card_data c;
  boot_cmd58 : forall c, in_state ReadyState c -> exists o0 o1 o2 o3 c',
    Forall is_u8 [o0; o1; o2; o3] /\ Z.testbit o0 6 = true /\
    reply c 0x7A 0 0x01 [0x00; o0; o1; o2; o3] c' /\
    card_idle c' /\ card_data c' = card_data c;
}.

Section Init.
Context {D C : Type} `{HW : Hardware D} `{SL : SpiSlave C} `{F : Fuel} `{V : View D C}.
Context `{SP : !SpiLaws D C} `{GL : !GpioLaws D C} `{TL : !TimerLaws D C}.
Context `{SC : !SdCard C} `{SB : !SdBoot C}.
Context (enough : (spi_latency D C < fuel)%nat) (enough_polls : 65536 < Z.of_nat fuel).
Context (enough_time : (usleep_fuel (D := D) (C := C) 10000 < fuel)%nat).
Implicit Types (s : machine D) (c : C).

(** Memory and the DMA channels are as they were. *)
Definition calm s s' : Prop := ram s' = ram s /\ io_dma (view (dev s')) = io_dma (view (dev s)).

Lemma calm_refl s : calm s s.
Proof. done. Qed.

Lemma calm_trans s1 s2 s3 : calm s1 s2 -> calm s2 s3 -> calm s1 s3.
Proof. intros [] []. split; congruence. Qed.

Lemma spi_only_calm s s' : spi_only s s' -> calm s s'.
Proof. intros [R (rx & c & E)]. split; [done|]. by rewrite E. Qed.

Lemma only_time_calm s s' : only_time s s' -> calm s s'.
Proof. intros [R (t & l & _ & E)]. split; [done|]. by rewrite E. Qed.

(** Chains the steps from the first state to the last. *)
Ltac calm := lazymatch goal with
  | |- calm ?a ?a => apply calm_refl
  | |- calm ?a ?b => first
    [ eassumption
    | match goal with
      | H : calm a ?m |- _ => apply (calm_trans a m b H); clear H; calm
      | H : spi_only a ?m |- _ => apply (calm_trans a m b (spi_only_calm _ _ H)); clear H; calm
      | H : only_time a ?m |- _ => apply (calm_trans a m b (only_time_calm _ _ H)); clear H; calm
      end ]
  end.

Definition booting (d : Z -> option (list Z)) (st : boot_state) c : Prop :=
  in_state st c /\ card_data c = d.

Lemma booting_quiet d st : quiet (booting d st).
Proof.
  intros c [Hc <-]. destruct (boot_quiet st c Hc) as (? & [? ?] & ? & ?).
  unfold booting. split_and!; done || congruence.
Qed.

(** The relation between the states before and after a step of [SDInit]. *)
Definition line_in (d : Z -> option (list Z)) (st : boot_state) s : Prop :=
  exists c, line_full s idle_line c /\ booting d st c.

Lemma only_time_line s s' rx c : only_time s s' -> line_full s rx c -> line_full s' rx c.
Proof. intros [_ (t & lt & _ & E)] (Hon & Hl & Hrx & Hc). unfold line_full. by rewrite E. Qed.

Lemma usleep_line usec rx c s (Q : Z -> machine D -> Prop) :
  is_u32 usec -> (usleep_fuel (D := D) (C := C) usec < fuel)%nat -> line_full s rx c ->
  (forall r s', line_full s' rx c -> calm s s' -> Q r s') -> wp (usleep usec) Q s.
Proof.
  intros Hu Hf Hl HQ. apply (usleep_ok (fun _ => True)); try done.
  intros s' _ O _. apply HQ; [by eapply only_time_line|calm].
Qed.

(** A command in state [st] answered by the single byte [r], then release. *)
Lemma boot_command_ok d st st' command args crc r l s (Q : Z -> machine D -> Prop) :
  is_u8 command -> is_u8 crc -> r <> 255 -> line_in d st s ->
  (forall c, booting d st c -> exists c', reply c command args crc (r :: l) c' /\ booting d st' c') ->
  (forall s' c, feed s' (l ++ idle_line) c -> booting d st' c -> calm s s' -> Q r s') ->
  wp (do! SDSendCommand command args crc in read_r1_response 0xFF) Q s.
Proof.
  intros Hcmd Hcrc Hr (c & Hl & Hb) Hrep HQ. destruct (Hrep c Hb) as (c' & Hre & Hb').
  eapply (command_ok enough enough_polls (booting d st')); [done|done|apply booting_quiet|done|done|done|done|].
  intros s' c2 F1 Hc2 R. eapply HQ; [done|done|calm].
Qed.

Lemma boot_release d st c s (Q : unit -> machine D -> Prop) :
  feed s idle_line c -> booting d st c ->
  (forall s', line_in d st s' -> calm s s' -> Q tt s') -> wp deassertCS Q s.
Proof.
  intros Hf Hb HQ. eapply (deassertCS_ok enough (booting d st)); [apply booting_quiet| |done|].
  - by apply line_full_feed.
  - intros s' c' L' B' R. apply HQ; [by exists c'|calm].
Qed.

(** The ACMD41 loop ends with the card ready, before the timeout. *)
Lemma acmd41_loop_ok d n s (Q : option Z -> machine D -> Prop) :
  Z.of_nat n < 5000 -> line_in d (IdleState n) s ->
  (forall t s', 0 < t -> line_in d ReadyState s' -> calm s s' -> Q (Some t) s') ->
  wp (acmd41_loop 5000) Q s.
Proof.
  intros Hn Hl HQ. unfold acmd41_loop.
  eapply (wp_while (fun k t s' => line_in d (IdleState k) s' /\ calm s s' /\
            Z.of_nat k < t < 65536)); [|instantiate (1 := n); lia|split_and!; done || lia].
  intros k t s1 (L1 & R1 & Ht). apply wp_bind2.
  eapply (boot_command_ok d (IdleState k) (AppState k) _ _ _ 0x01 []); [split; lia|split; lia|done|done| |].
  { intros c [Hc <-]. destruct (boot_cmd55 k c Hc) as (c' & ? & ? & ?). exists c'. by split. }
  intros s2 c2 F2 B2 R2. cbn [app] in F2. wp_step. eapply boot_release; [exact F2|exact B2|]. intros s3 L3 R3.
  cbn [Z.eqb Pos.eqb negb]. apply wp_bind2.
  eapply (boot_command_ok d (AppState k) _ _ _ _ (match k with O => 0x00 | _ => 0x01 end) []);
    [split; lia|split; lia|by destruct k|done| |].
  { intros c [Hc <-]. destruct (boot_acmd41 k c Hc) as (c' & ? & ? & ?). exists c'. by split. }
  intros s4 c4 F4 B4 R4. cbn [app] in F4. wp_step. eapply boot_release; [exact F4|exact B4|]. intros s5 L5 R5.
  destruct k as [|k]; cbn [Z.eqb].
  - wp_step. apply HQ; [lia|done|calm].
  - wp_step. destruct L5 as (c5 & L5 & B5). eapply usleep_line; [split; lia| |exact L5|].
    { eapply Nat.le_lt_trans; [|exact enough_time]. unfold usleep_fuel. apply Nat.mul_le_mono_r. lia. }
    intros r s6 L6 R6. rewrite u16_small by (unfold is_u16; lia).
    destruct (Z.ltb_spec 0 (t - 1)); [|lia]. wp_step.
    exists k. split; [lia|]. split; [by exists c5|]. split; [calm|lia].
Qed.

Lemma check_version_ok d n s (Q : bool -> machine D -> Prop) :
  line_in d (IdleState n) s ->
  (forall s', line_in d (IdleState n) s' -> calm s s' -> Q true s') ->
  wp check_version Q s.
Proof.
  intros (c & Hl & Hc & Hd) HQ. unfold check_version. destruct (boot_cmd8 n c Hc) as
    (r0 & r1 & c' & Hr0 & Hr1 & Hrep & Hc' & Hd').
  apply wp_bind2.
  eapply (command_ok enough enough_polls (booting d (IdleState n)) _ _ _ 0x01 [r0; r1; 0x01; 0xAA]);
    [split; lia|split; lia|apply booting_quiet|exact Hl|exact Hrep|split; [done|congruence]|lia|].
  intros s1 c2 F1 B1 R1. cbn [Z.eqb Pos.eqb]. wp_step. unfold read_bytes.
  change (u8 4) with (Z.of_nat (length [r0; r1; 0x01; 0xAA])).
  eapply (read_into_ok enough); [exact F1|cbn; lia| |apply (replicate_mapped 4)|].
  { repeat (apply Forall_cons; split; [first [assumption | split; lia]|]). by apply Forall_nil. }
  intros m2 s2 [W2 _] F2 R2. wp_step. eapply boot_release; [exact F2|exact B1|]. intros s3 L3 R3.
  wp_steps. eapply load8_ok; [exact (peeks_lookup _ 0 4 _ 2 W2 ltac:(lia))|].
  wp_steps. eapply load8_ok; [exact (peeks_lookup _ 0 4 _ 3 W2 ltac:(lia))|].
  wp_step. apply HQ; [done|calm].
Qed.

Lemma check_capacity_ok d s (Q : bool -> machine D -> Prop) :
  line_in d ReadyState s ->
  (forall s', sd_holds d s' -> calm s s' -> Q true s') ->
  wp check_capacity Q s.
Proof.
  intros (c & Hl & Hc & Hd) HQ. unfold check_capacity. destruct (boot_cmd58 c Hc) as
    (o0 & o1 & o2 & o3 & c' & Hu & Ho & Hrep & Hi & Hd').
  apply wp_bind2.
  eapply (command_ok enough enough_polls (holds d) _ _ _ 0x00 [o0; o1; o2; o3]);
    [split; lia|split; lia|apply holds_quiet|exact Hl|exact Hrep|split; [done|congruence]|lia|].
  intros s1 c2 F1 B1 R1. cbn [Z.eqb]. wp_step.
  change 4 with (Z.of_nat (length [o0; o1; o2; o3])).
  eapply (read_into_ok enough); [exact F1|cbn; lia|done|apply (replicate_mapped 4)|].
  intros m2 s2 [W2 _] F2 R2. wp_steps.
  eapply load8_ok; [exact (peeks_lookup _ 0 4 _ 0 W2 ltac:(lia))|].
  assert ((Z.land o0 64 =? 0) = false) as E.
  { rewrite <- bit_set_testbit in Ho by lia. unfold bit_set in Ho. by apply negb_true_iff in Ho. }
  rewrite E. wp_step. apply HQ; [|calm]. exists c2. split; [by apply line_full_feed|done].
Qed.

(** The dummy clocks at the start: they fill the FIFO. *)
Lemma dummy_clocks_ok d k s (Q : unit -> machine D -> Prop) :
  spi_on (view (dev s)) -> (k <= 8)%nat -> io_rx (view (dev s)) = repeat 255 k ->
  booting d Powered (io_card (view (dev s))) ->
  (forall s', line_in d Powered s' -> calm s s' -> Q tt s') ->
  wp (for_loop 10 0 (fun _ _ => spi_send_byte 0xFF) tt) Q s.
Proof.
  intros Hon Hk Hrx Hb HQ. eapply wpg_mono.
  - apply (wpg_for False (fun i (_ : unit) s' => calm s s' /\ spi_on (view (dev s')) /\ 0 <= i /\
      io_rx (view (dev s')) = repeat 255 (Nat.min 8 (k + Z.to_nat i)) /\
      booting d Powered (io_card (view (dev s'))))).
    + split; [done|]. split; [done|]. split; [done|]. split; [|done]. rewrite Hrx. f_equal. lia.
    + intros i [] s1 Hi (R1 & On1 & Hi0 & Rx1 & B1). apply (spi_send_ok enough); [done|].
      intros s2 [R2 E2]. change (u8 0xFF) with 255 in E2. unfold spi_exchange in E2.
      destruct (booting_quiet d Powered _ B1) as (Hx & Hb1 & _).
      destruct (xfer 255 (io_card (view (dev s1)))) as [r c1]. cbn [fst snd] in Hx, Hb1. subst r.
      rewrite Rx1, repeat_length in E2. split; [eapply calm_trans; [exact R1|]; split; [done|by rewrite E2]|]. split; [by rewrite E2|].
      split; [lia|]. rewrite E2. cbn [io_rx set_rx set_card io_card]. split; [|done].
      unfold spi_fifo_depth. destruct (Nat.ltb_spec (Nat.min 8 (k + Z.to_nat i)) 8).
      * rewrite <- repeat_cons. change (255 :: repeat 255 ?n) with (repeat 255 (S n)). f_equal. lia.
      * f_equal. lia.
  - intros [] s' (R' & On' & _ & Rx' & B'). apply HQ; [|done].
    exists (io_card (view (dev s'))). split; [|done]. split; [done|]. split; [done|].
    split; [|done]. rewrite Rx'. unfold idle_line. f_equal. lia.
Qed.

Lemma SDInit_ok d k s (Q : bool -> machine D -> Prop) :
  spi_on (view (dev s)) -> (k <= 8)%nat -> io_rx (view (dev s)) = repeat 255 k ->
  booting d Powered (io_card (view (dev s))) ->
  (forall s', sd_holds d s' -> io_cpsr (view (dev s')) = 8 -> calm s s' -> Q true s') -> wp SDInit Q s.
Proof.
  intros Hon Hk Hrx Hb HQ. unfold SDInit. wp_step.
  apply (usleep_ok (fun _ => True)); [done|split; lia|exact enough_time|done|].
  intros s1 _ [R1 (t & lt & _ & E1)] _. wp_step. apply (cs_step_ok false). intros s2 [R2 E2].
  rewrite E1 in E2. cbv beta in E2. destruct (booting_quiet d Powered _ Hb) as (_ & _ & Hb2).
  wp_step. eapply (dummy_clocks_ok d k); [by rewrite E2|done|by rewrite E2|by rewrite E2|].
  intros s3 (c3 & L3 & [B3 D3]) R3. destruct (boot_cmd0 c3 B3) as (n & c' & Hrep & Hn & Hst & Hd').
  apply wp_bind2.
  eapply (command_ok enough enough_polls (booting d (IdleState n)) _ _ _ 0x01 []);
    [split; lia|split; lia|apply booting_quiet|exact L3|exact Hrep|split; [done|congruence]|lia|].
  intros s4 c4 F4 B4 R4. cbn [Z.eqb Pos.eqb negb]. wp_step.
  apply (check_version_ok d n); [exists c4; split; [by apply line_full_feed|done]|].
  intros s5 L5 R5. cbn [negb]. wp_step. apply (acmd41_loop_ok d n); [done|done|].
  intros t6 s6 Ht L6 R6. destruct (Z.eqb_spec t6 0); [lia|]. wp_step.
  apply (check_capacity_ok d); [done|]. intros s7 (c7 & L7 & H7) R7. cbn [negb]. wp_step.
  unfold spi_set_speed. apply reg_write_ok. change (u32 (u8 8)) with 8.
  destruct (spi_cpsr_write D C 8 s7) as [R8 E8]. wp_step.
  assert (calm s7 (hw_write spi0_CPSR 8 s7)) as R9 by (split; [done|by rewrite E8]).
  assert (calm s s2) as R10 by (split; [congruence|by rewrite E2]).
  apply HQ; [|by rewrite E8|calm]. exists c7. split; [|done].
  destruct L7 as (? & ? & ? & ?). unfold line_full. rewrite E8. done.
Qed.

(** C34: [SDInit] on a card that follows the initialisation protocol, checks
    the CRC of the commands and needs fewer than 5000 ACMD41: it succeeds,
    leaving SPI at the transfer speed, the card idle with its contents, and
    the FIFO full of idle bytes, which is what the block operations need. *)
Theorem SDInit_spec d k s :
  spi_on (view (dev s)) -> (k <= 8)%nat -> io_rx (view (dev s)) = repeat 255 k ->
  booting d Powered (io_card (view (dev s))) ->
  wp SDInit (fun ok s' => ok = true /\ sd_holds d s' /\ io_cpsr (view (dev s')) = 8 /\
    ram s' = ram s /\ io_dma (view (dev s')) = io_dma (view (dev s))) s.
Proof. intros ? ? ? ?. eapply SDInit_ok; [done..|]. intros s' Hs Hc []. by split_and!. Qed.
End Init.

(** ** The block interface *)

Section BlockInterface.
Context {D C : Type} `{HW : Hardware D} `{SL : SpiSlave C} `{F : Fuel} `{V : View D C}.
Context `{SP : !SpiLaws D C} `{GL : !GpioLaws D C} `{SC : !SdCard C}.

#[export] Instance sd_block_device : BlockDevice (machine D) := {
  read_block := fun T _ => sdReadBlock;
  read_partial := fun T _ => sdReadPartialBlock;
  write_block := fun T _ => sdWriteBlock;
}.

(** The driver keeps its promises to the file system, and with them every
    property [P] of the machine that does not depend on the receive FIFO and
    the card. *)
Definition sd_block_laws (P : machine D -> Prop) (HP : forall s s', spi_only s s' -> P s -> P s')
  (enough : (spi_latency D C < fuel)%nat) (enough_polls : 65536 < Z.of_nat fuel) :
  BlockLaws (machine D).
Proof.
  refine {| bd_ok := fun s => sd_ready s /\ P s; bd_data := fun s => card_data (io_card (view (dev s))) |};
    [intros s a data [(_ & _ & Hi) _] Hd; by apply card_block in Hd|..];
    intros T B m s a; intros; cbv beta in *;
    assert (sd_holds (card_data (io_card (view (dev s)))) s) as Hs by (apply sd_holds_ready; tauto);
    assert (P s) as Ps by tauto.
  - pose proof (fun Ha Hm => sdReadBlock_ok enough enough_polls m a buffer _ s Hs Ha Hm) as W.
    specialize (W H0 H2). rewrite H1 in W.
    change (read_block m a buffer) with (sdReadBlock m a buffer).
    eapply wpg_mono; [exact W|]. intros [ok m'] s' ([??] & [H5 H6]%sd_holds_ready & S'). pose proof (HP _ _ S' Ps). done.
  - change (read_block m a buffer) with (sdReadBlock m a buffer). unfold sdReadBlock.
    eapply wpg_mono; [by apply (read_command_fails enough enough_polls m a _ _ s Hs)|].
    intros [ok m'] s' (H5 & H6 & [H3 H4]%sd_holds_ready & S'). pose proof (HP _ _ S' Ps). done.
  - pose proof (fun Ha Ho Hn Hon Hm => sdReadPartialBlock_ok enough enough_polls m a offset buffer n _ s Hs Ha Ho Hn Hon Hm) as W.
    specialize (W H0 H2 H3 H4 H5). rewrite H1 in W.
    change (read_partial m a offset buffer n) with (sdReadPartialBlock m a offset buffer n).
    eapply wpg_mono; [exact W|]. intros [ok m'] s' ([??] & [H8 H9]%sd_holds_ready & S'). pose proof (HP _ _ S' Ps). done.
  - change (read_partial m a offset buffer n) with (sdReadPartialBlock m a offset buffer n).
    unfold sdReadPartialBlock.
    eapply wpg_mono; [by apply (read_command_fails enough enough_polls m a _ _ s Hs)|].
    intros [ok m'] s' (H5 & H6 & [H3 H4]%sd_holds_ready & S'). pose proof (HP _ _ S' Ps). done.
Defined.
End BlockInterface.
