(* ===== verification/SDEmpty.v ===== *)
(** * The SD card driver with an empty slot

    A slave that never answers: the line stays high.  Every poll times out,
    so SDInit gives up after the first command. *)
From stdpp Require Import list.
From S2P Require Import Prelude Bytes Board SimBoard Unistd Spi Block SD.

Section Silent.
Context {D C : Type} `{HW : Hardware D} `{SL : SpiSlave C} `{F : Fuel} `{V : View D C}.
Context `{SP : !SpiLaws D C} `{GL : !GpioLaws D C} `{TL : !TimerLaws D C}.
Context (enough : (spi_latency D C < fuel)%nat) (enough_polls : 65536 < Z.of_nat fuel).
Context (enough_time : (usleep_fuel (D := D) (C := C) 10000 < fuel)%nat).
Implicit Types (s : machine D) (c : C).

(** [I] is kept by every exchange, and the answer is always 0xFF. *)
Definition silent (I : C -> Prop) : Prop :=
  forall c, I c -> (forall b, fst (xfer b c) = 255 /\ I (snd (xfer b c))) /\ forall b, I (select b c).

(** [n] idle bytes have been received. *)
Definition hushed (I : C -> Prop) (n : nat) s : Prop :=
  spi_on (view (dev s)) /\ (n <= 8)%nat /\ io_rx (view (dev s)) = repeat 255 n /\ I (io_card (view (dev s))).

Context (I : C -> Prop) (HI : silent I).

Lemma hushed_send b n s (Q : unit -> machine D -> Prop) :
  hushed I n s -> (forall s', hushed I (Nat.min 8 (S n)) s' -> spi_only s s' -> Q tt s') -> wp (spi_send_byte b) Q s.
Proof.
  intros (On & Hn & Rx & Hc) HQ. apply (spi_send_ok enough); [done|]. intros s' [R E].
  unfold spi_exchange in E. destruct (HI _ Hc) as [Hx _]. specialize (Hx (u8 b)).
  destruct (xfer (u8 b) (io_card (view (dev s)))) as [r c] eqn:Ex. cbn [fst snd] in Hx. destruct Hx as [-> Hc'].
  apply HQ.
  - split; [by rewrite E|]. split; [lia|]. rewrite E. cbn [io_rx io_card set_rx set_card]. split; [|done].
    rewrite Rx, repeat_length. unfold spi_fifo_depth. destruct (Nat.ltb_spec n 8).
    + rewrite <- repeat_cons. change (255 :: repeat 255 n) with (repeat 255 (S n)). f_equal. lia.
    + f_equal. lia.
  - split; [done|]. by eexists _, _.
Qed.

Lemma hushed_read n s (Q : Z -> machine D -> Prop) :
  hushed I (S n) s -> (forall s', hushed I n s' -> spi_only s s' -> Q 255 s') -> wp spi_read_byte Q s.
Proof.
  intros (On & Hn & Rx & Hc) HQ. apply (spi_read_ok enough 255 (repeat 255 n)); [by rewrite Rx|].
  intros s' [R E]. apply HQ.
  - split; [by rewrite E|]. split; [lia|]. by rewrite E.
  - split; [done|]. exists (repeat 255 n), (io_card (view (dev s))). rewrite E. by destruct (view (dev s)).
Qed.

Lemma hushed_pull s (Q : Z -> machine D -> Prop) :
  hushed I 8 s -> (forall s', hushed I 8 s' -> spi_only s s' -> Q 255 s') -> wp pull Q s.
Proof.
  intros H HQ. unfold pull. wp_step. apply (hushed_read 7); [done|]. intros s1 H1 S1. wp_step.
  apply (hushed_send _ 7); [done|]. intros s2 H2 S2. wp_step. apply HQ; [exact H2|by eapply spi_only_trans].
Qed.

(** A poll ends with the timeout. *)
Lemma hushed_r1 timeout s (Q : Z -> machine D -> Prop) :
  0 < timeout < 65536 -> hushed I 8 s -> (forall s', hushed I 8 s' -> spi_only s s' -> Q 255 s') ->
  wp (read_r1_response timeout) Q s.
Proof.
  intros Ht H HQ. unfold read_r1_response, poll_byte. rewrite u16_small by (unfold is_u16; lia). wp_step.
  apply (wp_while (fun n t s' => hushed I 8 s' /\ spi_only s s' /\ 0 < t < 65536 /\ n = Z.to_nat t) _ _)
    with (n := Z.to_nat timeout); [|lia|split; [done|]; split; [apply spi_only_refl|done]].
  intros n t s1 (H1 & S1 & Ht1 & ->). wp_step. apply hushed_pull; [done|]. intros s2 H2 S2.
  rewrite u16_small by (unfold is_u16; lia). cbn [Z.eqb Pos.eqb andb].
  destruct (Z.ltb_spec 0 (t - 1)); wp_step.
  - exists (Z.to_nat (t - 1)). split; [lia|]. split; [done|]. split; [by eapply spi_only_trans|]. lia.
  - wp_step. apply HQ; [done|by eapply spi_only_trans].
Qed.

Lemma hushed_cs (b : bool) n s (Q : unit -> machine D -> Prop) :
  hushed I n s -> (forall s', hushed I n s' -> spi_only s s' -> Q tt s') ->
  wp (reg_or (if b then sio_OUT_CLR else sio_OUT_SET) (Z.shiftl 1 9)) Q s.
Proof.
  intros (On & Hn & Rx & Hc) HQ. apply (cs_step_ok b). intros s' [R E]. apply HQ.
  - split; [by rewrite E|]. split; [done|]. rewrite E. split; [done|]. cbn. by apply HI.
  - split; [done|]. exists (io_rx (view (dev s))), (select b (io_card (view (dev s)))). rewrite E. by destruct (view (dev s)).
Qed.

Lemma hushed_deassert s (Q : unit -> machine D -> Prop) :
  hushed I 8 s -> (forall s', hushed I 8 s' -> spi_only s s' -> Q tt s') -> wp deassertCS Q s.
Proof.
  intros H HQ. unfold deassertCS. wp_step. apply (hushed_cs false 8); [done|]. intros s1 H1 S1.
  apply (hushed_send _ 8); [done|]. intros s2 H2 S2. apply HQ; [exact H2|by eapply spi_only_trans].
Qed.

Lemma hushed_command command args crc s (Q : unit -> machine D -> Prop) :
  hushed I 8 s -> (forall s', hushed I 8 s' -> spi_only s s' -> Q tt s') -> wp (SDSendCommand command args crc) Q s.
Proof.
  intros H HQ. unfold SDSendCommand. wp_step. apply (hushed_cs true 8); [done|]. intros s0 H0 S0.
  do 6 (wp_step; apply (hushed_send _ 8); [assumption|]; intros ? ? ?).
  apply (hushed_send _ 8); [assumption|]. intros t Ht St. apply HQ; [exact Ht|].
  repeat (eapply spi_only_trans; [eassumption|]). apply spi_only_refl.
Qed.

(** The dummy clocks fill the FIFO. *)
Lemma hushed_clocks k s (Q : unit -> machine D -> Prop) :
  hushed I k s -> (forall s', hushed I 8 s' -> spi_only s s' -> Q tt s') ->
  wp (for_loop 10 0 (fun _ _ => spi_send_byte 0xFF) tt) Q s.
Proof.
  intros H HQ. eapply wpg_mono.
  - apply (wpg_for False (fun i (_ : unit) s' => 0 <= i /\ hushed I (Nat.min 8 (k + Z.to_nat i)) s' /\ spi_only s s')).
    + split; [done|]. split; [|apply spi_only_refl]. rewrite Nat.add_0_r. destruct H as (? & ? & ? & ?).
      by rewrite Nat.min_r by done.
    + intros i [] s1 Hi (Hi0 & H1 & S1). apply (hushed_send _ _ _ _ H1). intros s2 H2 S2.
      split; [lia|]. split; [|by eapply spi_only_trans].
      by replace (Nat.min 8 (k + Z.to_nat (i + 1))) with (Nat.min 8 (S (Nat.min 8 (k + Z.to_nat i)))) by lia.
  - intros [] s' (_ & H' & S'). apply HQ; [|done].
    by replace (Nat.min 8 (k + Z.to_nat (0 + Z.of_nat 10))) with 8%nat in H' by lia.
Qed.

Lemma SDInit_silent_ok k s (Q : bool -> machine D -> Prop) :
  hushed I k s -> (forall s', calm s s' -> Q false s') -> wp SDInit Q s.
Proof.
  intros H HQ. unfold SDInit. wp_step.
  apply (usleep_ok (fun _ => True)); [done|split; lia|exact enough_time|done|]. intros s1 _ O1 _.
  assert (hushed I k s1) as H1 by (destruct O1 as [_ (t & lt & _ & E)]; unfold hushed; by rewrite E).
  wp_step. apply (hushed_cs false k); [done|]. intros s2 H2 S2.
  wp_step. apply (hushed_clocks k); [done|]. intros s3 H3 S3.
  wp_step. apply hushed_command; [done|]. intros s4 H4 S4.
  wp_step. apply hushed_r1; [lia|done|]. intros s5 H5 S5. cbn [Z.eqb Pos.eqb negb]. wp_step.
  apply hushed_deassert; [done|]. intros s6 H6 S6. wp_step. apply HQ.
  eapply calm_trans; [by apply only_time_calm|]. apply spi_only_calm.
  repeat (eapply spi_only_trans; [eassumption|]). apply spi_only_refl.
Qed.
End Silent.

Section Empty.
Context {D C : Type} `{HW : Hardware D} `{SL : SpiSlave C} `{F : Fuel} `{V : View D C}.
Context `{SP : !SpiLaws D C} `{GL : !GpioLaws D C} `{TL : !TimerLaws D C}.

(** C21: [SDInit] with a slot in which nothing answers returns false, without
    getting stuck, and touches neither memory nor the DMA channels. *)
Theorem SDInit_no_card (I : C -> Prop) k (s : machine D) :
  (spi_latency D C < fuel)%nat -> 65536 < Z.of_nat fuel -> (usleep_fuel (D := D) (C := C) 10000 < fuel)%nat ->
  silent I -> hushed I k s -> wp SDInit (fun ok s' => ok = false /\ calm s s') s.
Proof. intros He Hp Ht HI H. eapply (SDInit_silent_ok He Hp Ht I HI); [exact H|]. by split. Qed.
End Empty.
