(* ===== verification/SimCard.v ===== *)
(** * A simulated SD card

    An executable card that satisfies the protocol classes of SD.v: it
    collects six-byte commands, checks the CRC of the first ones, and queues
    its answers.  The witnesses of the SD theorems run the driver against it. *)
From S2P Require Import Prelude Bytes Board SimBoard Unistd Uart Spi Block SD.

Ltac u8_list := repeat (apply Forall_cons; split; [split; cbn; lia|]); by apply Forall_nil.

Inductive card_mode := Booting (st : boot_state) | Transfer.

Record sim_card := SimCard { sc_mode : card_mode; sc_buf : list Z; sc_out : list Z }.

(** The blocks the card stores. *)
Class CardImage := {
  image_block : Z -> option (list Z);
  image_block_ok : forall a data, image_block a = Some data -> length data = 512%nat /\ Forall is_u8 data;
}.

Section Card.
Context `{CardImage}.

(** A complete command: the new mode and the answer. *)
Definition sim_process (mode : card_mode) (cmd a3 a2 a1 a0 crc : Z) : card_mode * list Z :=
  let a := a0 + 256 * (a1 + 256 * (a2 + 256 * a3)) in
  match mode with
  | Booting Powered =>
      if (cmd =? 0x40) && (crc =? frame_crc cmd a) then (Booting (IdleState 2), [255; 1]) else (mode, [])
  | Booting (IdleState n) =>
      if negb (crc =? frame_crc cmd a) then (mode, [255; 9])
      else if cmd =? 0x48 then (mode, [255; 1; 0; 0; Z.shiftr a 8; Z.land a 255])
      else if cmd =? 0x77 then (Booting (AppState n), [255; 1])
      else (mode, [255; 5])
  | Booting (AppState n) =>
      if cmd =? 0x69
      then match n with
           | O => (Booting ReadyState, [255; 0])
           | S n => (Booting (IdleState n), [255; 1])
           end
      else (mode, [255; 5])
  | Booting ReadyState =>
      if cmd =? 0x7A then (Transfer, [255; 0; 0xC0; 0xFF; 0x80; 0]) else (mode, [255; 5])
  | Transfer =>
      if cmd =? 0x51 then
        match image_block a with
        | Some data => (mode, [255; 255; 0; 255; 0xFE] ++ data ++ [0x12; 0x34])
        | None => (mode, [255; 0x40])
        end
      else if cmd =? 0x58 then (mode, [255; 0])
      else (mode, [255; 4])
  end.

Definition sim_receive (b : Z) (c : sim_card) : sim_card :=
  match sc_buf c with
  | [cmd; a3; a2; a1; a0] =>
      let '(mode, out) := sim_process (sc_mode c) cmd a3 a2 a1 a0 b in SimCard mode [] out
  | [] => if (64 <=? b) && (b <? 128) then SimCard (sc_mode c) [b] [] else c
  | buf => SimCard (sc_mode c) (buf ++ [b]) []
  end.

Definition sim_xfer (b : Z) (c : sim_card) : Z * sim_card :=
  match sc_out c with
  | r :: out => (u8 r, SimCard (sc_mode c) (sc_buf c) out)
  | [] => (255, sim_receive b c)
  end.

#[export] Instance sim_card_slave : SpiSlave sim_card := {
  xfer := sim_xfer;
  select := fun _ c => SimCard (sc_mode c) [] [];
}.

#[export] Instance sim_card_byte : ByteSlave sim_card.
Proof.
  intros b c. cbn. unfold sim_xfer. destruct (sc_out c); [split; cbn; lia|apply u8_range].
Qed.

(** ** It follows the protocol *)

Definition resting (mode : card_mode) (c : sim_card) : Prop := c = SimCard mode [] [].

Lemma sim_stream mode l :
  Forall is_u8 l -> answers (SimCard mode [] l) l (SimCard mode [] []).
Proof.
  induction 1 as [|b l Hb _ IH]; [done|]. apply answers_cons. cbn. unfold sim_xfer. cbn.
  rewrite u8_small by done. done.
Qed.

Lemma sim_first mode b :
  64 <= b < 128 -> snd (xfer b (select true (SimCard mode [] []))) = SimCard mode [b] [].
Proof.
  intros Hb. cbn. destruct (Z.leb_spec 64 b); [|lia]. by destruct (Z.ltb_spec b 128); [|lia].
Qed.

Lemma sim_next mode buf b :
  (1 <= length buf <= 4)%nat -> snd (xfer b (SimCard mode buf [])) = SimCard mode (buf ++ [b]) [].
Proof.
  intros Hl. destruct buf as [|b1 [|b2 [|b3 [|b4 [|b5 buf]]]]]; cbn [length] in Hl; (reflexivity || lia).
Qed.

Lemma sim_last mode cmd a3 a2 a1 a0 crc :
  snd (exchange_all [crc] (SimCard mode [cmd; a3; a2; a1; a0] [])) =
    let '(mode', out) := sim_process mode cmd a3 a2 a1 a0 crc in SimCard mode' [] out.
Proof.
  unfold exchange_all, xfer, sim_card_slave, sim_xfer, sim_receive. cbn [sc_out sc_buf sc_mode].
  destruct (sim_process mode cmd a3 a2 a1 a0 crc). reflexivity.
Qed.

(** The effect of a whole command on a resting card. *)
Lemma sim_command mode command args crc :
  64 <= command < 128 -> is_u32 args ->
  snd (exchange_all (frame command args crc) (select true (SimCard mode [] []))) =
    let '(mode', out) := sim_process mode command (Z.land (Z.shiftr args 24) 255)
       (Z.land (Z.shiftr args 16) 255) (Z.land (Z.shiftr args 8) 255) (Z.land args 255) crc in
    SimCard mode' [] out.
Proof.
  intros Hc _. unfold frame. rewrite exchange_all_state, sim_first by done.
  do 4 (rewrite exchange_all_state, sim_next by (cbn [length app]; lia); cbn [app]).
  apply sim_last.
Qed.

Lemma args_bytes args :
  is_u32 args ->
  Z.land args 255 + 256 * (Z.land (Z.shiftr args 8) 255 + 256 * (Z.land (Z.shiftr args 16) 255 +
    256 * Z.land (Z.shiftr args 24) 255)) = args.
Proof.
  intros Ha. change 255 with (Z.ones 8). rewrite !Z.land_ones, !Z.shiftr_div_pow2 by lia.
  unfold is_u32 in Ha. change (2 ^ 24) with 16777216. change (2 ^ 16) with 65536. change (2 ^ 8) with 256. dlia.
Qed.

Lemma sim_reply mode mode' command args crc l :
  64 <= command < 128 -> is_u32 args -> Forall is_u8 l ->
  (exists ncr, (1 <= ncr <= 8)%nat /\ sim_process mode command (Z.land (Z.shiftr args 24) 255)
     (Z.land (Z.shiftr args 16) 255) (Z.land (Z.shiftr args 8) 255) (Z.land args 255) crc =
     (mode', repeat 255 ncr ++ l)) ->
  reply (SimCard mode [] []) command args crc l (SimCard mode' [] []).
Proof.
  intros Hc Ha Hl (ncr & Hn & E). exists ncr. split; [done|].
  rewrite sim_command, E by done. apply sim_stream. apply Forall_app. split; [|done].
  apply Forall_forall. intros x Hx. apply list_elem_of_In, repeat_spec in Hx as ->. split; lia.
Qed.

#[export] Instance sim_card_sd : SdCard sim_card.
Proof.
  refine {| card_idle := resting Transfer; card_data := fun _ => image_block |}.
  - intros c a data _ Hd. by apply image_block_ok in Hd.
  - intros c ->. done.
  - intros c ->. done.
  - intros c a data -> Ha Hd. destruct (image_block_ok a data Hd) as [_ Hu].
    exists 1%nat, [0x12; 0x34], (SimCard Transfer [] []). split; [lia|]. split; [done|]. split; [|done].
    apply sim_reply; [lia|done| |].
    + apply Forall_cons; split; [split; lia|]. apply Forall_app. split; [u8_list|].
      apply Forall_cons; split; [split; lia|]. apply Forall_app. split; [done|u8_list].
    + exists 2%nat. split; [lia|]. unfold sim_process. rewrite args_bytes, Hd by done. done.
  - intros c a -> Ha Hd. exists 0x40, (SimCard Transfer [] []). split; [lia|]. split; [lia|]. split; [|done].
    apply sim_reply; [lia|done|u8_list|]. exists 1%nat. split; [lia|].
    unfold sim_process. rewrite args_bytes, Hd by done. done.
Defined.

#[export] Instance sim_card_boot : SdBoot sim_card.
Proof.
  assert (forall mode mode' command args crc l ncr,
    (1 <=? ncr)%nat && (ncr <=? 8)%nat && (64 <=? command) && (command <? 128) && (0 <=? args) &&
      (args <? 4294967296) && forallb (fun b => (0 <=? b) && (b <? 256)) l = true ->
    sim_process mode command (Z.land (Z.shiftr args 24) 255) (Z.land (Z.shiftr args 16) 255)
      (Z.land (Z.shiftr args 8) 255) (Z.land args 255) crc = (mode', repeat 255 ncr ++ l) ->
    reply (SimCard mode [] []) command args crc l (SimCard mode' [] [])) as Hreply.
  { intros * Hc E. rewrite !andb_true_iff in Hc. destruct Hc as ((((((?&?)&?)&?)&?)&?)&Hl).
    apply sim_reply; [lia|split; lia| |exists ncr; split; [|done]].
    - apply Forall_forall. intros x Hx. rewrite forallb_forall in Hl.
      apply list_elem_of_In, Hl in Hx. split; lia.
    - split; apply Nat.leb_le; done. }
  refine {| in_state := fun st => resting (Booting st) |}.
  - intros st c ->. done.
  - intros c ->. exists 2%nat, (SimCard (Booting (IdleState 2)) [] []).
    split; [|done]. by apply (Hreply _ _ _ _ _ _ 1%nat).
  - intros n c ->. exists 0, 0, (SimCard (Booting (IdleState n)) [] []).
    split; [split; lia|]. split; [split; lia|]. split; [|done]. by apply (Hreply _ _ _ _ _ _ 1%nat).
  - intros n c ->. exists (SimCard (Booting (AppState n)) [] []).
    split; [|done]. by apply (Hreply _ _ _ _ _ _ 1%nat).
  - intros n c ->. eexists (SimCard (Booting (match n with O => ReadyState | S n' => IdleState n' end)) [] []).
    split; [|done]. by destruct n; apply (Hreply _ _ _ _ _ _ 1%nat).
  - intros c ->. exists 0xC0, 0xFF, 0x80, 0, (SimCard Transfer [] []).
    split; [u8_list|]. split; [done|]. split; [|done]. by apply (Hreply _ _ _ _ _ _ 1%nat).
Defined.

End Card.

(** ** The theorems on the simulated card *)

(** Four blocks, each filled with its number. *)
Definition sim_block (a : Z) : list Z := repeat a 512.
Definition sim_disk (a : Z) : option (list Z) :=
  if (0 <=? a) && (a <? 4) then Some (sim_block a) else None.

Lemma sim_disk_block a data : sim_disk a = Some data -> length data = 512%nat /\ Forall is_u8 data.
Proof.
  unfold sim_disk. destruct (Z.leb_spec 0 a); [|done]. destruct (Z.ltb_spec a 4); [|done]. cbn [andb].
  intros [= <-]. unfold sim_block. split; [by rewrite repeat_length|]. apply Forall_forall.
  intros x Hx. apply list_elem_of_In, repeat_spec in Hx as ->. split; lia.
Qed.

#[local] Instance sim_image : CardImage := {| image_block := sim_disk; image_block_ok := sim_disk_block |}.

Lemma sim_card_enough : (spi_latency (sim sim_card) sim_card < fuel)%nat.
Proof. apply Nat.ltb_lt. vm_compute. reflexivity. Qed.
Lemma sim_card_polls : 65536 < Z.of_nat fuel.
Proof. unfold fuel, sim_fuel. lia. Qed.
Lemma sim_card_time : (usleep_fuel (D := sim sim_card) (C := sim_card) 10000 < fuel)%nat.
Proof. apply Nat.ltb_lt. vm_compute. reflexivity. Qed.

(** Before and after initialisation. *)
Definition power_up : machine (sim sim_card) := sim_board ∅ (SimCard (Booting Powered) [] []) [].
Definition card_ready : machine (sim sim_card) :=
  Machine ∅ (Sim (Io idle_line (SimCard Transfer [] []) 7 2 8 [] [] 0 0
    (fun _ => DmaChannel 0 0 0 0 false))).

Lemma card_ready_line : line_full card_ready idle_line (SimCard Transfer [] []).
Proof. split; [by split|]. split; [done|]. by split. Qed.

Lemma card_ready_holds : sd_holds sim_disk card_ready.
Proof. exists (SimCard Transfer [] []). split; [apply card_ready_line|by split]. Qed.

Lemma buffer_mapped n : mapped (replicate n 0) 0 (0 + Z.of_nat n).
Proof. apply replicate_mapped. Qed.

Lemma SDInit_witness : exists s', SDInit power_up = Ok (true, s') /\ sd_holds sim_disk s'.
Proof.
  pose proof (SDInit_spec sim_card_enough sim_card_polls sim_card_time sim_disk 0 power_up) as W.
  specialize (W ltac:(by split) ltac:(lia) eq_refl ltac:(by split)).
  destruct (proj1 (wp_exact _ _ _) W) as (ok & s' & E & -> & Hs & _). exists s'. exact (conj E Hs).
Defined.

Lemma sdReadBlock_witness : exists s' m',
  sdReadBlock (replicate 512 0) 3 0 card_ready = Ok ((true, m'), s') /\ peeks m' 0 512 = Some (sim_block 3).
Proof.
  pose proof (sdReadBlock_spec sim_card_enough sim_card_polls (replicate 512 0) 3 0 sim_disk card_ready
    card_ready_holds ltac:(split; lia) (buffer_mapped 512)) as W.
  destruct (proj1 (wp_exact _ _ _) W) as ([ok m'] & s' & E & [-> [Hw _]] & _). exists s', m'.
  exact (conj E Hw).
Defined.

Lemma sdReadPartialBlock_witness : exists s' m',
  sdReadPartialBlock (replicate 66 0) 2 446 0 66 card_ready = Ok ((true, m'), s').
Proof.
  pose proof (sdReadPartialBlock_spec sim_card_enough sim_card_polls (replicate 66 0) 2 446 0 66 sim_disk
    card_ready card_ready_holds ltac:(split; lia) ltac:(lia) ltac:(lia) ltac:(unfold SD_BLOCK_SIZE; lia)
    (buffer_mapped 66)) as W.
  destruct (proj1 (wp_exact _ _ _) W) as ([ok m'] & s' & E & [-> _] & _). exists s', m'. exact E.
Defined.

Lemma sdWriteBlock_hangs_witness : sdWriteBlock (replicate 512 0) 1 0 card_ready = Hang.
Proof.
  apply (sdWriteBlock_hangs sim_card_enough sim_card_polls (replicate 512 0) 1 0 (resting Transfer)
           (SimCard Transfer [] []) (SimCard Transfer [] []) card_ready card_ready_line).
  - apply sim_reply; [lia|split; lia|u8_list|]. exists 1%nat. split; [lia|reflexivity].
  - intros c ->. split; [reflexivity|]. split; reflexivity.
  - reflexivity.
  - apply (buffer_mapped 512).
Defined.
