(* ===== verification/FAT32.v ===== *)
(** * The FAT32 file system (src/driver/fs/FAT32.c)

    Mounting, the file allocation table, directories and long names, path
    lookup, and the table of open files, over the block interface of Block.v.
    A C object the code passes by address is a value that the operation
    returns updated, [None] being the null pointer; the caller's buffer and
    path are in a byte store of the caller's. *)
From S2P Require Import Prelude Bytes Hexutils Cstring Block.

(** ** Data *)

Definition MAX_LFN_PARTS : Z := 20.
Definition MAX_UTF8_CHARS_PER_LFN_PART : Z := 13 * 3 + 1.
Definition MAX_FILENAME_LEN : Z := 256.
Definition MAX_OPEN_FILES : Z := 16.

(** [fat_error_t]; [getNextCluster] also returns a value outside the enum. *)
Definition FAT_SUCCESS : Z := 0.
Definition FAT_ERROR_READ_FAIL : Z := 1.
Definition FAT_ERROR_INVALID_CLUSTER : Z := 2.
Definition FAT_ERROR_BAD_FAT_ENTRY : Z := 3.
Definition FAT_ERROR_END_OF_CHAIN : Z := 4.
Definition FAT_ERROR_NOT_INITIALIZED : Z := 5.
Definition FAT_ERROR_NO_MORE_ENTRIES : Z := 6.
Definition FAT_ERROR_FILE_NOT_FOUND : Z := 7.

(** Conversion of a [uint32_t] to [fat_error_t], one byte wide on this target. *)
Definition to_fat_error (x : Z) : Z := u8 x.

Definition FAT_ATTR_READ_ONLY : Z := 0x01.
Definition FAT_ATTR_HIDDEN : Z := 0x02.
Definition FAT_ATTR_SYSTEM : Z := 0x04.
Definition FAT_ATTR_VOLUME_ID : Z := 0x08.
Definition FAT_ATTR_DIRECTORY : Z := 0x10.
Definition FAT_ATTR_LFN : Z := Eval cbv in
  Z.lor (Z.lor (Z.lor FAT_ATTR_READ_ONLY FAT_ATTR_HIDDEN) FAT_ATTR_SYSTEM) FAT_ATTR_VOLUME_ID.

Definition FAT32_EOC_MARKER_START : Z := 0x0FFFFFF8.
Definition FAT32_BAD_CLUSTER : Z := 0x0FFFFFF7.
Definition FAT32_LAST_CLUSTER_VALID : Z := 0x0FFFFFFF.

(** A directory entry is a short-name entry or a piece of a long name. *)
Inductive sfn_field :=
| DIR_Name | DIR_Attr | DIR_NTRes | DIR_CrtTimeTenth | DIR_CrtTime | DIR_CrtDate | DIR_LstAccDate
| DIR_FstClusHI | DIR_WrtTime | DIR_WrtDate | DIR_FstClusLO | DIR_FileSize.
Inductive lfn_field :=
| LDIR_Ord | LDIR_Name1 | LDIR_Attr | LDIR_Type | LDIR_Chksum | LDIR_Name2 | LDIR_FstClusLO | LDIR_Name3.
#[export] Instance sfn_field_eq_dec : EqDecision sfn_field.
Proof. solve_decision. Defined.
#[export] Instance lfn_field_eq_dec : EqDecision lfn_field.
Proof. solve_decision. Defined.

Definition fat_sfn_dir_entry_t : list (sfn_field * Z) :=
  [(DIR_Name, 11); (DIR_Attr, 1); (DIR_NTRes, 1); (DIR_CrtTimeTenth, 1); (DIR_CrtTime, 2); (DIR_CrtDate, 2);
   (DIR_LstAccDate, 2); (DIR_FstClusHI, 2); (DIR_WrtTime, 2); (DIR_WrtDate, 2); (DIR_FstClusLO, 2);
   (DIR_FileSize, 4)].
Definition fat_lfn_dir_entry_t : list (lfn_field * Z) :=
  [(LDIR_Ord, 1); (LDIR_Name1, 2 * 5); (LDIR_Attr, 1); (LDIR_Type, 1); (LDIR_Chksum, 1); (LDIR_Name2, 2 * 6);
   (LDIR_FstClusLO, 2); (LDIR_Name3, 2 * 2)].

Record fat32_volume_info_t := {
  volume_start_lba : Z;
  bytes_per_sector : Z;
  sectors_per_cluster : Z;
  reserved_sector_count : Z;
  num_fats : Z;
  fat_size_sectors : Z;
  root_dir_cluster : Z;
  total_sectors : Z;
  total_clusters : Z;
  first_fat_lba : Z;
  data_start_lba : Z;
  is_initialized : bool;
  fsinfo_sector_lba : Z;
  backup_boot_sector_lba : Z;
  bytes_per_cluster : Z;
}.

Record fat_directory_iterator_t := {
  it_cluster : Z;        (* current_cluster *)
  it_sector : Z;         (* current_sector_in_cluster *)
  it_entry : Z;          (* current_entry_in_sector *)
  sector_buffer : list Z;
  sector_buffer_valid : bool;
  lfn_checksum : Z;
}.

Record fat_file_info_t := {
  filename : list Z;
  first_cluster : Z;
  info_size : Z;         (* file_size *)
  attributes : Z;
  is_directory : bool;
}.

Record file_handle_t := {
  cluster_start : Z;
  current_cluster : Z;
  current_offset : Z;
  file_size : Z;
  current_file_pos : Z;
  is_free : bool;
  mode : Z;
}.

(** The locals of [fat_read_next_dir_entry] that the code does not
    initialise: [lfn_parts_found], and [lfn_buffer] row after row. *)
Record lfn_locals := { lfn_parts_found : Z; lfn_buffer : list Z }.

(** The disk, the globals and statics of FAT32.c, and what is on the stack
    where each future call of [fat_read_next_dir_entry] has its locals. *)
Record FS (S : Type) := {
  disk : S;
  g_fat32_volume_info : fat32_volume_info_t;
  open_file_handles : list file_handle_t;
  mbr_buffer : list Z;
  bpb_data : list Z;
  stack : nat -> lfn_locals;
}.
Arguments disk {S}.
Arguments g_fat32_volume_info {S}.
Arguments open_file_handles {S}.
Arguments mbr_buffer {S}.
Arguments bpb_data {S}.
Arguments stack {S}.

Section Setters.
Context {S : Type}.
Definition set_disk (d : S) (s : FS S) : FS S :=
  {| disk := d; g_fat32_volume_info := g_fat32_volume_info s;
     open_file_handles := open_file_handles s; mbr_buffer := mbr_buffer s;
     bpb_data := bpb_data s; stack := stack s |}.
Definition set_volume (v : fat32_volume_info_t) (s : FS S) : FS S :=
  {| disk := disk s; g_fat32_volume_info := v;
     open_file_handles := open_file_handles s; mbr_buffer := mbr_buffer s;
     bpb_data := bpb_data s; stack := stack s |}.
Definition set_handles (h : list file_handle_t) (s : FS S) : FS S :=
  {| disk := disk s; g_fat32_volume_info := g_fat32_volume_info s;
     open_file_handles := h; mbr_buffer := mbr_buffer s;
     bpb_data := bpb_data s; stack := stack s |}.
Definition set_mbr_buffer (b : list Z) (s : FS S) : FS S :=
  {| disk := disk s; g_fat32_volume_info := g_fat32_volume_info s;
     open_file_handles := open_file_handles s; mbr_buffer := b;
     bpb_data := bpb_data s; stack := stack s |}.
Definition set_bpb_data (b : list Z) (s : FS S) : FS S :=
  {| disk := disk s; g_fat32_volume_info := g_fat32_volume_info s;
     open_file_handles := open_file_handles s; mbr_buffer := mbr_buffer s;
     bpb_data := b; stack := stack s |}.
Definition set_stack (k : nat -> lfn_locals) (s : FS S) : FS S :=
  {| disk := disk s; g_fat32_volume_info := g_fat32_volume_info s;
     open_file_handles := open_file_handles s; mbr_buffer := mbr_buffer s;
     bpb_data := bpb_data s; stack := k |}.
End Setters.

(** The two fields that [parseMBR] assigns. *)
Definition set_partition (v : fat32_volume_info_t) (start total : Z) : fat32_volume_info_t :=
  {| volume_start_lba := start; bytes_per_sector := bytes_per_sector v;
     sectors_per_cluster := sectors_per_cluster v;
     reserved_sector_count := reserved_sector_count v; num_fats := num_fats v;
     fat_size_sectors := fat_size_sectors v; root_dir_cluster := root_dir_cluster v;
     total_sectors := total; total_clusters := total_clusters v;
     first_fat_lba := first_fat_lba v; data_start_lba := data_start_lba v;
     is_initialized := is_initialized v; fsinfo_sector_lba := fsinfo_sector_lba v;
     backup_boot_sector_lba := backup_boot_sector_lba v;
     bytes_per_cluster := bytes_per_cluster v |}.

Definition set_free (b : bool) (h : file_handle_t) : file_handle_t :=
  {| cluster_start := cluster_start h; current_cluster := current_cluster h;
     current_offset := current_offset h; file_size := file_size h;
     current_file_pos := current_file_pos h; is_free := b; mode := mode h |}.
Definition set_position (cluster offset pos : Z) (h : file_handle_t) : file_handle_t :=
  {| cluster_start := cluster_start h; current_cluster := cluster;
     current_offset := offset; file_size := file_size h;
     current_file_pos := pos; is_free := is_free h; mode := mode h |}.

Definition set_it_place (cluster sector entry : Z) (it : fat_directory_iterator_t) :=
  {| it_cluster := cluster; it_sector := sector; it_entry := entry;
     sector_buffer := sector_buffer it; sector_buffer_valid := sector_buffer_valid it;
     lfn_checksum := lfn_checksum it |}.
Definition set_it_buffer (b : list Z) (valid : bool) (it : fat_directory_iterator_t) :=
  {| it_cluster := it_cluster it; it_sector := it_sector it; it_entry := it_entry it;
     sector_buffer := b; sector_buffer_valid := valid; lfn_checksum := lfn_checksum it |}.
Definition set_it_checksum (c : Z) (it : fat_directory_iterator_t) :=
  {| it_cluster := it_cluster it; it_sector := it_sector it; it_entry := it_entry it;
     sector_buffer := sector_buffer it; sector_buffer_valid := sector_buffer_valid it;
     lfn_checksum := c |}.

(** ** The disk and integer helpers *)

Section FAT32.
Context {S : Type} `{BlockDevice S} `{Fuel}.
Implicit Types (v : fat32_volume_info_t).

Definition on_disk {A} (m : M S A) : M (FS S) A := zoom disk set_disk m.

(** Unsigned division; a zero divisor is undefined. *)
Definition udiv (a b : Z) : M (FS S) Z := if b =? 0 then fault else ret (a / b).
Definition umod (a b : Z) : M (FS S) Z := if b =? 0 then fault else ret (a mod b).

(** The parameters are [int]. *)
Definition min (a b : Z) : Z := if i32 a <? i32 b then i32 a else i32 b.

Definition read_sectors {T} `{ByteStore T} (m : T) (lba count buffer : Z) : M (FS S) (bool * T) :=
  let! r := for_exit (Z.to_nat count) 0 (fun i m =>
    let! '(ok, m) := on_disk (read_block m (u32 (lba + i)) (buffer + u32 (i * 512))) in
    if negb ok then ret (inr m) else ret (inl m)) m in
  match r with inl m => ret (true, m) | inr m => ret (false, m) end.

Definition write_sectors {T} `{ByteStore T} (m : T) (lba count buffer : Z) : M (FS S) bool :=
  let! r := for_exit (Z.to_nat count) 0 (fun i _ =>
    let! ok := on_disk (write_block m (u32 (lba + i)) (buffer + u32 (i * 512))) in
    if negb ok then ret (inr tt) else ret (inl tt)) tt in
  match r with inl _ => ret true | inr _ => ret false end.

(** ** Mounting *)

Definition parseMBR : M (FS S) bool :=
  let! mbr := gets mbr_buffer in
  let! '(ok, mbr) := on_disk (read_partial mbr 0 446 0 66) in
  do! modify (set_mbr_buffer mbr) in
  if negb ok then ret false else
  let! mbr_signature := on mbr (read_le16 0 64) in
  if negb (mbr_signature =? 0xAA55) then ret false else
  let! r := for_exit 4 0 (fun i _ =>
    let offset := u16 (i * 16) in
    let! status := on mbr (load8 offset) in
    let! kind := on mbr (load8 (offset + 4)) in
    if negb (Z.land status 0x80 =? 0) && ((kind =? 0x0B) || (kind =? 0x0C)) then
      let! total := on mbr (read_le32 0 (offset + 12)) in
      let! start := on mbr (read_le32 0 (offset + 8)) in
      do! modify (fun s => set_volume (set_partition (g_fat32_volume_info s) start total) s) in
      ret (inr tt)
    else ret (inl tt)) tt in
  match r with inr _ => ret true | inl _ => ret false end.

Definition parseBPB : M (FS S) bool :=
  let! v := gets g_fat32_volume_info in
  let! bpb := gets bpb_data in
  let! '(ok, bpb) := on_disk (read_partial bpb (volume_start_lba v) 0x0B 0 41) in
  do! modify (set_bpb_data bpb) in
  if negb ok then ret false else
  let! bytes := on bpb (read_le16 0 0) in
  let! sectors := on bpb (load8 0x02) in
  let! reserved := on bpb (read_le16 0 0x03) in
  let! fats := on bpb (load8 0x05) in
  let! fat_size := on bpb (read_le32 0 25) in
  let! root := on bpb (read_le32 0 33) in
  let! fsinfo := on bpb (read_le16 0 37) in
  let! backup := on bpb (read_le16 0 39) in
  let first_fat := u32 (volume_start_lba v + reserved) in
  let data_start := u32 (first_fat + u32 (fats * fat_size)) in
  let data_sectors := u32 (total_sectors v - u32 (reserved + u32 (fats * fat_size))) in
  let! clusters := udiv data_sectors sectors in
  do! modify (set_volume
    {| volume_start_lba := volume_start_lba v; bytes_per_sector := bytes;
       sectors_per_cluster := sectors; reserved_sector_count := reserved;
       num_fats := fats; fat_size_sectors := fat_size; root_dir_cluster := root;
       total_sectors := total_sectors v; total_clusters := clusters;
       first_fat_lba := first_fat; data_start_lba := data_start;
       is_initialized := true; fsinfo_sector_lba := fsinfo;
       backup_boot_sector_lba := backup; bytes_per_cluster := sectors * bytes |}) in
  ret true.

(** Update of an open file handle; out of the table is a fault. *)
Definition get_handle (i : Z) : M (FS S) file_handle_t :=
  let! h := gets open_file_handles in of_option (h !! Z.to_nat i).
Definition put_handle (i : Z) (h : file_handle_t) : M (FS S) unit :=
  let! _ := get_handle i in
  modify (fun s => set_handles (<[Z.to_nat i := h]> (open_file_handles s)) s).

Definition fat32_init : M (FS S) bool :=
  let! mbr := parseMBR in
  let! ok := if mbr : bool then parseBPB else ret false in
  if negb ok then ret false else
  do! for_loop (Z.to_nat MAX_OPEN_FILES) 0 (fun i _ =>
    let! h := get_handle i in put_handle i (set_free true h)) tt in
  ret true.

(** ** The file allocation table *)

(** The return code, and what is stored in [*next_cluster_out], if anything. *)
Definition getNextCluster (current_cluster : Z) : M (FS S) (Z * option Z) :=
  let! v := gets g_fat32_volume_info in
  if negb (is_initialized v) then ret (FAT_ERROR_NOT_INITIALIZED, None) else
  if (current_cluster <? 2) || (u32 (total_clusters v + 2) <=? current_cluster) then
    ret (FAT_ERROR_INVALID_CLUSTER, None)
  else
  let fat_entry_offset := u32 (current_cluster * 4) in
  let! fat_sector_offset := udiv fat_entry_offset (bytes_per_sector v) in
  let! fat_byte_in_sector_offset := umod fat_entry_offset (bytes_per_sector v) in
  let fat_sector_lba := u32 (first_fat_lba v + fat_sector_offset) in
  let! '(ok, fat_entry_buffer) := on_disk
    (read_partial (replicate 4 0) fat_sector_lba (u16 fat_byte_in_sector_offset) 0 4) in
  if negb ok then ret (FAT_ERROR_READ_FAIL, None) else
  let! fat_entry_value := on fat_entry_buffer (read_le32 0 0) in
  let fat_entry_value := Z.land fat_entry_value 0x0FFFFFFF in
  if (FAT32_EOC_MARKER_START <=? fat_entry_value) && (fat_entry_value <=? FAT32_LAST_CLUSTER_VALID)
  then ret (FAT_ERROR_END_OF_CHAIN, Some 0)
  else if fat_entry_value =? FAT32_BAD_CLUSTER then ret (FAT32_BAD_CLUSTER, Some 0)
  else if fat_entry_value =? 0 then ret (FAT_ERROR_INVALID_CLUSTER, Some 0)
  else ret (FAT_SUCCESS, Some fat_entry_value).

Definition fatClusterToLba v (cluster : Z) : Z :=
  if cluster <? 2 then 0
  else u32 (data_start_lba v + u32 ((cluster - 2) * sectors_per_cluster v)).

Definition fat_read_cluster {T} `{ByteStore T} (m : T) (cluster buffer : Z) : M (FS S) (Z * T) :=
  let! v := gets g_fat32_volume_info in
  let lba := fatClusterToLba v cluster in
  if lba =? 0 then ret (FAT_ERROR_INVALID_CLUSTER, m) else
  let! '(ok, m) := read_sectors m lba (sectors_per_cluster v) buffer in
  if negb ok then ret (FAT_ERROR_READ_FAIL, m) else ret (FAT_SUCCESS, m).

(** ** Names *)

(** Up to [n] characters at [p], stopping at a space; the new output index. *)
Definition copy_name_part {T} `{ByteStore T} (rd : Z -> M T Z) (n : nat) (p out_name i : Z) : M T Z :=
  let! r := for_exit n 0 (fun j i =>
    let! c := rd (p + j) in
    if c =? 32 then ret (inr i) else
    do! store8 (out_name + i) c in
    ret (inl (u16 (i + 1)))) i in
  match r with inl i => ret i | inr i => ret i end.

Definition fat_sfn_to_string {T} `{ByteStore T} (rd : Z -> M T Z) (sfn_name out_name : Z) : M T unit :=
  let! i := copy_name_part rd 8 sfn_name out_name 0 in
  let! ext := rd (sfn_name + 8) in
  let! i := (if negb (ext =? 32) then
               do! store8 (out_name + i) 46 in
               copy_name_part rd 3 (sfn_name + 8) out_name (u16 (i + 1))
             else ret i) in
  store8 (out_name + i) 0.

Definition fat_sfn_checksum {T} `{ByteStore T} (sfn_name : Z) : M T Z :=
  for_loop 11 0 (fun i sum =>
    let! c := load8 (sfn_name + i) in
    ret (u8 ((if negb (Z.land sum 1 =? 0) then 0x80 else 0) + Z.shiftr sum 1 + c))) 0.

(** What [memcpy] puts in a local array. *)
Fixpoint copy_bytes {T} (rd : Z -> M T Z) (p : Z) (n : nat) : M T (list Z) :=
  match n with
  | O => ret []
  | Datatypes.S n => let! b := rd p in let! l := copy_bytes rd (p + 1) n in ret (b :: l)
  end.

Definition fat_lfn_to_utf8 {T} `{ByteStore T} (rd : Z -> M T Z)
  (utf16_name_part copy_len out_buffer max_len current_out_len : Z) : M T Z :=
  let! buffer := copy_bytes rd utf16_name_part (Z.to_nat copy_len) in
  let original_out_len := current_out_len in
  let! r := for_exit (Z.to_nat (copy_len / 2)) 0 (fun i current_out_len =>
    let! wc := on buffer (read_le16 (2 * i) 0) in
    if (wc =? 0x0000) || (wc =? 0xFFFF) then ret (inr current_out_len) else
    if current_out_len <? u32 (max_len - 1) then
      do! store8 (out_buffer + current_out_len) (if wc <? 0x80 then wc else 63) in
      ret (inl (u32 (current_out_len + 1)))
    else ret (inr current_out_len)) current_out_len in
  let current_out_len := match r with inl n => n | inr n => n end in
  do! store8 (out_buffer + current_out_len) 0 in
  ret (u32 (current_out_len - original_out_len)).

(** ** Directories *)

(** An iterator at the start of the directory in [start_cluster]:
    [sizeof(fat_directory_iterator_t)] zero bytes, then the assignments. *)
Definition start_iter (start_cluster : Z) : fat_directory_iterator_t :=
  {| it_cluster := start_cluster; it_sector := u32 (-1); it_entry := 0;
     sector_buffer := replicate (Z.to_nat SD_BLOCK_SIZE) 0;
     sector_buffer_valid := false; lfn_checksum := 0 |}.

Definition fat_init_root_dir_iterator (iter : option fat_directory_iterator_t) (start_cluster : Z)
  : M (FS S) (Z * option fat_directory_iterator_t) :=
  let! v := gets g_fat32_volume_info in
  if negb (is_initialized v) then ret (FAT_ERROR_NOT_INITIALIZED, iter) else
  match iter with
  | None => ret (FAT_ERROR_BAD_FAT_ENTRY, iter)
  | Some _ => ret (FAT_SUCCESS, Some (start_iter start_cluster))
  end.

(** Advance to the next sector of the directory and load it. *)
Definition load_next_sector (iter : fat_directory_iterator_t)
  : M (FS S) (Z * fat_directory_iterator_t) :=
  let! v := gets g_fat32_volume_info in
  let iter := set_it_place (it_cluster iter) (u32 (it_sector iter + 1)) 0 iter in
  let! '(fat_res, iter) :=
    (if sectors_per_cluster v <=? it_sector iter then
       let! '(res, next_cluster) := getNextCluster (it_cluster iter) in
       let fat_res := to_fat_error res in
       if negb (fat_res =? FAT_SUCCESS) then ret (fat_res, iter) else
       let! next_cluster := of_option next_cluster in
       ret (FAT_SUCCESS, set_it_place next_cluster 0 (it_entry iter) iter)
     else ret (FAT_SUCCESS, iter)) in
  if negb (fat_res =? FAT_SUCCESS) then ret (fat_res, iter) else
  let sector_lba := u32 (fatClusterToLba v (it_cluster iter) + it_sector iter) in
  let! '(ok, buffer) := on_disk (read_block (sector_buffer iter) sector_lba 0) in
  if negb ok then
    ret (FAT_ERROR_READ_FAIL, set_it_buffer buffer (sector_buffer_valid iter) iter)
  else ret (FAT_SUCCESS, set_it_buffer buffer true iter).

(** A long-name entry at [entry] in the sector buffer. *)
Definition process_lfn_entry (entry : Z) (iter : fat_directory_iterator_t) (l : lfn_locals)
  : M (FS S) (fat_directory_iterator_t * lfn_locals) :=
  let rd := fun p => on (sector_buffer iter) (load8 p) in
  let drop_name := (set_it_checksum 0 iter, {| lfn_parts_found := 0; lfn_buffer := lfn_buffer l |}) in
  let! order_flags := on (sector_buffer iter) (load8 entry) in
  let sequence_order := Z.land order_flags (Z.lnot 0x40) in
  if (sequence_order =? 0) || (MAX_LFN_PARTS <? sequence_order) then ret drop_name else
  let! iter := (if negb (Z.land order_flags 0x40 =? 0)
                then let! sum := on (sector_buffer iter) (load8 (entry + offset_of LDIR_Chksum fat_lfn_dir_entry_t)) in
                     ret (Some (set_it_checksum sum iter))
                else if lfn_checksum iter =? 0 then ret None else ret (Some iter)) in
  match iter with
  | None => ret drop_name
  | Some iter =>
      let segment_dest := (sequence_order - 1) * MAX_UTF8_CHARS_PER_LFN_PART in
      let! '(_, buf) := within (lfn_buffer l) (
        let! n1 := fat_lfn_to_utf8 rd (entry + offset_of LDIR_Name1 fat_lfn_dir_entry_t) 10 segment_dest MAX_FILENAME_LEN 0 in
        let len := u32 (0 + n1) in
        let! n2 := fat_lfn_to_utf8 rd (entry + offset_of LDIR_Name2 fat_lfn_dir_entry_t) 12 segment_dest MAX_FILENAME_LEN len in
        let len := u32 (len + n2) in
        fat_lfn_to_utf8 rd (entry + offset_of LDIR_Name3 fat_lfn_dir_entry_t) 4 segment_dest MAX_FILENAME_LEN len) in
      ret (iter, {| lfn_parts_found := u8 (lfn_parts_found l + 1); lfn_buffer := buf |})
  end.

(** The long name from its parts, into [filename]. *)
Definition assemble_name (l : lfn_locals) : M (list Z) unit :=
  do! store8 0 0 in
  do! for_loop (Z.to_nat (lfn_parts_found l)) 0 (fun i _ =>
    let row := i * MAX_UTF8_CHARS_PER_LFN_PART in
    let! c := on (lfn_buffer l) (load8 row) in
    if c =? 0 then ret tt else
    let! n := strlen fuel 0 in
    do! strncat fuel (fun p => on (lfn_buffer l) (load8 p)) 0 row (u32 (MAX_FILENAME_LEN - 1 - n)) in
    ret tt) tt in
  store8 (MAX_FILENAME_LEN - 1) 0.

(** A short-name entry at [entry], after the parts [l] of its long name. *)
Definition process_sfn_entry (entry : Z) (iter : fat_directory_iterator_t) (l : lfn_locals)
  (info : fat_file_info_t) : M (FS S) fat_file_info_t :=
  let buf := sector_buffer iter in
  let! sum := on buf (fat_sfn_checksum entry) in
  let! '(_, name) := within (filename info)
    (if negb (lfn_checksum iter =? 0) && (sum =? lfn_checksum iter) then assemble_name l
     else fat_sfn_to_string (fun p => on buf (load8 p)) entry 0) in
  let! hi := on buf (read_le16 entry 20) in
  let! lo := on buf (read_le16 entry 26) in
  let! size := on buf (read_le32 entry 28) in
  let! attr := on buf (load8 (entry + offset_of DIR_Attr fat_sfn_dir_entry_t)) in
  ret {| filename := name; first_cluster := u32 (Z.lor (Z.shiftl hi 16) lo);
         info_size := size; attributes := attr;
         is_directory := negb (Z.land attr FAT_ATTR_DIRECTORY =? 0) |}.

(** The uninitialised locals of a call. *)
Definition pop_locals : M (FS S) lfn_locals :=
  let! k := gets stack in
  do! modify (set_stack (fun n => k (Datatypes.S n))) in
  ret (k O).

(** Where the loop of [fat_read_next_dir_entry] stands after an entry: [inl]
    continues with the next one. *)
Definition dir_loop : Type :=
  fat_directory_iterator_t * fat_file_info_t * lfn_locals +
  Z * fat_directory_iterator_t * fat_file_info_t.

(** The entry at [entry] in the sector buffer. *)
Definition process_entry (entry : Z) (iter : fat_directory_iterator_t) (info : fat_file_info_t)
  (l : lfn_locals) : M (FS S) dir_loop :=
  let! first_byte := on (sector_buffer iter) (load8 entry) in
  if first_byte =? 0x00 then ret (inr (FAT_ERROR_NO_MORE_ENTRIES, iter, info)) else
  if first_byte =? 0xE5 then ret (inl (iter, info, l)) else
  let! attr := on (sector_buffer iter) (load8 (entry + offset_of DIR_Attr fat_sfn_dir_entry_t)) in
  if Z.land attr FAT_ATTR_LFN =? FAT_ATTR_LFN then
    let! '(iter, l) := process_lfn_entry entry iter l in
    ret (inl (iter, info, l))
  else
    let! info := process_sfn_entry entry iter l info in
    let l := {| lfn_parts_found := 0; lfn_buffer := lfn_buffer l |} in
    let iter := set_it_checksum 0 iter in
    if negb (Z.land (attributes info) FAT_ATTR_VOLUME_ID =? 0) && negb (is_directory info)
    then ret (inl (iter, info, l))
    else ret (inr (FAT_SUCCESS, iter, info)).

(** The body of the loop: load a sector when the buffer is used up, and
    process the next entry. *)
Definition dir_entry_step (entries_per_sector : Z)
  : fat_directory_iterator_t * fat_file_info_t * lfn_locals -> M (FS S) dir_loop :=
  fun '(iter, info, l) =>
  let! '(res, iter) :=
    (if negb (sector_buffer_valid iter) || (entries_per_sector <=? it_entry iter)
     then load_next_sector iter else ret (FAT_SUCCESS, iter)) in
  if negb (res =? FAT_SUCCESS) then ret (inr (res, iter, info)) else
  let entry := it_entry iter * 32 in
  process_entry entry
    (set_it_place (it_cluster iter) (it_sector iter) (u16 (it_entry iter + 1)) iter) info l.

Definition fat_read_next_dir_entry (iter : option fat_directory_iterator_t)
  (file_info_out : option fat_file_info_t)
  : M (FS S) (Z * option fat_directory_iterator_t * option fat_file_info_t) :=
  let! l := pop_locals in
  let! v := gets g_fat32_volume_info in
  if negb (is_initialized v) then ret (FAT_ERROR_NOT_INITIALIZED, iter, file_info_out) else
  match file_info_out, iter with
  | Some info, Some it =>
      let! '(res, it, info) :=
        while_loop fuel (dir_entry_step (bytes_per_sector v / 32)) (it, info, l) in
      ret (res, Some it, Some info)
  | _, _ => ret (FAT_ERROR_BAD_FAT_ENTRY, iter, file_info_out)
  end.

(** ** Files *)

(** Move the open file [file_id] forward, into the next cluster at the end of
    one: [Some] is the result with which [fat_read_file] leaves its loop. *)
Definition advance_position (file_id : Z) (h : file_handle_t) (bytes_to_copy : Z) : M (FS S) (option Z) :=
  let! v := gets g_fat32_volume_info in
  let h := set_position (current_cluster h) (u32 (current_offset h + bytes_to_copy))
             (u32 (current_file_pos h + bytes_to_copy)) h in
  do! put_handle file_id h in
  if bytes_per_cluster v <=? current_offset h then
    let! '(res, next_cluster) := getNextCluster (current_cluster h) in
    let res := to_fat_error res in
    if res =? FAT_ERROR_END_OF_CHAIN then ret (Some FAT_SUCCESS) else
    if negb (res =? FAT_SUCCESS) then ret (Some res) else
    let! next_cluster := of_option next_cluster in
    do! put_handle file_id (set_position next_cluster 0 (current_file_pos h) h) in
    ret None
  else ret None.

(** One iteration of the loop of [fat_read_file]: [inl] continues, with the
    bytes read and the caller's memory. *)
Definition read_file_step {T} `{ByteStore T} (file_id buffer actual_bytes_to_read : Z)
  : Z * T -> M (FS S) (Z * T + Z * T) := fun '(bytes_read_total, m) =>
  if negb (bytes_read_total <? actual_bytes_to_read) then ret (inr (FAT_SUCCESS, m)) else
  let! v := gets g_fat32_volume_info in
  let! h := get_handle file_id in
  let! current_sector_in_cluster := udiv (current_offset h) (bytes_per_sector v) in
  let! current_byte_in_sector := umod (current_offset h) (bytes_per_sector v) in
  let current_sector_lba := u32 (fatClusterToLba v (current_cluster h) + current_sector_in_cluster) in
  let bytes_left_in_sector := u32 (bytes_per_sector v - current_byte_in_sector) in
  let bytes_to_copy := u32 (min (u32 (actual_bytes_to_read - bytes_read_total)) bytes_left_in_sector) in
  let! '(ok, m) := on_disk (read_partial m current_sector_lba (u16 current_byte_in_sector)
                              (buffer + bytes_read_total) (u16 bytes_to_copy)) in
  if negb ok then ret (inr (FAT_ERROR_READ_FAIL, m)) else
  let! r := advance_position file_id h bytes_to_copy in
  match r with
  | Some res => ret (inr (res, m))
  | None => ret (inl (u32 (bytes_read_total + bytes_to_copy), m))
  end.

Definition fat_read_file {T} `{ByteStore T} (m : T) (file_id buffer bytes_to_read : Z)
  : M (FS S) (Z * T) :=
  let! v := gets g_fat32_volume_info in
  if negb (is_initialized v) then ret (FAT_ERROR_NOT_INITIALIZED, m) else
  if buffer =? NULL then ret (FAT_ERROR_BAD_FAT_ENTRY, m) else
  if MAX_OPEN_FILES <=? file_id then ret (FAT_ERROR_BAD_FAT_ENTRY, m) else
  let! h := get_handle file_id in
  if is_free h then ret (FAT_ERROR_BAD_FAT_ENTRY, m) else
  let actual_bytes_to_read :=
    u32 (min bytes_to_read (u32 (file_size h - current_file_pos h))) in
  if actual_bytes_to_read =? 0 then ret (FAT_SUCCESS, m) else
  while_loop fuel (read_file_step file_id buffer actual_bytes_to_read) (0, m).

(** The next component of [path] into [name_buffer]: the rest of the path, the
    buffer, and whether the component is the last. *)
Definition path_component {T} `{ByteStore T} (m : T) (path : Z) (name_buffer : list Z)
  : M (FS S) (Z * list Z * bool) :=
  let! '(path, i, name) := while_loop fuel (fun '(path, i, name) =>
    let! c := on m (load8 path) in
    if (c =? 47) || (c =? 0) then ret (inr (path, i, name)) else
    if i <? MAX_FILENAME_LEN - 1 then
      let! '(_, name) := within name (store8 i c) in
      ret (inl (path + 1, u16 (i + 1), name))
    else ret (inl (path + 1, i, name))) (path, 0, name_buffer) in
  let! '(_, name) := within name (store8 i 0) in
  let! c := on m (load8 path) in
  if c =? 0 then ret (path, name, true) else ret (path + 1, name, false).

(** Search the current directory for [name]; in the result, [inl] returns from
    [get_file] and [inr] goes on in the subdirectory found. *)
Definition search_step (name : list Z) (final_path_component : bool) (file : option fat_file_info_t)
  : fat_directory_iterator_t * fat_file_info_t ->
    M (FS S) (fat_directory_iterator_t * fat_file_info_t +
              (Z * option fat_file_info_t + fat_directory_iterator_t * fat_file_info_t)) :=
  fun '(iter, entry) =>
    let! '(result, iter, entry) := fat_read_next_dir_entry (Some iter) (Some entry) in
    let! iter := of_option iter in
    let! entry := of_option entry in
    if result =? FAT_SUCCESS then
      let! d := strcmp fuel (fun p => on name (load8 p)) (fun p => on (filename entry) (load8 p)) 0 0 in
      if negb (d =? 0) then ret (inl (iter, entry)) else
      if is_directory entry && negb final_path_component then
        let! '(init_res, iter) := fat_init_root_dir_iterator (Some iter) (first_cluster entry) in
        let! iter := of_option iter in
        if negb (init_res =? FAT_SUCCESS) then ret (inr (inl (init_res, file)))
        else ret (inr (inr (iter, entry)))
      else if final_path_component && negb (is_directory entry) then
        ret (inr (inl (FAT_SUCCESS, Some entry)))
      else if final_path_component && is_directory entry then
        ret (inr (inl (FAT_ERROR_FILE_NOT_FOUND, file)))
      else ret (inl (iter, entry))
    else if result =? FAT_ERROR_NO_MORE_ENTRIES then
      ret (inr (inl (FAT_ERROR_FILE_NOT_FOUND, file)))
    else ret (inr (inl (result, file))).

Definition search_directory (name : list Z) (final_path_component : bool)
  (file : option fat_file_info_t) (iter : fat_directory_iterator_t) (entry : fat_file_info_t)
  : M (FS S) (Z * option fat_file_info_t + fat_directory_iterator_t * fat_file_info_t) :=
  while_loop fuel (search_step name final_path_component file) (iter, entry).

(** Locals that are written before they are read. *)
Definition fresh_name : list Z := replicate (Z.to_nat MAX_FILENAME_LEN) 0.
Definition fresh_iter : fat_directory_iterator_t :=
  {| it_cluster := 0; it_sector := 0; it_entry := 0;
     sector_buffer := replicate (Z.to_nat SD_BLOCK_SIZE) 0;
     sector_buffer_valid := false; lfn_checksum := 0 |}.
Definition fresh_info : fat_file_info_t :=
  {| filename := fresh_name; first_cluster := 0; info_size := 0; attributes := 0;
     is_directory := false |}.

(** One component of the path: [inr] returns from [get_file]. *)
Definition get_file_step {T} `{ByteStore T} (m : T) (file : option fat_file_info_t)
  : Z * list Z * fat_directory_iterator_t * fat_file_info_t ->
    M (FS S) (Z * list Z * fat_directory_iterator_t * fat_file_info_t + Z * option fat_file_info_t) :=
  fun '(path, name, iter, entry) =>
    let! '(path, name, final_path_component) := path_component m path name in
    let! c := on name (load8 0) in
    if (c =? 0) && negb final_path_component then ret (inl (path, name, iter, entry)) else
    let! r := search_directory name final_path_component file iter entry in
    match r with
    | inl result => ret (inr result)
    | inr (iter, entry) => ret (inl (path, name, iter, entry))
    end.

Definition get_file {T} `{ByteStore T} (m : T) (path : Z) (file : option fat_file_info_t)
  : M (FS S) (Z * option fat_file_info_t) :=
  if (path =? NULL) || match file with None => true | Some _ => false end then ret (FAT_ERROR_BAD_FAT_ENTRY, file) else
  let! v := gets g_fat32_volume_info in
  let! '(init_res, dir_iter) := fat_init_root_dir_iterator (Some fresh_iter) (root_dir_cluster v) in
  if negb (init_res =? FAT_SUCCESS) then ret (init_res, file) else
  let! dir_iter := of_option dir_iter in
  while_loop fuel (get_file_step m file) (path + 1, fresh_name, dir_iter, fresh_info).

Definition fat32_open {T} `{ByteStore T} (m : T) (path mode : Z) : M (FS S) Z :=
  let! '(res, file) := get_file m path (Some fresh_info) in
  if negb (res =? FAT_SUCCESS) then ret (u32 (-1)) else
  let! file := of_option file in
  let! r := for_exit (Z.to_nat MAX_OPEN_FILES) 0 (fun i _ =>
    let! h := get_handle i in
    if is_free h then
      do! put_handle i
        {| cluster_start := first_cluster file; current_cluster := first_cluster file;
           current_offset := 0; file_size := info_size file; current_file_pos := 0;
           is_free := false; mode := u8 mode |} in
      ret (inr i)
    else ret (inl tt)) tt in
  match r with inr i => ret i | inl _ => ret (u32 (-1)) end.

Definition fat32_close (file_id : Z) : M (FS S) bool :=
  if MAX_OPEN_FILES <=? file_id then ret false else
  let! h := get_handle file_id in
  do! put_handle file_id (set_free true h) in
  ret true.

Definition fat32_read {T} `{ByteStore T} (m : T) (file_id buffer bytes_to_read : Z)
  : M (FS S) (bool * T) :=
  if (MAX_OPEN_FILES <=? file_id) || (buffer =? NULL) then ret (false, m) else
  let! h := get_handle file_id in
  if is_free h then ret (false, m) else
  let! '(res, m) := fat_read_file m file_id buffer bytes_to_read in
  ret (res =? FAT_SUCCESS, m).

Definition fat32_get_size (file_id : Z) : M (FS S) Z :=
  if MAX_OPEN_FILES <=? file_id then ret 0 else
  let! h := get_handle file_id in
  ret (file_size h).
End FAT32.
