(* ===== verification/FatVolume.v ===== *)
(** * Mounting and the allocation table

    What fat32_init makes of the master boot record and of the boot sector,
    the conditions on the volume that the rest of the file system relies on,
    and getNextCluster against the allocation table on the disk. *)
From S2P Require Import Prelude Bytes Hexutils Block FAT32.

(** ** Steps that leave everything but the disk's own state alone *)

Section Disk.
Context {S : Type} `{BL : BlockLaws S}.
Implicit Types (s : FS S) (v : fat32_volume_info_t).

Definition disk_data s : Z -> option (list Z) := bd_data (disk s).

Definition disk_step s s' : Prop :=
  exists d, s' = set_disk d s /\ bd_ok d /\ bd_data d = disk_data s.

Lemma disk_step_refl s : bd_ok (disk s) -> disk_step s s.
Proof. intros Hs. exists (disk s). by destruct s. Qed.

Lemma disk_step_trans s1 s2 s3 : disk_step s1 s2 -> disk_step s2 s3 -> disk_step s1 s3.
Proof.
  intros (d & -> & Hd & E) (d' & -> & Hd' & E'). exists d'. split; [done|].
  split; [done|]. by rewrite E', <- E.
Qed.

Lemma disk_step_ok s s' : disk_step s s' -> bd_ok (disk s').
Proof. by intros (d & -> & Hd & _). Qed.
Lemma disk_step_data s s' : disk_step s s' -> disk_data s' = disk_data s.
Proof. by intros (d & -> & _ & E). Qed.
Lemma disk_step_volume s s' : disk_step s s' -> g_fat32_volume_info s' = g_fat32_volume_info s.
Proof. by intros (d & -> & _). Qed.
Lemma disk_step_handles s s' : disk_step s s' -> open_file_handles s' = open_file_handles s.
Proof. by intros (d & -> & _). Qed.

Lemma on_disk_partial_ok {T} `{ByteStore T} (m : T) s a offset buffer n data Q :
  bd_ok (disk s) -> is_u32 a -> disk_data s a = Some data ->
  0 <= offset -> 0 <= n -> offset + n <= SD_BLOCK_SIZE -> mapped m buffer (buffer + n) ->
  (forall m' s', writes m buffer (take (Z.to_nat n) (drop (Z.to_nat offset) data)) m' ->
     disk_step s s' -> Q (true, m') s') ->
  wp (on_disk (read_partial m a offset buffer n)) Q s.
Proof.
  intros Hs Ha Hd Ho Hn Hon Hm HQ. unfold on_disk. apply wpg_zoom.
  eapply wpg_mono; [by eapply read_partial_ok|]. intros [ok m'] d (-> & W & Hd' & E).
  apply HQ; [done|]. by exists d.
Qed.

Lemma on_disk_partial_fails {T} `{ByteStore T} (m : T) s a offset buffer n Q :
  bd_ok (disk s) -> is_u32 a -> disk_data s a = None ->
  (forall s', disk_step s s' -> Q (false, m) s') ->
  wp (on_disk (read_partial m a offset buffer n)) Q s.
Proof.
  intros Hs Ha Hd HQ. unfold on_disk. apply wpg_zoom.
  eapply wpg_mono; [by eapply read_partial_fails|]. intros [ok m'] d (-> & -> & Hd' & E).
  apply HQ. by exists d.
Qed.

Lemma on_disk_block_ok {T} `{ByteStore T} (m : T) s a buffer data Q :
  bd_ok (disk s) -> is_u32 a -> disk_data s a = Some data ->
  mapped m buffer (buffer + SD_BLOCK_SIZE) ->
  (forall m' s', writes m buffer data m' -> disk_step s s' -> Q (true, m') s') ->
  wp (on_disk (read_block m a buffer)) Q s.
Proof.
  intros Hs Ha Hd Hm HQ. unfold on_disk. apply wpg_zoom.
  eapply wpg_mono; [by eapply read_block_ok|]. intros [ok m'] d (-> & W & Hd' & E).
  apply HQ; [done|]. by exists d.
Qed.

Lemma on_disk_block_fails {T} `{ByteStore T} (m : T) s a buffer Q :
  bd_ok (disk s) -> is_u32 a -> disk_data s a = None ->
  (forall s', disk_step s s' -> Q (false, m) s') ->
  wp (on_disk (read_block m a buffer)) Q s.
Proof.
  intros Hs Ha Hd HQ. unfold on_disk. apply wpg_zoom.
  eapply wpg_mono; [by eapply read_block_fails|]. intros [ok m'] d (-> & -> & Hd' & E).
  apply HQ. by exists d.
Qed.

Lemma udiv_ok a b (Q : Z -> FS S -> Prop) s : b <> 0 -> Q (a / b) s -> wp (udiv a b) Q s.
Proof. intros Hb HQ. unfold udiv. destruct (Z.eqb_spec b 0); [done|]. by apply wpg_ret. Qed.
Lemma umod_ok a b (Q : Z -> FS S -> Prop) s : b <> 0 -> Q (a mod b) s -> wp (umod a b) Q s.
Proof. intros Hb HQ. unfold umod. destruct (Z.eqb_spec b 0); [done|]. by apply wpg_ret. Qed.
End Disk.

(** ** The allocation table *)

(** A mounted volume: 512-byte sectors, and a table and a data area that do
    not wrap around the 32-bit block numbers. *)
Record volume_ok (v : fat32_volume_info_t) : Prop := {
  vo_init : is_initialized v = true;
  vo_sector : bytes_per_sector v = 512;
  vo_cluster : 0 < sectors_per_cluster v < 256;
  vo_bytes : bytes_per_cluster v = sectors_per_cluster v * 512;
  vo_count : 0 <= total_clusters v <= 0x0FFFFFF5;
  vo_root : is_u32 (root_dir_cluster v);
  vo_fat : 0 <= first_fat_lba v /\ first_fat_lba v + (total_clusters v + 2) / 128 < 4294967296;
  vo_data : 0 < data_start_lba v /\
            data_start_lba v + total_clusters v * sectors_per_cluster v <= 4294967296;
}.

Definition valid_cluster (v : fat32_volume_info_t) (c : Z) : Prop := 2 <= c < total_clusters v + 2.
#[export] Instance valid_cluster_dec v c : Decision (valid_cluster v c).
Proof. unfold valid_cluster. apply _. Defined.

(** Entry [c] of the table on the disk [D], 28 bits. *)
Definition fat_entry (v : fat32_volume_info_t) (D : Z -> option (list Z)) (c : Z) : option Z :=
  data ← D (first_fat_lba v + c / 128);
  Some (le_at 4 data (4 * (c mod 128)) mod 2 ^ 28).

(** What an entry means. *)
Definition classify_entry (e : Z) : Z * option Z :=
  if 0x0FFFFFF8 <=? e then (FAT_ERROR_END_OF_CHAIN, Some 0)
  else if e =? 0x0FFFFFF7 then (FAT32_BAD_CLUSTER, Some 0)
  else if e =? 0 then (FAT_ERROR_INVALID_CLUSTER, Some 0)
  else (FAT_SUCCESS, Some e).

Definition next_cluster (v : fat32_volume_info_t) (D : Z -> option (list Z)) (c : Z) : Z * option Z :=
  if decide (valid_cluster v c) then
    match fat_entry v D c with
    | None => (FAT_ERROR_READ_FAIL, None)
    | Some e => classify_entry e
    end
  else (FAT_ERROR_INVALID_CLUSTER, None).

Lemma land_28 x : Z.land x 0x0FFFFFFF = x mod 2 ^ 28.
Proof. change 0x0FFFFFFF with (Z.ones 28). by rewrite Z.land_ones. Qed.

(** Where a table entry is, for any sector size. *)
Lemma fat_entry_place v c :
  volume_ok v -> valid_cluster v c ->
  u32 (c * 4) / 512 = c / 128 /\ u16 (u32 (c * 4) mod 512) = 4 * (c mod 128) /\
  is_u32 (first_fat_lba v + c / 128) /\ 0 <= c / 128.
Proof.
  intros Hv [Hc1 Hc2]. destruct Hv as [_ _ _ _ Ht _ Hf _].
  assert (c / 128 <= (total_clusters v + 2) / 128) by (apply Z.div_le_mono; lia).
  rewrite u32_small by (unfold is_u32; lia). rewrite u16_small by (unfold is_u16; dlia).
  split; [dlia|]. split; [dlia|]. split; [unfold is_u32; dlia|dlia].
Qed.

Section Table.
Context {S : Type} `{BL : BlockLaws S}.
Implicit Types (s : FS S) (v : fat32_volume_info_t).

Lemma getNextCluster_ok s c (Q : Z * option Z -> FS S -> Prop) :
  let v := g_fat32_volume_info s in
  volume_ok v -> bd_ok (disk s) -> is_u32 c ->
  (forall s', disk_step s s' -> Q (next_cluster v (disk_data s) c) s') ->
  wp (getNextCluster c) Q s.
Proof.
  intros v Hv Hs Hc HQ. unfold getNextCluster, next_cluster in *. wp_steps. fold v.
  rewrite (vo_init v Hv). cbn [negb]. pose proof (vo_count v Hv) as Ht.
  rewrite (u32_small (total_clusters v + 2)) by (unfold is_u32; lia).
  destruct (decide (valid_cluster v c)) as [Hval|Hval]; unfold valid_cluster in Hval.
  2: { destruct (Z.ltb_spec c 2), (Z.leb_spec (total_clusters v + 2) c); cbn [orb]; try lia;
       apply HQ, disk_step_refl, Hs. }
  destruct (Z.ltb_spec c 2), (Z.leb_spec (total_clusters v + 2) c); cbn [orb]; try lia.
  destruct (fat_entry_place v c Hv Hval) as (E1 & E2 & Hl & Hp).
  rewrite (vo_sector v Hv). wp_step. apply udiv_ok; [done|]. wp_step. apply umod_ok; [done|].
  rewrite E1, E2, (u32_small _ Hl). wp_step. unfold fat_entry in HQ.
  destruct (disk_data s (first_fat_lba v + c / 128)) as [data|] eqn:Ed.
  2: { apply on_disk_partial_fails; [done|done|done|]. intros s' S'. by apply HQ. }
  pose proof (bd_size _ _ _ Hs Ed) as [Hlen Hb]. unfold SD_BLOCK_SIZE in Hlen.
  assert (0 <= 4 * (c mod 128) <= 508) as Hr by dlia.
  eapply on_disk_partial_ok; [done|done|done|lia|lia|unfold SD_BLOCK_SIZE; lia| |].
  { apply list_mapped; cbn; lia. }
  intros m' s' W S'. apply list_writes_all in W.
  2: { rewrite length_take, length_drop, Hlen, length_replicate. lia. }
  cbn [negb]. wp_step. wp_step. subst m'.
  change (Z.to_nat 4) with 4%nat. apply list_le32_ok.
  - by apply Forall_take, Forall_drop.
  - done.
  - done.
  - rewrite length_take, length_drop, Hlen. lia.
  - rewrite land_28. specialize (HQ s' S'). cbn [mbind option_bind] in HQ.
    rewrite le_at_slice.
    set (e := le_at 4 data (4 * (c mod 128)) mod 2 ^ 28) in *.
    assert (0 <= e < 2 ^ 28) by (apply Z.mod_pos_bound; lia).
    unfold FAT32_EOC_MARKER_START, FAT32_LAST_CLUSTER_VALID, FAT32_BAD_CLUSTER.
    unfold classify_entry in HQ.
    destruct (Z.leb_spec 0xFFFFFF8 e), (Z.leb_spec e 0xFFFFFFF); cbn [andb]; try lia;
      [exact HQ|].
    destruct (e =? 0xFFFFFF7); [exact HQ|]. by destruct (e =? 0).
Qed.

(** C8: [getNextCluster] returns what the allocation table on the disk says of a
    cluster of the volume, tells an end of chain, a bad cluster, a free entry
    and an unreadable table apart, and refuses any other cluster number; it
    changes nothing but the state of the card. *)
Theorem getNextCluster_spec s c :
  let v := g_fat32_volume_info s in
  volume_ok v -> bd_ok (disk s) -> is_u32 c ->
  wp (getNextCluster c) (fun r s' => r = next_cluster v (disk_data s) c /\ disk_step s s') s.
Proof. intros v Hv Hs Hc. by apply getNextCluster_ok. Qed.

Lemma getNextCluster_uninitialised s c :
  is_initialized (g_fat32_volume_info s) = false ->
  getNextCluster c s = Ok ((FAT_ERROR_NOT_INITIALIZED, None), s).
Proof. intros Hi. unfold getNextCluster, bind, gets. by rewrite Hi. Qed.
End Table.

(** ** Mounting *)

(** Partition [i] of a master boot record is active and holds FAT32. *)
Definition fat32_partition (M : list Z) (i : Z) : bool :=
  let status := le_at 1 M (446 + 16 * i) in
  let kind := le_at 1 M (446 + 16 * i + 4) in
  negb (Z.land status 0x80 =? 0) && ((kind =? 0x0B) || (kind =? 0x0C)).

(** The first such partition from [i] on, among the next [n]. *)
Fixpoint first_partition (M : list Z) (n : nat) (i : Z) : option Z :=
  match n with
  | O => None
  | S n => if fat32_partition M i then Some i else first_partition M n (i + 1)
  end.

(** First block and number of sectors of the partition that is mounted. *)
Definition boot_partition (M : list Z) : option (Z * Z) :=
  if le_at 2 M 510 =? 0xAA55 then
    i ← first_partition M 4 0;
    Some (le_at 4 M (446 + 16 * i + 8), le_at 4 M (446 + 16 * i + 12))
  else None.

(** The volume that boot sector [B] of a partition describes. *)
Definition boot_volume (start total : Z) (B : list Z) : fat32_volume_info_t :=
  let reserved := le_at 2 B 14 in
  let fats_size := u32 (le_at 1 B 16 * le_at 4 B 36) in
  {| volume_start_lba := start;
     bytes_per_sector := le_at 2 B 11;
     sectors_per_cluster := le_at 1 B 13;
     reserved_sector_count := reserved;
     num_fats := le_at 1 B 16;
     fat_size_sectors := le_at 4 B 36;
     root_dir_cluster := le_at 4 B 44;
     total_sectors := total;
     total_clusters := u32 (total - u32 (reserved + fats_size)) / le_at 1 B 13;
     first_fat_lba := u32 (start + reserved);
     data_start_lba := u32 (u32 (start + reserved) + fats_size);
     is_initialized := true;
     fsinfo_sector_lba := le_at 2 B 48;
     backup_boot_sector_lba := le_at 2 B 50;
     bytes_per_cluster := le_at 1 B 13 * le_at 2 B 11 |}.

(** What is mounted from the disk [D], if anything. *)
Definition mount (D : Z -> option (list Z)) : option fat32_volume_info_t :=
  M ← D 0; '(start, total) ← boot_partition M; B ← D start; Some (boot_volume start total B).

Lemma le_at_1 l p b : 0 <= p -> l !! Z.to_nat p = Some b -> le_at 1 l p = b.
Proof.
  intros Hp Hb. unfold le_at. rewrite (drop_S l b _ Hb), firstn_cons. cbn [take le_combine]. rewrite take_0. cbn [le_combine]. lia.
Qed.

Lemma list_byte_ok h (l : list Z) p (Q : Z -> list Z -> Prop) :
  0 <= p -> p < Z.of_nat (length l) -> Q (le_at 1 l p) l -> wpg h (load8 p) Q l.
Proof.
  intros Hp Hl HQ. destruct (lookup_lt_is_Some_2 l (Z.to_nat p)) as [b Hb]; [lia|].
  eapply list_load8_ok; [done|done|]. by rewrite <- (le_at_1 l p b Hp Hb).
Qed.

Section Mount.
Context {S : Type} `{BL : BlockLaws S}.
Implicit Types (s : FS S) (v : fat32_volume_info_t).

(** Reading part of a block into an array of that size. *)
Lemma read_array_ok (m : list Z) s a offset n (Q : bool * list Z -> FS S -> Prop) :
  bd_ok (disk s) -> is_u32 a -> 0 <= offset -> 0 <= n -> offset + n <= SD_BLOCK_SIZE ->
  length m = Z.to_nat n ->
  (forall s' m', disk_step s s' ->
     match disk_data s a with
     | None => Q (false, m') s'
     | Some data => length data = 512%nat -> Forall is_u8 data ->
                    Q (true, take (Z.to_nat n) (drop (Z.to_nat offset) data)) s'
     end) ->
  wp (on_disk (read_partial m a offset 0 n)) Q s.
Proof.
  intros Hs Ha Ho Hn Hon Hm HQ. destruct (disk_data s a) as [data|] eqn:Ed.
  - pose proof (bd_size _ _ _ Hs Ed) as [Hlen Hb]. unfold SD_BLOCK_SIZE in *.
    eapply on_disk_partial_ok; [done|done|done|done|done|done| |].
    { apply list_mapped; lia. }
    intros m' s' W S'. apply list_writes_all in W; [|rewrite length_take, length_drop; lia].
    subst m'. apply (HQ s' m S'); [lia|done].
  - apply on_disk_partial_fails; [done|done|done|]. intros s'. apply HQ.
Qed.

(** The partition table in the 66 bytes that [parseMBR] reads. *)
Lemma mbr_search_ok M n i s (Q : unit + unit -> FS S -> Prop) (mbr := take 66 (drop 446 M)) :
  length M = 512%nat -> Forall is_u8 M -> 0 <= i -> i + Z.of_nat n <= 4 ->
  match first_partition M n i with
  | None => Q (inl tt) s
  | Some i => Q (inr tt) (set_volume (set_partition (g_fat32_volume_info s)
      (le_at 4 M (446 + 16 * i + 8)) (le_at 4 M (446 + 16 * i + 12))) s)
  end ->
  wp (for_exit n i (fun i _ =>
    let offset := u16 (i * 16) in
    let! status := on mbr (load8 offset) in
    let! kind := on mbr (load8 (offset + 4)) in
    if negb (Z.land status 0x80 =? 0) && ((kind =? 0x0B) || (kind =? 0x0C)) then
      let! total := on mbr (read_le32 0 (offset + 12)) in
      let! start := on mbr (read_le32 0 (offset + 8)) in
      do! modify (fun s => set_volume (set_partition (g_fat32_volume_info s) start total) s) in
      ret (inr tt)
    else ret (inl tt)) tt) Q s.
Proof.
  intros HM Hb. assert (length mbr = 66%nat) as Hlen by (unfold mbr; rewrite length_take, length_drop; lia).
  assert (Forall is_u8 mbr) as Hmb by (by apply Forall_take, Forall_drop).
  assert (forall k p, 0 <= p -> (Z.to_nat p + k <= 66)%nat -> le_at k mbr p = le_at k M (446 + p)) as Hat
    by (intros; by apply (le_at_sub k M 66 446)).
  clearbody mbr. revert i. induction n as [|n IH]; intros i Hi Hn HQ; cbn [for_exit first_partition] in *;
    [exact HQ|].
  rewrite u16_small by (unfold is_u16; lia). unfold fat32_partition in HQ. wp_steps.
  apply list_byte_ok; [lia|lia|]. wp_steps. apply list_byte_ok; [lia|lia|].
  rewrite !Hat by lia.
  replace (446 + 16 * i) with (446 + i * 16) in HQ by lia.
  rewrite <- Z.add_assoc in HQ.
  destruct (negb _ && _).
  - wp_steps. apply list_le32_ok; [done|lia|unfold is_u16; lia|lia|]. wp_steps.
    apply list_le32_ok; [done|lia|unfold is_u16; lia|lia|]. wp_steps.
    rewrite !Z.add_0_l, !Hat by lia. replace (446 + 16 * i) with (446 + i * 16) in HQ by lia.
    by rewrite <- !Z.add_assoc in HQ.
  - wp_step. apply IH; [lia|lia|exact HQ].
Qed.

(** What a read of the disk may change in the globals while mounting. *)
Definition mount_step s s' : Prop :=
  bd_ok (disk s') /\ disk_data s' = disk_data s /\
  open_file_handles s' = open_file_handles s /\ stack s' = stack s /\
  is_initialized (g_fat32_volume_info s') = is_initialized (g_fat32_volume_info s).

Lemma parseMBR_ok s (Q : bool -> FS S -> Prop) :
  bd_ok (disk s) -> length (mbr_buffer s) = 66%nat ->
  (forall s', mount_step s s' -> bpb_data s' = bpb_data s ->
     match M ← disk_data s 0; boot_partition M with
     | None => Q false s'
     | Some (start, total) => is_u32 start ->
         volume_start_lba (g_fat32_volume_info s') = start ->
         total_sectors (g_fat32_volume_info s') = total -> Q true s'
     end) ->
  wp parseMBR Q s.
Proof.
  intros Hs Hbuf HQ. unfold parseMBR. wp_step. wp_step. wp_step.
  apply read_array_ok; [done|done|done|done|done|done|].
  intros s1 mbr (d & -> & Hd & Ed). fold (disk_data s) in *.
  destruct (disk_data s 0) as [M|] eqn:EM.
  2: { wp_steps. cbn [negb]. wp_steps. by apply HQ. }
  intros HM Hb. wp_steps. cbn [negb]. change (Z.to_nat 66) with 66%nat. change (Z.to_nat 446) with 446%nat.
  wp_steps. apply list_le16_ok; [by apply Forall_take, Forall_drop|done|done| |].
  { rewrite length_take, length_drop. lia. }
  change 446%nat with (Z.to_nat 446). rewrite le_at_sub by lia. cbn [Z.add Pos.add] in *.
  cbn [mbind option_bind] in HQ. unfold boot_partition in HQ. destruct (_ =? 0xAA55).
  2: { cbn [negb]. wp_steps. by apply HQ. }
  cbn [negb]. wp_step. change (Z.to_nat 446) with 446%nat. apply mbr_search_ok; [done|done|lia|lia|].
  destruct (first_partition M 4 0) as [i|]; cbn [mbind option_bind] in HQ.
  - wp_step. apply HQ; [done|done| |done|done].
    apply (le_at_range 4 M) . exact Hb.
  - wp_step. by apply HQ.
Qed.

Lemma parseBPB_ok s (v := g_fat32_volume_info s) (Q : bool -> FS S -> Prop) :
  bd_ok (disk s) -> length (bpb_data s) = 41%nat -> is_u32 (volume_start_lba v) ->
  (forall B, disk_data s (volume_start_lba v) = Some B -> le_at 1 B 13 <> 0) ->
  (forall s', bd_ok (disk s') -> disk_data s' = disk_data s ->
     open_file_handles s' = open_file_handles s -> stack s' = stack s ->
     match disk_data s (volume_start_lba v) with
     | None => g_fat32_volume_info s' = v -> Q false s'
     | Some B => g_fat32_volume_info s' = boot_volume (volume_start_lba v) (total_sectors v) B ->
                 Q true s'
     end) ->
  wp parseBPB Q s.
Proof.
  intros Hs Hbuf Ha Hnz HQ. unfold parseBPB. wp_step. wp_step. wp_step. wp_step. wp_step. fold v.
  apply read_array_ok; [done|done|done|done|done|done|].
  intros s1 bpb (d & -> & Hd & Ed).
  destruct (disk_data s (volume_start_lba v)) as [B|] eqn:EB.
  2: { wp_steps. cbn [negb]. wp_steps. by apply HQ. }
  intros HB Hb. wp_step. wp_step. cbn [negb]. specialize (Hnz B eq_refl).
  change (Z.to_nat 41) with 41%nat. change 0x0B with 11.
  assert (forall k p, 0 <= p -> (Z.to_nat p + k <= 41)%nat ->
    le_at k (take 41 (drop (Z.to_nat 11) B)) p = le_at k B (11 + p)) as Hat by (intros; by apply le_at_sub).
  assert (Forall is_u8 (take 41 (drop (Z.to_nat 11) B))) as Hmb by (by apply Forall_take, Forall_drop).
  assert (length (take 41 (drop (Z.to_nat 11) B)) = 41%nat) as Hlen by (rewrite length_take, length_drop; lia).
  set (bpb' := take 41 (drop (Z.to_nat 11) B)) in *. clearbody bpb'.
  do 8 (wp_steps; first [apply list_le16_ok|apply list_byte_ok|apply list_le32_ok]; try done; try lia).
  rewrite !Z.add_0_l, !Hat by lia. cbn [Z.add Pos.add Pos.succ].
  wp_step. apply udiv_ok; [done|]. wp_steps. by apply HQ.
Qed.

Lemma init_handles_ok s (Q : unit -> FS S -> Prop) :
  length (open_file_handles s) = Z.to_nat MAX_OPEN_FILES ->
  Q tt (set_handles (set_free true <$> open_file_handles s) s) ->
  wp (for_loop (Z.to_nat MAX_OPEN_FILES) 0 (fun i _ =>
    let! h := get_handle i in put_handle i (set_free true h)) tt) Q s.
Proof.
  intros Hl HQ. eapply wpg_mono.
  - apply (wpg_for False (fun i (_ : unit) s' => 0 <= i /\ s' = set_handles
      ((set_free true <$> take (Z.to_nat i) (open_file_handles s)) ++ drop (Z.to_nat i) (open_file_handles s)) s)).
    { split; [done|]. by destruct s. }
    intros i [] s1 Hi [Hi0 ->]. unfold put_handle, get_handle.
    assert (Z.to_nat i < length (open_file_handles s))%nat as Hin by (rewrite Hl; lia).
    destruct (lookup_lt_is_Some_2 (open_file_handles s) (Z.to_nat i) Hin) as [h Hh].
    assert (length (set_free true <$> take (Z.to_nat i) (open_file_handles s)) = Z.to_nat i) as Hli
      by (rewrite length_fmap, length_take_le; lia).
    set (l := (set_free true <$> take (Z.to_nat i) (open_file_handles s)) ++ drop (Z.to_nat i) (open_file_handles s)).
    assert (l !! Z.to_nat i = Some h) as Hlook.
    { unfold l. rewrite lookup_app_r by (rewrite Hli; lia). by rewrite Hli, Nat.sub_diag, lookup_drop, Nat.add_0_r. }
    wp_steps. eapply wpg_of_option; [exact Hlook|]. wp_steps. eapply wpg_of_option; [exact Hlook|].
    wp_step. split; [lia|]. unfold set_handles. cbn. f_equal.
    replace (Z.to_nat (i + 1)) with (Datatypes.S (Z.to_nat i)) by lia. unfold l.
    rewrite (take_S_r _ _ h) by done. rewrite fmap_app, (drop_S _ h) by done.
    rewrite insert_app_r_alt by (rewrite Hli; lia). rewrite Hli, Nat.sub_diag. cbn. by rewrite <- app_assoc.
  - intros [] s' [_ ->]. rewrite Z.add_0_l, Nat2Z.id.
    rewrite take_ge, drop_ge by (rewrite Hl; lia). by rewrite app_nil_r.
Qed.

(** The globals of FAT32.c have their declared sizes. *)
Definition globals_ok s : Prop :=
  length (mbr_buffer s) = 66%nat /\ length (bpb_data s) = 41%nat /\
  length (open_file_handles s) = Z.to_nat MAX_OPEN_FILES.

(** The boot sector of the partition to mount does not give zero sectors per
    cluster, by which the code divides. *)
Definition boot_divides (D : Z -> option (list Z)) : Prop :=
  forall M start total B, D 0 = Some M -> boot_partition M = Some (start, total) ->
    D start = Some B -> le_at 1 B 13 <> 0.

Lemma fat32_init_ok s :
  bd_ok (disk s) -> globals_ok s -> boot_divides (disk_data s) ->
  wp fat32_init (fun ok s' =>
    bd_ok (disk s') /\ disk_data s' = disk_data s /\ stack s' = stack s /\
    match mount (disk_data s) with
    | Some v => ok = true /\ g_fat32_volume_info s' = v /\
                open_file_handles s' = set_free true <$> open_file_handles s
    | None => ok = false /\ open_file_handles s' = open_file_handles s /\
              is_initialized (g_fat32_volume_info s') = is_initialized (g_fat32_volume_info s)
    end) s.
Proof.
  intros Hs (Hm & Hb & Hh) Hdiv. unfold fat32_init, mount. wp_step.
  apply parseMBR_ok; [done|done|]. intros s1 (Hs1 & D1 & H1 & K1 & I1) B1.
  destruct (disk_data s 0) as [M|] eqn:EM; cbn [mbind option_bind]; [|wp_steps; by cbn [negb]].
  destruct (boot_partition M) as [[start total]|] eqn:EP; cbn [mbind option_bind];
    [|wp_steps; by cbn [negb]].
  intros Hst Ev Et. wp_step. apply parseBPB_ok; [done|by rewrite B1|by rewrite Ev| |].
  { rewrite D1, Ev. intros B EB. by apply (Hdiv M start total B). }
  intros s2 Hs2 D2 H2 K2. rewrite Ev, Et, D1. rewrite D1 in D2.
  destruct (disk_data s start) as [B|] eqn:EB; cbn [mbind option_bind]; intros V2; cbn [negb].
  2: { wp_steps. split_and!; try done; congruence. }
  wp_step. apply init_handles_ok; [by rewrite H2, H1|]. wp_step.
  split_and!; [done|done|cbn; congruence|done|done|cbn; congruence].
Qed.

(** C16: [fat32_init] mounts the first active FAT32 partition of the master boot
    record: it succeeds exactly when the two sectors can be read, the record
    is signed and has such a partition; then the volume information is what
    the boot sector says and every file handle is free.  When it fails, the
    handles and [is_initialized] are as they were. *)
Theorem fat32_init_spec s :
  bd_ok (disk s) -> globals_ok s -> boot_divides (disk_data s) ->
  wp fat32_init (fun ok s' =>
    bd_ok (disk s') /\ disk_data s' = disk_data s /\ stack s' = stack s /\
    match mount (disk_data s) with
    | Some v => ok = true /\ g_fat32_volume_info s' = v /\
                open_file_handles s' = set_free true <$> open_file_handles s
    | None => ok = false /\ open_file_handles s' = open_file_handles s /\
              is_initialized (g_fat32_volume_info s') = is_initialized (g_fat32_volume_info s)
    end) s.
Proof. apply fat32_init_ok. Qed.
End Mount.

(** A boot sector that describes a FAT32 volume inside its partition. *)
Definition boot_sane (start total : Z) (B : list Z) : Prop :=
  let reserved := le_at 2 B 14 in
  let fats_size := le_at 1 B 16 * le_at 4 B 36 in
  let spc := le_at 1 B 13 in
  let clusters := (total - (reserved + fats_size)) / spc in
  le_at 2 B 11 = 512 /\ 0 < spc /\ 0 < reserved /\ reserved + fats_size <= total /\
  start + total < 4294967296 /\ clusters <= 0x0FFFFFF5 /\ (clusters + 2) / 128 <= fats_size.

