(* ===== verification/FatFile.v ===== *)
(** * Reading files

    Cluster chains and the bytes they hold, and fat32_read against them: a
    read returns the next bytes of the file and leaves the handle after them. *)
From S2P Require Import Prelude Bytes Hexutils Cstring Block FAT32 FatVolume.

#[local] Arguments concat {A} _.

(** ** Chains of clusters *)

Section Chains.
Context (v : fat32_volume_info_t) (D : Z -> option (list Z)).

(** [chain c l]: following the table from [c] gives [l] and then an end mark. *)
Inductive chain : Z -> list Z -> Prop :=
| chain_end c : valid_cluster v c -> next_cluster v D c = (FAT_ERROR_END_OF_CHAIN, Some 0) -> chain c [c]
| chain_next c c' l : valid_cluster v c -> next_cluster v D c = (FAT_SUCCESS, Some c') ->
    chain c' l -> chain c (c :: l).

Definition cluster_sectors (c : Z) : list Z :=
  (fun i => fatClusterToLba v c + i) <$> seqZ 0 (sectors_per_cluster v).
Definition chain_sectors (l : list Z) : list Z := concat (cluster_sectors <$> l).

(** The bytes of the clusters of a chain, if all of them can be read. *)
Definition chain_data (l : list Z) : option (list Z) := concat <$> mapM D (chain_sectors l).

Lemma chain_head c l : chain c l -> l !! O = Some c.
Proof. by destruct 1. Qed.

Lemma chain_lookup c l i x :
  chain c l -> l !! i = Some x ->
  valid_cluster v x /\
  match l !! Datatypes.S i with
  | None => next_cluster v D x = (FAT_ERROR_END_OF_CHAIN, Some 0)
  | Some y => next_cluster v D x = (FAT_SUCCESS, Some y)
  end.
Proof.
  intros Hc. revert i. induction Hc as [c Hv Hn|c c' l Hv Hn Hc IH]; intros i Hi.
  - destruct i; [|done]. by injection Hi as <-.
  - destruct i; [|by apply IH]. injection Hi as <-. split; [done|].
    change ((c :: l) !! 1%nat) with (l !! O). by rewrite (chain_head _ _ Hc).
Qed.

(** Following the table from a cluster gives one chain. *)
Lemma chain_inj c l l' : chain c l -> chain c l' -> l = l'.
Proof.
  intros Hc. revert l'. induction Hc as [c Hv Hn|c c' l Hv Hn Hc IH]; intros l' Hc';
    inversion Hc' as [? ? Hn'|? ? ? ? Hn' Hc'']; subst; rewrite Hn in Hn'; try done.
  f_equal. injection Hn' as <-. by apply IH.
Qed.

Hypothesis Hspc : 0 < sectors_per_cluster v.

Lemma length_cluster_sectors c : length (cluster_sectors c) = Z.to_nat (sectors_per_cluster v).
Proof. unfold cluster_sectors. by rewrite length_fmap, length_seqZ. Qed.

Lemma cluster_sectors_lookup c i :
  0 <= i < sectors_per_cluster v -> cluster_sectors c !! Z.to_nat i = Some (fatClusterToLba v c + i).
Proof.
  intros Hi. unfold cluster_sectors. rewrite list_lookup_fmap, lookup_seqZ_lt by lia. cbn.
  do 2 f_equal. lia.
Qed.

Lemma chain_data_bytes l content :
  (forall a data, D a = Some data -> Forall is_u8 data) -> chain_data l = Some content -> Forall is_u8 content.
Proof.
  intros HD Hc. unfold chain_data in Hc. destruct (mapM D (chain_sectors l)) as [blocks|] eqn:E; [|done].
  injection Hc as <-. apply mapM_Some in E. clear -HD E. induction E as [|a data ? ? Ha _ IH]; [by apply Forall_nil|].
  cbn [concat]. apply Forall_app. eauto.
Qed.

End Chains.

(** Lists made of pieces of one size. *)
Lemma length_concat_uniform {A} (n : nat) (ls : list (list A)) :
  Forall (fun l => length l = n) ls -> length (concat ls) = (length ls * n)%nat.
Proof. induction 1 as [|l ls Hl _ IH]; [done|]. cbn [concat length]. rewrite length_app, IH, Hl. lia. Qed.

Lemma drop_concat_uniform {A} (n i : nat) (ls : list (list A)) :
  Forall (fun l => length l = n) ls -> drop (i * n) (concat ls) = concat (drop i ls).
Proof.
  intros Hls. revert i. induction Hls as [|l ls Hl _ IH]; intros i; [cbn [concat]; by rewrite !drop_nil|].
  destruct i as [|i]; [done|]. cbn [concat drop Nat.mul].
  rewrite <- drop_drop, (drop_app_length' l) by done. apply IH.
Qed.

Lemma lookup_concat_uniform {A} (n i j : nat) (ls : list (list A)) l :
  Forall (fun l => length l = n) ls -> ls !! i = Some l -> (j < n)%nat ->
  concat ls !! (i * n + j)%nat = l !! j.
Proof.
  intros Hls Hi Hj. rewrite <- lookup_drop, drop_concat_uniform by done.
  rewrite (drop_S ls l i Hi). cbn [concat]. apply lookup_app_l.
  pose proof (Forall_lookup_1 _ _ _ _ Hls Hi) as Hl. cbn beta in Hl. lia.
Qed.

(** A piece of one of the pieces. *)
Lemma slice_concat_uniform {A} (n i o k : nat) (ls : list (list A)) l :
  Forall (fun l => length l = n) ls -> ls !! i = Some l -> (o + k <= n)%nat ->
  take k (drop (i * n + o) (concat ls)) = take k (drop o l).
Proof.
  intros Hls Hi Hk. rewrite <- drop_drop, drop_concat_uniform by done.
  rewrite (drop_S ls l i Hi). cbn [concat].
  pose proof (Forall_lookup_1 _ _ _ _ Hls Hi) as Hl. cbn beta in Hl.
  rewrite drop_app_le by lia. apply take_app_le. rewrite length_drop. lia.
Qed.

(** ** Where the bytes of a file are *)

Section Place.
Context (v : fat32_volume_info_t) (D : Z -> option (list Z)).
Context (Hv : volume_ok v) (Hsize : forall a data, D a = Some data -> length data = 512%nat).

Lemma chain_sectors_uniform l :
  Forall (fun k => length k = Z.to_nat (sectors_per_cluster v)) (cluster_sectors v <$> l).
Proof. apply Forall_fmap, Forall_true. intros c. apply length_cluster_sectors. Qed.

Lemma chain_blocks l content :
  chain_data v D l = Some content ->
  exists blocks, content = concat blocks /\ Forall2 (fun a data => D a = Some data) (chain_sectors v l) blocks /\
    Forall (fun data => length data = 512%nat) blocks.
Proof.
  intros Hc. unfold chain_data in Hc. destruct (mapM D (chain_sectors v l)) as [blocks|] eqn:E; [|done].
  injection Hc as <-. exists blocks. split; [done|]. apply mapM_Some in E. split; [done|].
  eapply Forall2_Forall_r; [exact E|]. apply Forall_true. intros a data. apply Hsize.
Qed.

Lemma length_chain_data l content :
  chain_data v D l = Some content ->
  Z.of_nat (length content) = Z.of_nat (length l) * bytes_per_cluster v.
Proof.
  intros (blocks & -> & H2 & Hb)%chain_blocks. pose proof (vo_cluster v Hv).
  rewrite (length_concat_uniform 512) by done. rewrite <- (Forall2_length _ _ _ H2).
  unfold chain_sectors. rewrite (length_concat_uniform (Z.to_nat (sectors_per_cluster v))), length_fmap
    by apply chain_sectors_uniform. rewrite (vo_bytes v Hv). lia.
Qed.

Lemma file_place l content p :
  chain_data v D l = Some content -> 0 <= p < Z.of_nat (length content) ->
  exists c data, l !! Z.to_nat (p / bytes_per_cluster v) = Some c /\
    D (fatClusterToLba v c + (p mod bytes_per_cluster v) / 512) = Some data /\
    forall n, (p mod 512) + Z.of_nat n <= 512 ->
      take n (drop (Z.to_nat p) content) = take n (drop (Z.to_nat (p mod 512)) data).
Proof.
  intros Hc Hp. pose proof (length_chain_data _ _ Hc) as Hlen. pose proof (vo_cluster v Hv) as Hspc.
  apply chain_blocks in Hc as (blocks & -> & H2 & Hb).
  rewrite (vo_bytes v Hv) in *. set (spc := sectors_per_cluster v) in *.
  set (q := p / (spc * 512)). set (i := (p mod (spc * 512)) / 512).
  assert (p = q * (spc * 512) + i * 512 + p mod 512 /\ 0 <= q < Z.of_nat (length l) /\ 0 <= i < spc) as (Ep & Hq & Hi).
  { unfold q, i. pose proof (Z.div_mod p (spc * 512)). pose proof (Z.mod_pos_bound p (spc * 512)).
    assert (p mod 512 = (p mod (spc * 512)) mod 512) as Em.
    { rewrite (Z.mul_comm spc 512), Z.rem_mul_r, Z.mul_comm by lia.
      by rewrite Z.mod_add, Z.mod_mod by lia. }
    rewrite Em. pose proof (Z.div_mod (p mod (spc * 512)) 512).
    assert (p / (spc * 512) < Z.of_nat (length l)) by (apply Z.div_lt_upper_bound; lia).
    assert (0 <= p / (spc * 512)) by (apply Z.div_pos; lia).
    assert (p mod (spc * 512) / 512 < spc) by (apply Z.div_lt_upper_bound; lia).
    assert (0 <= p mod (spc * 512) / 512) by (apply Z.div_pos; lia). lia. }
  clearbody q i. destruct (lookup_lt_is_Some_2 l (Z.to_nat q)) as [c Hlc]; [lia|].
  assert (chain_sectors v l !! (Z.to_nat q * Z.to_nat spc + Z.to_nat i)%nat = Some (fatClusterToLba v c + i)) as Hsec.
  { unfold chain_sectors. rewrite (lookup_concat_uniform _ _ _ _ (cluster_sectors v c));
      [by apply cluster_sectors_lookup|apply chain_sectors_uniform|by rewrite list_lookup_fmap, Hlc|lia]. }
  destruct (Forall2_lookup_l _ _ _ _ _ H2 Hsec) as (data & Hd & ED).
  exists c, data. split; [done|]. split; [done|]. intros n Hn. pose proof (Z.mod_pos_bound p 512).
  replace (Z.to_nat p) with ((Z.to_nat q * Z.to_nat spc + Z.to_nat i) * 512 + Z.to_nat (p mod 512))%nat
    by (rewrite Ep at 2; lia).
  apply (slice_concat_uniform 512); [done|done|lia].
Qed.
End Place.

(** ** Reading *)

(** An open file: the chain [l] of its first cluster holds [content], and the
    handle is at [current_file_pos] in it. *)
Record file_open (v : fat32_volume_info_t) (D : Z -> option (list Z)) (h : file_handle_t)
  (l content : list Z) : Prop := {
  fo_chain : chain v D (cluster_start h) l;
  fo_data : chain_data v D l = Some content;
  fo_free : is_free h = false;
  fo_size : 0 <= file_size h <= Z.of_nat (length content) /\ file_size h < 2147483648;
  fo_pos : 0 <= current_file_pos h <= file_size h;
  fo_place : current_file_pos h < file_size h ->
    l !! Z.to_nat (current_file_pos h / bytes_per_cluster v) = Some (current_cluster h) /\
    current_offset h = current_file_pos h mod bytes_per_cluster v;
}.

(** The handle has moved to [pos]. *)
Definition moved_to (h h' : file_handle_t) (pos : Z) : Prop :=
  exists cluster offset, h' = set_position cluster offset pos h.

Lemma lba_in_range v c i :
  volume_ok v -> valid_cluster v c -> 0 <= i < sectors_per_cluster v ->
  u32 (fatClusterToLba v c + i) = fatClusterToLba v c + i /\ is_u32 (fatClusterToLba v c + i) /\
  fatClusterToLba v c = data_start_lba v + (c - 2) * sectors_per_cluster v.
Proof.
  intros Hv [Hc1 Hc2] Hi. pose proof (vo_data v Hv) as [Hd1 Hd2]. pose proof (vo_cluster v Hv).
  assert ((c - 2) * sectors_per_cluster v + sectors_per_cluster v <= total_clusters v * sectors_per_cluster v).
  { replace ((c - 2) * sectors_per_cluster v + sectors_per_cluster v) with ((c - 1) * sectors_per_cluster v) by lia.
    apply Z.mul_le_mono_nonneg_r; lia. }
  assert (0 <= (c - 2) * sectors_per_cluster v) by (apply Z.mul_nonneg_nonneg; lia).
  unfold fatClusterToLba. destruct (Z.ltb_spec c 2); [lia|].
  rewrite (u32_small ((c - 2) * _)), (u32_small (data_start_lba v + _)) by (unfold is_u32; lia).
  split; [apply u32_small; unfold is_u32; lia|]. split; [unfold is_u32; lia|done].
Qed.

(** After the last byte of a cluster comes the first byte of the next. *)
Lemma next_position p n b :
  0 <= p -> 0 < b -> p mod b + n = b -> 0 < n -> (p + n) / b = p / b + 1 /\ (p + n) mod b = 0.
Proof.
  intros Hp Hb Hn H0. pose proof (Z.div_mod p b ltac:(lia)) as E.
  assert (p + n = (p / b + 1) * b) as -> by lia. split; [by apply Z.div_mul; lia|by apply Z.mod_mul; lia].
Qed.

Lemma same_cluster p n b :
  0 <= p -> 0 < b -> p mod b + n < b -> 0 <= n -> (p + n) / b = p / b /\ (p + n) mod b = p mod b + n.
Proof.
  intros Hp Hb Hn H0. pose proof (Z.div_mod p b ltac:(lia)) as E. pose proof (Z.mod_pos_bound p b).
  split; [symmetry; apply (Z.div_unique _ _ _ (p mod b + n)); lia|].
  symmetry. apply (Z.mod_unique _ _ (p / b)); lia.
Qed.

Section Reading.
Context {S : Type} `{BL : BlockLaws S} `{F : Fuel}.
Implicit Types (s : FS S) (v : fat32_volume_info_t) (h : file_handle_t).

Lemma get_handle_ok s i h (Q : file_handle_t -> FS S -> Prop) :
  open_file_handles s !! Z.to_nat i = Some h -> Q h s -> wp (get_handle i) Q s.
Proof. intros Hh HQ. unfold get_handle. wp_steps. by eapply wpg_of_option. Qed.

Lemma put_handle_ok s i h h' (Q : unit -> FS S -> Prop) :
  open_file_handles s !! Z.to_nat i = Some h ->
  Q tt (set_handles (<[Z.to_nat i := h']> (open_file_handles s)) s) -> wp (put_handle i h') Q s.
Proof. intros Hh HQ. unfold put_handle. wp_step. eapply get_handle_ok; [done|]. by wp_step. Qed.

Lemma bd_length s a data : bd_ok (disk s) -> disk_data s a = Some data -> length data = 512%nat.
Proof. intros Hs Hd. by destruct (bd_size _ _ _ Hs Hd) as [-> _]. Qed.

Section Loop.
Context {T : Type} `{B : ByteStore T}.
Context (m : T) s (file_id : Z) h (l content : list Z) (buffer k : Z).
Let v := g_fat32_volume_info s.
Let D := disk_data s.
Let pos := current_file_pos h.
Context (Hv : volume_ok v) (Hs : bd_ok (disk s)).
Context (Hh : open_file_handles s !! Z.to_nat file_id = Some h).
Context (Ho : file_open v D h l content).
Context (Hk : 0 <= k /\ pos + k <= file_size h) (Hm : mapped m buffer (buffer + k)).

(** The disk's own state may have changed, and the handle has moved [t] bytes. *)
Definition handle_at (t : Z) s' : Prop :=
  exists h', bd_ok (disk s') /\ disk_data s' = D /\ g_fat32_volume_info s' = v /\ stack s' = stack s /\
  open_file_handles s' = <[Z.to_nat file_id := h']> (open_file_handles s) /\
  moved_to h h' (pos + t) /\ file_open v D h' l content.

(** The first [t] bytes are in the buffer. *)
Definition copied (t : Z) (m' : T) : Prop :=
  writes m buffer (take (Z.to_nat t) (drop (Z.to_nat pos) content)) m'.

(** How much of the current sector is read next. *)
Lemma copy_size t o :
  0 <= t < k -> 0 <= o < 512 ->
  let n := u32 (min (u32 (k - t)) (u32 (512 - o))) in
  n = Z.min (k - t) (512 - o) /\ 0 < n /\ u16 n = n.
Proof.
  intros Ht Hot. pose proof (fo_size _ _ _ _ _ Ho) as [_ Hsz]. pose proof (fo_pos _ _ _ _ _ Ho) as Hp.
  fold pos in Hp. cbv zeta.
  rewrite (u32_small (k - t)), (u32_small (512 - o)) by (unfold is_u32; lia). unfold min. rewrite !i32_small by lia.
  destruct (Z.ltb_spec (k - t) (512 - o)); rewrite u32_small by (unfold is_u32; lia);
    rewrite u16_small by (unfold is_u16; lia); lia.
Qed.

(** What a handle inside the file says, and the table after its cluster. *)
Lemma place_of_handle h' t :
  moved_to h h' (pos + t) -> file_open v D h' l content -> 0 <= t < k ->
  valid_cluster v (current_cluster h') /\
  current_offset h' = (pos + t) mod bytes_per_cluster v /\
  l !! Z.to_nat ((pos + t) / bytes_per_cluster v) = Some (current_cluster h') /\
  exists data, D (fatClusterToLba v (current_cluster h') + current_offset h' / 512) = Some data /\
    forall n, (pos + t) mod 512 + Z.of_nat n <= 512 ->
      take n (drop (Z.to_nat (pos + t)) content) = take n (drop (Z.to_nat ((pos + t) mod 512)) data).
Proof.
  intros (c & o & ->) Ho' Ht. pose proof (fo_size _ _ _ _ _ Ho) as [Hsz _].
  pose proof (fo_pos _ _ _ _ _ Ho) as Hp. fold pos in Hp.
  destruct (fo_place _ _ _ _ _ Ho') as [Hl Hoff]; [cbn; lia|]. cbn in *.
  destruct (chain_lookup _ _ _ _ _ _ (fo_chain _ _ _ _ _ Ho) Hl) as [Hc _].
  destruct (file_place v D Hv (fun a data => bd_length s a data Hs) l content (pos + t)) as (c' & data & Hl' & HD & Hsl);
    [apply (fo_data _ _ _ _ _ Ho)|lia|].
  rewrite Hl in Hl'. injection Hl' as <-. rewrite Hoff. eauto 10.
Qed.

(** Moving on inside the file. *)
Lemma file_open_move h' t c o :
  moved_to h h' (pos + t) -> 0 <= t <= k ->
  (pos + t < file_size h -> l !! Z.to_nat ((pos + t) / bytes_per_cluster v) = Some c /\
     o = (pos + t) mod bytes_per_cluster v) ->
  file_open v D (set_position c o (pos + t) h') l content.
Proof.
  intros (c0 & o0 & ->) Ht Hpl. destruct Ho as [H1 H2 H3 H4 H5 H6]. unfold pos in *.
  constructor; cbn; try done; lia.
Qed.

(** Following the chain at the end of a cluster. *)
Lemma next_in_chain c q :
  l !! q = Some c ->
  next_cluster v D c = match l !! Datatypes.S q with
                       | None => (FAT_ERROR_END_OF_CHAIN, Some 0)
                       | Some y => (FAT_SUCCESS, Some y)
                       end /\ is_u32 c.
Proof.
  intros Hl. destruct (chain_lookup _ _ _ _ _ _ (fo_chain _ _ _ _ _ Ho) Hl) as [Hc Hn].
  pose proof (vo_count v Hv). unfold valid_cluster in Hc. split; [by destruct (l !! Datatypes.S q)|unfold is_u32; lia].
Qed.

(** At the end of the chain nothing is left to read. *)
Lemma end_of_chain_is_end p :
  0 <= p -> p mod bytes_per_cluster v = 0 -> p <= file_size h ->
  l !! Z.to_nat (p / bytes_per_cluster v) = None -> p = file_size h.
Proof.
  intros Hp Hm0 Hle Hl. apply lookup_ge_None_1 in Hl.
  pose proof (length_chain_data v D Hv (fun a data => bd_length s a data Hs) l content (fo_data _ _ _ _ _ Ho)) as Hlen.
  pose proof (fo_size _ _ _ _ _ Ho) as [Hsz _]. pose proof (vo_cluster v Hv). pose proof (vo_bytes v Hv) as Hb.
  assert (0 < bytes_per_cluster v) by lia.
  pose proof (Z.div_mod p (bytes_per_cluster v) ltac:(lia)) as E.
  assert (0 <= p / bytes_per_cluster v) by (apply Z.div_pos; lia).
  assert (Z.of_nat (length l) * bytes_per_cluster v <= p / bytes_per_cluster v * bytes_per_cluster v)
    by (apply Z.mul_le_mono_nonneg_r; lia). lia.
Qed.

(** [n] more bytes, up to the end of the cluster. *)
Lemma advance_position_ok t n h1 s2 (Q : option Z -> FS S -> Prop) :
  0 <= t -> 0 < n -> t + n <= k ->
  bd_ok (disk s2) -> disk_data s2 = D -> g_fat32_volume_info s2 = v -> stack s2 = stack s ->
  open_file_handles s2 = <[Z.to_nat file_id := h1]> (open_file_handles s) -> moved_to h h1 (pos + t) ->
  l !! Z.to_nat ((pos + t) / bytes_per_cluster v) = Some (current_cluster h1) ->
  current_offset h1 = (pos + t) mod bytes_per_cluster v -> current_offset h1 + n <= bytes_per_cluster v ->
  (forall r s', handle_at (t + n) s' -> (r = None \/ r = Some FAT_SUCCESS /\ t + n = k) -> Q r s') ->
  wp (advance_position file_id h1 n) Q s2.
Proof.
  intros Ht Hn Htn Hs2 D2 V2 K2 H2 Mv Hl Hoff Hfit HQ.
  pose proof (fo_pos _ _ _ _ _ Ho) as Hp. fold pos in Hp. pose proof (fo_size _ _ _ _ _ Ho) as [Hsz Hsz2].
  pose proof (vo_cluster v Hv) as Hspc. pose proof (vo_bytes v Hv) as Hbpc.
  set (bpc := bytes_per_cluster v) in *. set (c := current_cluster h1) in *. set (off := current_offset h1) in *.
  pose proof (lookup_lt_Some _ _ _ Hh) as Hin.
  assert (current_file_pos h1 = pos + t) as Epos by (by destruct Mv as (? & ? & ->)).
  assert (0 <= off < bpc) as Hoffr by (rewrite Hoff; apply Z.mod_pos_bound; lia).
  destruct (next_in_chain c _ Hl) as [Hnext Hc].
  unfold advance_position. wp_step. wp_step. rewrite V2. fold bpc c off. rewrite Epos.
  rewrite !u32_small by (unfold is_u32; lia). cbn [current_offset set_position current_cluster current_file_pos].
  wp_step. eapply put_handle_ok; [rewrite H2; by apply list_lookup_insert_eq|].
  rewrite H2, list_insert_insert_eq. cbv zeta.
  assert (forall c' o', moved_to h (set_position c' o' (pos + (t + n)) h1) (pos + (t + n))) as Hmv.
  { intros c' o'. destruct Mv as (? & ? & ->). by exists c', o'. }
  assert (forall c' o', (pos + (t + n) < file_size h -> l !! Z.to_nat ((pos + (t + n)) / bpc) = Some c' /\
    o' = (pos + (t + n)) mod bpc) -> file_open v D (set_position c' o' (pos + (t + n)) h1) l content) as Hfo.
  { intros c' o' Hpl. apply (file_open_move (set_position c' o' (pos + (t + n)) h1)); [done|lia|done]. }
  rewrite <- !Z.add_assoc.
  destruct (Z.leb_spec bpc (off + n)) as [Hend|Hend].
  2: { wp_step. destruct (same_cluster (pos + t) n bpc) as [E1 E2]; [lia..|]. apply HQ; [|by left].
       eexists. split_and!; try done. apply Hfo. intros _. rewrite Z.add_assoc, E1, E2, <- Hoff. done. }
  destruct (next_position (pos + t) n bpc) as [E1 E2]; [lia..|].
  wp_step. apply getNextCluster_ok; [by cbn; rewrite V2|done|done|]. intros s3 (d & -> & Hd & Dd).
  cbn [g_fat32_volume_info set_handles disk_data] in *. rewrite V2.
  change (disk_data (set_handles _ s2)) with (disk_data s2) in *. rewrite D2, Hnext in *.
  replace (Datatypes.S (Z.to_nat ((pos + t) / bpc))) with (Z.to_nat ((pos + (t + n)) / bpc))
    by (rewrite Z.add_assoc, E1; assert (0 <= (pos + t) / bpc) by (apply Z.div_pos; lia); lia).
  destruct (l !! Z.to_nat ((pos + (t + n)) / bpc)) as [y|] eqn:Ey; cbv beta iota zeta.
  - change (to_fat_error FAT_SUCCESS =? _) with false at 1. cbv beta iota.
    change (negb (to_fat_error FAT_SUCCESS =? _)) with false. cbv beta iota. wp_step.
    eapply wpg_of_option; [done|]. wp_step.
    eapply put_handle_ok; [by apply list_lookup_insert_eq|]. cbn [open_file_handles set_disk set_handles].
    wp_step. apply HQ; [|by left]. eexists.
    split_and!; [exact Hd|exact Dd|exact V2|exact K2|cbn; by rewrite list_insert_insert_eq|apply (Hmv y 0)|].
    apply (Hfo y 0). intros _. by rewrite Z.add_assoc, E2.
  - change (to_fat_error FAT_ERROR_END_OF_CHAIN =? FAT_ERROR_END_OF_CHAIN) with true. cbv beta iota. wp_step. apply HQ.
    + eexists. split_and!; [exact Hd|exact Dd|exact V2|exact K2|done|apply Hmv|]. apply Hfo. intros Hlt.
      apply end_of_chain_is_end in Ey; [lia|lia|by rewrite Z.add_assoc|lia].
    + right. split; [done|]. apply end_of_chain_is_end in Ey; [lia|lia|by rewrite Z.add_assoc|lia].
Qed.

Lemma read_file_step_ok t m1 s1 :
  handle_at t s1 -> copied t m1 -> 0 <= t < k ->
  wp (read_file_step file_id buffer k (t, m1)) (fun r s2 =>
    match r with
    | inl (t', m2) => t < t' <= k /\ handle_at t' s2 /\ copied t' m2
    | inr (res, m2) => res = FAT_SUCCESS /\ handle_at k s2 /\ copied k m2
    end) s1.
Proof.
  intros (h1 & Hs1 & D1 & V1 & K1 & H1 & Mv1 & O1) W1 Ht. unfold copied in *.
  destruct (place_of_handle h1 t Mv1 O1 Ht) as (Hval & Hoff & Hl & data & HD & Hslice).
  pose proof (fo_pos _ _ _ _ _ Ho) as Hp. fold pos in Hp. pose proof (fo_size _ _ _ _ _ Ho) as [Hsz Hsz2].
  pose proof (vo_cluster v Hv) as Hspc. pose proof (vo_bytes v Hv) as Hbpc.
  set (bpc := bytes_per_cluster v) in *. set (p := pos + t) in *. set (c := current_cluster h1) in *.
  set (off := current_offset h1) in *.
  assert (0 <= off < bpc) as Hoffr by (rewrite Hoff; apply Z.mod_pos_bound; lia).
  assert (off mod 512 = p mod 512) as Emod.
  { rewrite Hoff, Hbpc, (Z.mul_comm _ 512), Z.rem_mul_r, Z.mul_comm, Z.mod_add, Z.mod_mod by lia. done. }
  pose proof (Z.mod_pos_bound off 512 ltac:(lia)) as Hbyte. pose proof (Z.div_mod off 512 ltac:(lia)) as Ediv.
  assert (0 <= off / 512 < sectors_per_cluster v) as Hsec by lia.
  destruct (lba_in_range v c (off / 512) Hv Hval Hsec) as (El & Hlu & _).
  destruct (copy_size t (off mod 512) ltac:(lia) ltac:(lia)) as (En & Hn0 & Hn16).
  unfold read_file_step. destruct (Z.ltb_spec t k); [|lia]. cbn [negb]. wp_step. wp_step. rewrite V1.
  wp_step. eapply get_handle_ok; [rewrite H1; by apply list_lookup_insert_eq, (lookup_lt_Some _ _ h)|].
  fold off c. rewrite (vo_sector v Hv). wp_step. apply udiv_ok; [done|]. wp_step. apply umod_ok; [done|].
  rewrite El. set (n := u32 (min _ _)) in *.
  rewrite (u16_small (off mod 512)) by (unfold is_u16; lia). rewrite Hn16. wp_step.
  eapply (on_disk_partial_ok m1 s1 _ _ _ n data); [done|done|by rewrite D1|lia|lia|unfold SD_BLOCK_SIZE; lia| |].
  { eapply writes_mapped; [exact W1|]. intros q Hq. apply Hm. lia. }
  intros m2 s2 W2 S2. cbn [negb].
  assert (writes m buffer (take (Z.to_nat (t + n)) (drop (Z.to_nat pos) content)) m2) as W.
  { replace (Z.to_nat (t + n)) with (Z.to_nat t + Z.to_nat n)%nat by lia.
    rewrite <- take_take_drop, drop_drop. eapply writes_app; [exact W1|].
    rewrite length_take, length_drop, Nat.min_l by lia. rewrite Z2Nat.id by lia.
    replace (Z.to_nat pos + Z.to_nat t)%nat with (Z.to_nat p) by lia.
    rewrite (Hslice (Z.to_nat n)), <- Emod by lia. exact W2. }
  destruct S2 as (d & -> & Hd & Dd). wp_step.
  apply (advance_position_ok t n h1); try done; [lia|lia|by rewrite <- D1|fold off; lia|].
  intros r s3 H3 Hr. rewrite (u32_small (t + n)) by (unfold is_u32; lia).
  destruct Hr as [->|[-> Hend]]; wp_step; [split; [lia|done]|]. by rewrite <- Hend.
Qed.

Lemma read_file_loop_ok (enough : (Z.to_nat k < fuel)%nat) :
  wp (while_loop fuel (read_file_step file_id buffer k) (0, m))
    (fun '(res, m') s' => res = FAT_SUCCESS /\ handle_at k s' /\ copied k m') s.
Proof.
  eapply (wp_while (fun n '(t, m') s' => 0 <= t <= k /\ handle_at t s' /\ copied t m' /\ n = Z.to_nat (k - t)));
    [|instantiate (1 := Z.to_nat k); exact enough|].
  - intros n [t m'] s' (Ht & Hs' & Hm' & ->). destruct (Z.eq_dec t k) as [->|Hne].
    + unfold read_file_step. rewrite Z.ltb_irrefl. cbn [negb]. by wp_step.
    + eapply wpg_mono; [apply read_file_step_ok; [done|done|lia]|].
      intros [[t' m2]|[res m2]] s2; [|done]. intros (Ht' & H2 & C2).
      exists (Z.to_nat (k - t')). split; [lia|]. split; [lia|done].
  - split; [lia|]. split; [|split; [apply writes_nil|lia]].
    exists h. split_and!; try done; [by rewrite list_insert_id|].
    exists (current_cluster h), (current_offset h). unfold pos. rewrite Z.add_0_r. by destruct h.
Qed.
End Loop.

Lemma fat32_read_ok {T} `{ByteStore T} (m : T) s file_id h l content buffer n :
  let v := g_fat32_volume_info s in
  let pos := current_file_pos h in
  let k := Z.min n (file_size h - pos) in
  volume_ok v -> bd_ok (disk s) ->
  0 <= file_id < MAX_OPEN_FILES -> open_file_handles s !! Z.to_nat file_id = Some h ->
  file_open v (disk_data s) h l content ->
  buffer <> NULL -> 0 <= n < 2147483648 -> mapped m buffer (buffer + k) -> (Z.to_nat k < fuel)%nat ->
  wp (fat32_read m file_id buffer n) (fun '(ok, m') s' => ok = true /\
    writes m buffer (take (Z.to_nat k) (drop (Z.to_nat pos) content)) m' /\
    exists h', open_file_handles s' = <[Z.to_nat file_id := h']> (open_file_handles s) /\
      moved_to h h' (pos + k) /\ file_open v (disk_data s) h' l content /\
      bd_ok (disk s') /\ disk_data s' = disk_data s /\ g_fat32_volume_info s' = v /\
      stack s' = stack s) s.
Proof.
  intros v pos k Hv Hs Hid Hh Ho Hb Hn Hm Hf.
  pose proof (fo_pos _ _ _ _ _ Ho) as Hp. fold pos in Hp. pose proof (fo_size _ _ _ _ _ Ho) as [Hsz Hsz2].
  unfold fat32_read, fat_read_file. destruct (Z.leb_spec MAX_OPEN_FILES file_id), (Z.eqb_spec buffer NULL); try lia.
  cbn [orb]. wp_step. eapply get_handle_ok; [done|]. rewrite (fo_free _ _ _ _ _ Ho). wp_steps. fold v.
  rewrite (vo_init v Hv). cbn [negb]. wp_step. eapply get_handle_ok; [done|]. rewrite (fo_free _ _ _ _ _ Ho).
  fold pos. assert (u32 (min n (u32 (file_size h - pos))) = k) as ->.
  { rewrite (u32_small (file_size h - pos)) by (unfold is_u32; lia). unfold min. rewrite !i32_small by lia.
    unfold k. destruct (Z.ltb_spec n (file_size h - pos)); rewrite u32_small by (unfold is_u32; lia); lia. }
  destruct (Z.eqb_spec k 0) as [Hk|Hk].
  - wp_steps. rewrite Hk. split; [done|]. split; [apply writes_nil|]. exists h.
    split_and!; try done; [by rewrite list_insert_id|].
    exists (current_cluster h), (current_offset h). unfold pos. rewrite Z.add_0_r. by destruct h.
  - eapply wpg_mono; [apply (read_file_loop_ok m s file_id h l content buffer k); try done; lia|].
    intros [res m'] s' (-> & (h' & Hs' & D' & V' & K' & H' & Mv & O') & C). wp_step.
    split; [done|]. split; [exact C|]. by exists h'.
Qed.

(** C6: [fat32_read] returns the next bytes of an open file: all that were asked
    for, or all that are left, exactly those of the file's clusters at the
    handle's position; it moves the handle after them and changes nothing
    else. *)
Theorem fat32_read_spec {T} `{ByteStore T} (m : T) s file_id h l content buffer n :
  let v := g_fat32_volume_info s in
  let pos := current_file_pos h in
  let k := Z.min n (file_size h - pos) in
  volume_ok v -> bd_ok (disk s) ->
  0 <= file_id < MAX_OPEN_FILES -> open_file_handles s !! Z.to_nat file_id = Some h ->
  file_open v (disk_data s) h l content ->
  buffer <> NULL -> 0 <= n < 2147483648 -> mapped m buffer (buffer + k) -> (Z.to_nat k < fuel)%nat ->
  wp (fat32_read m file_id buffer n) (fun '(ok, m') s' => ok = true /\
    writes m buffer (take (Z.to_nat k) (drop (Z.to_nat pos) content)) m' /\
    exists h', open_file_handles s' = <[Z.to_nat file_id := h']> (open_file_handles s) /\
      moved_to h h' (pos + k) /\ file_open v (disk_data s) h' l content /\
      bd_ok (disk s') /\ disk_data s' = disk_data s /\ g_fat32_volume_info s' = v /\
      stack s' = stack s) s.
Proof. apply fat32_read_ok. Qed.


(** Moving on when the table has an end mark or a next cluster. *)
Lemma advance_position_any s file_id h n (Q : option Z -> FS S -> Prop) :
  let v := g_fat32_volume_info s in
  volume_ok v -> bd_ok (disk s) -> open_file_handles s !! Z.to_nat file_id = Some h ->
  is_u32 (current_cluster h) ->
  (next_cluster v (disk_data s) (current_cluster h) = (FAT_ERROR_END_OF_CHAIN, Some 0) \/
   exists c, next_cluster v (disk_data s) (current_cluster h) = (FAT_SUCCESS, Some c)) ->
  (forall r s', r = None \/ r = Some FAT_SUCCESS -> Q r s') ->
  wp (advance_position file_id h n) Q s.
Proof.
  intros v Hv Hs Hh Hc Hnext HQ. unfold advance_position. wp_steps. fold v.
  pose proof (lookup_lt_Some _ _ _ Hh). eapply put_handle_ok; [done|].
  destruct (_ <=? _); [|wp_step; apply HQ; by left].
  wp_step. apply getNextCluster_ok; [done|done|done|]. intros s' (d & -> & _).
  cbn [current_cluster set_position]. change (disk_data (set_handles _ s)) with (disk_data s). fold v.
  cbn [g_fat32_volume_info set_handles]. fold v.
  destruct Hnext as [->|[c ->]]; cbv beta iota zeta.
  - change (to_fat_error FAT_ERROR_END_OF_CHAIN =? FAT_ERROR_END_OF_CHAIN) with true. cbv beta iota.
    wp_step. apply HQ. by right.
  - change (to_fat_error FAT_SUCCESS =? FAT_ERROR_END_OF_CHAIN) with false. cbv beta iota.
    change (negb (to_fat_error FAT_SUCCESS =? FAT_SUCCESS)) with false. cbv beta iota. wp_step.
    eapply wpg_of_option; [done|]. wp_step. eapply put_handle_ok; [by apply list_lookup_insert_eq|].
    wp_step. apply HQ. by left.
Qed.


(** ** The table of open files *)

(** The handle that [fat32_open] makes. *)
Definition new_handle (file : fat_file_info_t) (m : Z) : file_handle_t :=
  {| cluster_start := first_cluster file; current_cluster := first_cluster file;
     current_offset := 0; file_size := info_size file; current_file_pos := 0;
     is_free := false; mode := u8 m |}.

(** Index of the first free handle. *)
Definition first_free (l : list file_handle_t) : option nat := fst <$> list_find (fun h => is_free h = true) l.

Lemma open_loop_ok s file md (Q : unit + Z -> FS S -> Prop) :
  length (open_file_handles s) = Z.to_nat MAX_OPEN_FILES ->
  match first_free (open_file_handles s) with
  | None => Q (inl tt) s
  | Some i => Q (inr (Z.of_nat i)) (set_handles (<[i := new_handle file md]> (open_file_handles s)) s)
  end ->
  wp (for_exit (Z.to_nat MAX_OPEN_FILES) 0 (fun i _ =>
    let! h := get_handle i in
    if is_free h then do! put_handle i (new_handle file md) in ret (inr i) else ret (inl tt)) tt) Q s.
Proof.
  intros Hl HQ. unfold first_free in HQ.
  eapply wpg_mono; [apply (wpg_for_exit False
    (fun i (_ : unit) s' => s' = s /\ 0 <= i /\
       forall j h, (j < Z.to_nat i)%nat -> open_file_handles s !! j = Some h -> is_free h = false)
    (fun i s' => exists n h, i = Z.of_nat n /\ list_find (fun h => is_free h = true) (open_file_handles s) = Some (n, h) /\
       s' = set_handles (<[n := new_handle file md]> (open_file_handles s)) s))|].
  - split; [done|]. split; [done|]. intros j h Hj. lia.
  - intros i [] t Hi (-> & Hi0 & Hbusy).
    destruct (lookup_lt_is_Some_2 (open_file_handles s) (Z.to_nat i)) as [h Hh]; [rewrite Hl; lia|].
    wp_step. eapply get_handle_ok; [done|]. destruct (is_free h) eqn:Ef.
    + wp_step. eapply put_handle_ok; [done|]. wp_step. exists (Z.to_nat i), h.
      split; [lia|]. split; [|done]. apply list_find_Some. split; [done|]. split; [done|].
      intros j y Hy Hj. rewrite (Hbusy j y); [done|lia|done].
    + wp_step. split; [done|]. split; [lia|]. intros j y Hj Hy.
      destruct (decide (j = Z.to_nat i)) as [->|]; [congruence|]. apply (Hbusy j); [lia|done].
  - intros [[]|i] s'; cbn beta.
    + intros (-> & _ & Hbusy). destruct (list_find _ _) as [[n h]|] eqn:E; [|exact HQ].
      apply list_find_Some in E as (Hn & Hfr & _). pose proof (lookup_lt_Some _ _ _ Hn).
      rewrite (Hbusy n h) in Hfr; [done|lia|done].
    + intros (n & h & -> & E & ->). by rewrite E in HQ.
Qed.

Lemma fat32_open_ok {T} `{ByteStore T} (m : T) s path md res file s1 :
  get_file m path (Some fresh_info) s = Ok ((res, file), s1) ->
  length (open_file_handles s1) = Z.to_nat MAX_OPEN_FILES ->
  (res = FAT_SUCCESS -> file <> None) ->
  fat32_open m path md s =
    match (if res =? FAT_SUCCESS then file else None), first_free (open_file_handles s1) with
    | Some f, Some i =>
        Ok (Z.of_nat i, set_handles (<[i := new_handle f md]> (open_file_handles s1)) s1)
    | _, _ => Ok (0xFFFFFFFF, s1)
    end.
Proof.
  intros Hg Hl Hf. unfold fat32_open. erewrite bind_ok by exact Hg. cbv beta iota.
  destruct (Z.eqb_spec res FAT_SUCCESS) as [Hr|]; cbn [negb]; [|done].
  destruct file as [file|]; [|by destruct (Hf Hr)]. unfold of_option. erewrite bind_ok by done.
  pose proof (open_loop_ok s1 file md (fun r s' =>
    (match r with inr i => ret i | inl _ => ret (u32 (-1)) end : M (FS S) Z) s' =
    match first_free (open_file_handles s1) with
    | Some i => Ok (Z.of_nat i, set_handles (<[i := new_handle file md]> (open_file_handles s1)) s1)
    | None => Ok (0xFFFFFFFF, s1)
    end) Hl) as W.
  destruct (proj1 (wp_exact _ _ _) (W ltac:(by destruct (first_free _)))) as (r & s' & E & HE).
  unfold new_handle in E. erewrite bind_ok by exact E. exact HE.
Qed.

(** [fat32_open] is [get_file], and then the first free handle, initialised to
    the start of the file found; it returns -1 when the lookup fails and when
    all handles are taken, without changing the table. *)
Theorem fat32_open_spec {T} `{ByteStore T} (m : T) s path md res file s1 :
  get_file m path (Some fresh_info) s = Ok ((res, file), s1) ->
  length (open_file_handles s1) = Z.to_nat MAX_OPEN_FILES ->
  (res = FAT_SUCCESS -> file <> None) ->
  fat32_open m path md s =
    match (if res =? FAT_SUCCESS then file else None), first_free (open_file_handles s1) with
    | Some f, Some i =>
        Ok (Z.of_nat i, set_handles (<[i := new_handle f md]> (open_file_handles s1)) s1)
    | _, _ => Ok (0xFFFFFFFF, s1)
    end.
Proof. apply fat32_open_ok. Qed.

(** Closing a handle frees it, and only it; the file calls refuse a number
    that is not a handle's. *)
Theorem fat32_close_spec s file_id :
  length (open_file_handles s) = Z.to_nat MAX_OPEN_FILES -> 0 <= file_id ->
  fat32_close file_id s =
    if file_id <? MAX_OPEN_FILES
    then Ok (true, set_handles (alter (set_free true) (Z.to_nat file_id) (open_file_handles s)) s)
    else Ok (false, s).
Proof.
  intros Hl Hid. unfold fat32_close, put_handle, get_handle, bind, gets.
  destruct (Z.leb_spec MAX_OPEN_FILES file_id), (Z.ltb_spec file_id MAX_OPEN_FILES); try lia; [done|].
  destruct (lookup_lt_is_Some_2 (open_file_handles s) (Z.to_nat file_id)) as [h Hh]; [rewrite Hl; lia|].
  rewrite Hh. cbn. rewrite Hh. cbn. unfold ret. do 3 f_equal. apply list_eq. intros i.
  destruct (decide (i = Z.to_nat file_id)) as [->|Hne].
  - rewrite list_lookup_insert_eq by (by eapply lookup_lt_Some). by rewrite list_lookup_alter_eq, Hh.
  - by rewrite list_lookup_insert_ne, list_lookup_alter_ne by done.
Qed.

(** [fat32_read] leaves everything alone when the number is not that of an
    open file or the buffer is the null pointer. *)
Theorem fat32_read_rejects {T} `{ByteStore T} (m : T) s file_id buffer n :
  length (open_file_handles s) = Z.to_nat MAX_OPEN_FILES -> 0 <= file_id ->
  buffer = NULL \/ MAX_OPEN_FILES <= file_id \/
    (exists h, open_file_handles s !! Z.to_nat file_id = Some h /\ is_free h = true) ->
  fat32_read m file_id buffer n s = Ok ((false, m), s).
Proof.
  intros Hl Hid Hbad. unfold fat32_read, get_handle, bind, gets.
  destruct (Z.leb_spec MAX_OPEN_FILES file_id), (Z.eqb_spec buffer NULL); try done. cbn [orb].
  destruct Hbad as [?|[?|(h & Hh & Hf)]]; [done|lia|]. rewrite Hh. cbn. by rewrite Hf.
Qed.
End Reading.
