(* ===== verification/FatDir.v ===== *)
(** * Directories and names

    Short and long file names, and the scan of a directory across its sectors
    and clusters by fat_read_next_dir_entry, against a reference reading of
    the directory as a list of 32-byte entries. *)
From S2P Require Import Prelude Bytes Hexutils Cstring Block FAT32 FatVolume FatFile.

#[local] Arguments concat {A} _.

(** ** Building a string in a region *)

Section Region.
Context {T : Type} `{ByteStore T}.

(** [m] is [m0] except in the [N] bytes at [p], which start with [w]. *)
Definition filled (m0 : T) (p : Z) (N : nat) (w : list Z) (m : T) : Prop :=
  peeks m p (length w) = Some w /\ (length w <= N)%nat /\ mapped m p (p + Z.of_nat N) /\
  forall q, q < p \/ p + Z.of_nat N <= q -> peek m q = peek m0 q.

Lemma filled_nil m p N : mapped m p (p + Z.of_nat N) -> filled m p N [] m.
Proof. intros Hm. split_and!; [done|cbn; lia|done|done]. Qed.

Lemma filled_prefix m0 p N w k m : filled m0 p N (w ++ k) m -> filled m0 p N w m.
Proof.
  intros (E & Hl & Hm & F). rewrite length_app in E, Hl. split_and!; [|lia|done|done].
  rewrite peeks_app in E. destruct (peeks m p (length w)) as [l|] eqn:El; [|done]. cbn in E.
  destruct (peeks m _ (length k)); [|done]. cbn in E. injection E as E.
  apply app_inj_1 in E as [-> _]; [done|]. by eapply length_peeks.
Qed.

Lemma store8_filled h m0 m p q N w v (Q : unit -> T -> Prop) :
  filled m0 p N w m -> q = p + Z.of_nat (length w) -> (length w < N)%nat ->
  (forall m', filled m0 p N (w ++ [u8 v]) m' -> Q tt m') -> wpg h (store8 q v) Q m.
Proof.
  intros (E & Hl & Hm & F) -> HN HQ. apply store8_ok; [apply Hm; lia|]. intros m' Hp. apply HQ.
  assert (forall r, r <> p + Z.of_nat (length w) -> peek m' r = peek m r) as Hne
    by (intros r Hr; by eapply peek_poke_ne).
  split_and!.
  - rewrite length_app, peeks_app, (peeks_ext m m' p (length w)) by (intros; apply Hne; lia). rewrite E. cbn.
    by rewrite (peek_poke_eq _ _ _ _ Hp).
  - rewrite length_app. cbn. lia.
  - intros r Hr. destruct (Z.eq_dec r (p + Z.of_nat (length w))) as [->|].
    + rewrite (peek_poke_eq _ _ _ _ Hp). eauto.
    + rewrite Hne by done. by apply Hm.
  - intros r Hr. rewrite Hne by lia. by apply F.
Qed.
End Region.

(** [rd] reads the bytes [l] at [p], in any state. *)
Definition reads_bytes {T} (rd : Z -> M T Z) (p : Z) (l : list Z) : Prop :=
  forall m i b, l !! i = Some b -> rd (p + Z.of_nat i) m = Ok (b, m).

Lemma reads_bytes_list {T} (buf l : list Z) p :
  0 <= p -> l = take (length l) (drop (Z.to_nat p) buf) ->
  reads_bytes (T:=T) (fun q => on buf (load8 q)) p l.
Proof.
  intros Hp Hl m i b Hi. unfold on. rewrite (load8_eq buf _ b); [done|].
  rewrite list_peek_lookup by lia. rewrite Hl in Hi.
  apply lookup_take_Some in Hi as [Hi _]. rewrite lookup_drop in Hi. rewrite <- Hi. f_equal. lia.
Qed.

(** ** Short names *)

(** The characters before the first space. *)
Fixpoint until_space (l : list Z) : list Z :=
  match l with
  | [] => []
  | c :: l => if c =? 32 then [] else c :: until_space l
  end.

(** "NAME.EXT" of an 11-character name field. *)
Definition sfn_text (e : list Z) : list Z :=
  until_space (take 8 e) ++
  (if le_at 1 e 8 =? 32 then [] else 46 :: until_space (take 3 (drop 8 e))).

Lemma length_until_space l : (length (until_space l) <= length l)%nat.
Proof. induction l as [|c l IH]; [done|]. cbn. destruct (c =? 32); cbn; lia. Qed.

Lemma length_sfn_text e : (length (sfn_text e) <= 12)%nat.
Proof.
  unfold sfn_text. rewrite length_app. pose proof (length_until_space (take 8 e)) as H1.
  pose proof (length_until_space (take 3 (drop 8 e))) as H2. rewrite length_take in H1, H2.
  destruct (_ =? 32); cbn [length]; lia.
Qed.

Section ShortNames.
Context {T : Type} `{ByteStore T}.

Lemma copy_name_part_ok (rd : Z -> M T Z) l m0 m p out N w (Q : Z -> T -> Prop) :
  reads_bytes rd p l -> Forall is_u8 l -> filled m0 out N w m ->
  (length w + length l <= N)%nat -> Z.of_nat N < 65536 ->
  (forall m', filled m0 out N (w ++ until_space l) m' ->
     Q (Z.of_nat (length (w ++ until_space l))) m') ->
  wp (copy_name_part rd (length l) p out (Z.of_nat (length w))) Q m.
Proof.
  intros Hr Hl Hm HN HN2 HQ. unfold copy_name_part. wp_step.
  enough (forall l' j w m, (forall m i b, l' !! i = Some b -> rd (p + (j + Z.of_nat i)) m = Ok (b, m)) ->
    Forall is_u8 l' -> filled m0 out N w m -> (length w + length l' <= N)%nat ->
    wp (for_exit (length l') j (fun j i =>
          let! c := rd (p + j) in
          if c =? 32 then ret (inr i) else
          do! store8 (out + i) c in ret (inl (u16 (i + 1)))) (Z.of_nat (length w)))
      (fun r m' => filled m0 out N (w ++ until_space l') m' /\
         match r with inl i => i | inr i => i end = Z.of_nat (length (w ++ until_space l'))) m) as W.
  { eapply wpg_mono; [apply (W l 0 w m); [intros; by apply Hr|done..]|].
    intros [i|i] m' [Hf ->]; wp_step; by apply HQ. }
  clear Hr Hl Hm HN HQ Q w m l. induction l' as [|c l IH]; intros j w m Hr Hl Hm HN.
  { cbn. rewrite app_nil_r. by split. }
  apply Forall_cons in Hl as [Hc Hl]. cbn [length for_exit until_space] in *. wp_step. wp_step.
  specialize (Hr) as Hr0. eapply wp_ok; [rewrite <- (Z.add_0_r j); apply (Hr m O c); done|].
  destruct (c =? 32); [wp_steps; by rewrite app_nil_r|].
  wp_step. eapply store8_filled; [exact Hm|done|lia|]. intros m' Hm'. rewrite u8_small in Hm' by done.
  wp_step. rewrite u16_small by (unfold is_u16; lia).
  replace (Z.of_nat (length w) + 1) with (Z.of_nat (length (w ++ [c]))) by (rewrite length_app; cbn; lia).
  replace (w ++ c :: until_space l) with ((w ++ [c]) ++ until_space l) by (by rewrite <- app_assoc).
  apply IH; [|done|done|rewrite length_app; cbn; lia].
  intros m1 i b Hi. replace (p + (j + 1 + Z.of_nat i)) with (p + (j + Z.of_nat (Datatypes.S i))) by lia.
  by apply Hr.
Qed.

Lemma fat_sfn_to_string_ok (rd : Z -> M T Z) e m p out N (Q : unit -> T -> Prop) :
  reads_bytes rd p e -> Forall is_u8 e -> length e = 11%nat -> mapped m out (out + Z.of_nat N) ->
  (13 <= N)%nat -> Z.of_nat N < 65536 ->
  (forall m', filled m out N (sfn_text e ++ [0]) m' -> Q tt m') ->
  wp (fat_sfn_to_string rd p out) Q m.
Proof.
  intros Hr He Hlen Hm HN HN2 HQ. unfold fat_sfn_to_string.
  pose proof (length_until_space (take 8 e)) as L1. pose proof (length_until_space (take 3 (drop 8 e))) as L2.
  rewrite length_take in L1. rewrite length_take, length_drop in L2.
  assert (reads_bytes rd p (take 8 e)) as R1 by (intros m' i b [Hi _]%lookup_take_Some; by apply Hr).
  assert (reads_bytes rd (p + 8) (take 3 (drop 8 e))) as R2.
  { intros m' i b [Hi _]%lookup_take_Some. rewrite lookup_drop in Hi.
    replace (p + 8 + Z.of_nat i) with (p + Z.of_nat (8 + i)) by lia. by apply Hr. }
  wp_step. replace 8%nat with (length (take 8 e)) at 1 by (rewrite length_take; lia).
  apply (copy_name_part_ok rd (take 8 e) m m p out N []); [done|by apply Forall_take|by apply filled_nil|
    rewrite length_take; cbn [length]; lia|done|].
  intros m1 F1. wp_step. destruct (lookup_lt_is_Some_2 e 8) as [b Hb]; [lia|].
  eapply wp_ok; [apply (Hr m1 8%nat b Hb)|]. unfold sfn_text in HQ. rewrite (le_at_1 e 8 b) in HQ by done.
  rewrite app_nil_l in *. destruct (b =? 32) eqn:Eb; cbn [negb].
  - wp_steps. eapply store8_filled; [exact F1|done|lia|]. intros m2 F2. apply HQ. by rewrite app_nil_r.
  - wp_steps. eapply store8_filled; [exact F1|done|lia|]. intros m2 F2. change (u8 46) with 46 in F2.
    rewrite u16_small by (unfold is_u16; lia).
    replace 3%nat with (length (take 3 (drop 8 e))) at 1 by (rewrite length_take, length_drop; lia).
    replace (Z.of_nat (length (until_space (take 8 e))) + 1) with
      (Z.of_nat (length (until_space (take 8 e) ++ [46]))) by (rewrite length_app; cbn [length]; lia).
    apply (copy_name_part_ok rd (take 3 (drop 8 e)) m m2 (p + 8) out N); [done|by apply Forall_take, Forall_drop|done|
      rewrite length_app, length_take, length_drop; cbn [length]; lia|done|].
    intros m3 F3. eapply store8_filled; [exact F3|done|rewrite !length_app; cbn [length]; lia|].
    intros m4 F4. apply HQ. by rewrite <- (app_assoc _ [46]) in F4.
Qed.
End ShortNames.

(** ** Long names *)

(** The 16-bit characters of a field. *)
Definition utf16 (l : list Z) : list Z :=
  (fun i => le_at 2 l (2 * i)) <$> seqZ 0 (Z.of_nat (length l) / 2).

(** Up to the terminator or the padding, anything but ASCII as a question mark. *)
Fixpoint narrow (ws : list Z) : list Z :=
  match ws with
  | [] => []
  | w :: ws => if (w =? 0) || (w =? 0xFFFF) then []
               else (if w <? 0x80 then w else 63) :: narrow ws
  end.

(** The part of a long name in an entry. *)
Definition lfn_text (e : list Z) : list Z :=
  narrow (utf16 (take 10 (drop 1 e))) ++ narrow (utf16 (take 12 (drop 14 e))) ++
  narrow (utf16 (take 4 (drop 28 e))).

Lemma length_narrow ws : (length (narrow ws) <= length ws)%nat.
Proof. induction ws as [|w ws IH]; [done|]. cbn. destruct (_ || _); cbn; lia. Qed.

Lemma length_utf16 l : length (utf16 l) = Z.to_nat (Z.of_nat (length l) / 2).
Proof. unfold utf16. by rewrite length_fmap, length_seqZ. Qed.

Lemma narrow_chars ws : Forall (fun w => 0 <= w) ws -> Forall is_char (narrow ws).
Proof.
  induction 1 as [|w ws Hw _ IH]; cbn; [constructor|]. destruct (Z.eqb_spec w 0); [constructor|].
  destruct (w =? 0xFFFF); [constructor|]. cbn [orb]. constructor; [|done].
  destruct (Z.ltb_spec w 0x80); unfold is_char, is_u8; lia.
Qed.

Lemma utf16_nonneg l : Forall is_u8 l -> Forall (fun w => 0 <= w) (utf16 l).
Proof. intros Hl. apply Forall_fmap, Forall_true. intros i. apply (le_at_range 2 l _ Hl). Qed.

Lemma lfn_text_chars e : Forall is_u8 e -> Forall is_char (lfn_text e).
Proof.
  intros He. unfold lfn_text. rewrite !Forall_app.
  split_and!; apply narrow_chars, utf16_nonneg, Forall_take, Forall_drop, He.
Qed.

Section LongNames.
Context {T : Type} `{ByteStore T}.

Lemma copy_bytes_ok (rd : Z -> M T Z) p l m : reads_bytes rd p l -> copy_bytes rd p (length l) m = Ok (l, m).
Proof.
  revert p. induction l as [|b l IH]; intros p Hr; [done|]. cbn [copy_bytes length].
  erewrite bind_ok by (rewrite <- (Z.add_0_r p); by apply (Hr m O b)).
  erewrite bind_ok; [done|]. apply IH. intros m' i c Hi.
  replace (p + 1 + Z.of_nat i) with (p + Z.of_nat (Datatypes.S i)) by lia. by apply Hr.
Qed.

Lemma narrow_loop_ok l out N m0 ws j w m :
  Forall is_u8 l -> 0 <= j -> j + Z.of_nat (length ws) = Z.of_nat (length l) / 2 ->
  (forall i x, ws !! i = Some x -> le_at 2 l (2 * (j + Z.of_nat i)) = x) ->
  filled m0 out N w m -> (length w + length ws <= N)%nat -> (length w + length ws < 255)%nat ->
  wp (for_exit (length ws) j (fun i cur =>
        let! wc := on l (read_le16 (2 * i) 0) in
        if (wc =? 0x0000) || (wc =? 0xFFFF) then ret (inr cur) else
        if cur <? u32 (256 - 1) then
          do! store8 (out + cur) (if wc <? 0x80 then wc else 63) in
          ret (inl (u32 (cur + 1)))
        else ret (inr cur)) (Z.of_nat (length w)))
    (fun r m' => filled m0 out N (w ++ narrow ws) m' /\
       match r with inl i => i | inr i => i end = Z.of_nat (length (w ++ narrow ws))) m.
Proof.
  intros Hl. revert j w m. induction ws as [|x ws IH]; intros j w m Hj Hlen Hws Hm HN H255.
  { cbn. rewrite app_nil_r. by split. }
  assert (le_at 2 l (2 * j) = x) as Hx by (rewrite <- (Hws O x eq_refl); do 2 f_equal; lia).
  cbn [length for_exit narrow] in *. wp_steps.
  assert (0 <= Z.of_nat (length l) / 2 /\ Z.of_nat (length l) / 2 * 2 <= Z.of_nat (length l)) as Hdiv by dlia.
  apply list_le16_ok; [done|lia|done|lia|].
  rewrite Z.add_0_r, Hx.
  destruct ((x =? 0) || (x =? 0xFFFF)); [wp_steps; by rewrite app_nil_r|].
  change (u32 (256 - 1)) with 255. destruct (Z.ltb_spec (Z.of_nat (length w)) 255); [|lia].
  wp_steps. eapply store8_filled; [exact Hm|done|lia|]. intros m' Hm'.
  set (c := if x <? 0x80 then x else 63) in *. assert (u8 c = c) as Ec.
  { apply u8_small. unfold c. destruct (Z.ltb_spec x 0x80); [|done].
    pose proof (le_at_range 2 l (2 * j) Hl). unfold is_u8. lia. }
  rewrite Ec in Hm'. wp_step. rewrite u32_small by (unfold is_u32; lia).
  replace (Z.of_nat (length w) + 1) with (Z.of_nat (length (w ++ [c]))) by (rewrite length_app; cbn; lia).
  replace (w ++ c :: narrow ws) with ((w ++ [c]) ++ narrow ws) by (by rewrite <- app_assoc).
  apply IH; [lia|lia| |done|rewrite length_app; cbn; lia..].
  intros i y Hi. replace (j + 1 + Z.of_nat i) with (j + Z.of_nat (Datatypes.S i)) by lia. by apply Hws.
Qed.

Lemma fat_lfn_to_utf8_ok (rd : Z -> M T Z) l p out N m0 w old m copy_len cur (Q : Z -> T -> Prop) :
  reads_bytes rd p l -> Forall is_u8 l -> copy_len = Z.of_nat (length l) -> cur = Z.of_nat (length w) ->
  filled m0 out N (w ++ old) m ->
  (length w + length (utf16 l) < N)%nat -> (length w + length (utf16 l) < 255)%nat ->
  (forall m', filled m0 out N ((w ++ narrow (utf16 l)) ++ [0]) m' ->
     Q (Z.of_nat (length (narrow (utf16 l)))) m') ->
  wp (fat_lfn_to_utf8 rd p copy_len out 256 cur) Q m.
Proof.
  intros Hr Hl -> -> Hm HN H255 HQ. apply filled_prefix in Hm. unfold fat_lfn_to_utf8.
  wp_step. rewrite Nat2Z.id. eapply wp_ok; [by apply copy_bytes_ok|]. cbv zeta. wp_step.
  rewrite <- length_utf16. eapply wpg_mono; [apply (narrow_loop_ok l out N m0 (utf16 l) 0 w m); try done; try lia|].
  - rewrite length_utf16, Z2Nat.id; [done|]. apply Z.div_pos; lia.
  - intros i x Hi. unfold utf16 in Hi. rewrite list_lookup_fmap in Hi.
    destruct (seqZ _ _ !! i) as [k|] eqn:Ek; [|done]. injection Hi as <-.
    apply lookup_seqZ in Ek as [-> _]. done.
  - intros r m' [Hf Er]. pose proof (length_narrow (utf16 l)).
    assert (forall cur, cur = Z.of_nat (length (w ++ narrow (utf16 l))) ->
      wp (do! store8 (out + cur) 0 in ret (u32 (cur - Z.of_nat (length w)))) Q m') as Hend.
    { intros cur ->. wp_step. eapply store8_filled; [exact Hf|done|rewrite length_app; lia|].
      intros m2 F2. wp_step. rewrite length_app, u32_small by (unfold is_u32; lia).
      replace (Z.of_nat (length w + length (narrow (utf16 l))) - Z.of_nat (length w))
        with (Z.of_nat (length (narrow (utf16 l)))) by lia. by apply HQ. }
    destruct r as [i|i]; by apply Hend.
Qed.
End LongNames.

(** ** One entry *)

(** Checksum of a short name: rotate right and add. *)
Definition sfn_sum (name : list Z) : Z :=
  fold_left (fun sum c => u8 (sum / 2 + 128 * (sum mod 2) + c)) name 0.

Lemma fat_sfn_checksum_ok h buf p name (Q : Z -> list Z -> Prop) :
  0 <= p -> name = take 11 (drop (Z.to_nat p) buf) -> length name = 11%nat ->
  Q (sfn_sum name) buf -> wpg h (fat_sfn_checksum p) Q buf.
Proof.
  intros Hp Hn Hlen HQ. unfold fat_sfn_checksum.
  eapply wpg_mono; [apply (wpg_for h (fun i sum m' => m' = buf /\ 0 <= i <= 11 /\ is_u8 sum /\
    sum = sfn_sum (take (Z.to_nat i) name)))|].
  - split_and!; [done|done|done|by unfold is_u8; cbn|done].
  - intros i sum m' Hi (-> & Hi2 & Hs & Es).
    destruct (lookup_lt_is_Some_2 name (Z.to_nat i)) as [c Hc]; [lia|]. wp_step.
    apply (list_load8_ok _ buf (p + i) c); [lia| |].
    { rewrite Hn in Hc. apply lookup_take_Some in Hc as [Hc _]. rewrite lookup_drop in Hc.
      rewrite <- Hc. f_equal. lia. }
    wp_step. split; [done|]. split; [lia|]. split; [apply u8_range|].
    replace (Z.to_nat (i + 1)) with (S (Z.to_nat i)) by lia. rewrite (take_S_r _ _ _ Hc).
    unfold sfn_sum. rewrite fold_left_app. fold (sfn_sum (take (Z.to_nat i) name)). rewrite <- Es. cbn [fold_left].
    rewrite Z.shiftr_div_pow2 by lia. change (2 ^ 1) with 2. change 1 with (Z.ones 1) at 1.
    rewrite Z.land_ones by lia. change (2 ^ 1) with 2. f_equal. unfold is_u8 in Hs.
    destruct (Z.eqb_spec (sum mod 2) 0) as [E|E]; cbn [negb]; [rewrite E; lia|].
    assert (sum mod 2 = 1) as -> by dlia. lia.
  - intros sum m' (-> & _ & _ & ->). by rewrite take_ge by lia.
Qed.

(** Order byte of a long-name entry: its number, and a flag on the first. *)
Definition lfn_order (e : list Z) (first : bool) (ord : Z) : Prop :=
  1 <= ord <= MAX_LFN_PARTS /\ le_at 1 e 0 = ord + (if first then 0x40 else 0).

Lemma lfn_order_bits e first ord :
  lfn_order e first ord ->
  Z.land (le_at 1 e 0) (Z.lnot 0x40) = ord /\ negb (Z.land (le_at 1 e 0) 0x40 =? 0) = first.
Proof.
  intros [Ho ->]. unfold MAX_LFN_PARTS in Ho.
  assert (forallb (fun o => (Z.land (o + 0x40) (Z.lnot 0x40) =? o) && (Z.land o (Z.lnot 0x40) =? o) &&
    negb (Z.land (o + 0x40) 0x40 =? 0) && (Z.land o 0x40 =? 0)) (seqZ 1 20) = true) as Hall by (vm_compute; done).
  rewrite forallb_forall in Hall. specialize (Hall ord ltac:(apply list_elem_of_In, elem_of_seqZ; lia)).
  rewrite !andb_true_iff in Hall. destruct Hall as [[[H1 H2] H3] H4]. apply Z.eqb_eq in H1, H2.
  destruct first; rewrite ?Z.add_0_r; split; try done. by rewrite H4.
Qed.

Section Entries.
Context {S : Type} `{BL : BlockLaws S} `{F : Fuel}.
Implicit Types (s : FS S) (it : fat_directory_iterator_t) (e : list Z).

(** Entry [e] is at byte [p] of the loaded sector. *)
Definition entry_at it (p : Z) e : Prop :=
  0 <= p /\ e = take 32 (drop (Z.to_nat p) (sector_buffer it)) /\ length e = 32%nat /\
  Forall is_u8 (sector_buffer it).

Lemma entry_byte h it p e i (Q : Z -> list Z -> Prop) :
  entry_at it p e -> 0 <= i < 32 -> Q (le_at 1 e i) (sector_buffer it) ->
  wpg h (load8 (p + i)) Q (sector_buffer it).
Proof.
  intros (Hp & He & Hl & Hu) Hi HQ. apply list_byte_ok; [lia| |].
  - rewrite He, length_take, length_drop in Hl. lia.
  - replace (le_at 1 (sector_buffer it) (p + i)) with (le_at 1 e i); [done|]. rewrite He.
    apply le_at_sub; lia.
Qed.

Lemma entry_reads it p e i n :
  entry_at it p e -> 0 <= i -> (Z.to_nat i + n <= 32)%nat ->
  reads_bytes (T:=list Z) (fun q => on (sector_buffer it) (load8 q)) (p + i) (take n (drop (Z.to_nat i) e)) /\
  length (take n (drop (Z.to_nat i) e)) = n /\ Forall is_u8 (take n (drop (Z.to_nat i) e)).
Proof.
  intros (Hp & He & Hl & Hu) Hi Hn.
  assert (length (take n (drop (Z.to_nat i) e)) = n) as Hlen by (rewrite length_take, length_drop; lia).
  split_and!; [|done|].
  - apply reads_bytes_list; [lia|]. rewrite Hlen, He.
    rewrite skipn_firstn_comm, take_take, drop_drop, Nat.min_l by lia. do 2 f_equal. lia.
  - apply Forall_take, Forall_drop. rewrite He. by apply Forall_take, Forall_drop.
Qed.

Lemma entry_u8 it p e : entry_at it p e -> Forall is_u8 e.
Proof. intros (_ & -> & _ & Hu). by apply Forall_take, Forall_drop. Qed.

Lemma length_utf16_field e i n :
  (Z.to_nat i + n <= length e)%nat -> length (utf16 (take n (drop (Z.to_nat i) e))) = Z.to_nat (Z.of_nat n / 2).
Proof. intros Hn. rewrite length_utf16, length_take, length_drop, Nat.min_l by lia. done. Qed.

Lemma process_lfn_entry_ok s it l p e first ord (Q : fat_directory_iterator_t * lfn_locals -> FS S -> Prop) :
  entry_at it p e -> lfn_order e first ord -> (first = false -> lfn_checksum it <> 0) ->
  mapped (lfn_buffer l) 0 800 ->
  (forall buf, filled (lfn_buffer l) ((ord - 1) * 40) 40 (lfn_text e ++ [0]) buf ->
     Q (if first then set_it_checksum (le_at 1 e 13) it else it,
        {| lfn_parts_found := u8 (lfn_parts_found l + 1); lfn_buffer := buf |}) s) ->
  wp (process_lfn_entry p it l) Q s.
Proof.
  intros He Ho Hc Hl HQ. pose proof (lfn_order_bits _ _ _ Ho) as [E1 E2]. destruct Ho as [Ho _].
  unfold MAX_LFN_PARTS in Ho. unfold process_lfn_entry. wp_step. apply wpg_on.
  rewrite <- (Z.add_0_r p) at 1. apply (entry_byte _ it p e 0); [done|lia|]. rewrite E1.
  destruct (Z.eqb_spec ord 0), (Z.ltb_spec MAX_LFN_PARTS ord); unfold MAX_LFN_PARTS in *; try lia. cbn [orb].
  wp_step. rewrite E2. set (it' := if first then set_it_checksum (le_at 1 e 13) it else it) in *.
  enough (wp (let segment_dest := (ord - 1) * MAX_UTF8_CHARS_PER_LFN_PART in
      let! '(_, buf) := within (lfn_buffer l) (
        let! n1 := fat_lfn_to_utf8 (fun p => on (sector_buffer it) (load8 p)) (p + 1) 10 segment_dest MAX_FILENAME_LEN 0 in
        let! n2 := fat_lfn_to_utf8 (fun p => on (sector_buffer it) (load8 p)) (p + 14) 12 segment_dest MAX_FILENAME_LEN (u32 (0 + n1)) in
        fat_lfn_to_utf8 (fun p => on (sector_buffer it) (load8 p)) (p + 28) 4 segment_dest MAX_FILENAME_LEN (u32 (u32 (0 + n1) + n2))) in
      ret (it', {| lfn_parts_found := u8 (lfn_parts_found l + 1); lfn_buffer := buf |})) Q s) as Hmain.
  { destruct first; cbn [negb].
    - wp_step. wp_step. apply (entry_byte _ it p e 13); [done|lia|]. wp_step. exact Hmain.
    - specialize (Hc eq_refl). destruct (Z.eqb_spec (lfn_checksum it) 0); [done|]. wp_step. exact Hmain. }
  change MAX_UTF8_CHARS_PER_LFN_PART with 40. change MAX_FILENAME_LEN with 256. cbv zeta. wp_steps.
  assert (length e = 32%nat) as He32 by apply He.
  destruct (entry_reads it p e 1 10 He) as (R1 & L1 & U1); [lia|cbn; lia|].
  destruct (entry_reads it p e 14 12 He) as (R2 & L2 & U2); [lia|cbn; lia|].
  destruct (entry_reads it p e 28 4 He) as (R3 & L3 & U3); [lia|cbn; lia|].
  pose proof (length_utf16_field e 1 10 ltac:(cbn; lia)) as W1. pose proof (length_utf16_field e 14 12 ltac:(cbn; lia)) as W2.
  pose proof (length_utf16_field e 28 4 ltac:(cbn; lia)) as W3.
  change (Z.to_nat 1) with 1%nat in *. change (Z.to_nat 14) with 14%nat in *. change (Z.to_nat 28) with 28%nat in *.
  change (Z.to_nat (Z.of_nat 10 / 2)) with 5%nat in W1. change (Z.to_nat (Z.of_nat 12 / 2)) with 6%nat in W2.
  change (Z.to_nat (Z.of_nat 4 / 2)) with 2%nat in W3. unfold lfn_text in HQ.
  set (f1 := take 10 (drop 1 e)) in *. set (f2 := take 12 (drop 14 e)) in *. set (f3 := take 4 (drop 28 e)) in *.
  pose proof (length_narrow (utf16 f1)). pose proof (length_narrow (utf16 f2)).
  eapply (fat_lfn_to_utf8_ok _ f1 _ _ 40 (lfn_buffer l) [] []); [exact R1|done|by rewrite L1|done| |cbn; lia|cbn; lia|].
  { apply filled_nil. intros q Hq. apply Hl. lia. }
  intros m1 F1. rewrite app_nil_l in F1. cbv beta. rewrite Z.add_0_l, u32_small by (unfold is_u32; lia). wp_step.
  eapply (fat_lfn_to_utf8_ok _ f2 _ _ 40 (lfn_buffer l)); [exact R2|done|by rewrite L2|reflexivity|exact F1|lia|lia|].
  intros m2 F2. cbv beta. rewrite u32_small by (unfold is_u32; lia).
  eapply (fat_lfn_to_utf8_ok _ f3 _ _ 40 (lfn_buffer l)); [exact R3|done|by rewrite L3| |exact F2|rewrite length_app; lia..|].
  { rewrite length_app. lia. }
  intros m3 F3. cbv beta. wp_step. apply HQ. by rewrite <- !app_assoc in F3 |- *.
Qed.
End Entries.

(** ** The name of a file *)

(** The string [name] is in the 256 bytes of [filename]. *)
Definition named (m name : list Z) : Prop :=
  peeks m 0 (length name + 1) = Some (name ++ [0]) /\ mapped m 0 MAX_FILENAME_LEN.

(** The rows of [lfn_buffer] hold [texts]. *)
Definition rows (buf : list Z) (texts : list (list Z)) : Prop :=
  forall i t, texts !! i = Some t -> string_at buf (Z.of_nat i * 40) t.

Lemma take_take_app {A} n (l k : list A) : take n (take n l ++ k) = take n (l ++ k).
Proof.
  destruct (le_lt_dec n (length l)).
  - rewrite !take_app_le by (rewrite ?length_take; lia). by rewrite take_take, Nat.min_id.
  - by rewrite (take_ge l) by lia.
Qed.

Lemma row_char buf texts i t b k :
  rows buf texts -> texts !! i = Some t -> (t ++ [0]) !! k = Some b ->
  forall h (Q : Z -> list Z -> Prop), Q b buf -> wpg h (load8 (Z.of_nat i * 40 + Z.of_nat k)) Q buf.
Proof. intros Hr Hi Hb h Q HQ. eapply load8_ok; [|done]. eapply string_at_byte; [by apply Hr|done]. Qed.

Section Assemble.
Context `{F : Fuel} (enough : (256 < fuel)%nat).

(** One part is appended, up to 255 characters in all. *)
Lemma append_part_ok buf texts i t acc m (Q : unit -> list Z -> Prop) :
  rows buf texts -> texts !! i = Some t -> (length t < fuel)%nat ->
  string_at m 0 acc -> (length acc <= 255)%nat -> mapped m 0 MAX_FILENAME_LEN ->
  (forall m', string_at m' 0 (take 255 (acc ++ t)) -> mapped m' 0 MAX_FILENAME_LEN -> Q tt m') ->
  wp (let row := Z.of_nat i * 40 in
      let! c := on buf (load8 row) in
      if c =? 0 then ret tt else
      let! n := strlen fuel 0 in
      do! strncat fuel (fun p => on buf (load8 p)) 0 row (u32 (MAX_FILENAME_LEN - 1 - n)) in
      ret tt) Q m.
Proof.
  intros Hr Hi Ht Ha Hal Hm HQ. cbv zeta. wp_steps. pose proof (Hr i t Hi) as Hs. destruct Hs as [Hch Hp].
  destruct (lookup_lt_is_Some_2 (t ++ [0]) 0) as [b Hb]; [rewrite length_app; cbn; lia|].
  rewrite <- (Z.add_0_r (Z.of_nat i * 40)) at 1. apply (row_char buf texts i t b 0); [done..|].
  destruct t as [|c t].
  - injection Hb as <-. cbn [Z.eqb]. wp_step. apply HQ; [|done]. by rewrite app_nil_r, take_ge by lia.
  - injection Hb as ->. pose proof Hch as [[_ Hb0] _]%Forall_cons. destruct (Z.eqb_spec b 0); [done|].
    wp_step. eapply wp_ok; [apply (strlen_ok m 0 acc); [done|unfold is_u32; lia|lia]|].
    change MAX_FILENAME_LEN with 256 in *. rewrite u32_small by (unfold is_u32; lia). wp_step.
    set (t' := b :: t) in *. eapply wpg_mono; [apply (strncat_ok _ m 0 (Z.of_nat i * 40) (256 - 1 - Z.of_nat (length acc)) acc t' fuel)|].
    + done.
    + split; [done|]. intros m' j d _ Hj. unfold on. erewrite load8_eq; [done|]. eapply string_at_byte; [by apply Hr|done].
    + unfold is_u32; lia.
    + rewrite length_take. intros q Hq. apply Hm. lia.
    + lia.
    + done.
    + intros r m' (-> & W & Hs). wp_step. apply HQ.
      * replace (take 255 (acc ++ t')) with (acc ++ take (Z.to_nat (256 - 1 - Z.of_nat (length acc))) t'); [done|].
        rewrite take_app, (take_ge acc) by lia. do 2 f_equal. lia.
      * by eapply writes_mapped.
Qed.

Lemma assemble_name_ok l texts m (Q : unit -> list Z -> Prop) :
  rows (lfn_buffer l) texts -> lfn_parts_found l = Z.of_nat (length texts) ->
  Forall (fun t => (length t < fuel)%nat) texts -> mapped m 0 MAX_FILENAME_LEN ->
  (forall m', string_at m' 0 (take 255 (concat texts)) -> mapped m' 0 MAX_FILENAME_LEN -> Q tt m') ->
  wp (assemble_name l) Q m.
Proof.
  intros Hr Hn Ht Hm HQ. unfold assemble_name. rewrite Hn, Nat2Z.id. wp_step.
  change MAX_FILENAME_LEN with 256 in *.
  eapply store8_writes; [apply (writes_nil m 0)|done|exact Hm|lia|]. intros m1 W1. change (u8 0) with 0 in W1.
  wp_step. eapply wpg_mono; [apply (wpg_for False (fun i (_ : unit) m' => 0 <= i /\ mapped m' 0 256 /\
    string_at m' 0 (take 255 (concat (take (Z.to_nat i) texts)))))|].
  - split; [done|]. split; [by eapply writes_mapped|]. destruct W1 as [E1 _].
    change (Z.to_nat 0) with O. rewrite take_0. split; [constructor|exact E1].
  - intros i [] m' Hi (Hi0 & Hm' & Hs).
    destruct (lookup_lt_is_Some_2 texts (Z.to_nat i)) as [t Hti]; [lia|].
    replace (i * MAX_UTF8_CHARS_PER_LFN_PART) with (Z.of_nat (Z.to_nat i) * 40) by (unfold MAX_UTF8_CHARS_PER_LFN_PART; lia).
    apply (append_part_ok (lfn_buffer l) texts (Z.to_nat i) t (take 255 (concat (take (Z.to_nat i) texts)))); try done.
    + by apply (Forall_lookup_1 _ _ _ _ Ht Hti).
    + rewrite length_take. lia.
    + intros m2 Hs2 Hm2. split; [lia|]. split; [done|]. rewrite take_take_app in Hs2.
      replace (Z.to_nat (i + 1)) with (Datatypes.S (Z.to_nat i)) by lia.
      rewrite (take_S_r _ _ _ Hti), concat_app. cbn [concat]. by rewrite app_nil_r.
  - intros [] m2 (_ & Hm2 & Hs2). rewrite Z.add_0_l, Nat2Z.id, (take_ge texts) in Hs2 by lia.
    set (acc := take 255 (concat texts)) in *. assert (length acc <= 255)%nat by (unfold acc; rewrite length_take; lia).
    apply store8_ok; [apply Hm2; lia|]. intros m3 Hp. change (u8 0) with 0 in Hp. change (256 - 1) with 255 in Hp.
    assert (forall q, 0 <= q <= Z.of_nat (length acc) -> peek m3 q = peek m2 q) as Hsame.
    { intros q Hq. destruct (Z.eq_dec 255 q) as [<-|]; [|by eapply peek_poke_ne].
      rewrite (peek_poke_eq _ _ _ _ Hp). symmetry. replace 255 with (0 + Z.of_nat (length acc)) by lia.
      eapply string_at_byte; [exact Hs2|]. by rewrite lookup_app_r, Nat.sub_diag by lia. }
    apply HQ.
    + destruct Hs2 as [Hc E]. split; [done|]. rewrite <- E. apply peeks_ext. intros q Hq. apply Hsame. lia.
    + intros q Hq. destruct (Z.eq_dec 255 q) as [<-|]; [rewrite (peek_poke_eq _ _ _ _ Hp); eauto|].
      rewrite (peek_poke_ne _ _ _ _ _ Hp) by done. by apply Hm2.
Qed.
End Assemble.

(** [info] is what the short-name entry [e] says, under the name [name]. *)
Definition describes (info : fat_file_info_t) (e name : list Z) : Prop :=
  named (filename info) name /\
  first_cluster info = le_at 2 e 26 + 65536 * le_at 2 e 20 /\
  info_size info = le_at 4 e 28 /\
  attributes info = le_at 1 e 11 /\
  is_directory info = negb (Z.land (le_at 1 e 11) FAT_ATTR_DIRECTORY =? 0).

Definition short_texts (texts : list (list Z)) : Prop := Forall (fun t => (length t <= 13)%nat) texts.

(** The name that goes with entry [e]: the long name collected so far when its
    checksum is that of the short one. *)
Definition entry_name (it : fat_directory_iterator_t) (l : lfn_locals) (e name : list Z) : Prop :=
  if negb (lfn_checksum it =? 0) && (sfn_sum (take 11 e) =? lfn_checksum it)
  then exists texts, rows (lfn_buffer l) texts /\ short_texts texts /\
         lfn_parts_found l = Z.of_nat (length texts) /\ name = take 255 (concat texts)
  else name = sfn_text (take 11 e).

Lemma length_narrow_field n e : (length (narrow (utf16 (take n e))) <= n / 2)%nat.
Proof.
  pose proof (length_narrow (utf16 (take n e))) as H. rewrite length_utf16, length_take in H.
  rewrite <- (Nat2Z.id (n / 2)), Nat2Z.inj_div. etrans; [exact H|].
  apply Z2Nat.inj_le; [apply Z.div_pos; lia|apply Z.div_pos; lia|apply Z.div_le_mono; lia].
Qed.

Lemma length_lfn_text e : (length (lfn_text e) <= 13)%nat.
Proof.
  unfold lfn_text. rewrite !length_app.
  pose proof (length_narrow_field 10 (drop 1 e)) as H1. pose proof (length_narrow_field 12 (drop 14 e)) as H2.
  pose proof (length_narrow_field 4 (drop 28 e)) as H3.
  change (10 / 2)%nat with 5%nat in H1. change (12 / 2)%nat with 6%nat in H2. change (4 / 2)%nat with 2%nat in H3. lia.
Qed.

Section Steps.
Context {S : Type} `{BL : BlockLaws S} `{F : Fuel} (enough : (256 < fuel)%nat).
Implicit Types (s : FS S) (it : fat_directory_iterator_t) (e : list Z).

Lemma filled_named m0 name m : filled m0 0 256 (name ++ [0]) m -> named m name.
Proof.
  intros (E & _ & Hm & _). split; [|exact Hm]. rewrite length_app in E. exact E.
Qed.

Lemma process_sfn_entry_ok s it l p e name info (Q : fat_file_info_t -> FS S -> Prop) :
  entry_at it p e -> entry_name it l e name -> mapped (filename info) 0 MAX_FILENAME_LEN ->
  (forall info', describes info' e name -> Q info' s) ->
  wp (process_sfn_entry p it l info) Q s.
Proof.
  intros He Hname Hm HQ. assert (length e = 32%nat) as Hlen by apply He.
  destruct (entry_reads it p e 0 11 He) as (R0 & L0 & U0); [lia|cbn; lia|].
  change (Z.to_nat 0) with O in *. rewrite drop_0, Z.add_0_r in *.
  destruct He as (Hp & Ee & _ & Hu).
  assert (p + 32 <= Z.of_nat (length (sector_buffer it))) as Hend
    by (rewrite Ee, length_take, length_drop in Hlen; lia).
  assert (forall k q, 0 <= q -> (Z.to_nat q + k <= 32)%nat ->
    le_at k (sector_buffer it) (p + q) = le_at k e q) as Hat.
  { intros k q Hq Hk. rewrite Ee. symmetry. by apply le_at_sub. }
  assert (take 11 e = take 11 (drop (Z.to_nat p) (sector_buffer it))) as E11 by (by rewrite Ee, take_take).
  assert (forall (K : unit * list Z -> FS S -> Prop),
    (forall m, named m name -> K (tt, m) s) ->
    wp (within (filename info)
      (if negb (lfn_checksum it =? 0) && (sfn_sum (take 11 e) =? lfn_checksum it) then assemble_name l
       else fat_sfn_to_string (fun q => on (sector_buffer it) (load8 q)) p 0)) K s) as Hbuild.
  { intros K HK. apply wpg_within. unfold entry_name in Hname. destruct (_ && _).
    - destruct Hname as (texts & Hr & Hs & Hn & ->). apply (assemble_name_ok enough l texts); [done|done| |done|].
      { eapply Forall_impl; [exact Hs|]. cbn. intros; lia. }
      intros m Hms Hmm. apply HK. split; [apply Hms|done].
    - subst name. apply (fat_sfn_to_string_ok _ (take 11 e) _ p 0 256); [exact R0|done|done|exact Hm|lia|lia|].
      intros m Hf. apply HK. by eapply filled_named. }
  unfold process_sfn_entry. change (offset_of DIR_Attr fat_sfn_dir_entry_t) with 11. cbv zeta. wp_step. apply wpg_on.
  apply (fat_sfn_checksum_ok _ _ p (take 11 e)); [done|done|done|].
  wp_step. apply Hbuild. intros m Hnamed.
  wp_step. apply wpg_on, list_le16_ok; [done|lia|done|lia|]. rewrite Hat by lia.
  wp_step. apply wpg_on, list_le16_ok; [done|lia|done|lia|]. rewrite Hat by lia.
  wp_step. apply wpg_on, list_le32_ok; [done|lia|done|lia|]. rewrite Hat by lia.
  wp_step. apply wpg_on, list_byte_ok; [lia|lia|]. rewrite Hat by lia. wp_step. apply HQ.
  assert (Forall is_u8 e) as Hue by (rewrite Ee; by apply Forall_take, Forall_drop).
  pose proof (le_at_range 2 e 20 Hue). pose proof (le_at_range 2 e 26 Hue).
  split; [exact Hnamed|]. split_and!; try done. cbn [first_cluster].
  rewrite Z.lor_comm, (lor_shiftl_add _ _ 16) by lia. change (2 ^ 16) with 65536.
  rewrite u32_small by (unfold is_u32; lia). lia.
Qed.

(** The two views of an entry have its size, and the numbers that the code
    passes to read_le16 and read_le32 are the offsets of the fields it means. *)
Lemma dir_entry_layout :
  packed_size fat_sfn_dir_entry_t = 32 /\ packed_size fat_lfn_dir_entry_t = 32 /\
  offset_of DIR_FstClusHI fat_sfn_dir_entry_t = 20 /\ offset_of DIR_FstClusLO fat_sfn_dir_entry_t = 26 /\
  offset_of DIR_FileSize fat_sfn_dir_entry_t = 28 /\
  offset_of LDIR_Attr fat_lfn_dir_entry_t = offset_of DIR_Attr fat_sfn_dir_entry_t.
Proof. done. Qed.

(** *** What an entry is *)

Definition is_lfn e : bool := Z.land (le_at 1 e 11) FAT_ATTR_LFN =? FAT_ATTR_LFN.
Definition is_live e : bool := negb (le_at 1 e 0 =? 0) && negb (le_at 1 e 0 =? 0xE5).

(** A volume label: neither a file nor a directory. *)
Definition is_label e : bool :=
  negb (Z.land (le_at 1 e 11) FAT_ATTR_VOLUME_ID =? 0) && (Z.land (le_at 1 e 11) FAT_ATTR_DIRECTORY =? 0).

Lemma process_entry_end_ok s it p e info l (Q : dir_loop -> FS S -> Prop) :
  entry_at it p e -> le_at 1 e 0 = 0 -> Q (inr (FAT_ERROR_NO_MORE_ENTRIES, it, info)) s ->
  wp (process_entry p it info l) Q s.
Proof.
  clear enough. intros He H0 HQ. unfold process_entry. wp_step. apply wpg_on. rewrite <- (Z.add_0_r p).
  apply (entry_byte _ it p e 0 _ He); [lia|]. rewrite H0. exact HQ.
Qed.

Lemma process_entry_deleted_ok s it p e info l (Q : dir_loop -> FS S -> Prop) :
  entry_at it p e -> le_at 1 e 0 = 0xE5 -> Q (inl (it, info, l)) s ->
  wp (process_entry p it info l) Q s.
Proof.
  clear enough. intros He H0 HQ. unfold process_entry. wp_step. apply wpg_on. rewrite <- (Z.add_0_r p).
  apply (entry_byte _ it p e 0 _ He); [lia|]. rewrite H0. exact HQ.
Qed.

Lemma process_entry_live s it p e info l (Q : dir_loop -> FS S -> Prop) :
  entry_at it p e -> is_live e = true ->
  (if is_lfn e then
     wp (process_lfn_entry p it l) (fun '(it, l) s => Q (inl (it, info, l)) s) s
   else
     wp (process_sfn_entry p it l info) (fun info s =>
       let l := {| lfn_parts_found := 0; lfn_buffer := lfn_buffer l |} in
       let it := set_it_checksum 0 it in
       Q (if negb (Z.land (attributes info) FAT_ATTR_VOLUME_ID =? 0) && negb (is_directory info)
          then inl (it, info, l) else inr (FAT_SUCCESS, it, info)) s) s) ->
  wp (process_entry p it info l) Q s.
Proof.
  clear enough. intros He Hl HQ. unfold is_live in Hl. apply andb_prop in Hl as [H1 H2].
  apply negb_true_iff in H1, H2. unfold process_entry. wp_step. apply wpg_on.
  rewrite <- (Z.add_0_r p) at 1. apply (entry_byte _ it p e 0 _ He); [lia|]. rewrite H1, H2.
  wp_step. apply wpg_on. apply (entry_byte _ it p e 11 _ He); [lia|]. fold (is_lfn e).
  destruct (is_lfn e); wp_step.
  - eapply wpg_mono; [exact HQ|]. intros [it' l'] s' H'. by wp_step.
  - eapply wpg_mono; [exact HQ|]. intros info' s' H'. revert H'. cbv beta zeta. by destruct (_ && _).
Qed.

(** A short-name entry: a label is passed over, anything else is the result. *)
Lemma process_entry_short_ok s it p e name info l (Q : dir_loop -> FS S -> Prop) :
  entry_at it p e -> is_live e = true -> is_lfn e = false -> entry_name it l e name ->
  mapped (filename info) 0 MAX_FILENAME_LEN ->
  (forall info', describes info' e name ->
     Q (if is_label e then inl (set_it_checksum 0 it, info', {| lfn_parts_found := 0; lfn_buffer := lfn_buffer l |})
        else inr (FAT_SUCCESS, set_it_checksum 0 it, info')) s) ->
  wp (process_entry p it info l) Q s.
Proof.
  intros He Hl Hn Hname Hm HQ. apply (process_entry_live s it p e); [done|done|]. rewrite Hn.
  apply (process_sfn_entry_ok s it l p e name); [done|done|done|]. intros info' Hd. cbv zeta.
  specialize (HQ info' Hd). destruct Hd as (_ & _ & _ & -> & ->). rewrite negb_involutive. exact HQ.
Qed.
End Steps.

(** ** A directory as a list of entries *)

(** Entry [p] of a directory with the bytes [content], and their number. *)
Definition dir_entry (content : list Z) (p : Z) : list Z := take 32 (drop (Z.to_nat (32 * p)) content).
Definition dir_size (content : list Z) : Z := Z.of_nat (length content) / 32.

(** A directory whose clusters can all be read. *)
Record directory (v : fat32_volume_info_t) (D : Z -> option (list Z)) (c : Z) (l content : list Z) : Prop := {
  di_chain : chain v D c l;
  di_data : chain_data v D l = Some content;
}.

(** The iterator is about to look at entry [p]. *)
Definition iter_at (v : fat32_volume_info_t) (l content : list Z) (it : fat_directory_iterator_t) (p : Z) : Prop :=
  length (sector_buffer it) = 512%nat /\
  ((sector_buffer_valid it = false /\ it_sector it = u32 (-1) /\ l !! O = Some (it_cluster it) /\ p = 0) \/
   (sector_buffer_valid it = true /\ 0 <= it_entry it <= 16 /\ exists q,
      0 <= q /\ 0 <= it_sector it < sectors_per_cluster v /\ l !! Z.to_nat q = Some (it_cluster it) /\
      p = 16 * (q * sectors_per_cluster v + it_sector it) + it_entry it /\
      sector_buffer it = take 512 (drop (Z.to_nat (512 * (q * sectors_per_cluster v + it_sector it))) content))).

Section Iterator.
Context {S : Type} `{BL : BlockLaws S} `{F : Fuel}.
Implicit Types (s : FS S) (it : fat_directory_iterator_t).
Context (v : fat32_volume_info_t) (D : Z -> option (list Z)) (c0 : Z) (l content : list Z).
Context (Hv : volume_ok v) (Hdir : directory v D c0 l content).
Context (Hsize : forall a data, D a = Some data -> length data = 512%nat /\ Forall is_u8 data).

Lemma dir_length : Z.of_nat (length content) = Z.of_nat (length l) * (sectors_per_cluster v * 512).
Proof.
  rewrite (length_chain_data v D Hv (fun a data H => proj1 (Hsize a data H)) l content (di_data _ _ _ _ _ Hdir)).
  by rewrite (vo_bytes v Hv).
Qed.

Lemma dir_size_eq : dir_size content = 16 * (Z.of_nat (length l) * sectors_per_cluster v).
Proof.
  unfold dir_size. rewrite dir_length.
  replace (Z.of_nat (length l) * (sectors_per_cluster v * 512))
    with (16 * (Z.of_nat (length l) * sectors_per_cluster v) * 32) by lia. by apply Z.div_mul.
Qed.

Lemma content_u8 : Forall is_u8 content.
Proof.
  destruct (chain_blocks v D (fun a data H => proj1 (Hsize a data H)) l content (di_data _ _ _ _ _ Hdir))
    as (blocks & -> & H2 & _).
  apply Forall_concat. eapply Forall2_Forall_r; [exact H2|]. apply Forall_true.
  intros a data Hd. by apply (Hsize a data).
Qed.

(** The block of sector [i] of cluster [q] of the directory. *)
Lemma dir_block q i c :
  0 <= q -> 0 <= i < sectors_per_cluster v -> l !! Z.to_nat q = Some c ->
  valid_cluster v c /\ is_u32 (fatClusterToLba v c + i) /\
  u32 (fatClusterToLba v c + i) = fatClusterToLba v c + i /\
  D (fatClusterToLba v c + i) = Some (take 512 (drop (Z.to_nat (512 * (q * sectors_per_cluster v + i))) content)).
Proof.
  intros Hq Hi Hl. destruct (chain_lookup _ _ _ _ _ _ (di_chain _ _ _ _ _ Hdir) Hl) as [Hc _].
  destruct (lba_in_range v c i Hv Hc Hi) as (E & Hu & _). split_and!; [done..|].
  pose proof (lookup_lt_Some _ _ _ Hl) as Hlt. pose proof dir_length as Hlen. pose proof (vo_bytes v Hv) as Hb.
  set (spc := sectors_per_cluster v) in *.
  assert (q * spc + i < Z.of_nat (length l) * spc).
  { assert ((q + 1) * spc <= Z.of_nat (length l) * spc) by (apply Z.mul_le_mono_nonneg_r; lia). lia. }
  assert (0 <= q * spc) by (apply Z.mul_nonneg_nonneg; lia).
  destruct (file_place v D Hv (fun a data H => proj1 (Hsize a data H)) l content (512 * (q * spc + i))
    (di_data _ _ _ _ _ Hdir)) as (c' & data & Hl' & HD & Hsl); [lia|].
  rewrite Hb in Hl', HD.
  replace (512 * (q * spc + i)) with (i * 512 + q * (spc * 512)) in Hl', HD by lia.
  rewrite Z.div_add, (Z.div_small (i * 512)), Z.add_0_l in Hl' by lia. rewrite Hl in Hl'. injection Hl' as <-.
  rewrite Z.mod_add, (Z.mod_small (i * 512)), Z.div_mul in HD by lia. rewrite HD.
  assert ((512 * (q * spc + i)) mod 512 = 0) as Em by (rewrite Z.mul_comm; by apply Z.mod_mul).
  specialize (Hsl 512%nat). rewrite Em in Hsl. rewrite Hsl by lia. cbn [Z.to_nat].
  rewrite drop_0, take_ge; [done|]. by rewrite (proj1 (Hsize _ _ HD)).
Qed.

(** Reading sector [i] of cluster [q] into the iterator. *)
Lemma load_block_ok s it q (Q : Z * fat_directory_iterator_t -> FS S -> Prop) :
  g_fat32_volume_info s = v -> disk_data s = D -> bd_ok (disk s) ->
  length (sector_buffer it) = 512%nat -> it_entry it = 0 ->
  0 <= q -> 0 <= it_sector it < sectors_per_cluster v -> l !! Z.to_nat q = Some (it_cluster it) ->
  (forall it' s', disk_step s s' -> it_entry it' = 0 -> lfn_checksum it' = lfn_checksum it ->
     sector_buffer_valid it' = true ->
     iter_at v l content it' (16 * (q * sectors_per_cluster v + it_sector it)) -> Q (FAT_SUCCESS, it') s') ->
  wp (let sector_lba := u32 (fatClusterToLba v (it_cluster it) + it_sector it) in
      let! '(ok, buffer) := on_disk (read_block (sector_buffer it) sector_lba 0) in
      if negb ok then ret (FAT_ERROR_READ_FAIL, set_it_buffer buffer (sector_buffer_valid it) it)
      else ret (FAT_SUCCESS, set_it_buffer buffer true it)) Q s.
Proof.
  intros Vs Ds Hs Hb He Hq Hi Hl HQ. destruct (dir_block q (it_sector it) (it_cluster it)) as (Hc & Hu & E & HD); [done..|].
  cbv zeta. rewrite E. wp_step. destruct (Hsize _ _ HD) as [Hlen _].
  eapply on_disk_block_ok; [done|done|by rewrite Ds| |].
  { apply list_mapped; unfold SD_BLOCK_SIZE; lia. }
  intros b s' W S'. apply list_writes_all in W; [|by rewrite Hlen, Hb]. subst b. cbn [negb]. wp_step.
  apply HQ; [done|done|done|done|]. split; [exact Hlen|]. right. split; [done|]. cbn. split; [lia|].
  exists q. split_and!; try done; lia.
Qed.

Lemma load_next_sector_ok s it p (Q : Z * fat_directory_iterator_t -> FS S -> Prop) :
  g_fat32_volume_info s = v -> disk_data s = D -> bd_ok (disk s) ->
  iter_at v l content it p -> negb (sector_buffer_valid it) || (16 <=? it_entry it) = true ->
  (p < dir_size content -> forall it' s', disk_step s s' -> it_entry it' = 0 ->
     lfn_checksum it' = lfn_checksum it -> sector_buffer_valid it' = true ->
     iter_at v l content it' p -> Q (FAT_SUCCESS, it') s') ->
  (p = dir_size content -> forall it' s', disk_step s s' -> Q (FAT_ERROR_END_OF_CHAIN, it') s') ->
  wp (load_next_sector it) Q s.
Proof.
  intros Vs Ds Hs [Hb Hit] Hused HQ HE. pose proof (vo_cluster v Hv) as Hspc. pose proof dir_size_eq as HN.
  set (spc := sectors_per_cluster v) in *. unfold load_next_sector. wp_step. wp_step. rewrite Vs. cbv zeta.
  cbn [it_cluster it_sector set_it_place]. wp_step. destruct Hit as [(Hval & Hsec & Hl & ->)|(Hval & He & q & Hq & Hi & Hl & Hp & Hbuf)].
  - rewrite Hsec. change (u32 (u32 (-1) + 1)) with 0. fold spc. destruct (Z.leb_spec spc 0); [lia|].
    wp_step. cbn [negb Z.eqb]. change (FAT_SUCCESS =? FAT_SUCCESS) with true. cbn [negb].
    apply (load_block_ok s (set_it_place (it_cluster it) 0 0 it) 0); try done.
    intros it' s' S' E' C' V' I'. cbn in I'. rewrite Z.mul_0_r in I'. apply HQ; try done.
    pose proof (lookup_lt_Some _ _ _ Hl). fold spc in HN.
    assert (1 * spc <= Z.of_nat (length l) * spc) by (apply Z.mul_le_mono_nonneg_r; lia). lia.
  - rewrite Hval in Hused. cbn [negb orb] in Hused. apply Z.leb_le in Hused. assert (it_entry it = 16) as E16 by lia.
    rewrite E16 in Hp. pose proof (lookup_lt_Some _ _ _ Hl) as Hlt.
    rewrite u32_small by (unfold is_u32; lia). fold spc.
    destruct (Z.leb_spec spc (it_sector it + 1)) as [Hend|Hin].
    + assert (it_sector it = spc - 1) as Elast by lia.
      assert (p = 16 * ((q + 1) * spc)) as Ep by lia.
      assert (it_cluster it < 4294967296 /\ 2 <= it_cluster it /\ next_cluster v D (it_cluster it) =
        match l !! Z.to_nat (q + 1) with None => (FAT_ERROR_END_OF_CHAIN, Some 0) | Some y => (FAT_SUCCESS, Some y) end)
        as (Hc & Hc2 & Hnext).
      { destruct (chain_lookup _ _ _ _ _ _ (di_chain _ _ _ _ _ Hdir) Hl) as [[? ?] Hn]. pose proof (vo_count v Hv).
        split; [lia|]. split; [lia|]. replace (Z.to_nat (q + 1)) with (Datatypes.S (Z.to_nat q)) by lia.
        by destruct (l !! Datatypes.S (Z.to_nat q)). }
      wp_step. apply getNextCluster_ok; [by rewrite Vs|done|unfold is_u32; lia|]. rewrite Vs, Ds, Hnext.
      intros s' S'. destruct (l !! Z.to_nat (q + 1)) as [y|] eqn:Ey; cbv beta iota zeta.
      * change (negb (to_fat_error FAT_SUCCESS =? FAT_SUCCESS)) with false. cbv beta iota. wp_step.
        eapply wpg_of_option; [done|]. wp_step. change (negb (FAT_SUCCESS =? FAT_SUCCESS)) with false. cbv beta iota.
        apply (load_block_ok s' (set_it_place y 0 0 (set_it_place (it_cluster it) (it_sector it + 1) 0 it)) (q + 1));
          try done; [by rewrite (disk_step_volume _ _ S')|by rewrite (disk_step_data _ _ S')|by eapply disk_step_ok|lia|cbn; fold spc; lia|].
        intros it' s2 S2 E' C' V' I'. cbn in I'. rewrite Z.add_0_r in I'. fold spc in I'. rewrite <- Ep in I'.
        apply HQ; try done; [|by eapply disk_step_trans].
        pose proof (lookup_lt_Some _ _ _ Ey). fold spc in HN.
        assert ((q + 2) * spc <= Z.of_nat (length l) * spc) by (apply Z.mul_le_mono_nonneg_r; lia). lia.
      * change (negb (to_fat_error FAT_ERROR_END_OF_CHAIN =? FAT_SUCCESS)) with true. cbv beta iota. wp_step.
        change (negb (to_fat_error FAT_ERROR_END_OF_CHAIN =? FAT_SUCCESS)) with true. cbv beta iota. wp_step.
        apply HE; [|done]. apply lookup_ge_None_1 in Ey. fold spc in HN. replace (q + 1) with (Z.of_nat (length l)) in Ep by lia. lia.
    + wp_step. change (negb (FAT_SUCCESS =? FAT_SUCCESS)) with false. cbv beta iota.
      apply (load_block_ok s (set_it_place (it_cluster it) (it_sector it + 1) 0 it) q); try done; [cbn; fold spc; lia|].
      intros it' s' S' E' C' V' I'. cbn in I'. fold spc in I'.
      replace (16 * (q * spc + (it_sector it + 1))) with p in I' by lia.
      apply HQ; try done. fold spc in HN.
      assert ((q + 1) * spc <= Z.of_nat (length l) * spc) by (apply Z.mul_le_mono_nonneg_r; lia). lia.
Qed.

(** The entry under the iterator, and the move past it. *)
Lemma iter_entry it p :
  iter_at v l content it p -> sector_buffer_valid it = true -> it_entry it < 16 ->
  let it' := set_it_place (it_cluster it) (it_sector it) (u16 (it_entry it + 1)) it in
  entry_at it' (it_entry it * 32) (dir_entry content p) /\ iter_at v l content it' (p + 1) /\ p < dir_size content.
Proof.
  intros [Hb Hit] Hval He. pose proof (vo_cluster v Hv) as Hspc. pose proof dir_size_eq as HN.
  pose proof dir_length as Hlen. set (spc := sectors_per_cluster v) in *.
  destruct Hit as [[? _]|(_ & He2 & q & Hq & Hi & Hl & Hp & Hbuf)]; [congruence|].
  pose proof (lookup_lt_Some _ _ _ Hl) as Hlt. rewrite u16_small by (unfold is_u16; lia).
  assert ((q + 1) * spc <= Z.of_nat (length l) * spc) by (apply Z.mul_le_mono_nonneg_r; lia).
  assert (0 <= q * spc) by (apply Z.mul_nonneg_nonneg; lia).
  split_and!.
  - unfold entry_at. cbn. split; [lia|]. unfold dir_entry. rewrite Hbuf.
    assert (take 32 (drop (Z.to_nat (it_entry it * 32)) (take 512 (drop (Z.to_nat (512 * (q * spc + it_sector it))) content)))
      = take 32 (drop (Z.to_nat (32 * p)) content)) as ->.
    { rewrite skipn_firstn_comm, take_take, drop_drop, Nat.min_l by lia. do 2 f_equal. lia. }
    split; [done|]. split; [|apply Forall_take, Forall_drop, content_u8].
    rewrite length_take, length_drop. lia.
  - split; [exact Hb|]. right. split; [exact Hval|]. cbn. split; [lia|]. exists q. fold spc. split_and!; try done; lia.
  - lia.
Qed.

(** One turn of the loop: the next entry, or the end of the chain. *)
Lemma dir_entry_step_ok s it info lo p (Q : dir_loop -> FS S -> Prop) :
  g_fat32_volume_info s = v -> disk_data s = D -> bd_ok (disk s) -> iter_at v l content it p ->
  (p < dir_size content -> forall it' k s', disk_step s s' -> entry_at it' k (dir_entry content p) ->
     iter_at v l content it' (p + 1) -> lfn_checksum it' = lfn_checksum it ->
     wp (process_entry k it' info lo) Q s') ->
  (p = dir_size content -> forall it' s', disk_step s s' -> Q (inr (FAT_ERROR_END_OF_CHAIN, it', info)) s') ->
  wp (dir_entry_step (bytes_per_sector v / 32) (it, info, lo)) Q s.
Proof.
  intros Vs Ds Hs Hit HQ HE. unfold dir_entry_step. rewrite (vo_sector v Hv). change (512 / 32) with 16. wp_step.
  destruct (negb (sector_buffer_valid it) || (16 <=? it_entry it)) eqn:Eu.
  - apply (load_next_sector_ok s it p); [done..| |].
    + intros Hp it' s' S' E' C' V' I'. change (negb (FAT_SUCCESS =? FAT_SUCCESS)) with false. cbv beta iota zeta.
      destruct (iter_entry it' p I' V') as (Hent & I2 & _); [lia|]. by apply HQ.
    + intros Hp it' s' S'. change (negb (FAT_ERROR_END_OF_CHAIN =? FAT_SUCCESS)) with true. cbv beta iota zeta. wp_step. by apply HE.
  - apply orb_false_elim in Eu as [E1 E2]. apply negb_false_iff in E1. wp_step.
    change (negb (FAT_SUCCESS =? FAT_SUCCESS)) with false. cbv beta iota zeta.
    destruct (iter_entry it p Hit E1) as (Hent & I2 & Hp); [lia|].
    apply (HQ Hp); [by apply disk_step_refl|exact Hent|exact I2|done].
Qed.

(** *** What the scan finds *)

Definition lfn_row (p n k : Z) : list Z := lfn_text (dir_entry content (p + n - 1 - k)).

(** [n] long-name entries from [p] on, numbered [n] down to 1. *)
Definition lfn_run (p n : Z) : Prop :=
  1 <= n <= MAX_LFN_PARTS /\ p + n < dir_size content /\
  forall i, 0 <= i < n -> is_live (dir_entry content (p + i)) = true /\
    is_lfn (dir_entry content (p + i)) = true /\ lfn_order (dir_entry content (p + i)) (i =? 0) (n - i).

(** The parts, last entry first, cut to 255 characters. *)
Definition long_name (p n : Z) : list Z := take 255 (concat (lfn_row p n <$> seqZ 0 n)).

Inductive found : Type :=
| Found (e name : list Z)
| NoMore
| Exhausted.

(** Reading from entry [p], the first result is [r], and [p'] is next: deleted
    entries and volume labels are passed over, a run of long-name entries
    belongs to the short entry with its checksum. With [long = false] there
    are no such runs. *)
Inductive next_item (long : bool) : Z -> found -> Z -> Prop :=
| ni_exhausted : next_item long (dir_size content) Exhausted (dir_size content)
| ni_end p : p < dir_size content -> le_at 1 (dir_entry content p) 0 = 0 -> next_item long p NoMore (p + 1)
| ni_deleted p r p' : p < dir_size content -> le_at 1 (dir_entry content p) 0 = 0xE5 ->
    next_item long (p + 1) r p' -> next_item long p r p'
| ni_label p r p' : p < dir_size content ->
    is_live (dir_entry content p) = true -> is_lfn (dir_entry content p) = false ->
    is_label (dir_entry content p) = true -> next_item long (p + 1) r p' -> next_item long p r p'
| ni_short p : p < dir_size content ->
    is_live (dir_entry content p) = true -> is_lfn (dir_entry content p) = false ->
    is_label (dir_entry content p) = false ->
    next_item long p (Found (dir_entry content p) (sfn_text (take 11 (dir_entry content p)))) (p + 1)
| ni_long p n : long = true -> lfn_run p n ->
    is_live (dir_entry content (p + n)) = true -> is_lfn (dir_entry content (p + n)) = false ->
    is_label (dir_entry content (p + n)) = false ->
    le_at 1 (dir_entry content p) 13 <> 0 ->
    sfn_sum (take 11 (dir_entry content (p + n))) = le_at 1 (dir_entry content p) 13 ->
    next_item long p (Found (dir_entry content (p + n)) (long_name p n)) (p + n + 1).

Definition dir_step := dir_entry_step (S:=S) (bytes_per_sector v / 32).

Definition same_volume s : Prop := g_fat32_volume_info s = v /\ disk_data s = D /\ bd_ok (disk s).

Lemma same_volume_step s s' : disk_step s s' -> same_volume s -> same_volume s'.
Proof.
  intros S' (V & E & _). split_and!; [by rewrite (disk_step_volume _ _ S')|by rewrite (disk_step_data _ _ S')|by eapply disk_step_ok].
Qed.

Lemma dir_entry_u8 p : Forall is_u8 (dir_entry content p).
Proof. apply Forall_take, Forall_drop, content_u8. Qed.

(** Rows [k] to [n] of the long-name buffer are filled in. *)
Definition rows_from (p n k : Z) (buf : list Z) : Prop :=
  mapped buf 0 800 /\ forall j, k <= j < n -> string_at buf (j * 40) (lfn_row p n j).

Lemma rows_from_step p n k buf buf' :
  0 <= k -> k < 20 -> rows_from p n (k + 1) buf -> filled buf (k * 40) 40 (lfn_row p n k ++ [0]) buf' ->
  rows_from p n k buf'.
Proof.
  intros Hk Hk2 [Hm Hr] (E & Hl & Hmf & Fr). split.
  - intros q Hq. destruct (decide (k * 40 <= q < k * 40 + 40)); [apply Hmf; lia|].
    rewrite Fr by lia. by apply Hm.
  - intros j Hj. destruct (Z.eq_dec j k) as [->|Hne].
    + split; [apply lfn_text_chars, dir_entry_u8|]. rewrite length_app in E. exact E.
    + specialize (Hr j ltac:(lia)). destruct Hr as [Hc Hp]. split; [done|]. rewrite <- Hp. apply peeks_ext.
      intros q Hq. apply Fr.
      assert (length (lfn_row p n j) <= 39)%nat; [|lia].
      unfold lfn_row. etrans; [apply length_lfn_text|lia].
Qed.

Context (enough : (256 < fuel)%nat).

(** One turn of the loop that continues. *)
Lemma scan_step f s it info lo p (Q : Z * fat_directory_iterator_t * fat_file_info_t -> FS S -> Prop) :
  same_volume s -> iter_at v l content it p -> p < dir_size content ->
  (forall it' k s', disk_step s s' -> entry_at it' k (dir_entry content p) ->
     iter_at v l content it' (p + 1) -> lfn_checksum it' = lfn_checksum it ->
     wp (process_entry k it' info lo)
       (fun r s2 => match r with inl a => wp (while_loop f dir_step a) Q s2 | inr b => Q b s2 end) s') ->
  wp (while_loop (Datatypes.S f) dir_step (it, info, lo)) Q s.
Proof.
  intros (Vs & Ds & Hs) Hit Hp HQ. cbn [while_loop]. wp_step.
  apply (dir_entry_step_ok s it info lo p); [done..| |lia].
  intros _ it' k s' S' He I' C'. eapply wpg_mono; [by apply HQ|]. intros [a|b] s2 H2; [exact H2|by wp_step].
Qed.

(** The rest of a run of long-name entries. *)
Lemma lfn_run_ok p n (m : nat) : forall i f it info lo s (Q : Z * fat_directory_iterator_t * fat_file_info_t -> FS S -> Prop),
  lfn_run p n -> 0 <= p -> Z.of_nat m = n - i -> 1 <= i ->
  same_volume s -> iter_at v l content it (p + i) -> lfn_checksum it <> 0 ->
  lfn_parts_found lo = i -> rows_from p n (n - i) (lfn_buffer lo) -> dir_size content - (p + i) < Z.of_nat f ->
  (forall f' it' lo' s', disk_step s s' -> iter_at v l content it' (p + n) -> lfn_checksum it' = lfn_checksum it ->
     lfn_parts_found lo' = n -> rows_from p n 0 (lfn_buffer lo') -> dir_size content - (p + n) < Z.of_nat f' ->
     wp (while_loop f' dir_step (it', info, lo')) Q s') ->
  wp (while_loop f dir_step (it, info, lo)) Q s.
Proof.
  induction m as [|m IH]; intros i f it info lo s Q Hrun Hp0 Hm Hi Hs Hit Hc Hparts Hrows Hf HQ.
  { assert (i = n) as -> by lia. apply HQ; try done; [apply disk_step_refl, Hs|by rewrite Z.sub_diag in Hrows]. }
  destruct Hrun as (Hn & Hend & Hent). unfold MAX_LFN_PARTS in Hn. destruct (Hent i ltac:(lia)) as (Hlive & Hlfn & Hord).
  destruct f as [|f]; [lia|]. apply (scan_step f s it info lo (p + i)); [done|done|lia|].
  intros it' k s' S' He I' C'. apply (process_entry_live s' it' k (dir_entry content (p + i))); [done..|]. rewrite Hlfn.
  destruct (Z.eqb_spec i 0); [lia|].
  apply (process_lfn_entry_ok s' it' lo k (dir_entry content (p + i)) false (n - i)); [done|done|congruence|apply Hrows|].
  intros buf Hfill. apply (IH (i + 1)); try done.
  - lia.
  - lia.
  - by eapply same_volume_step.
  - by rewrite Z.add_assoc.
  - by rewrite C'.
  - cbn. rewrite Hparts. apply u8_small. unfold is_u8. lia.
  - cbn. replace (n - (i + 1)) with (n - i - 1) by lia.
    apply (rows_from_step p n (n - i - 1) (lfn_buffer lo)); [lia|lia|by replace (n - i - 1 + 1) with (n - i) by lia|].
    unfold lfn_row. by replace (p + n - 1 - (n - i - 1)) with (p + i) by lia.
  - lia.
  - intros f' it2 lo2 s2 S2 I2 C2. rewrite C' in C2. intros. apply HQ; try done. by eapply disk_step_trans.
Qed.

(** The whole run and the name it gives. *)
Lemma lfn_start_ok p n f it info lo s (Q : Z * fat_directory_iterator_t * fat_file_info_t -> FS S -> Prop) :
  lfn_run p n -> 0 <= p -> same_volume s -> iter_at v l content it p ->
  le_at 1 (dir_entry content p) 13 <> 0 -> lfn_parts_found lo = 0 -> mapped (lfn_buffer lo) 0 800 ->
  dir_size content - p < Z.of_nat f ->
  (forall f' it' lo' s', disk_step s s' -> iter_at v l content it' (p + n) ->
     lfn_checksum it' = le_at 1 (dir_entry content p) 13 -> lfn_parts_found lo' = n ->
     rows (lfn_buffer lo') (lfn_row p n <$> seqZ 0 n) -> dir_size content - (p + n) < Z.of_nat f' ->
     wp (while_loop f' dir_step (it', info, lo')) Q s') ->
  wp (while_loop f dir_step (it, info, lo)) Q s.
Proof.
  intros Hrun Hp0 Hs Hit Hc Hparts Hm Hf HQ. pose proof Hrun as (Hn & Hend & Hent). unfold MAX_LFN_PARTS in Hn.
  destruct (Hent 0 ltac:(lia)) as (Hlive & Hlfn & Hord). rewrite Z.add_0_r, Z.sub_0_r in *.
  destruct f as [|f]; [lia|]. apply (scan_step f s it info lo p); [done|done|lia|].
  intros it' k s' S' He I' C'. apply (process_entry_live s' it' k (dir_entry content p)); [done..|]. rewrite Hlfn.
  apply (process_lfn_entry_ok s' it' lo k (dir_entry content p) true n); [done|done|done|done|].
  intros buf Hfill. apply (lfn_run_ok p n (Z.to_nat (n - 1)) 1); try done.
  - lia.
  - by eapply same_volume_step.
  - cbn. rewrite Hparts. done.
  - apply (rows_from_step p n (n - 1) (lfn_buffer lo)); [lia|lia|split; [done|lia]|].
    unfold lfn_row. by replace (p + n - 1 - (n - 1)) with p by lia.
  - lia.
  - intros f' it2 lo2 s2 S2 I2 C2 P2 [_ R2] F2. apply HQ; try done; [by eapply disk_step_trans|].
    intros j t Hj. rewrite list_lookup_fmap in Hj. destruct (seqZ 0 n !! j) as [j'|] eqn:Ej; [|done].
    apply lookup_seqZ in Ej as [-> Hjn]. injection Hj as <-. apply R2. lia.
Qed.

(** The result of a scan. *)
Definition found_result (r : found) (p' : Z) : Z * fat_directory_iterator_t * fat_file_info_t -> Prop :=
  fun '(res, it, info) => mapped (filename info) 0 MAX_FILENAME_LEN /\
  match r with
  | Found e name => res = FAT_SUCCESS /\ iter_at v l content it p' /\ lfn_checksum it = 0 /\ describes info e name
  | NoMore => res = FAT_ERROR_NO_MORE_ENTRIES
  | Exhausted => res = FAT_ERROR_END_OF_CHAIN
  end.

Lemma entry_name_short it lo e : lfn_checksum it = 0 -> entry_name it lo e (sfn_text (take 11 e)).
Proof. intros Hc. unfold entry_name. by rewrite Hc. Qed.

Lemma entry_name_long it lo p n e :
  1 <= n -> lfn_checksum it <> 0 -> sfn_sum (take 11 e) = lfn_checksum it -> lfn_parts_found lo = n ->
  rows (lfn_buffer lo) (lfn_row p n <$> seqZ 0 n) -> entry_name it lo e (long_name p n).
Proof.
  intros Hn Hc Hsum Hp Hr. unfold entry_name. rewrite Hsum, Z.eqb_refl.
  destruct (Z.eqb_spec (lfn_checksum it) 0); [done|]. cbn [negb andb].
  exists (lfn_row p n <$> seqZ 0 n). split; [done|]. split; [|split; [|done]].
  - apply Forall_fmap, Forall_true. intros k. apply length_lfn_text.
  - rewrite length_fmap, length_seqZ. lia.
Qed.

Lemma scan_ok long p r p' :
  next_item long p r p' -> 0 <= p -> forall f it info lo s (Q : Z * fat_directory_iterator_t * fat_file_info_t -> FS S -> Prop),
  same_volume s -> iter_at v l content it p -> lfn_checksum it = 0 ->
  (long = true -> lfn_parts_found lo = 0) -> mapped (lfn_buffer lo) 0 800 ->
  mapped (filename info) 0 MAX_FILENAME_LEN -> dir_size content - p < Z.of_nat f ->
  (forall a s', disk_step s s' -> found_result r p' a -> Q a s') ->
  wp (while_loop f dir_step (it, info, lo)) Q s.
Proof.
  induction 1 as [|p Hp H0|p r p' Hp H0 _ IH|p r p' Hp Hl Hn Hlab _ IH|p Hp Hl Hn Hlab|p n Hlong Hrun Hl Hn Hlab Hc Hsum];
    intros Hp0 f it info lo s Q Hs Hit Hchk Hparts Hbuf Hname Hf HQ;
    (destruct f as [|f]; [try (destruct Hrun as (? & ? & _)); lia|]).
  - destruct Hs as (Vs & Ds & Hs). cbn [while_loop]. wp_step.
    apply (dir_entry_step_ok s it info lo (dir_size content)); [done..|lia|].
    intros _ it' s' S'. wp_step. by apply HQ.
  - apply (scan_step f s it info lo p); [done..|]. intros it' k s' S' He I' C'.
    eapply process_entry_end_ok; [exact He|done|]. by apply HQ.
  - apply (scan_step f s it info lo p); [done..|]. intros it' k s' S' He I' C'.
    eapply process_entry_deleted_ok; [exact He|done|].
    apply IH; [lia|by eapply same_volume_step|exact I'|congruence|done|done|done|lia|].
    intros a s2 S2. apply HQ. by eapply disk_step_trans.
  - apply (scan_step f s it info lo p); [done..|]. intros it' k s' S' He I' C'.
    eapply (process_entry_short_ok enough); [exact He|done|done|by apply entry_name_short; congruence|done|].
    intros info' (Hd & _). rewrite Hlab.
    apply IH; [lia|by eapply same_volume_step|exact I'|done|done|done|apply Hd|lia|].
    intros a s2 S2. apply HQ. by eapply disk_step_trans.
  - apply (scan_step f s it info lo p); [done..|]. intros it' k s' S' He I' C'.
    eapply (process_entry_short_ok enough); [exact He|done|done|by apply entry_name_short; congruence|done|].
    intros info' Hd. rewrite Hlab. apply HQ; [done|]. split; [apply Hd|]. by split_and!.
  - pose proof Hrun as (Hn1 & Hend & _).
    apply (lfn_start_ok p n (Datatypes.S f) it info lo s); [done|done|done|done|done|by apply Hparts|done|lia|].
    intros f' it' lo' s' S' I' C' P' R' F'. destruct f' as [|f']; [lia|].
    apply (scan_step f' s' it' info lo' (p + n)); [by eapply same_volume_step|done|lia|].
    intros it2 k s2 S2 He I2 C2.
    eapply (process_entry_short_ok enough); [exact He|done|done|apply (entry_name_long _ _ p n); first [done|congruence|lia]|done|].
    intros info' Hd. rewrite Hlab. apply HQ; [by eapply disk_step_trans|]. split; [apply Hd|].
    by split_and!.
Qed.
End Iterator.

Section ReadDir.
Context {S : Type} `{BL : BlockLaws S} `{F : Fuel}.
Implicit Types (s : FS S) (it : fat_directory_iterator_t).

(** The disk's own state has changed and the locals of one call are spent. *)
Definition dir_state_step s s' : Prop :=
  exists d, s' = set_disk d (set_stack (fun n => stack s (Datatypes.S n)) s) /\ bd_ok d /\ bd_data d = disk_data s.

Lemma disk_block_ok s a data : bd_ok (disk s) -> disk_data s a = Some data -> length data = 512%nat /\ Forall is_u8 data.
Proof. intros Hs Hd. by destruct (bd_size _ _ _ Hs Hd) as [-> ?]. Qed.

Lemma fat_read_next_dir_entry_ok s it info c0 l content p long r p' :
  let v := g_fat32_volume_info s in
  volume_ok v -> bd_ok (disk s) -> directory v (disk_data s) c0 l content ->
  iter_at v l content it p -> 0 <= p -> lfn_checksum it = 0 -> next_item content long p r p' ->
  (long = true -> lfn_parts_found (stack s O) = 0) -> mapped (lfn_buffer (stack s O)) 0 800 ->
  mapped (filename info) 0 MAX_FILENAME_LEN ->
  dir_size content - p < Z.of_nat fuel -> (256 < fuel)%nat ->
  wp (fat_read_next_dir_entry (Some it) (Some info)) (fun '(res, it', info') s' =>
    dir_state_step s s' /\ exists it2 info2, it' = Some it2 /\ info' = Some info2 /\
      found_result v l content r p' (res, it2, info2)) s.
Proof.
  intros v Hv Hs Hdir Hit Hp Hchk Hnext Hparts Hbuf Hname Hf Hf2.
  unfold fat_read_next_dir_entry, pop_locals. wp_steps.
  cbn [g_fat32_volume_info set_stack]. fold v. rewrite (vo_init v Hv). cbn [negb]. wp_step.
  set (s1 := set_stack _ s).
  apply (scan_ok v (disk_data s) c0 l content Hv Hdir (fun a data H => disk_block_ok s a data Hs H) Hf2 long p r p' Hnext Hp
    fuel it info (stack s O) s1); [by split_and!|done..|].
  intros [[res it'] info'] s' (d & -> & Hd & Dd) Hr. wp_step. split; [by exists d|]. by exists it', info'.
Qed.

End ReadDir.
