(* ===== verification/FatPath.v ===== *)
(** * Path lookup

    get_file walks a path one component at a time; here it is proved against a
    reference lookup over the directories of the disk. *)
From S2P Require Import Prelude Bytes Hexutils Cstring Block FAT32 FatVolume FatFile FatDir.

(** ** Components of a path *)

(** A character of a path component. *)
Definition name_char (c : Z) : Prop := is_char c /\ c <> 47.

(** The rest of a path: its components, separated by slashes. *)
Fixpoint path_bytes (cs : list (list Z)) : list Z :=
  match cs with
  | [] => []
  | [c] => c ++ [0]
  | c :: cs => c ++ 47 :: path_bytes cs
  end.

Section Component.
Context {S : Type} {T : Type} `{ByteStore T} `{F : Fuel}.
Implicit Types (s : FS S).

Lemma path_component_ok (m : T) s path c sep name (Q : Z * list Z * bool -> FS S -> Prop) :
  peeks m path (length c + 1) = Some (c ++ [sep]) -> Forall name_char c -> sep = 47 \/ sep = 0 ->
  mapped name 0 MAX_FILENAME_LEN -> (length c < fuel)%nat ->
  (forall nb, string_at nb 0 (take 255 c) -> mapped nb 0 MAX_FILENAME_LEN ->
     Q (if sep =? 0 then (path + Z.of_nat (length c), nb, true)
        else (path + Z.of_nat (length c) + 1, nb, false)) s) ->
  wp (path_component m path name) Q s.
Proof.
  intros Hp Hc Hsep Hn Hf HQ. unfold path_component. change MAX_FILENAME_LEN with 256 in *. wp_step.
  assert (forall k b, (c ++ [sep]) !! k = Some b -> peek m (path + Z.of_nat k) = Some b) as Hbyte.
  { intros k b Hk. rewrite (peeks_lookup _ _ _ _ k Hp); [done|].
    apply lookup_lt_Some in Hk. rewrite length_app in Hk. cbn in Hk. lia. }
  assert (Forall is_char (take 255 c)) as Hchars.
  { apply Forall_take. eapply Forall_impl; [exact Hc|]. by intros x [? _]. }
  eapply (wp_while (fun n '(p, i, nb) s' => s' = s /\ exists k, (k <= length c)%nat /\ p = path + Z.of_nat k /\
    i = Z.of_nat (length (take 255 (take k c))) /\ filled name 0 256 (take 255 (take k c)) nb /\ n = (length c - k)%nat));
    [|exact Hf|split; [done|]; exists O; split_and!; [lia|lia|done|by apply filled_nil|lia]].
  intros n [[p i] nb] s' (-> & k & Hk & -> & -> & Hfill & ->).
  destruct (lookup_lt_is_Some_2 (c ++ [sep]) k) as [b Hb]; [rewrite length_app; cbn; lia|].
  wp_step. apply wpg_on. eapply load8_ok; [by apply Hbyte|].
  destruct (decide (k = length c)) as [->|Hne].
  - rewrite lookup_app_r, Nat.sub_diag in Hb by lia. injection Hb as <-.
    assert ((sep =? 47) || (sep =? 0) = true) as -> by (destruct Hsep as [-> | ->]; done).
    wp_step. wp_step. apply wpg_within. rewrite firstn_all in *.
    eapply store8_filled; [exact Hfill|done|rewrite length_take; lia|]. intros nb' (E & _ & Hm & _).
    change (u8 0) with 0 in E. wp_step. apply wpg_on. eapply load8_ok.
    { apply (Hbyte (length c) sep). by rewrite lookup_app_r, Nat.sub_diag by lia. }
    assert (string_at nb' 0 (take 255 c)) as Hs by (split; [done|by rewrite length_app in E]).
    specialize (HQ nb' Hs Hm). by destruct (sep =? 0).
  - rewrite lookup_app_l in Hb by lia. pose proof (Forall_lookup_1 _ _ _ _ Hc Hb) as [[Hu H0] H47].
    destruct (Z.eqb_spec b 47), (Z.eqb_spec b 0); try done. cbn [orb].
    assert (take (Datatypes.S k) c = take k c ++ [b]) as ES by by apply take_S_r.
    assert (length (take k c) = k) as Lk by (rewrite length_take; lia).
    assert (length (take 255 (take k c)) = Nat.min 255 k) as L255 by (by rewrite length_take, Lk).
    rewrite L255. destruct (Z.ltb_spec (Z.of_nat (Nat.min 255 k)) (256 - 1)) as [Hlt|Hge].
    + rewrite (take_ge (take k c)) in Hfill by lia.
      wp_step. apply wpg_within. eapply store8_filled; [exact Hfill|rewrite Lk; lia|lia|]. intros nb' F'.
      rewrite u8_small in F' by done. wp_step. exists (length c - Datatypes.S k)%nat. split; [lia|]. split; [done|].
      exists (Datatypes.S k). rewrite u16_small by (unfold is_u16; lia).
      rewrite ES, take_ge by (rewrite length_app; cbn; lia).
      split_and!; [lia|lia|rewrite length_app, Lk; cbn [length]; lia|done|lia].
    + wp_step. exists (length c - Datatypes.S k)%nat. split; [lia|]. split; [done|]. exists (Datatypes.S k).
      rewrite ES, take_app_le by lia. split_and!; [lia|lia|by rewrite L255|done|lia].
Qed.
End Component.

(** ** The reference lookup *)

Definition is_dir (e : list Z) : bool := negb (Z.land (le_at 1 e 11) FAT_ATTR_DIRECTORY =? 0).

(** First cluster of the file or directory of an entry. *)
Definition entry_cluster (e : list Z) : Z := le_at 2 e 26 + 65536 * le_at 2 e 20.

Inductive search_result : Type :=
| SFile (e name : list Z)
| SDir (e : list Z)
| SFail (code : Z).

(** Looking for [name] from entry [p] of a directory on: the first entry of
    that name decides, but a file is passed over when more components follow. *)
Inductive search (content : list Z) (long : bool) (name : list Z) (final : bool) : Z -> search_result -> Prop :=
| se_file p e p' : next_item content long p (Found e name) p' -> Forall is_char name ->
    final = true -> is_dir e = false -> search content long name final p (SFile e name)
| se_dir p e p' : next_item content long p (Found e name) p' -> Forall is_char name ->
    final = false -> is_dir e = true -> search content long name final p (SDir e)
| se_is_dir p e p' : next_item content long p (Found e name) p' -> Forall is_char name ->
    final = true -> is_dir e = true -> search content long name final p (SFail FAT_ERROR_FILE_NOT_FOUND)
| se_next p e nm p' r : next_item content long p (Found e nm) p' -> Forall is_char nm ->
    nm <> name \/ (final = false /\ is_dir e = false) ->
    search content long name final p' r -> search content long name final p r
| se_none p p' : next_item content long p NoMore p' ->
    search content long name final p (SFail FAT_ERROR_FILE_NOT_FOUND)
| se_exhausted p p' : next_item content long p Exhausted p' ->
    search content long name final p (SFail FAT_ERROR_END_OF_CHAIN).

(** Looking up a path from the directory at cluster [c] on; empty components
    are skipped. The fuel has to cover the entries of every directory. *)
Inductive resolves (v : fat32_volume_info_t) (D : Z -> option (list Z)) (long : bool) (fuel : nat) :
  Z -> list (list Z) -> search_result -> Prop :=
| re_skip c k cs r : resolves v D long fuel c (k :: cs) r -> resolves v D long fuel c ([] :: k :: cs) r
| re_final c l content k r : directory v D c l content -> dir_size content < Z.of_nat fuel ->
    search content long (take 255 k) true 0 r -> resolves v D long fuel c [k] r
| re_down c l content k k' cs e r : directory v D c l content -> dir_size content < Z.of_nat fuel -> k <> [] ->
    search content long (take 255 k) false 0 (SDir e) ->
    resolves v D long fuel (entry_cluster e) (k' :: cs) r -> resolves v D long fuel c (k :: k' :: cs) r
| re_fail c l content k k' cs code : directory v D c l content -> dir_size content < Z.of_nat fuel -> k <> [] ->
    search content long (take 255 k) false 0 (SFail code) -> resolves v D long fuel c (k :: k' :: cs) (SFail code).

Lemma next_item_bound content long p r p' :
  next_item content long p r p' -> 0 <= p -> forall e nm, r = Found e nm -> p < p' <= dir_size content.
Proof.
  induction 1 as [|p Hp H0|p r p' Hp H0 _ IH|p r p' Hp Hl Hn Hlab _ IH|p Hp Hl Hn Hlab|p n Hlong (Hn1 & Hend & _) Hl Hn Hlab Hc Hsum];
    intros Hp0 e nm Hr; try done; try (specialize (IH ltac:(lia) e nm Hr); lia); lia.
Qed.

Lemma next_item_le content long p r p' : next_item content long p r p' -> 0 <= p -> p <= dir_size content.
Proof.
  induction 1 as [|p Hp H0|p r p' Hp H0 _ IH|p r p' Hp Hl Hn Hlab _ IH|p Hp Hl Hn Hlab|p n Hlong (Hn1 & Hend & _) Hl Hn Hlab Hc Hsum];
    lia.
Qed.

Section Lookup.
Context {S : Type} `{BL : BlockLaws S} `{F : Fuel}.
Implicit Types (s : FS S) (it : fat_directory_iterator_t).

(** What changes while looking up: the disk's own state and the stack. *)
Definition lookup_step s s' : Prop :=
  bd_ok (disk s') /\ disk_data s' = disk_data s /\ g_fat32_volume_info s' = g_fat32_volume_info s /\
  open_file_handles s' = open_file_handles s /\ exists n, forall k, stack s' k = stack s (n + k)%nat.

Lemma lookup_step_refl s : bd_ok (disk s) -> lookup_step s s.
Proof. intros Hs. split_and!; try done. by exists O. Qed.

Lemma lookup_step_trans s1 s2 s3 : lookup_step s1 s2 -> lookup_step s2 s3 -> lookup_step s1 s3.
Proof.
  intros (_ & D2 & V2 & H2 & n & K2) (Hs & D3 & V3 & H3 & n' & K3). split_and!; [done|congruence..|].
  exists (n + n')%nat. intros k. by rewrite K3, K2, Nat.add_assoc.
Qed.

Lemma dir_state_lookup s s' : dir_state_step s s' -> lookup_step s s'.
Proof. intros (d & -> & Hd & E). split_and!; try done. by exists 1%nat. Qed.

(** The stack is usable: the long-name buffers are there, and their counters
    start at 0 if long names are to be understood. *)
Definition stack_ok (long : bool) s : Prop :=
  forall n, (long = true -> lfn_parts_found (stack s n) = 0) /\ mapped (lfn_buffer (stack s n)) 0 800.

Lemma lookup_step_facts long s s' :
  lookup_step s s' -> stack_ok long s ->
  bd_ok (disk s') /\ disk_data s' = disk_data s /\ g_fat32_volume_info s' = g_fat32_volume_info s /\
  stack_ok long s'.
Proof. intros (Hs & E & V & _ & n & K) Hst. split_and!; try done. intros k. rewrite K. apply Hst. Qed.

Lemma read_dir_ok s it info c0 l content p long r p' (Q : Z * option fat_directory_iterator_t * option fat_file_info_t -> FS S -> Prop) :
  let v := g_fat32_volume_info s in
  volume_ok v -> bd_ok (disk s) -> directory v (disk_data s) c0 l content ->
  iter_at v l content it p -> 0 <= p -> lfn_checksum it = 0 -> next_item content long p r p' ->
  stack_ok long s -> mapped (filename info) 0 MAX_FILENAME_LEN ->
  dir_size content - p < Z.of_nat fuel -> (256 < fuel)%nat ->
  (forall res it' info' s', lookup_step s s' -> found_result v l content r p' (res, it', info') ->
     Q (res, Some it', Some info') s') ->
  wp (fat_read_next_dir_entry (Some it) (Some info)) Q s.
Proof.
  intros v Hv Hs Hdir Hit Hp Hc Hn Hst Hm Hf Hf2 HQ.
  eapply wpg_mono; [by apply (fat_read_next_dir_entry_ok s it info c0 l content p long r p'); try apply (Hst O)|].
  intros [[res oit] oinfo] s' (S' & it' & info' & -> & -> & Hr). apply HQ; [by apply dir_state_lookup|done].
Qed.

Lemma describes_dir info e name : describes info e name -> is_directory info = is_dir e.
Proof. by intros (_ & _ & _ & _ & ->). Qed.
Lemma describes_cluster info e name : describes info e name -> first_cluster info = entry_cluster e.
Proof. by intros (_ & -> & _). Qed.

(** Comparing the component with a name found. *)
Lemma compare_names_ok (nb : list Z) name info e nm s (Q : Z -> FS S -> Prop) :
  string_at nb 0 name -> describes info e nm -> Forall is_char nm -> (length name < fuel)%nat ->
  Q (compare_chars name nm) s ->
  wp (strcmp fuel (fun p => on nb (load8 p)) (fun p => on (filename info) (load8 p)) 0 0) Q s.
Proof.
  intros Hs ((Hnm & _) & _) Hch Hf HQ. eapply wp_ok; [|exact HQ].
  apply (strcmp_ok _ _ s name nm 0 0 fuel); [| |done].
  - split; [apply Hs|]. intros m i b -> Hi. unfold on. by rewrite (load8_eq _ _ _ (string_at_byte _ _ _ _ _ Hs Hi)).
  - split; [done|]. intros m i b -> Hi. unfold on.
    by rewrite (load8_eq _ _ _ (string_at_byte _ 0 nm i b (conj Hch Hnm) Hi)).
Qed.

(** What [search_directory] returns for a result of the reference lookup. *)
Definition search_post (file : option fat_file_info_t) (r : search_result)
  (a : Z * option fat_file_info_t + fat_directory_iterator_t * fat_file_info_t) : Prop :=
  match r, a with
  | SFile e name, inl (res, f) => res = FAT_SUCCESS /\ exists info, f = Some info /\ describes info e name
  | SFail code, inl (res, f) => res = code /\ f = file
  | SDir e, inr (it, info) =>
      it = start_iter (entry_cluster e) /\ mapped (filename info) 0 MAX_FILENAME_LEN
  | _, _ => False
  end.

Lemma init_iterator_eq s it c :
  is_initialized (g_fat32_volume_info s) = true ->
  fat_init_root_dir_iterator (Some it) c s = Ok ((FAT_SUCCESS, Some (start_iter c)), s).
Proof. intros Hi. unfold fat_init_root_dir_iterator, bind, gets. by rewrite Hi. Qed.

Context (enough : (256 < fuel)%nat).

Lemma search_step_ok s it info c0 l content p long name (nb : list Z) (final : bool) file r p'
  (Q : fat_directory_iterator_t * fat_file_info_t +
       (Z * option fat_file_info_t + fat_directory_iterator_t * fat_file_info_t) -> FS S -> Prop) :
  let v := g_fat32_volume_info s in
  volume_ok v -> bd_ok (disk s) -> directory v (disk_data s) c0 l content ->
  iter_at v l content it p -> 0 <= p -> lfn_checksum it = 0 -> next_item content long p r p' ->
  stack_ok long s -> mapped (filename info) 0 MAX_FILENAME_LEN ->
  dir_size content - p < Z.of_nat fuel -> string_at nb 0 name -> (length name < fuel)%nat ->
  (forall s', lookup_step s s' ->
     match r with
     | Found e nm => Forall is_char nm /\ forall it' info', iter_at v l content it' p' -> lfn_checksum it' = 0 ->
         describes info' e nm ->
         (compare_chars name nm = 0 ->
            if is_dir e then
              if final then Q (inr (inl (FAT_ERROR_FILE_NOT_FOUND, file))) s'
              else forall a : Z * option fat_file_info_t + fat_directory_iterator_t * fat_file_info_t, search_post file (SDir e) a -> Q (inr a) s'
            else if final then Q (inr (inl (FAT_SUCCESS, Some info'))) s' else Q (inl (it', info')) s') /\
         (compare_chars name nm <> 0 -> Q (inl (it', info')) s')
     | NoMore => Q (inr (inl (FAT_ERROR_FILE_NOT_FOUND, file))) s'
     | Exhausted => Q (inr (inl (FAT_ERROR_END_OF_CHAIN, file))) s'
     end) ->
  wp (search_step nb final file (it, info)) Q s.
Proof.
  intros v Hv Hs Hdir Hit Hp Hc Hn Hst Hm Hf Hs2 Hf2 HQ. unfold search_step. wp_step.
  apply (read_dir_ok s it info c0 l content p long r p'); try done.
  intros res it' info' s' S' [Hm' Hr]. specialize (HQ s' S').
  destruct (lookup_step_facts long s s' S' Hst) as (Hs' & _ & V' & _).
  wp_step. eapply wpg_of_option; [done|]. wp_step. eapply wpg_of_option; [done|].
  destruct r as [e nm| |]; [|by subst res|by subst res].
  destruct Hr as (-> & Hit' & Hc' & Hd). change (FAT_SUCCESS =? FAT_SUCCESS) with true. cbv iota.
  destruct HQ as [Hch HQ]. destruct (HQ it' info' Hit' Hc' Hd) as [Heq Hne]. clear HQ.
  wp_step. eapply (compare_names_ok nb name info' e nm); [done|done|done|done|].
  destruct (Z.eqb_spec (compare_chars name nm) 0) as [E|E]; cbn [negb]; [|wp_step; by apply Hne].
  specialize (Heq E). rewrite (describes_dir _ _ _ Hd). destruct (is_dir e), final; cbn [andb negb]; try (wp_step; exact Heq).
  wp_step. eapply wp_ok; [apply init_iterator_eq; rewrite V'; apply (vo_init v Hv)|].
  cbv beta iota. wp_step. eapply wpg_of_option; [done|]. change (negb (FAT_SUCCESS =? FAT_SUCCESS)) with false. cbv iota. wp_step.
  apply Heq. split; [|exact Hm']. by rewrite (describes_cluster _ _ _ Hd).
Qed.

Lemma search_ok content long name final p r :
  search content long name final p r -> 0 <= p -> forall f c0 l (nb : list Z) file it info s
  (Q : Z * option fat_file_info_t + fat_directory_iterator_t * fat_file_info_t -> FS S -> Prop),
  volume_ok (g_fat32_volume_info s) -> bd_ok (disk s) ->
  directory (g_fat32_volume_info s) (disk_data s) c0 l content ->
  iter_at (g_fat32_volume_info s) l content it p -> lfn_checksum it = 0 ->
  stack_ok long s -> mapped (filename info) 0 MAX_FILENAME_LEN -> string_at nb 0 name -> (length name < fuel)%nat ->
  dir_size content < Z.of_nat fuel -> dir_size content - p < Z.of_nat f ->
  (forall a s', lookup_step s s' -> search_post file r a -> Q a s') ->
  wp (while_loop f (search_step nb final file) (it, info)) Q s.
Proof.
  intros Hse. induction Hse as [p e p' Hn Hch Hfin Hd|p e p' Hn Hch Hfin Hd|p e p' Hn Hch Hfin Hd|p e nm p' r Hn Hch Hne _ IH|p p' Hn|p p' Hn];
    intros Hp f c0 l nb file it info s Q Hv Hs Hdir Hit Hc Hst Hm Hnb Hlen Hsz Hf HQ.
  all: assert (f <> O) as Hf0 by (intros ->; pose proof (next_item_le _ _ _ _ _ Hn Hp); lia);
    destruct f as [|f]; [done|]; cbn [while_loop]; wp_step;
    eapply (search_step_ok s it info c0 l content p long name nb final file); [done..|lia|done|done|];
    intros s' S'; cbv beta iota.
  1-3: split; [done|]; intros it' info' Hit' Hc' Hdesc;
    (split; [intros _|intros Hne; by destruct Hne; apply compare_chars_eq; try apply Hnb]);
    rewrite Hd, ?Hfin.
  - wp_step. apply HQ; [done|]. split; [done|]. by exists info'.
  - intros a Ha. wp_step. by apply HQ.
  - wp_step. by apply HQ.
  - split; [done|]. intros it' info' Hit' Hc' Hdesc.
    assert (wp (while_loop f (search_step nb final file) (it', info')) Q s') as Hgo.
    { destruct (lookup_step_facts long s s' S' Hst) as (Hs' & D' & V' & Hst').
      destruct (next_item_bound _ _ _ _ _ Hn Hp e nm eq_refl) as [Hp1 Hp2].
      apply (IH ltac:(lia) f c0 l nb file it' info' s'); rewrite ?V', ?D'; try done; [apply Hdesc|lia|].
      intros a s2 S2 Ha. apply HQ; [by eapply lookup_step_trans|done]. }
    split; [|intros _; exact Hgo]. intros E. apply compare_chars_eq in E; [|apply Hnb|done]. subst nm.
    destruct Hne as [?|[-> ->]]; [done|]. exact Hgo.
  - wp_step. by apply HQ.
  - wp_step. by apply HQ.
Qed.

Lemma start_iter_at v D c l content : directory v D c l content -> iter_at v l content (start_iter c) 0.
Proof. intros Hd. split; [done|]. left. split_and!; try done. apply (chain_head v D), Hd. Qed.

Lemma search_final content long name p r e : search content long name true p r -> r <> SDir e.
Proof. induction 1; congruence. Qed.

(** The result of [get_file]. *)
Definition lookup_post (file : option fat_file_info_t) (r : search_result) (a : Z * option fat_file_info_t) : Prop :=
  search_post file r (inl a).

Section Path.
Context {T : Type} `{ByteStore T} (m : T).

(** One component that is searched for. *)
Lemma component_ok s path name it info k sep c l content long r file
  (Q : Z * list Z * fat_directory_iterator_t * fat_file_info_t + Z * option fat_file_info_t -> FS S -> Prop) :
  let v := g_fat32_volume_info s in
  volume_ok v -> bd_ok (disk s) -> stack_ok long s ->
  directory v (disk_data s) c l content -> dir_size content < Z.of_nat fuel ->
  search content long (take 255 k) (sep =? 0) 0 r -> k <> [] \/ sep = 0 ->
  peeks m path (length k + 1) = Some (k ++ [sep]) -> Forall name_char k -> (length k < fuel)%nat ->
  sep = 47 \/ sep = 0 -> mapped name 0 MAX_FILENAME_LEN -> mapped (filename info) 0 MAX_FILENAME_LEN -> it = start_iter c ->
  (forall s', lookup_step s s' ->
     match r with
     | SDir e => forall nb info', mapped nb 0 MAX_FILENAME_LEN -> mapped (filename info') 0 MAX_FILENAME_LEN ->
         Q (inl (path + Z.of_nat (length k) + (if sep =? 0 then 0 else 1), nb, start_iter (entry_cluster e), info')) s'
     | _ => forall a, lookup_post file r a -> Q (inr a) s'
     end) ->
  wp (get_file_step m file (path, name, it, info)) Q s.
Proof.
  intros v Hv Hs Hst Hd Hsz Hse Hk Hp Hc Hlen Hsep Hn Hm -> HQ. unfold get_file_step. wp_step.
  apply (path_component_ok m s path k sep name); [done..|]. intros nb Hnb Hmnb.
  assert (length (take 255 k) < fuel)%nat as Hl255 by (rewrite length_take; lia).
  set (path' := if sep =? 0 then _ else _).
  assert (path' = (path + Z.of_nat (length k) + (if sep =? 0 then 0 else 1), nb, sep =? 0)) as ->
    by (unfold path'; destruct (sep =? 0); rewrite ?Z.add_0_r; done). cbv beta iota.
  destruct (lookup_lt_is_Some_2 (take 255 k ++ [0]) 0) as [b Hb]; [rewrite length_app; cbn; lia|].
  wp_step. apply wpg_on. eapply load8_ok; [rewrite <- (Z.add_0_l 0); apply (string_at_byte nb 0 _ O b Hnb Hb)|].
  assert ((b =? 0) && negb (sep =? 0) = false) as ->.
  { destruct (Z.eqb_spec sep 0); [by rewrite andb_false_r|]. rewrite andb_true_r. destruct Hk as [Hk|?]; [|done].
    destruct k as [|x k]; [done|]. injection Hb as <-. apply Forall_cons in Hc as [[[_ ?] _] _]. by apply Z.eqb_neq. }
  wp_step. apply (search_ok content long (take 255 k) (sep =? 0) 0 r Hse ltac:(lia) fuel c l nb file); try done.
  - by eapply start_iter_at.
  - lia.
  - intros a s' S' Ha. specialize (HQ s' S'). destruct r as [e nm|e|code], a as [a|[it' info']]; cbn in Ha; try done.
    + wp_step. by apply HQ.
    + destruct Ha as [-> Hm']. wp_step. by apply HQ.
    + wp_step. by apply HQ.
Qed.

Lemma path_split path k k' cs :
  peeks m path (length (path_bytes (k :: k' :: cs))) = Some (path_bytes (k :: k' :: cs)) ->
  peeks m path (length k + 1) = Some (k ++ [47]) /\
  peeks m (path + Z.of_nat (length k) + 1) (length (path_bytes (k' :: cs))) = Some (path_bytes (k' :: cs)).
Proof.
  change (path_bytes (k :: k' :: cs)) with (k ++ 47 :: path_bytes (k' :: cs)).
  set (rest := path_bytes (k' :: cs)). rewrite (cons_middle 47 k), app_assoc, length_app, peeks_app.
  assert (length (k ++ [47]) = (length k + 1)%nat) as Hl by (rewrite length_app; done). rewrite Hl.
  destruct (peeks m path (length k + 1)) as [l1|] eqn:E1; [|done]. cbn [mbind option_bind].
  replace (path + Z.of_nat (length k) + 1) with (path + Z.of_nat (length k + 1)) by lia.
  destruct (peeks m _ (length rest)) as [l2|] eqn:E2; [|done]. cbn [mbind option_bind]. intros E. injection E as E.
  apply app_inj_1 in E as [-> ->]; [done|]. by rewrite Hl, (length_peeks _ _ _ _ E1).
Qed.

Lemma resolve_ok v D long c cs r :
  resolves v D long fuel c cs r -> forall f path name it info s file (Q : Z * option fat_file_info_t -> FS S -> Prop),
  g_fat32_volume_info s = v -> disk_data s = D -> volume_ok v -> bd_ok (disk s) -> stack_ok long s ->
  peeks m path (length (path_bytes cs)) = Some (path_bytes cs) -> Forall (Forall name_char) cs ->
  Forall (fun k => (length k < fuel)%nat) cs -> (length cs <= f)%nat ->
  mapped name 0 MAX_FILENAME_LEN -> mapped (filename info) 0 MAX_FILENAME_LEN -> it = start_iter c ->
  (forall a s', lookup_step s s' -> lookup_post file r a -> Q a s') ->
  wp (while_loop f (get_file_step m file) (path, name, it, info)) Q s.
Proof.
  induction 1 as [c k cs r Hre IH|c l content k r Hd Hsz Hse|c l content k k' cs e r Hd Hsz Hk Hse Hre IH|c l content k k' cs code Hd Hsz Hk Hse];
    intros f path name it info s file Q Vs Ds Hv Hs Hst Hp Hch Hlen Hf Hn Hm Hit HQ;
    (destruct f as [|f]; [cbn in Hf; lia|]); cbn [while_loop]; wp_step;
    apply Forall_cons in Hch as [Hch1 Hch2]; apply Forall_cons in Hlen as [Hlen1 Hlen2].
  - apply path_split in Hp as [Hp1 Hp2]. unfold get_file_step at 1. wp_step.
    apply (path_component_ok m s path [] 47 name); [done|done|by left|done|done|]. intros nb Hnb Hmnb.
    cbn [Z.eqb Pos.eqb length]. cbv beta iota. wp_step. apply wpg_on.
    eapply load8_ok; [apply (string_at_byte nb 0 _ O 0 Hnb eq_refl)|]. cbn [Z.eqb negb andb]. wp_step.
    apply (IH f); try done. cbn [length] in *. lia.
  - rewrite <- Vs, <- Ds in *. apply (component_ok s path name it info k 0 c l content long r); try done;
      [by right|by cbn [path_bytes] in Hp; rewrite length_app in Hp|by right|].
    intros s' S'. destruct r as [e nm|e|code]; [|by destruct (search_final _ _ _ _ _ e Hse)|];
      intros a Ha; wp_step; by apply HQ.
  - apply path_split in Hp as [Hp1 Hp2]. rewrite <- Vs, <- Ds in *.
    apply (component_ok s path name it info k 47 c l content long (SDir e) file); try done; [by left|by left|].
    intros s' S' nb info' Hnb Hinfo. cbn [Z.eqb Pos.eqb].
    destruct (lookup_step_facts long s s' S' Hst) as (Hs' & D' & V' & Hst').
    apply (IH f _ _ _ _ s' file); try done; [cbn [length] in *; lia|].
    intros a s2 S2 Ha. apply HQ; [by eapply lookup_step_trans|done].
  - apply path_split in Hp as [Hp1 Hp2]. rewrite <- Vs, <- Ds in *.
    apply (component_ok s path name it info k 47 c l content long (SFail code) file); try done; [by left|by left|].
    intros s' S' a Ha. wp_step. by apply HQ.
Qed.
End Path.

Lemma get_file_ok {T} `{ByteStore T} (m : T) s path cs long file r :
  let v := g_fat32_volume_info s in
  volume_ok v -> bd_ok (disk s) -> stack_ok long s -> path <> NULL -> file <> None ->
  peeks m (path + 1) (length (path_bytes cs)) = Some (path_bytes cs) ->
  Forall (Forall name_char) cs -> Forall (fun k => (length k < fuel)%nat) cs -> (length cs <= fuel)%nat ->
  resolves v (disk_data s) long fuel (root_dir_cluster v) cs r ->
  wp (get_file m path file) (fun a s' => lookup_step s s' /\ lookup_post file r a) s.
Proof.
  intros v Hv Hs Hst Hpath Hfile Hp Hch Hlen Hcs Hre. unfold get_file.
  destruct (Z.eqb_spec path NULL); [done|]. destruct file as [file|]; [|done]. cbn [orb]. wp_steps. fold v.
  eapply wp_ok; [by apply init_iterator_eq, (vo_init v Hv)|]. cbv beta iota.
  change (negb (FAT_SUCCESS =? FAT_SUCCESS)) with false. cbv beta iota. wp_step. eapply wpg_of_option; [done|].
  apply (resolve_ok m v (disk_data s) long (root_dir_cluster v) cs r Hre); try done.
  - apply list_mapped; done.
  - apply list_mapped; done.
Qed.

(** C7: [get_file] walks a path exactly as the reference lookup does: it returns
    the entry of the file the path names, or the error with which the lookup
    stops. The first character of the path is skipped without being looked at. *)
Theorem get_file_spec {T} `{ByteStore T} (m : T) s path cs long file r :
  let v := g_fat32_volume_info s in
  volume_ok v -> bd_ok (disk s) -> stack_ok long s -> path <> NULL -> file <> None ->
  peeks m (path + 1) (length (path_bytes cs)) = Some (path_bytes cs) ->
  Forall (Forall name_char) cs -> Forall (fun k => (length k < fuel)%nat) cs -> (length cs <= fuel)%nat ->
  resolves v (disk_data s) long fuel (root_dir_cluster v) cs r ->
  wp (get_file m path file) (fun a s' => lookup_step s s' /\ lookup_post file r a) s.
Proof. apply get_file_ok. Qed.

Lemma new_handle_open v D e name info md l content :
  volume_ok v -> describes info e name -> chain v D (entry_cluster e) l -> chain_data v D l = Some content ->
  0 <= le_at 4 e 28 <= Z.of_nat (length content) -> le_at 4 e 28 < 2147483648 ->
  file_open v D (new_handle info md) l content.
Proof.
  intros Hv Hd Hc Hdata Hsz Hmax. pose proof Hd as (_ & _ & Hi & _). constructor; cbn.
  - by rewrite (describes_cluster _ _ _ Hd).
  - done.
  - done.
  - by rewrite Hi.
  - rewrite Hi. lia.
  - intros _. rewrite Z.mod_0_l, Z.div_0_l by (rewrite (vo_bytes v Hv); pose proof (vo_cluster v Hv); lia). split; [|done].
    rewrite (describes_cluster _ _ _ Hd). by apply (chain_head v D).
Qed.

Lemma fat32_open_path_ok {T} `{ByteStore T} (m : T) s path cs long e name md l content i :
  let v := g_fat32_volume_info s in
  volume_ok v -> bd_ok (disk s) -> stack_ok long s -> path <> NULL ->
  peeks m (path + 1) (length (path_bytes cs)) = Some (path_bytes cs) ->
  Forall (Forall name_char) cs -> Forall (fun k => (length k < fuel)%nat) cs -> (length cs <= fuel)%nat ->
  resolves v (disk_data s) long fuel (root_dir_cluster v) cs (SFile e name) ->
  length (open_file_handles s) = Z.to_nat MAX_OPEN_FILES -> first_free (open_file_handles s) = Some i ->
  chain v (disk_data s) (entry_cluster e) l -> chain_data v (disk_data s) l = Some content ->
  0 <= le_at 4 e 28 <= Z.of_nat (length content) -> le_at 4 e 28 < 2147483648 ->
  wp (fat32_open m path md) (fun file_id s' => file_id = Z.of_nat i /\ exists h,
    open_file_handles s' = <[i := h]> (open_file_handles s) /\ file_open v (disk_data s) h l content /\
    current_file_pos h = 0 /\ file_size h = le_at 4 e 28 /\
    bd_ok (disk s') /\ disk_data s' = disk_data s /\ g_fat32_volume_info s' = v) s.
Proof.
  intros v Hv Hs Hst Hpath Hp Hch Hlen Hcs Hre Hl Hi Hc Hdata Hsz Hmax.
  destruct (proj1 (wp_exact _ _ _) (get_file_ok m s path cs long (Some fresh_info) _ Hv Hs Hst Hpath
    ltac:(done) Hp Hch Hlen Hcs Hre)) as ([res file] & s1 & E & (Hs1 & D1 & V1 & H1 & _) & P).
  destruct P as (-> & info & -> & Hd).
  unfold wpg. rewrite (fat32_open_ok m s path md FAT_SUCCESS (Some info) s1 E) by (by rewrite ?H1).
  change (FAT_SUCCESS =? FAT_SUCCESS) with true. cbv iota. rewrite H1, Hi. split; [done|]. exists (new_handle info md).
  split_and!; try done; [by apply (new_handle_open v _ e name)|apply Hd].
Qed.

(** Opening a path that names a file takes the first free handle and puts it
    at the start of the file's cluster chain; the rest of the table, the volume
    and the medium stay as they were. *)
Theorem fat32_open_path_spec {T} `{ByteStore T} (m : T) s path cs long e name md l content i :
  let v := g_fat32_volume_info s in
  volume_ok v -> bd_ok (disk s) -> stack_ok long s -> path <> NULL ->
  peeks m (path + 1) (length (path_bytes cs)) = Some (path_bytes cs) ->
  Forall (Forall name_char) cs -> Forall (fun k => (length k < fuel)%nat) cs -> (length cs <= fuel)%nat ->
  resolves v (disk_data s) long fuel (root_dir_cluster v) cs (SFile e name) ->
  length (open_file_handles s) = Z.to_nat MAX_OPEN_FILES -> first_free (open_file_handles s) = Some i ->
  chain v (disk_data s) (entry_cluster e) l -> chain_data v (disk_data s) l = Some content ->
  0 <= le_at 4 e 28 <= Z.of_nat (length content) -> le_at 4 e 28 < 2147483648 ->
  wp (fat32_open m path md) (fun file_id s' => file_id = Z.of_nat i /\ exists h,
    open_file_handles s' = <[i := h]> (open_file_handles s) /\ file_open v (disk_data s) h l content /\
    current_file_pos h = 0 /\ file_size h = le_at 4 e 28 /\
    bd_ok (disk s') /\ disk_data s' = disk_data s /\ g_fat32_volume_info s' = v) s.
Proof. apply fat32_open_path_ok. Qed.
End Lookup.
