(* ===== verification/FatSession.v ===== *)
(** * The file system as its clients see it

    An abstract file system: a directory that maps paths to the bytes of
    files, and a table of open files with a position each.  Any session of
    opens, reads, closes and size queries on a mounted volume behaves as on
    the abstract file system; this is proved by simulation from the theorems
    about the single operations. *)
From stdpp Require Import list.
From S2P Require Import Prelude Session Bytes Cstring Block FAT32 FatVolume FatFile FatDir FatPath.

(** ** The abstract file system *)

Record afile := AFile { af_bytes : list Z; af_pos : Z }.
Abbreviation afs := (list (option afile)).

(** Operations name files by the components of a path and by handle number. *)
Inductive op := Open (path : list (list Z)) | Read (id : nat) (n : Z) | Close (id : nat) | Size (id : nat).

(** What the client gets: a handle, the contents of the buffer it passed,
    an acknowledgement, a size, or a refusal. *)
Inductive reply := Opened (id : nat) | Data (l : list Z) | Closed | Bytes (n : Z) | Refused.

#[export] Instance afile_eq_dec : EqDecision afile.
Proof. solve_decision. Defined.
#[export] Instance reply_eq_dec : EqDecision reply.
Proof. solve_decision. Defined.

Definition free_slot (a : afs) : option nat := fst <$> list_find (fun o => o = None) a.

Section Spec.
Context (names : list (list Z) -> option (list Z)).

Definition spec_step (a : afs) (o : op) : reply * afs :=
  match o with
  | Open cs =>
      match names cs, free_slot a with
      | Some bytes, Some i => (Opened i, <[i := Some (AFile bytes 0)]> a)
      | _, _ => (Refused, a)
      end
  | Read id n =>
      match a !! id with
      | Some (Some f) =>
          let k := Z.min n (Z.of_nat (length (af_bytes f)) - af_pos f) in
          (Data (take (Z.to_nat k) (drop (Z.to_nat (af_pos f)) (af_bytes f)) ++ replicate (Z.to_nat (n - k)) 0),
           <[id := Some (AFile (af_bytes f) (af_pos f + k))]> a)
      | _ => (Refused, a)
      end
  | Close id => if (id <? length a)%nat then (Closed, <[id := None]> a) else (Refused, a)
  | Size id =>
      match a !! id with
      | Some (Some f) => (Bytes (Z.of_nat (length (af_bytes f))), a)
      | _ => (Bytes 0, a)
      end
  end.
End Spec.

(** ** The client of the C code *)

Section Client.
Context {S : Type} `{BD : BlockDevice S} `{F : Fuel}.

(** The path is in memory from address 1 on; the buffer is [n] zero bytes. *)
Definition run_op (o : op) : M (FS S) reply :=
  match o with
  | Open cs =>
      let! id := fat32_open (0 :: 47 :: path_bytes cs) 1 0 in
      ret (if id =? 0xFFFFFFFF then Refused else Opened (Z.to_nat id))
  | Read id n =>
      let! '(ok, m) := fat32_read (replicate (Z.to_nat (1 + n)) 0) (Z.of_nat id) 1 n in
      ret (if ok : bool then Data (drop 1 m) else Refused)
  | Close id =>
      let! ok := fat32_close (Z.of_nat id) in
      ret (if ok : bool then Closed else Refused)
  | Size id =>
      let! n := fat32_get_size (Z.of_nat id) in
      ret (Bytes n)
  end.
End Client.

(** ** The simulation *)

(** Overwriting the end of an array but for a rest. *)
Lemma list_writes_tail (x : Z) k l m' :
  (length l <= k)%nat -> writes (replicate (Datatypes.S k) x) 1 l m' -> drop 1 m' = l ++ replicate (k - length l) x.
Proof.
  intros Hl [E Fr]. apply list_eq. intros i. rewrite lookup_drop.
  destruct (decide (i < length l)%nat) as [Hi|Hi].
  - rewrite lookup_app_l by done. rewrite <- (peeks_lookup _ _ _ _ i E Hi), list_peek_lookup by lia. f_equal. lia.
  - rewrite lookup_app_r by lia.
    transitivity (replicate (Datatypes.S k) x !! (1 + i)%nat).
    + rewrite <- (Nat2Z.id (1 + i)), <- !list_peek_lookup by lia. apply Fr. lia.
    + destruct (decide (i < k)%nat); [rewrite !lookup_replicate_2 by lia; done|].
      rewrite !lookup_ge_None_2 by (rewrite length_replicate; lia). done.
Qed.

Section Simulation.
Context {S : Type} `{BL : BlockLaws S} `{F : Fuel}.
Implicit Types s : FS S.

(** The mounted volume, the blocks of the disk, and the paths of its files. *)
Context (v : fat32_volume_info_t) (D : Z -> option (list Z)) (long : bool) (names : list (list Z) -> option (list Z)).

(** A path the client may use. *)
Definition path_ok (cs : list (list Z)) : Prop :=
  Forall (Forall name_char) cs /\ Forall (fun c => (length c < fuel)%nat) cs /\ (length cs <= fuel)%nat.

(** [names] says what path lookup finds on the disk: a file whose chain holds
    the bytes, or an error. *)
Definition name_ok (cs : list (list Z)) : Prop :=
  exists r, resolves v D long fuel (root_dir_cluster v) cs r /\
  match r with
  | SFile e _ => exists l content, chain v D (entry_cluster e) l /\ chain_data v D l = Some content /\
      0 <= le_at 4 e 28 <= Z.of_nat (length content) /\ le_at 4 e 28 < 2147483648 /\
      names cs = Some (take (Z.to_nat (le_at 4 e 28)) content)
  | SFail code => code <> FAT_SUCCESS /\ names cs = None
  | SDir _ => False
  end.

Definition handle_rel (h : file_handle_t) (o : option afile) : Prop :=
  match o with
  | None => is_free h = true
  | Some f => exists l content, file_open v D h l content /\
      af_bytes f = take (Z.to_nat (file_size h)) content /\ af_pos f = current_file_pos h
  end.

Record fs_rel s (a : afs) : Prop := {
  rel_disk : bd_ok (disk s) /\ disk_data s = D;
  rel_volume : g_fat32_volume_info s = v;
  rel_stack : stack_ok long s;
  rel_table : length (open_file_handles s) = Z.to_nat MAX_OPEN_FILES;
  rel_handles : Forall2 handle_rel (open_file_handles s) a;
}.

(** What the client may ask for in a state: fat32_get_size does not look
    whether the handle is free, and answers with an old size if it is. *)
Definition op_ok (a : afs) (o : op) : Prop :=
  match o with
  | Open cs => path_ok cs /\ name_ok cs
  | Read _ n => 0 <= n < 2147483648 /\ (Z.to_nat n < fuel)%nat
  | Close _ => True
  | Size id => a !! id <> Some None
  end.

Context (Hv : volume_ok v) (Hfuel : (256 < fuel)%nat).

Lemma handle_rel_free h o : handle_rel h o -> is_free h = true <-> o = None.
Proof. destruct o as [f|]; cbn; [|done]. intros (l & c & Ho & _). by rewrite (fo_free _ _ _ _ _ Ho). Qed.

Lemma free_slot_first hs a : Forall2 handle_rel hs a -> free_slot a = first_free hs.
Proof.
  unfold free_slot, first_free. induction 1 as [|h o hs a Hr _ IH]; [done|]. cbn [list_find].
  apply handle_rel_free in Hr.
  destruct (decide (o = None)), (decide (is_free h = true)); [done|tauto|tauto|].
  destruct (list_find _ a) as [[]|], (list_find _ hs) as [[]|]; cbn in *; congruence.
Qed.

Lemma handle_rel_bytes h f : handle_rel h (Some f) ->
  Z.of_nat (length (af_bytes f)) = file_size h /\ 0 <= af_pos f <= file_size h.
Proof.
  intros (l & c & Ho & -> & ->). destruct (fo_size _ _ _ _ _ Ho), (fo_pos _ _ _ _ _ Ho).
  rewrite length_take. lia.
Qed.

Lemma fs_rel_lookup s s' a : fs_rel s a -> lookup_step s s' -> fs_rel s' a.
Proof.
  intros [[Hs Hd] Hvol Hst Hl Hh] Hstep. pose proof Hstep as (_ & _ & _ & Hhs & _).
  destruct (lookup_step_facts _ _ _ Hstep Hst) as (Hs' & Hd' & Hv' & Hst').
  constructor; rewrite ?Hhs; try done; [split; congruence|congruence].
Qed.

(** One handle changes. *)
Lemma fs_rel_handle s s' a i h o :
  fs_rel s a -> bd_ok (disk s') -> disk_data s' = disk_data s -> g_fat32_volume_info s' = g_fat32_volume_info s ->
  stack s' = stack s -> open_file_handles s' = <[i := h]> (open_file_handles s) -> handle_rel h o ->
  fs_rel s' (<[i := o]> a).
Proof.
  intros [[Hs Hd] Hvol Hst Hl Hh] Hs' Hd' Hv' Hst' Hh' Ho. constructor.
  - split; congruence.
  - congruence.
  - intros n. rewrite Hst'. apply Hst.
  - by rewrite Hh', length_insert.
  - rewrite Hh'. by apply Forall2_insert.
Qed.

Lemma path_peeks cs : peeks (0 :: 47 :: path_bytes cs) (1 + 1) (length (path_bytes cs)) = Some (path_bytes cs).
Proof. rewrite list_peeks; [|lia|cbn; lia]. change (Z.to_nat (1 + 1)) with 2%nat. cbn [drop]. by rewrite take_ge. Qed.

Lemma first_free_lt hs i : first_free hs = Some i -> (i < length hs)%nat.
Proof.
  unfold first_free. destruct (list_find _ hs) as [[j h]|] eqn:E; [|done]. intros [= <-].
  apply list_find_Some in E as (E & _). by eapply lookup_lt_Some.
Qed.

Abbreviation fs_refines := (refines run_op (spec_step names) op_ok fs_rel).

Lemma open_refines cs : fs_refines (Open cs).
Proof.
  intros s a HR [(Hch & Hlen & Hcs) (r & Hr & Hcase)]. pose proof HR as [[Hs Hd] Hvol Hst Hl Hh].
  rewrite <- Hvol, <- Hd in Hr.
  destruct (proj1 (wp_exact _ _ _) (get_file_ok Hfuel (0 :: 47 :: path_bytes cs) s 1 cs long (Some fresh_info) r
    ltac:(by rewrite Hvol) Hs Hst ltac:(done) ltac:(done) (path_peeks cs) Hch Hlen Hcs Hr)) as ([res file] & s1 & E & Hstep & P).
  pose proof (fs_rel_lookup s s1 a HR Hstep) as HR1. pose proof HR1 as [[Hs1 Hd1] Hvol1 _ Hl1 Hh1].
  pose proof (fat32_open_ok _ s 1 0 res file s1 E Hl1) as EO.
  unfold wpg. cbn [run_op spec_step]. rewrite (free_slot_first _ _ Hh1).
  destruct r as [e name|e|code]; [|done|].
  - destruct P as (-> & info & -> & Hdesc). destruct Hcase as (l & content & Hc & Hdata & Hsz & Hmax & ->).
    specialize (EO ltac:(done)). change (FAT_SUCCESS =? FAT_SUCCESS) with true in EO. cbv iota in EO.
    destruct (first_free (open_file_handles s1)) as [i|] eqn:Ei; erewrite bind_ok by exact EO; cbn beta; [|done].
    pose proof (first_free_lt _ _ Ei) as Hi. rewrite Hl1 in Hi. change (Z.to_nat MAX_OPEN_FILES) with 16%nat in Hi.
    destruct (Z.eqb_spec (Z.of_nat i) 0xFFFFFFFF); [lia|]. unfold ret. rewrite Nat2Z.id. split; [done|]. cbn [snd].
    eapply fs_rel_handle; [exact HR1|done..|]. exists l, content.
    pose proof (new_handle_open Hfuel v D e name info 0 l content Hv Hdesc Hc Hdata Hsz Hmax) as Ho.
    split; [done|]. destruct Hdesc as (_ & _ & Hi2 & _). cbn. by rewrite Hi2.
  - destruct P as [-> ->]. destruct Hcase as [Hcode ->]. specialize (EO ltac:(done)).
    destruct (Z.eqb_spec code FAT_SUCCESS); [done|]. by erewrite bind_ok by exact EO.
Qed.

Lemma close_refines id : fs_refines (Close id).
Proof.
  intros s a HR _. pose proof HR as [[Hs Hd] Hvol Hst Hl Hh]. cbn [run_op spec_step]. wp_step.
  pose proof (Forall2_length _ _ _ Hh) as Ha. rewrite Hl in Ha. rewrite <- Ha. unfold fat32_close.
  destruct (Z.leb_spec MAX_OPEN_FILES (Z.of_nat id)), (Nat.ltb_spec id (Z.to_nat MAX_OPEN_FILES));
    try (unfold MAX_OPEN_FILES in *; lia); [by wp_steps|].
  destruct (lookup_lt_is_Some_2 (open_file_handles s) id) as [h Hi]; [lia|].
  wp_step. eapply get_handle_ok; [by rewrite Nat2Z.id|]. wp_step. eapply put_handle_ok; [by rewrite Nat2Z.id|].
  wp_steps. split; [done|]. eapply fs_rel_handle; [exact HR|done..|by rewrite Nat2Z.id|done].
Qed.

Lemma size_refines id : fs_refines (Size id).
Proof.
  intros s a HR Hid. pose proof HR as [_ _ _ Hl Hh]. cbn [run_op spec_step op_ok] in *. wp_step.
  pose proof (Forall2_length _ _ _ Hh) as Ha. rewrite Hl in Ha. unfold fat32_get_size.
  destruct (Z.leb_spec MAX_OPEN_FILES (Z.of_nat id)) as [Hb|Hb].
  - assert (a !! id = None) as -> by (apply lookup_ge_None_2; unfold MAX_OPEN_FILES in *; lia). by wp_steps.
  - destruct (lookup_lt_is_Some_2 a id) as [o Ho]; [unfold MAX_OPEN_FILES in *; lia|].
    destruct (Forall2_lookup_r _ _ _ _ _ Hh Ho) as (h & Hi & Hrel). rewrite Ho in Hid |- *. destruct o as [f|]; [|done].
    wp_step. eapply get_handle_ok; [by rewrite Nat2Z.id|]. wp_steps.
    destruct (handle_rel_bytes _ _ Hrel) as [-> _]. done.
Qed.
Lemma read_refines id n : fs_refines (Read id n).
Proof.
  intros s a HR [Hn Hnf]. pose proof HR as [[Hs Hd] Hvol Hst Hl Hh]. cbn [run_op spec_step] in *.
  pose proof (Forall2_length _ _ _ Hh) as Ha. rewrite Hl in Ha.
  set (m := replicate (Z.to_nat (1 + n)) 0).
  assert (a !! id = None \/ a !! id = Some None \/ exists f, a !! id = Some (Some f)) as [E|[E|[f E]]]
    by (destruct (a !! id) as [[]|]; eauto); rewrite E.
  - apply lookup_ge_None_1 in E. unfold fat32_read.
    destruct (Z.leb_spec MAX_OPEN_FILES (Z.of_nat id)); [|unfold MAX_OPEN_FILES in *; lia]. cbn [orb]. by wp_steps.
  - pose proof (lookup_lt_Some _ _ _ E). destruct (Forall2_lookup_r _ _ _ _ _ Hh E) as (h & Hi & Hrel).
    unfold fat32_read. destruct (Z.leb_spec MAX_OPEN_FILES (Z.of_nat id)); [unfold MAX_OPEN_FILES in *; lia|].
    cbn [orb Z.eqb NULL]. wp_step. wp_step. eapply get_handle_ok; [by rewrite Nat2Z.id|]. rewrite Hrel. by wp_steps.
  - pose proof (lookup_lt_Some _ _ _ E). destruct (Forall2_lookup_r _ _ _ _ _ Hh E) as (h & Hi & Hrel).
    destruct (handle_rel_bytes _ _ Hrel) as [-> Hpos]. destruct Hrel as (l & content & Ho & Hb & Hp). rewrite Hp in *.
    pose proof (fo_size _ _ _ _ _ Ho) as [Hsz _]. set (k := Z.min n (file_size h - current_file_pos h)).
    wp_step. eapply wpg_mono; [eapply (fat32_read_ok m s (Z.of_nat id) h l content 1 n); rewrite ?Hvol, ?Hd, ?Nat2Z.id; try done|].
    + unfold MAX_OPEN_FILES in *. lia.
    + apply list_mapped; [lia|]. unfold m. rewrite length_replicate. lia.
    + lia.
    + intros [ok m'] s' (-> & W & h' & Hh' & (c & o & Hmv) & Ho' & Hs' & Hd' & Hv' & Hst').
      cbv beta iota. wp_step. rewrite Nat2Z.id in Hh'. cbn [fst snd]. split.
      * f_equal. unfold m in W. replace (Z.to_nat (1 + n)) with (Datatypes.S (Z.to_nat n)) in W by lia.
        assert (length (take (Z.to_nat k) (drop (Z.to_nat (current_file_pos h)) content)) = Z.to_nat k) as El
          by (rewrite length_take, length_drop; lia).
        apply list_writes_tail in W; [|fold k; lia]. rewrite W, Hb, skipn_firstn_comm, take_take. fold k. rewrite El.
        f_equal; f_equal; lia.
      * eapply fs_rel_handle; [exact HR|done..|]. exists l, content.
        rewrite Hd in Ho'. rewrite Hvol in Ho'. rewrite Hmv in *. done.
Qed.

Lemma session_refines_ok os s a :
  fs_rel s a -> session_ok (spec_step names) op_ok a os ->
  wp (run run_op os) (fun rs s' => rs = (spec_run (spec_step names) a os).1 /\
    fs_rel s' (spec_run (spec_step names) a os).2) s.
Proof.
  apply run_refines. intros []; [apply open_refines|apply read_refines|apply close_refines|apply size_refines].
Qed.

(** C4: Whatever sequence of opens, reads, closes and size queries a client makes
    on a mounted volume, it gets the replies of the abstract file system: files
    that are plain byte strings named by paths, and a table of positions in
    them. Every call returns, and the invariant that relates the two states is
    kept. *)
Theorem session_refines os s a :
  fs_rel s a -> session_ok (spec_step names) op_ok a os ->
  wp (run run_op os) (fun rs s' => rs = (spec_run (spec_step names) a os).1 /\
    fs_rel s' (spec_run (spec_step names) a os).2) s.
Proof. apply session_refines_ok. Qed.
End Simulation.
