(* ===== verification/SimDisk.v ===== *)
(** * A concrete disk with a FAT32 volume

    A block device that is a table of blocks, with the laws of Block.v, and a
    small FAT32 image on which the file system's theorems are instantiated. *)
From S2P Require Import Prelude Bytes Hexutils Cstring Block FAT32 FatVolume FatFile.

(** ** The device *)

Definition table : Type := list (Z * list Z).

Definition block (d : table) (a : Z) : option (list Z) :=
  snd <$> List.find (fun p => fst p =? a) d.

(** The blocks are 512 bytes long. *)
Definition table_ok (d : table) : bool :=
  forallb (fun p => (length (snd p) =? 512)%nat && forallb (fun b => (0 <=? b) && (b <? 256)) (snd p)) d.

(** [n] bytes from [offset] of block [a] into a buffer. *)
Definition table_read {T} `{ByteStore T} (m : T) (a offset buffer n : Z) : M table (bool * T) := fun d =>
  match block d a with
  | None => Ok ((false, m), d)
  | Some data =>
      match pokes m buffer (take (Z.to_nat n) (drop (Z.to_nat offset) data)) with
      | Some m' => Ok ((true, m'), d)
      | None => Fault
      end
  end.

#[export] Instance table_device : BlockDevice table := {
  read_block := fun T _ m a buffer => table_read m a 0 buffer SD_BLOCK_SIZE;
  read_partial := fun T _ m a offset buffer n => table_read m a offset buffer n;
  write_block := fun T _ _ _ _ => hang;
}.

Lemma table_block d a data :
  table_ok d = true -> block d a = Some data -> length data = 512%nat /\ Forall is_u8 data.
Proof.
  unfold table_ok, block. rewrite forallb_forall. intros Hd Hb.
  destruct (List.find _ d) as [[a' data']|] eqn:E; [|done]. injection Hb as <-.
  apply List.find_some in E as [Hin _]. specialize (Hd _ Hin). cbn [snd] in Hd.
  apply andb_prop in Hd as [Hlen Hb]. apply Nat.eqb_eq in Hlen. split; [done|].
  rewrite forallb_forall in Hb. apply List.Forall_forall. intros b Hin'. apply Hb in Hin'. unfold is_u8. lia.
Qed.

Lemma table_read_ok {T} `{ByteStore T} (m : T) d a offset buffer n data :
  table_ok d = true -> block d a = Some data -> 0 <= offset -> 0 <= n -> offset + n <= 512 ->
  mapped m buffer (buffer + n) ->
  wp (table_read m a offset buffer n) (fun '(ok, m') d' =>
    ok = true /\ writes m buffer (take (Z.to_nat n) (drop (Z.to_nat offset) data)) m' /\
    table_ok d' = true /\ block d' = block d) d.
Proof.
  intros Hd Hb Ho Hn Hon Hm. destruct (table_block _ _ _ Hd Hb) as [Hlen _].
  unfold wpg, table_read. rewrite Hb.
  destruct (pokes_mapped m buffer (take (Z.to_nat n) (drop (Z.to_nat offset) data))) as [m' E].
  { rewrite length_take, length_drop, Nat.min_l, Z2Nat.id by lia. done. }
  rewrite E. split; [done|]. split; [by apply writes_pokes|done].
Qed.

#[export] Instance table_laws : BlockLaws table.
Proof.
  refine {| bd_ok := fun d => table_ok d = true; bd_data := block |}.
  - intros d a data. apply table_block.
  - intros T B m d a buffer data Hd _ Hb Hm. pose proof (table_block _ _ _ Hd Hb) as [Hlen _].
    eapply wpg_mono; [by apply (table_read_ok m d a 0 buffer SD_BLOCK_SIZE data)|].
    intros [ok m'] d' (? & W & ? & ?). by rewrite drop_0, take_ge in W by (unfold SD_BLOCK_SIZE; lia).
  - intros T B m d a buffer Hd _ Hb. cbn. unfold wpg, table_read. by rewrite Hb.
  - intros T B m d a offset buffer n data Hd _ Hb. by apply table_read_ok.
  - intros T B m d a offset buffer n Hd _ Hb. cbn. unfold wpg, table_read. by rewrite Hb.
Defined.

(** ** An image *)

Definition patch (p : nat) (l b : list Z) : list Z := take p b ++ l ++ drop (p + length l) b.
Definition zero_block : list Z := replicate 512 0.

(** One active FAT32 partition: blocks 1 to 10. *)
Definition mbr_block : list Z :=
  patch 446 [0x80; 0; 0; 0; 0x0C; 0; 0; 0; 1; 0; 0; 0; 10; 0; 0; 0]
    (patch 510 [0x55; 0xAA] zero_block).

(** Sectors of 512 bytes, one per cluster, one reserved, one table of one
    sector, root directory in cluster 2. *)
Definition bpb_block : list Z :=
  patch 11 [0; 2; 1; 1; 0; 1] (patch 36 [1; 0; 0; 0] (patch 44 [2; 0; 0; 0] zero_block)).

(** Clusters 2 and 4 are one-cluster chains; 3 is followed by 5; 6 is bad. *)
Definition fat_block : list Z :=
  patch 8 ([0xFF; 0xFF; 0xFF; 0x0F] ++ [5; 0; 0; 0] ++ [0xF8; 0xFF; 0xFF; 0x0F] ++
           [0xFF; 0xFF; 0xFF; 0x0F] ++ [0xF7; 0xFF; 0xFF; 0x0F]) zero_block.

(** A short-name entry. *)
Definition sfn_entry (name : list Z) (attr lo size0 size1 size3 : Z) : list Z :=
  name ++ [attr; 0; 0; 0; 0; 0; 0; 0; 0; 0; 0; 0; 0; 0; 0; lo; 0; size0; size1; 0; size3].

(** "BIN     ", "INIT    ELF", "HUGE    BIN". *)
Definition name_bin : list Z := [66; 73; 78; 32; 32; 32; 32; 32; 32; 32; 32].
Definition name_init : list Z := [73; 78; 73; 84; 32; 32; 32; 32; 69; 76; 70].
Definition name_huge : list Z := [72; 85; 71; 69; 32; 32; 32; 32; 66; 73; 78].

(** In the root, a volume label, a deleted file and the directory BIN; in
    BIN, INIT.ELF of 700 bytes, and HUGE.BIN that claims 2 GiB. *)
Definition root_block : list Z :=
  patch 0 (sfn_entry name_huge 0x08 0 0 0 0)
    (patch 32 (sfn_entry (0xE5 :: tail name_init) 0x20 3 9 0 0)
      (patch 64 (sfn_entry name_bin 0x10 4 0 0 0) zero_block)).
Definition bin_block : list Z :=
  patch 0 (sfn_entry name_init 0x20 3 0xBC 2 0)
    (patch 32 (sfn_entry name_huge 0x20 5 0 0 0x80) zero_block).

Definition data_block (k : Z) : list Z := (fun i => (i * k) mod 251) <$> seqZ 0 512.

Definition image : table :=
  [(0, mbr_block); (1, bpb_block); (2, fat_block); (3, root_block); (4, data_block 3);
   (5, bin_block); (6, data_block 7)].

Definition blank_volume : fat32_volume_info_t :=
  {| volume_start_lba := 0; bytes_per_sector := 0; sectors_per_cluster := 0;
     reserved_sector_count := 0; num_fats := 0; fat_size_sectors := 0; root_dir_cluster := 0;
     total_sectors := 0; total_clusters := 0; first_fat_lba := 0; data_start_lba := 0;
     is_initialized := false; fsinfo_sector_lba := 0; backup_boot_sector_lba := 0;
     bytes_per_cluster := 0 |}.
Definition blank_handle : file_handle_t :=
  {| cluster_start := 0; current_cluster := 0; current_offset := 0; file_size := 0;
     current_file_pos := 0; is_free := false; mode := 0 |}.

(** The globals at start-up, all zero. *)
Definition boot_state (d : table) : FS table :=
  {| disk := d; g_fat32_volume_info := blank_volume;
     open_file_handles := replicate 16 blank_handle;
     mbr_buffer := replicate 66 0; bpb_data := replicate 41 0;
     stack := fun _ => {| lfn_parts_found := 0; lfn_buffer := replicate 800 0 |} |}.

(** ** The theorems on the image *)

#[export] Instance disk_fuel : Fuel := 2000%nat.

(** After fat32_init, with INIT.ELF open as file 0. *)
Definition init_handle : file_handle_t :=
  {| cluster_start := 3; current_cluster := 3; current_offset := 0; file_size := 700;
     current_file_pos := 0; is_free := false; mode := 0 |}.
Definition with_file (d : table) (h : file_handle_t) : FS table :=
  set_volume (boot_volume 1 10 bpb_block)
    (set_handles (h :: replicate 15 (set_free true blank_handle)) (boot_state d)).

Definition init_content : list Z := data_block 3 ++ data_block 7.

Lemma image_ok : bd_ok image.
Proof. change (table_ok image = true). vm_compute. done. Qed.

Lemma demo_volume : volume_ok (boot_volume 1 10 bpb_block).
Proof. constructor; vm_compute; done. Qed.

Lemma demo_init_file : file_open (boot_volume 1 10 bpb_block) (block image) init_handle [3; 5] init_content.
Proof.
  constructor.
  - eapply (chain_next _ _ 3 5); [vm_compute; done|vm_compute; done|].
    apply chain_end; [vm_compute; done|vm_compute; done].
  - vm_compute. done.
  - done.
  - vm_compute. done.
  - vm_compute. done.
  - intros _. vm_compute. done.
Qed.

Lemma fat32_init_witness : exists s', fat32_init (boot_state image) = Ok (true, s') /\
  g_fat32_volume_info s' = boot_volume 1 10 bpb_block.
Proof.
  assert (boot_divides (block image)) as Hdiv.
  { intros M start total B HM HP HB. replace M with mbr_block in HP by (vm_compute in HM |- *; congruence).
    vm_compute in HP. injection HP as <- <-.
    replace B with bpb_block by (vm_compute in HB |- *; congruence). vm_compute. done. }
  destruct (proj1 (wp_exact _ _ _) (fat32_init_spec (boot_state image) image_ok
    (conj eq_refl (conj eq_refl eq_refl)) Hdiv)) as (ok & s' & E & _ & _ & _ & P).
  exists s'. assert (mount (disk_data (boot_state image)) = Some (boot_volume 1 10 bpb_block)) as Em by (vm_compute; done).
  rewrite Em in P. destruct P as (-> & -> & _). split; [exact E|done].
Defined.


Lemma getNextCluster_witness : exists s',
  getNextCluster 3 (with_file image init_handle) = Ok ((FAT_SUCCESS, Some 5), s').
Proof.
  destruct (proj1 (wp_exact _ _ _) (getNextCluster_spec (with_file image init_handle) 3
    demo_volume image_ok ltac:(done))) as (r & s' & E & P & _).
  assert (r = (FAT_SUCCESS, Some 5)) as Er by (rewrite P; vm_compute; done).
  exists s'. rewrite <- Er. exact E.
Defined.

(** 520 bytes, across the boundary of the two clusters. *)
Lemma fat32_read_witness : exists m' s',
  fat32_read (replicate 600 0) 0 1 520 (with_file image init_handle) = Ok ((true, m'), s') /\
  writes (replicate 600 0) 1 (take 520 init_content) m'.
Proof.
  destruct (proj1 (wp_exact _ _ _) (fat32_read_spec (replicate 600 0) (with_file image init_handle) 0
    init_handle [3; 5] init_content 1 520 demo_volume image_ok ltac:(done) eq_refl demo_init_file
    ltac:(done) ltac:(done) ltac:(apply list_mapped; vm_compute; done)
    ltac:(apply Nat.ltb_lt; vm_compute; reflexivity))) as ([ok m'] & s' & E & -> & W & _).
  exists m', s'. split; [exact E|exact W].
Defined.

(** The second half of INIT.ELF cannot be read. *)
Definition torn_image : table :=
  [(0, mbr_block); (1, bpb_block); (2, fat_block); (3, root_block); (4, data_block 3); (5, bin_block)].
Definition torn_handle : file_handle_t := set_position 5 100 612 init_handle.

Lemma torn_image_ok : bd_ok torn_image.
Proof. change (table_ok torn_image = true). vm_compute. done. Qed.


Lemma fat32_close_witness : exists s', fat32_close 0 (with_file image init_handle) = Ok (true, s').
Proof.
  pose proof (fat32_close_spec (with_file image init_handle) 0 eq_refl ltac:(done)) as E.
  cbn [Z.ltb Z.compare] in E. eexists. exact E.
Defined.

Lemma fat32_read_rejects_witness :
  fat32_read (replicate 8 0) 3 1 5 (with_file image init_handle) =
  Ok ((false, replicate 8 0), with_file image init_handle).
Proof.
  apply (fat32_read_rejects (replicate 8 0) (with_file image init_handle) 3 1 5 eq_refl); [done|].
  right. right. exists (set_free true blank_handle). split; reflexivity.
Defined.

(** A file of 2 GiB and 7 bytes: asked for one byte, the call delivers seven. *)
Definition huge_handle : file_handle_t :=
  {| cluster_start := 5; current_cluster := 5; current_offset := 0; file_size := 0x80000007;
     current_file_pos := 0; is_free := false; mode := 0 |}.


(** "/BIN/INIT.ELF" is found and takes the first free handle. *)
Definition init_path : list Z := [47; 66; 73; 78; 47; 73; 78; 73; 84; 46; 69; 76; 70; 0].

Definition init_info : fat_file_info_t :=
  {| filename := [73; 78; 73; 84; 46; 69; 76; 70; 0] ++ replicate 247 0;
     first_cluster := 3; info_size := 700; attributes := 0x20; is_directory := false |}.

Definition after_search (h : file_handle_t) : FS table :=
  set_stack (fun n => stack (boot_state image) (3 + n)%nat) (with_file image h).

Lemma fat32_open_witness : exists s',
  fat32_open (0 :: init_path) 1 0 (with_file image init_handle) = Ok (1, s').
Proof.
  assert (get_file (0 :: init_path) 1 (Some fresh_info) (with_file image init_handle) =
    Ok ((FAT_SUCCESS, Some init_info), after_search init_handle)) as E by (vm_compute; reflexivity).
  pose proof (fat32_open_spec (0 :: init_path) (with_file image init_handle) 1 0 FAT_SUCCESS (Some init_info)
    (after_search init_handle) E eq_refl ltac:(done)) as W.
  eexists. exact W.
Defined.
