(* ===== verification/SimPath.v ===== *)
(** * Directories and paths on a concrete disk

    The image of SimDisk.v with a file that has a long name: the directory
    scan and the path lookup instantiated on it, and what an unlucky value of
    the uninitialised counter does. *)
From S2P Require Import Prelude Session Bytes Hexutils Cstring Block FAT32 FatVolume FatFile FatDir FatPath FatSession SimDisk.

(** ** A long name *)

(** "verylongfile.txt" and its short form "VERYLO~1TXT". *)
Definition long_first : list Z := [118; 101; 114; 121; 108; 111; 110; 103; 102; 105; 108; 101; 46].
Definition long_last : list Z := [116; 120; 116].
Definition name_short : list Z := [86; 69; 82; 89; 76; 79; 126; 49; 84; 88; 84].

(** A long-name entry with 13 UTF-16 units. *)
Definition wide (l : list Z) : list Z := concat ((fun w => [w mod 256; w / 256]) <$> l).
Definition lfn_entry (order checksum : Z) (ws : list Z) : list Z :=
  [order] ++ wide (take 5 ws) ++ [0x0F; 0; checksum] ++ wide (take 6 (drop 5 ws)) ++ [0; 0] ++ wide (drop 11 ws).

Definition long_dir : list Z :=
  lfn_entry 0x42 (sfn_sum name_short) (long_last ++ 0 :: replicate 9 0xFFFF) ++
  lfn_entry 0x01 (sfn_sum name_short) long_first ++
  sfn_entry name_short 0x20 3 0xBC 2 0 ++ sfn_entry name_huge 0x20 5 0 0 0x80.

Definition long_image : table :=
  [(0, mbr_block); (1, bpb_block); (2, fat_block); (3, root_block); (4, data_block 3);
   (5, patch 0 long_dir zero_block); (6, data_block 7)].

Definition long_state : FS table := with_file long_image init_handle.

Lemma long_image_ok : bd_ok long_image.
Proof. change (table_ok long_image = true). vm_compute. done. Qed.

Lemma long_bin : directory (boot_volume 1 10 bpb_block) (block long_image) 4 [4] (patch 0 long_dir zero_block).
Proof.
  split; [|vm_compute; done]. apply chain_end; vm_compute; done.
Qed.

Lemma long_root : directory (boot_volume 1 10 bpb_block) (block long_image) 2 [2] root_block.
Proof.
  split; [|vm_compute; done]. apply chain_end; vm_compute; done.
Qed.

Lemma long_item : next_item (patch 0 long_dir zero_block) true 0
  (Found (take 32 (drop 64 long_dir)) (long_first ++ long_last)) 3.
Proof.
  assert (lfn_run (patch 0 long_dir zero_block) 0 2) as Hrun.
  { split; [done|]. split; [vm_compute; done|]. intros i Hi.
    assert (i = 0 \/ i = 1) as [-> | ->] by lia; split_and!; vm_compute; done. }
  apply (ni_long (patch 0 long_dir zero_block) true 0 2 eq_refl Hrun); vm_compute; done.
Qed.


(** "/BIN/verylongfile.txt". *)
Definition long_path : list (list Z) := [[66; 73; 78]; long_first ++ long_last].

Lemma long_resolves : resolves (boot_volume 1 10 bpb_block) (block long_image) true 2000 2 long_path
  (SFile (take 32 (drop 64 long_dir)) (long_first ++ long_last)).
Proof.
  eapply (re_down _ _ _ _ 2 [2] root_block _ _ _ (take 32 (drop 64 root_block))); [exact long_root|vm_compute; done|done| |].
  - eapply se_dir; [|repeat (apply Forall_cons; split; [vm_compute; done|]); done|done|vm_compute; done].
    apply ni_label; [vm_compute; done..|]. apply ni_deleted; [vm_compute; done..|].
    apply (ni_short root_block true 2); vm_compute; done.
  - apply (re_final _ _ _ _ _ [4] (patch 0 long_dir zero_block)); [exact long_bin|vm_compute; done|].
    eapply se_file; [exact long_item|repeat (apply Forall_cons; split; [vm_compute; done|]); done|done|vm_compute; done].
Qed.

Lemma long_path_chars : Forall (Forall name_char) long_path.
Proof. repeat (apply Forall_cons; split; [repeat (apply Forall_cons; split; [vm_compute; done|]); done|]); done. Qed.

Lemma get_file_witness : exists info' s',
  get_file (0 :: 47 :: path_bytes long_path) 1 (Some fresh_info) long_state = Ok ((FAT_SUCCESS, Some info'), s') /\
  first_cluster info' = 3 /\ info_size info' = 700.
Proof.
  destruct (proj1 (wp_exact _ _ _) (get_file_spec ltac:(apply Nat.ltb_lt; vm_compute; reflexivity)
    (0 :: 47 :: path_bytes long_path) long_state 1 long_path true (Some fresh_info) _ demo_volume long_image_ok
    ltac:(intros n; split; [done|apply list_mapped; vm_compute; done]) ltac:(done) ltac:(done) eq_refl long_path_chars
    ltac:(repeat (apply Forall_cons; split; [apply Nat.ltb_lt; vm_compute; done|]); done)
    ltac:(apply Nat.leb_le; vm_compute; done) long_resolves))
    as ([res file] & s' & E & _ & P).
  destruct P as (-> & info' & -> & (_ & Hc & Hsz & _)). exists info', s'.
  split; [exact E|]. split; [rewrite Hc|rewrite Hsz]; vm_compute; reflexivity.
Defined.

Lemma long_chain : chain (boot_volume 1 10 bpb_block) (block long_image) 3 [3; 5].
Proof.
  eapply (chain_next _ _ 3 5); [vm_compute; done|vm_compute; done|].
  apply chain_end; [vm_compute; done|vm_compute; done].
Qed.

(** Opening it takes handle 1, at the start of the 700 bytes. *)
Lemma fat32_open_path_witness : exists h s',
  fat32_open (0 :: 47 :: path_bytes long_path) 1 0 long_state = Ok (1, s') /\
  open_file_handles s' !! 1%nat = Some h /\ file_size h = 700.
Proof.
  destruct (proj1 (wp_exact _ _ _) (fat32_open_path_spec ltac:(apply Nat.ltb_lt; vm_compute; reflexivity)
    (0 :: 47 :: path_bytes long_path) long_state 1 long_path true _ _ 0 [3; 5] init_content 1%nat demo_volume long_image_ok
    ltac:(intros n; split; [done|apply list_mapped; vm_compute; done]) ltac:(done) eq_refl long_path_chars
    ltac:(repeat (apply Forall_cons; split; [apply Nat.ltb_lt; vm_compute; done|]); done)
    ltac:(apply Nat.leb_le; vm_compute; done) long_resolves eq_refl eq_refl long_chain
    ltac:(vm_compute; done) ltac:(vm_compute; done) ltac:(vm_compute; done)))
    as (id & s' & E & -> & h & Hh & _ & _ & Hsz & _).
  exists h, s'. split; [exact E|]. split; [rewrite Hh; reflexivity|]. rewrite Hsz. vm_compute. reflexivity.
Defined.

(** ** A session *)

Definition session_names (cs : list (list Z)) : option (list Z) :=
  if decide (cs = long_path) then Some (take 700 init_content) else None.

(** "/X" does not exist. *)
Definition missing_path : list (list Z) := [[88]].

Lemma missing_resolves : resolves (boot_volume 1 10 bpb_block) (block long_image) true 2000 2 missing_path
  (SFail FAT_ERROR_FILE_NOT_FOUND).
Proof.
  apply (re_final _ _ _ _ _ [2] root_block); [exact long_root|vm_compute; done|].
  eapply se_next with (nm := [66; 73; 78]) (p' := 3).
  - apply ni_label; [vm_compute; done..|]. apply ni_deleted; [vm_compute; done..|].
    apply (ni_short root_block true 2); vm_compute; done.
  - repeat (apply Forall_cons; split; [vm_compute; done|]); done.
  - by left.
  - apply (se_none _ _ _ _ 3 4), ni_end; vm_compute; done.
Qed.

(** INIT.ELF is open as file 0; the other handles are free. *)
Definition session_start : list (option afile) := Some (AFile (take 700 init_content) 0) :: replicate 15 None.

Lemma session_rel : fs_rel (boot_volume 1 10 bpb_block) (block long_image) true long_state session_start.
Proof.
  constructor; [split; [exact long_image_ok|done]|done| |done|].
  - intros n. split; [done|]. apply list_mapped; vm_compute; done.
  - apply Forall2_cons. split.
    + exists [3; 5], init_content. split; [|done]. constructor; [exact long_chain|vm_compute; done..|].
      intros _. vm_compute. done.
    + apply Forall2_replicate. done.
Qed.

Definition session : list op :=
  [Open long_path; Read 1 520; Read 1 520; Size 1; Read 0 4; Open missing_path; Close 1; Read 1 8; Close 16].

Lemma session_is_ok : session_ok (spec_step session_names)
  (op_ok (boot_volume 1 10 bpb_block) (block long_image) true session_names) session_start session.
Proof.
  assert (path_ok long_path) as Hlong.
  { split; [exact long_path_chars|]. split; [|apply Nat.leb_le; vm_compute; done].
    repeat (apply Forall_cons; split; [apply Nat.ltb_lt; vm_compute; done|]); done. }
  assert (path_ok missing_path) as Hmissing.
  { split; [|split; [|apply Nat.leb_le; vm_compute; done]].
    - repeat (apply Forall_cons; split; [repeat (apply Forall_cons; split; [vm_compute; done|]); done|]); done.
    - repeat (apply Forall_cons; split; [apply Nat.ltb_lt; vm_compute; done|]); done. }
  cbn [session session_ok op_ok]. split_and!; try done; try (apply Nat.ltb_lt; vm_compute; done).
  - eexists. split; [exact long_resolves|]. exists [3; 5], init_content. split; [exact long_chain|].
    split_and!; vm_compute; done.
  - eexists. split; [exact missing_resolves|]. split; [done|]. vm_compute. done.
Qed.

(** The file is read in two pieces, the second of which is cut short, beside
    the file that was open. *)
Lemma session_refines_witness : exists s', run run_op session long_state =
  Ok ([Opened 1; Data (take 520 init_content); Data (drop 520 (take 700 init_content) ++ replicate 340 0); Bytes 700;
       Data (take 4 init_content); Refused; Closed; Refused; Refused], s').
Proof.
  destruct (proj1 (wp_exact _ _ _) (session_refines (boot_volume 1 10 bpb_block) (block long_image) true session_names
    demo_volume ltac:(apply Nat.ltb_lt; vm_compute; reflexivity) session long_state session_start
    session_rel session_is_ok)) as (rs & s' & E & -> & _).
  exists s'. rewrite E. do 2 f_equal.
Defined.

(** ** The uninitialised counter *)

(** The stack of [long_state], with [n] in the places of [lfn_parts_found]. *)
Definition dirty_state (n : Z) : FS table :=
  set_stack (fun _ => {| lfn_parts_found := n; lfn_buffer := replicate 800 0 |}) long_state.

(** Where the scan stops and the name it reports. *)
Definition scan_name (n : Z) : option (Z * list Z) :=
  match fat_read_next_dir_entry (Some (start_iter 4)) (Some fresh_info) (dirty_state n) with
  | Ok ((res, _, Some info), _) => Some (res, take 17 (filename info))
  | _ => None
  end.

