(* ===== verification/Elf.v ===== *)
(** * The ELF loader (src/lib/elf/elf.c)

    Reading the headers of an image in memory and copying its segments to
    the addresses they ask for.  loadELF itself, which also needs the file
    system and the heap, is in Kernel.v. *)
From S2P Require Import Prelude Bytes Hexutils Cstring Board Unistd Dma.

Definition ELF_SUCCESS : Z := 0.
Definition ELF_INVALID_EXECUTABLE : Z := 1.

(** The checks of the file header: the magic number, 32 bits, little endian,
    an executable, for ARM. *)
Definition elf_header_ok (data : Z) : M mem bool :=
  let! b0 := load8 (data + 0) in if negb (b0 =? 0x7F) then ret false else
  let! b1 := load8 (data + 1) in if negb (b1 =? 0x45) then ret false else
  let! b2 := load8 (data + 2) in if negb (b2 =? 0x4C) then ret false else
  let! b3 := load8 (data + 3) in if negb (b3 =? 0x46) then ret false else
  let! ei_class := load8 (data + 4) in if ei_class =? 2 then ret false else
  let! ei_data := load8 (data + 5) in if ei_data =? 2 then ret false else
  let! e_type := load8 (data + 0x10) in if negb (e_type =? 2) then ret false else
  let! e_machine := load8 (data + 0x12) in if negb (e_machine =? 0x28) then ret false else
  ret true.

Section Elf.
Context {D : Type} `{HW : Hardware D} `{F : Fuel}.

(** One program header: only PT_LOAD segments are copied, and the rest of
    their memory image is zeroed. *)
Definition load_segment (data e_phoff e_phentsize i : Z) : M (machine D) unit :=
  let offset := u32 (e_phoff + u32 (i * e_phentsize)) in
  let! p_type := in_ram (read_le32 data offset) in
  if negb (p_type =? 1) then ret tt else
  let! p_offset := in_ram (read_le32 data (u32 (offset + 0x04))) in
  let! p_vaddr := in_ram (read_le32 data (u32 (offset + 0x08))) in
  let! p_filesz := in_ram (read_le32 data (u32 (offset + 0x10))) in
  let! p_memsz := in_ram (read_le32 data (u32 (offset + 0x14))) in
  do! memcpy p_vaddr (u32 (data + p_offset)) p_filesz in
  if p_filesz <? p_memsz then
    do! in_ram (memset (u32 (p_vaddr + p_filesz)) 0 (p_memsz - p_filesz)) in ret tt
  else ret tt.

Definition load_segments (data e_phoff e_phentsize e_phnum : Z) : M (machine D) unit :=
  for_loop (Z.to_nat e_phnum) 0 (fun i _ => load_segment data e_phoff e_phentsize i) tt.
End Elf.

(** ** What an image asks for *)

(** The header as the loader checks it. *)
Definition elf_valid (img : list Z) : bool :=
  (le_at 1 img 0 =? 0x7F) && (le_at 1 img 1 =? 0x45) && (le_at 1 img 2 =? 0x4C) && (le_at 1 img 3 =? 0x46) &&
  negb (le_at 1 img 4 =? 2) && negb (le_at 1 img 5 =? 2) && (le_at 1 img 0x10 =? 2) && (le_at 1 img 0x12 =? 0x28).

Definition elf_entry (img : list Z) : Z := le_at 4 img 0x18.
Definition elf_phnum (img : list Z) : Z := le_at 2 img 0x2C.
Definition phdr_offset (img : list Z) (i : Z) : Z := le_at 4 img 0x1C + i * le_at 2 img 0x2A.

(** The bytes a segment puts at its address. *)
Record segment := Segment { seg_addr : Z; seg_data : list Z }.

Definition phdr_segment (img : list Z) (off : Z) : option segment :=
  if le_at 4 img off =? 1 then
    let filesz := le_at 4 img (off + 0x10) in
    Some (Segment (le_at 4 img (off + 0x08))
      (take (Z.to_nat filesz) (drop (Z.to_nat (le_at 4 img (off + 0x04))) img) ++
       replicate (Z.to_nat (le_at 4 img (off + 0x14) - filesz)) 0))
  else None.

Definition segments (img : list Z) : list segment :=
  omap (fun i => phdr_segment img (phdr_offset img i)) (seqZ 0 (elf_phnum img)).

(** The byte at [q] after the segments have been put over a byte [old], in
    their order. *)
Definition seg_byte (q : Z) (old : option Z) (s : segment) : option Z :=
  if (seg_addr s <=? q) && (q <? seg_addr s + Z.of_nat (length (seg_data s)))
  then seg_data s !! Z.to_nat (q - seg_addr s) else old.
Definition image_at (segs : list segment) (q : Z) (old : option Z) : option Z :=
  fold_left (seg_byte q) segs old.

(** The program header at [off] can be read through 16-bit offsets, and its
    segment lies in the file and in mapped memory outside [[lo, hi)]. *)
Definition phdr_ok (lo hi : Z) (m : mem) (img : list Z) (off : Z) : Prop :=
  off + 24 <= Z.of_nat (length img) /\ off + 24 <= 65536 /\
  (le_at 4 img off = 1 ->
     let vaddr := le_at 4 img (off + 0x08) in
     let filesz := le_at 4 img (off + 0x10) in
     let n := Z.max filesz (le_at 4 img (off + 0x14)) in
     le_at 4 img (off + 0x04) + filesz <= Z.of_nat (length img) /\
     vaddr + n < 4294967296 /\ (vaddr + n <= lo \/ hi <= vaddr) /\ mapped m vaddr (vaddr + n)).

Definition elf_ok (lo hi : Z) (m : mem) (img : list Z) : Prop :=
  0x2E <= Z.of_nat (length img) /\
  forall i, 0 <= i < elf_phnum img -> phdr_ok lo hi m img (phdr_offset img i).

(** ** Lemmas *)

Lemma peeks_slice {T} `{ByteStore T} (m : T) p l a k :
  peeks m p (length l) = Some l -> 0 <= a -> a + Z.of_nat k <= Z.of_nat (length l) ->
  peeks m (p + a) k = Some (take k (drop (Z.to_nat a) l)).
Proof.
  intros Hp Ha Hk. replace (length l) with (Z.to_nat a + (k + (length l - Z.to_nat a - k)))%nat in Hp by lia.
  rewrite peeks_app, Z2Nat.id in Hp by done. destruct (peeks m p _) as [l1|] eqn:E1; [|done].
  cbn [mbind option_bind] in Hp. rewrite peeks_app in Hp.
  destruct (peeks m (p + a) k) as [l2|] eqn:E2; [|done]. cbn [mbind option_bind] in Hp.
  destruct (peeks m (p + a + Z.of_nat k) _) as [l3|]; [|done].
  cbn [mbind option_bind] in Hp. injection Hp as <-.
  pose proof (length_peeks _ _ _ _ E1) as L1. pose proof (length_peeks _ _ _ _ E2) as L2.
  rewrite drop_app_length', take_app_length' by lia. done.
Qed.

Lemma image_at_snoc segs s q old : image_at (segs ++ [s]) q old = seg_byte q (image_at segs q old) s.
Proof. apply fold_left_app. Qed.

(** Putting a segment in memory. *)
Lemma writes_seg_byte (m m' : mem) s q :
  writes m (seg_addr s) (seg_data s) m' -> m' !! q = seg_byte q (m !! q) s.
Proof.
  intros [W1 W2]. unfold seg_byte.
  destruct (Z.leb_spec (seg_addr s) q), (Z.ltb_spec q (seg_addr s + Z.of_nat (length (seg_data s))));
    cbn [andb]; try (apply W2; lia).
  rewrite <- (peeks_lookup m' _ _ _ (Z.to_nat (q - seg_addr s)) W1) by lia.
  rewrite Z2Nat.id by lia. unfold peek; cbn. unfold mem_peek. f_equal. lia.
Qed.

Section Image.
Context (m : mem) (data : Z) (img : list Z).
Context (Himg : peeks m data (length img) = Some img) (Hu8 : Forall is_u8 img).

Lemma image_byte h p (Q : Z -> mem -> Prop) :
  0 <= p < Z.of_nat (length img) -> Q (le_at 1 img p) m -> wpg h (load8 (data + p)) Q m.
Proof.
  intros Hp HQ. pose proof (peeks_slice m data img p 1 Himg ltac:(lia) ltac:(lia)) as E. unfold le_at in HQ.
  destruct (take 1 (drop (Z.to_nat p) img)) as [|b [|]] eqn:El;
    [pose proof (length_peeks _ _ _ _ E); done| |pose proof (length_peeks _ _ _ _ E); done].
  cbn [le_combine] in HQ. rewrite Z.mul_0_r, Z.add_0_r in HQ. eapply load8_ok; [|exact HQ].
  cbn [peeks] in E. destruct (peek m (data + p)); [|done]. cbn in E. congruence.
Qed.

Lemma image_word n p : 0 <= p -> p + n <= Z.of_nat (length img) -> p + n <= 65536 -> 0 < n ->
  peeks m (data + u16 p) (Z.to_nat n) = Some (take (Z.to_nat n) (drop (Z.to_nat p) img)) /\
  Forall is_u8 (take (Z.to_nat n) (drop (Z.to_nat p) img)).
Proof.
  intros Hp Hn Hn2 Hn0. rewrite u16_small by (unfold is_u16; lia). split.
  - apply peeks_slice; [done|lia|lia].
  - by apply Forall_take, Forall_drop.
Qed.

Lemma image_le32 p : 0 <= p -> p + 4 <= Z.of_nat (length img) -> p + 4 <= 65536 ->
  read_le32 data p m = Ok (le_at 4 img p, m).
Proof. intros. apply read_le32_ok; by apply (image_word 4 p). Qed.

Lemma image_le16 p : 0 <= p -> p + 2 <= Z.of_nat (length img) -> p + 2 <= 65536 ->
  read_le16 data p m = Ok (le_at 2 img p, m).
Proof. intros. apply read_le16_ok; by apply (image_word 2 p). Qed.

(** The header checks are those of [elf_valid]. *)
Lemma elf_header_ok_eq : 0x2E <= Z.of_nat (length img) -> elf_header_ok data m = Ok (elf_valid img, m).
Proof.
  intros Hl. assert (wp (elf_header_ok data) (fun r m' => r = elf_valid img /\ m' = m) m) as W.
  { unfold elf_header_ok, elf_valid.
    repeat (wp_step; apply image_byte; [lia|];
      match goal with |- context [if negb ?b then _ else _] => destruct b | |- context [if ?b then _ else _] => destruct b end;
      cbn [negb andb]; [try by wp_step|try by wp_step]).
    all: by wp_step. }
  destruct (proj1 (wp_exact _ _ _) W) as (r & m' & E & -> & ->). exact E.
Qed.
End Image.

(** ** Loading *)

Section Loading.
Context {D C : Type} `{HW : Hardware D} `{F : Fuel} `{V : View D C}.
Context `{T : !TimerLaws D C} `{DM : !DmaLaws D C}.
Context (enough : (usleep_fuel (D := D) (C := C) 1000 < fuel)%nat).
Context (enough_dma : (dma_latency D C < fuel)%nat).
Implicit Types s : machine D.

Lemma same_devices_refl (v : io C) : same_devices v v.
Proof. exists (io_time v), (io_latch v), (io_dma v). destruct v; cbn. split; [done|lia]. Qed.

Lemma same_devices_trans (v1 v2 v3 : io C) : same_devices v1 v2 -> same_devices v2 v3 -> same_devices v1 v3.
Proof.
  intros (t & l & d & -> & H1) (t' & l' & d' & -> & H2). cbn in H2. exists t', l', d'. cbn. split; [done|lia].
Qed.

Definition copied s s' : Prop :=
  same_devices (view (dev s)) (view (dev s')) /\ ch_busy (io_dma (view (dev s')) 0) = false.

(** One segment is copied to its address and the rest of it is zeroed. *)
Lemma load_segment_ok s data img lo hi i :
  ch_busy (io_dma (view (dev s)) 0) = false ->
  peeks (ram s) data (length img) = Some img -> Forall is_u8 img ->
  0 <= lo <= data -> data + Z.of_nat (length img) <= hi < 4294967296 ->
  0 <= i -> phdr_ok lo hi (ram s) img (phdr_offset img i) ->
  wp (load_segment data (le_at 4 img 0x1C) (le_at 2 img 0x2A) i) (fun _ s' =>
    copied s s' /\
    match phdr_segment img (phdr_offset img i) with
    | Some sg => writes (ram s) (seg_addr sg) (seg_data sg) (ram s') /\
        (seg_addr sg + Z.of_nat (length (seg_data sg)) <= lo \/ hi <= seg_addr sg)
    | None => ram s' = ram s
    end) s.
Proof.
  intros Hb Himg Hu8 Hlo Hhi Hi (Hn & H16 & Hld). unfold load_segment.
  pose proof (le_at_range 4 img 0x1C Hu8). pose proof (le_at_range 2 img 0x2A Hu8).
  pose proof (Z.mul_nonneg_nonneg i (le_at 2 img 0x2A) Hi ltac:(lia)).
  assert (u32 (le_at 4 img 0x1C + u32 (i * le_at 2 img 0x2A)) = phdr_offset img i) as ->
    by (unfold phdr_offset in *; rewrite (u32_small (i * _)), u32_small by (unfold is_u32; lia); done).
  assert (0 <= phdr_offset img i) as Hoff by (unfold phdr_offset; lia).
  set (off := phdr_offset img i) in *.
  unfold phdr_segment. wp_step. eapply in_ram_pure; [apply (image_le32 (ram s) data img); (done || lia)|].
  destruct (Z.eqb_spec (le_at 4 img off) 1) as [Ht|Ht]; cbn [negb].
  2: { wp_step. split; [|done]. split; [apply same_devices_refl|done]. }
  destruct (Hld Ht) as (Hfile & Hva & Hdis & Hmap). clear Hld. rewrite !(u32_small (off + _)) by (unfold is_u32; lia).
  do 4 (wp_step; eapply in_ram_pure; [apply (image_le32 (ram s) data img); (done || lia)|]).
  pose proof (le_at_range 4 img (off + 0x04) Hu8). pose proof (le_at_range 4 img (off + 0x08) Hu8).
  pose proof (le_at_range 4 img (off + 0x10) Hu8). pose proof (le_at_range 4 img (off + 0x14) Hu8).
  change (256 ^ Z.of_nat 4) with 4294967296 in *.
  set (po := le_at 4 img (off + 0x04)) in *. set (va := le_at 4 img (off + 0x08)) in *.
  set (fs := le_at 4 img (off + 0x10)) in *. set (ms := le_at 4 img (off + 0x14)) in *.
  rewrite (u32_small (data + po)) by (unfold is_u32; lia).
  wp_step. eapply wpg_mono; [apply (memcpy_ok enough enough_dma va (data + po) fs (take (Z.to_nat fs) (drop (Z.to_nat po) img)) s)|].
  1-3: unfold is_u32; lia.
  1: done.
  1: apply peeks_slice; [done|lia|lia].
  1: intros q ?; apply Hmap; lia.
  1: lia.
  intros _ s1 (_ & W1 & S1 & B1). set (bytes := take (Z.to_nat fs) (drop (Z.to_nat po) img)) in *.
  assert (Z.of_nat (length bytes) = fs) as Lb by (unfold bytes; rewrite length_take, length_drop; lia).
  cbn [seg_addr seg_data]. rewrite length_app, length_replicate.
  destruct (Z.ltb_spec fs ms) as [Hbss|Hbss].
  - wp_step. unfold in_ram. wp_step. rewrite (u32_small (va + fs)) by (unfold is_u32; lia).
    eapply wpg_mono; [apply memset_ok; [unfold is_u32; lia|]|].
    { eapply writes_mapped; [exact W1|]. intros q ?; apply Hmap; lia. }
    intros _ m' (_ & W2). wp_step. split; [done|]. cbn [ram]. split; [|lia].
    change (u8 0) with 0 in W2. eapply writes_app; [exact W1|]. by rewrite Lb.
  - wp_step. split; [done|]. rewrite Z2Nat.nonpos by lia. cbn [replicate]. rewrite app_nil_r. split; [done|lia].
Qed.

(** All of them, in the order of the program headers. *)
Lemma load_segments_ok s data img lo hi :
  ch_busy (io_dma (view (dev s)) 0) = false ->
  peeks (ram s) data (length img) = Some img -> Forall is_u8 img ->
  0 <= lo <= data -> data + Z.of_nat (length img) <= hi < 4294967296 -> elf_ok lo hi (ram s) img ->
  wp (load_segments data (le_at 4 img 0x1C) (le_at 2 img 0x2A) (elf_phnum img)) (fun _ s' =>
    copied s s' /\
    (forall q, lo <= q < hi -> ram s' !! q = ram s !! q) /\
    (forall q, q < lo \/ hi <= q -> ram s' !! q = image_at (segments img) q (ram s !! q)) /\
    (forall a b, mapped (ram s) a b -> mapped (ram s') a b)) s.
Proof.
  intros Hb Himg Hu8 Hlo Hhi [_ Hph]. pose proof (le_at_range 2 img 0x2C Hu8). fold (elf_phnum img) in *.
  set (upto i := omap (fun i => phdr_segment img (phdr_offset img i)) (seqZ 0 i)).
  unfold load_segments. eapply wpg_mono.
  - apply (wpg_for False (fun i (_ : unit) s' => 0 <= i /\ copied s s' /\
      (forall q, lo <= q < hi -> ram s' !! q = ram s !! q) /\
      (forall q, q < lo \/ hi <= q -> ram s' !! q = image_at (upto i) q (ram s !! q)) /\
      (forall a b, mapped (ram s) a b -> mapped (ram s') a b))).
    + split; [done|]. split; [|done]. split; [apply same_devices_refl|done].
    + intros i [] s1 Hi (Hi0 & [C1 B1] & In1 & Out1 & M1).
      assert (peeks (ram s1) data (length img) = Some img) as Himg1.
      { rewrite <- Himg. apply peeks_ext. intros q Hq. apply In1. lia. }
      assert (phdr_ok lo hi (ram s1) img (phdr_offset img i)) as Hph1.
      { destruct (Hph i ltac:(lia)) as (? & ? & Hl). split; [done|]. split; [done|]. intros Ht.
        destruct (Hl Ht) as (? & ? & ? & ?). split_and!; try done. by apply M1. }
      assert (upto (i + 1) = upto i ++ match phdr_segment img (phdr_offset img i) with Some sg => [sg] | None => [] end) as Eup.
      { unfold upto. rewrite seqZ_app, omap_app by lia. rewrite Z.add_0_l. change (seqZ i 1) with [0 + i]. cbn [omap list_omap]. rewrite Z.add_0_l. by destruct (phdr_segment _ _). }
      eapply wpg_mono; [by apply (load_segment_ok s1 data img lo hi i)|].
      intros _ s2 ([C2 B2] & W). split; [lia|]. split; [split; [by eapply same_devices_trans|done]|].
      rewrite Eup. destruct (phdr_segment img (phdr_offset img i)) as [sg|].
      * destruct W as [W Hd]. split; [|split].
        -- intros q Hq. rewrite <- In1 by done. apply W. lia.
        -- intros q Hq. rewrite (writes_seg_byte _ _ _ q W), Out1, image_at_snoc by done. done.
        -- intros a b Hab. eapply writes_mapped; [exact W|]. by apply M1.
      * rewrite W, app_nil_r. done.
  - intros [] s' (_ & HC & Hin & Hout & Hm). rewrite Z.add_0_l, Z2Nat.id in Hout by lia. done.
Qed.
End Loading.
