(* ===== verification/Kernel.v ===== *)
(** * The kernel's view of the machine, and loadELF

    The global state of the kernel: the file system's globals over the
    machine the SD card hangs on, and the allocator's list head.  The
    components' operations are lifted to it, and src/lib/elf/elf.c's loadELF
    is put together from them. *)
From S2P Require Import Prelude Bytes Hexutils Cstring Board Unistd Dma Heap Block SD FAT32.
From S2P Require Import FatVolume FatFile FatDir FatPath Elf.

Record kernel (D : Type) := Kernel { files : FS (machine D); heap_head : Z }.
Arguments Kernel {D} files heap_head.
Arguments files {D} k.
Arguments heap_head {D} k.

Section Kernel.
Context {D : Type} `{HW : Hardware D} `{F : Fuel}.

Definition on_files {A} (m : M (FS (machine D)) A) : M (kernel D) A :=
  zoom files (fun f k => Kernel f (heap_head k)) m.
Definition on_board {A} (m : M (machine D) A) : M (kernel D) A := on_files (zoom disk set_disk m).
Definition on_heap {A} (m : M (heap_state D) A) : M (kernel D) A :=
  zoom (fun k => HeapState (disk (files k)) (heap_head k))
    (fun h k => Kernel (set_disk (mach h) (files k)) (head h)) m.

(** The memory the file system's pointers address is the machine's. *)
Definition memory (k : kernel D) : mem := ram (disk (files k)).
Definition set_memory (m : mem) (s : machine D) : machine D := Machine m (dev s).

Definition open_file (path mode : Z) : M (kernel D) Z :=
  let! m := gets memory in on_files (fat32_open m path mode).

Definition read_file (file_id buffer n : Z) : M (kernel D) bool :=
  let! m := gets memory in
  let! '(ok, m') := on_files (fat32_read m file_id buffer n) in
  do! on_board (modify (set_memory m')) in
  ret ok.

Definition loadELF (path : Z) : M (kernel D) Z :=
  let! file_id := open_file path 0 in
  let! size := on_files (fat32_get_size file_id) in
  let! data := on_heap (malloc size) in
  if data =? 0 then ret 2 else
  let! _ := read_file file_id data size in
  let! valid := on_board (in_ram (elf_header_ok data)) in
  if negb valid then ret ELF_INVALID_EXECUTABLE else
  let! e_entry := on_board (in_ram (read_le32 data 0x18)) in
  let! e_phoff := on_board (in_ram (read_le32 data 0x1C)) in
  let! e_phentsize := on_board (in_ram (read_le16 data 0x2A)) in
  let! e_phnum := on_board (in_ram (read_le16 data 0x2C)) in
  do! on_board (load_segments data e_phoff e_phentsize e_phnum) in
  do! on_heap (free data) in
  ret e_entry.
End Kernel.

(** ** Correctness *)

Section Correctness.
Context {D C : Type} `{HW : Hardware D} `{SL : SpiSlave C} `{F : Fuel} `{V : View D C}.
Context `{SP : !SpiLaws D C} `{GL : !GpioLaws D C} `{SC : !SdCard C}.
Context `{T : !TimerLaws D C} `{DM : !DmaLaws D C}.
Context (enough : (spi_latency D C < fuel)%nat) (enough_polls : 65536 < Z.of_nat fuel).
Context (enough_time : (usleep_fuel (D := D) (C := C) 1000 < fuel)%nat).
Context (enough_dma : (dma_latency D C < fuel)%nat).
Implicit Types k : kernel D.

(** The blocks of the card in the slot. *)
Definition card_blocks k : Z -> option (list Z) := card_data (io_card (view (dev (disk (files k))))).

(** The card can be read and the DMA channel of memcpy is idle. *)
Definition devices_ready k : Prop :=
  sd_ready (disk (files k)) /\ ch_busy (io_dma (view (dev (disk (files k)))) 0) = false.

(** The path at [path] leads to a file with directory entry [e], whose
    cluster chain [l] holds [content]. *)
Record names_file k (path : Z) (cs : list (list Z)) (long : bool) (e name l content : list Z) : Prop := {
  nf_volume : volume_ok (g_fat32_volume_info (files k));
  nf_stack : stack_ok long (files k);
  nf_null : path <> NULL;
  nf_path : peeks (memory k) (path + 1) (length (path_bytes cs)) = Some (path_bytes cs);
  nf_chars : Forall (Forall name_char) cs;
  nf_short : Forall (fun c => (length c < fuel)%nat) cs /\ (length cs <= fuel)%nat;
  nf_resolves : resolves (g_fat32_volume_info (files k)) (card_blocks k) long fuel
    (root_dir_cluster (g_fat32_volume_info (files k))) cs (SFile e name);
  nf_chain : chain (g_fat32_volume_info (files k)) (card_blocks k) (entry_cluster e) l;
  nf_data : chain_data (g_fat32_volume_info (files k)) (card_blocks k) l = Some content;
  nf_size : 0 <= le_at 4 e 28 <= Z.of_nat (length content) /\ le_at 4 e 28 < 2147483648;
}.

(** The driver's laws, for a machine that differs from [s0] in the receive FIFO
    and the card only. *)
Definition laws (s0 : machine D) : BlockLaws (machine D) :=
  sd_block_laws (spi_only s0) (fun s s' H P => spi_only_trans s0 s s' P H) enough enough_polls.

Lemma spi_only_dma s s' ch : spi_only s s' -> io_dma (view (dev s')) ch = io_dma (view (dev s)) ch.
Proof. intros [_ (rx & c & ->)]. done. Qed.

(** What the file calls keep: memory, the heap and the devices. *)
Definition files_step k k' : Prop :=
  heap_head k' = heap_head k /\ devices_ready k' /\ card_blocks k' = card_blocks k /\
  g_fat32_volume_info (files k') = g_fat32_volume_info (files k).

Lemma open_file_ok k path cs long e name l content i (Q : Z -> kernel D -> Prop) :
  devices_ready k -> names_file k path cs long e name l content ->
  length (open_file_handles (files k)) = Z.to_nat MAX_OPEN_FILES ->
  first_free (open_file_handles (files k)) = Some i ->
  (forall k' h, files_step k k' -> memory k' = memory k ->
     open_file_handles (files k') = <[i := h]> (open_file_handles (files k)) ->
     file_open (g_fat32_volume_info (files k)) (card_blocks k) h l content ->
     current_file_pos h = 0 -> file_size h = le_at 4 e 28 -> Q (Z.of_nat i) k') ->
  wp (open_file path 0) Q k.
Proof.
  intros [Hr Hb] [] Hl Hi HQ. unfold open_file. wp_step. wp_step. unfold on_files. wp_step.
  eapply wpg_mono.
  - apply (fat32_open_path_ok (BL := laws (disk (files k))) ltac:(lia) (memory k) (files k) path cs long e name 0 l content i);
      try done; [|by destruct nf_short0..|by destruct nf_size0|by destruct nf_size0].
    split; [done|]. apply spi_only_refl.
  - intros id f (-> & h & Hh & Ho & Hp & Hsz & [Hs' S'] & D' & V'). apply (HQ _ h); try done.
    + split; [done|]. split; [|done]. split; [done|]. cbn [files]. by rewrite (spi_only_dma _ _ _ S').
    + unfold memory. cbn [files]. apply S'.
Qed.

Lemma read_file_ok k i h l content buffer (Q : bool -> kernel D -> Prop) :
  devices_ready k -> volume_ok (g_fat32_volume_info (files k)) -> Z.of_nat i < MAX_OPEN_FILES ->
  open_file_handles (files k) !! i = Some h ->
  file_open (g_fat32_volume_info (files k)) (card_blocks k) h l content -> current_file_pos h = 0 ->
  buffer <> NULL -> mapped (memory k) buffer (buffer + file_size h) -> (Z.to_nat (file_size h) < fuel)%nat ->
  (forall k' h', files_step k k' ->
     writes (memory k) buffer (take (Z.to_nat (file_size h)) content) (memory k') ->
     open_file_handles (files k') = <[i := h']> (open_file_handles (files k)) -> is_free h' = false ->
     Q true k') ->
  wp (read_file (Z.of_nat i) buffer (file_size h)) Q k.
Proof.
  intros [Hr Hb] Hv Hi Hh Ho Hp Hbuf Hm Hf HQ. unfold read_file. wp_step. wp_step. wp_step. unfold on_files. wp_step.
  pose proof (fo_size _ _ _ _ _ Ho) as [Hsz Hmax].
  eapply wpg_mono.
  - apply (fat32_read_ok (BL := laws (disk (files k))) (memory k) (files k) (Z.of_nat i) h l content buffer (file_size h));
      rewrite ?Nat2Z.id; try done; [|lia|lia|by rewrite Hp, Z.sub_0_r, Z.min_id|by rewrite Hp, Z.sub_0_r, Z.min_id].
    split; [done|]. apply spi_only_refl.
  - intros [ok m'] f (-> & W & h' & Hh' & _ & Ho' & [Hs' S'] & D' & V' & _).
    rewrite Hp, Z.sub_0_r, Z.min_id, drop_0 in W. wp_step. unfold on_board, on_files. wp_steps.
    apply (HQ _ h').
    + split; [done|]. split; [|done]. split; [exact Hs'|]. cbn [files disk set_disk set_memory dev].
      by rewrite (spi_only_dma _ _ _ S').
    + exact W.
    + cbn [files open_file_handles set_disk]. by rewrite Hh', Nat2Z.id.
    + apply (fo_free _ _ _ _ _ Ho').
Qed.

(** *** The allocator between the file calls *)

(** The block [c] at [data] is allocated, and freeing it gives the list [bs]. *)
Definition borrowed (m : mem) (hd data : Z) (bs l1 r : list block) (c : block) : Prop :=
  heap_at m hd (l1 ++ c :: r) /\ data = end_of hd l1 + 16 /\ abs_free l1 c r = bs /\
  word_at m (end_of hd l1) (pred hd l1) /\ balloc c = true.

(** Where the use of the heap ends while an allocation of [size] bytes is
    there: what follows is the free rest of the heap. *)
Definition used_end (hd size : Z) (bs : list block) : Z := top hd (abs_malloc hd (ALIGN_4BYTE size) bs).2.

Lemma borrowed_bounds m hd data bs l1 r c :
  borrowed m hd data bs l1 r c ->
  0 < hd /\ hd + 16 <= data /\ data + bsize c <= top hd (l1 ++ c :: r) <= end_of hd bs /\ end_of hd bs < 4294967296 /\
  mapped m data (data + bsize c).
Proof.
  intros ((Hl & _ & _ & Hm) & -> & <- & _ & Hc). rewrite abs_free_end in *.
  assert (Hl' := Hl). apply layout_app in Hl' as [Hl1 Hl2]. assert (Hl3 := Hl2). apply layout_cons in Hl3 as (_ & _ & ? & _ & Hl3).
  pose proof (layout_pos _ _ Hl1). pose proof (layout_end _ _ Hl1). pose proof (layout_end _ _ Hl3).
  pose proof (layout_end _ _ Hl). rewrite top_app by done. pose proof (top_bounds (end_of hd l1) c r ltac:(apply Hl2)) as Ht.
  rewrite end_of_app in *. cbn [end_of] in *.
  assert (end_of hd l1 + 16 + bsize c <= top (end_of hd l1) (c :: r)).
  { destruct r as [|d r]; [cbn; rewrite Hc; lia|].
    pose proof (top_bounds (end_of hd l1 + 16 + bsize c) d r ltac:(apply Hl3)).
    change (top (end_of hd l1) (c :: d :: r)) with (top (end_of hd l1 + 16 + bsize c) (d :: r)). lia. }
  split_and!; try lia. intros q ?. apply Hm. lia.
Qed.

Lemma borrowed_frame m m' hd data bs l1 r c :
  borrowed m hd data bs l1 r c ->
  (forall q, hd <= q < top hd (l1 ++ c :: r) -> m' !! q = m !! q) -> (forall x y, mapped m x y -> mapped m' x y) ->
  borrowed m' hd data bs l1 r c.
Proof.
  intros Hb Hq Hm. pose proof (borrowed_bounds _ _ _ _ _ _ _ Hb) as (_ & _ & Ht & _).
  destruct Hb as (Hh & -> & <- & Hw & Hc). assert (Hl := proj1 Hh). apply layout_app in Hl as [Hl1 Hl2].
  apply layout_cons in Hl2 as (_ & _ & ? & _). pose proof (layout_end _ _ Hl1).
  split; [by eapply heap_at_frame|]. split; [done|]. split; [done|]. split; [|done].
  eapply word_at_frame; [exact Hw|]. intros q ?. apply Hq. lia.
Qed.

(** Writing to the payload. *)
Lemma borrowed_writes m m' hd data bs l1 r c l :
  borrowed m hd data bs l1 r c -> writes m data l m' -> Z.of_nat (length l) <= bsize c ->
  borrowed m' hd data bs l1 r c.
Proof.
  intros (Hh & -> & Hf & Hw & Hc) W Hl.
  destruct (payload_frame _ _ _ _ _ _ _ _ Hh W) as [Hh' _]; [lia|lia|].
  split; [done|]. split; [done|]. split; [done|]. split; [|done]. eapply word_at_frame; [exact Hw|].
  intros q ?. apply W. lia.
Qed.

Lemma malloc_step size k bs (Q : Z -> kernel D -> Prop) :
  heap_at (memory k) (heap_head k) bs -> prevs (memory k) 0 (heap_head k) bs -> coalesced bs ->
  (length bs <= fuel)%nat -> first_fit (ALIGN_4BYTE size) bs <> None -> 0 <= size <= 4294967292 ->
  (forall m' l1 c r, let k' := Kernel (set_disk (set_memory m' (disk (files k))) (files k)) (heap_head k) in
     borrowed m' (heap_head k) (end_of (heap_head k) l1 + 16) bs l1 r c -> size <= bsize c ->
     top (heap_head k) (l1 ++ c :: r) = used_end (heap_head k) size bs ->
     (forall q, q < heap_head k \/ used_end (heap_head k) size bs <= q -> m' !! q = memory k !! q) ->
     Q (end_of (heap_head k) l1 + 16) k') ->
  wp (on_heap (malloc size)) Q k.
Proof.
  intros Hh Hp Hc Hf Hfit Hsz HQ. unfold on_heap. wp_step.
  destruct (first_fit (ALIGN_4BYTE size) bs) as [[[l1 b] l2]|] eqn:E; [|done].
  apply (malloc_ok size _ bs); [exact Hh|done|]. cbv zeta. cbn [mach head]. intros [[m' d] hd'] H1 (U1 & U2 & U3) _ Hw Ht.
  unfold used_end in HQ. cbn [mach head ram dev] in *. subst d hd'.
  destruct (abs_malloc_free (heap_head k) _ _ _ _ _ Hc E) as (c & r & Es & Hc' & Ef & Hle).
  unfold abs_malloc in *. rewrite E in *. cbn [fst snd] in *. rewrite Es in *.
  apply (HQ m' l1 c r); [|pose proof (ALIGN_4BYTE_ge size Hsz); lia|done|].
  2: { intros q [?|?]; [apply U3; by left|by apply Ht]. }
  split; [exact H1|]. split; [done|]. split; [done|]. split; [|done]. eapply Hw; [done|].
  apply first_fit_some in E as (-> & _). by eapply prevs_word.
Qed.

Lemma free_step k data bs l1 r c (Q : unit -> kernel D -> Prop) :
  borrowed (memory k) (heap_head k) data bs l1 r c ->
  (forall m', let k' := Kernel (set_disk (set_memory m' (disk (files k))) (files k)) (heap_head k) in
     heap_at m' (heap_head k) bs ->
     (forall q, q < heap_head k \/ top (heap_head k) (l1 ++ c :: r) <= q -> m' !! q = memory k !! q) -> Q tt k') ->
  wp (on_heap (free data)) Q k.
Proof.
  intros (Hh & -> & Hf & Hw & _) HQ. unfold on_heap. wp_step.
  apply (free_ok (HeapState (disk (files k)) (heap_head k)) l1 c r); [exact Hh|exact Hw|].
  intros [[m' d] hd'] H1 (U1 & U2 & U3) _ Ht. cbn [mach head ram dev] in *. subst d hd'.
  apply (HQ m'); [by rewrite <- Hf|]. intros q [?|?]; [apply U3; by left|by apply Ht].
Qed.

(** *** The loader *)

(** A register of the program header or a check: a read of memory. *)
Lemma on_ram_pure {A} (m : M mem A) a k (Q : A -> kernel D -> Prop) :
  m (memory k) = Ok (a, memory k) -> Q a k -> wp (on_board (in_ram m)) Q k.
Proof.
  intros E HQ. unfold on_board, on_files. do 2 wp_step. eapply in_ram_pure; [exact E|]. by destruct k as [[] ].
Qed.

(** The loader on an image that is in allocated memory. *)
Lemma load_image_ok k data img bs l1 r c (Q : Z -> kernel D -> Prop) :
  devices_ready k -> borrowed (memory k) (heap_head k) data bs l1 r c ->
  peeks (memory k) data (length img) = Some img -> Forall is_u8 img -> Z.of_nat (length img) <= bsize c ->
  elf_ok (heap_head k) (top (heap_head k) (l1 ++ c :: r)) (memory k) img -> elf_valid img = true ->
  (forall k', devices_ready k' -> heap_head k' = heap_head k -> heap_at (memory k') (heap_head k) bs ->
     (forall q, q < heap_head k \/ top (heap_head k) (l1 ++ c :: r) <= q ->
        memory k' !! q = image_at (segments img) q (memory k !! q)) ->
     open_file_handles (files k') = open_file_handles (files k) -> Q (elf_entry img) k') ->
  wp (let! valid := on_board (in_ram (elf_header_ok data)) in
      if negb valid then ret ELF_INVALID_EXECUTABLE else
      let! e_entry := on_board (in_ram (read_le32 data 0x18)) in
      let! e_phoff := on_board (in_ram (read_le32 data 0x1C)) in
      let! e_phentsize := on_board (in_ram (read_le16 data 0x2A)) in
      let! e_phnum := on_board (in_ram (read_le16 data 0x2C)) in
      do! on_board (load_segments data e_phoff e_phentsize e_phnum) in
      do! on_heap (free data) in
      ret e_entry) Q k.
Proof.
  intros [Hr Hb] Hbo Himg Hu8 Hc Helf Hval HQ. assert (Helf' := Helf). destruct Helf' as [Hlen _].
  pose proof (borrowed_bounds _ _ _ _ _ _ _ Hbo) as (Hhd & Hd1 & Hd2 & Hend & _).
  wp_step. eapply on_ram_pure; [by apply (elf_header_ok_eq _ _ img)|]. rewrite Hval. cbn [negb].
  do 2 (wp_step; eapply on_ram_pure; [apply (image_le32 _ _ img); (done || lia)|]).
  do 2 (wp_step; eapply on_ram_pure; [apply (image_le16 _ _ img); (done || lia)|]).
  wp_step. unfold on_board, on_files. do 2 wp_step.
  eapply wpg_mono; [apply (load_segments_ok enough_time enough_dma (disk (files k)) data img (heap_head k) (top (heap_head k) (l1 ++ c :: r)));
    [done|exact Himg|done|lia|lia|exact Helf]|].
  intros _ s' ([Hs' Hb'] & Hin & Hout & Hmm). wp_step.
  apply (free_step (Kernel (set_disk s' (files k)) (heap_head k)) data bs l1 r c); [eapply borrowed_frame; [exact Hbo|exact Hin|exact Hmm]|].
  intros m' k' Hh Hfr. wp_step. apply HQ; try done.
  - split; [|exact Hb']. destruct Hr as (Hon & Hrx & Hi). destruct Hs' as (t & lt & dma & E & _).
    unfold k', sd_ready. cbn [files disk set_disk set_memory dev]. rewrite E. done.
  - intros q Hq. unfold k', memory at 1. cbn [files disk set_disk set_memory ram]. rewrite Hfr by done. by apply Hout.
Qed.

(** *** loadELF *)

(** The file at [path] can be opened and read: what loadELF is given. *)
Record loadable k path cs long e name l content i (bs : list block) : Prop := {
  ld_ready : devices_ready k;
  ld_file : names_file k path cs long e name l content;
  ld_handles : length (open_file_handles (files k)) = Z.to_nat MAX_OPEN_FILES;
  ld_free : first_free (open_file_handles (files k)) = Some i;
  ld_heap : heap_at (memory k) (heap_head k) bs;
  ld_prevs : prevs (memory k) 0 (heap_head k) bs;
  ld_coalesced : coalesced bs;
  ld_fuel : (length bs <= fuel)%nat /\ (Z.to_nat (le_at 4 e 28) < fuel)%nat;
}.

(** The image in the file. *)
Definition file_image (e content : list Z) : list Z := take (Z.to_nat (le_at 4 e 28)) content.

(** The handle [i] has been taken for good. *)
Definition handle_taken i k k' : Prop :=
  exists h, open_file_handles (files k') = <[i := h]> (open_file_handles (files k)) /\ is_free h = false.

Lemma file_image_length k path cs long e name l content :
  names_file k path cs long e name l content -> Z.of_nat (length (file_image e content)) = le_at 4 e 28.
Proof. intros []. unfold file_image. rewrite length_take. lia. Qed.

Lemma file_image_bytes k path cs long e name l content :
  devices_ready k -> names_file k path cs long e name l content -> Forall is_u8 (file_image e content).
Proof.
  intros [(_ & _ & Hi) _] []. apply Forall_take. eapply chain_data_bytes; [|exact nf_data0].
  intros a data Hd. by eapply card_block.
Qed.

(** Up to the header check: the image is in an allocation of its own. *)
Lemma loadELF_read_ok k path cs long e name l content i bs (rest : Z -> M (kernel D) Z) (Q : Z -> kernel D -> Prop) :
  loadable k path cs long e name l content i bs -> first_fit (ALIGN_4BYTE (le_at 4 e 28)) bs <> None ->
  (forall k' data l1 r c, devices_ready k' -> heap_head k' = heap_head k -> handle_taken i k k' ->
     borrowed (memory k') (heap_head k) data bs l1 r c -> le_at 4 e 28 <= bsize c ->
     top (heap_head k) (l1 ++ c :: r) = used_end (heap_head k) (le_at 4 e 28) bs ->
     peeks (memory k') data (length (file_image e content)) = Some (file_image e content) ->
     (forall q, q < heap_head k \/ used_end (heap_head k) (le_at 4 e 28) bs <= q -> memory k' !! q = memory k !! q) ->
     data <> 0 -> wp (rest data) Q k') ->
  wp (let! file_id := open_file path 0 in
      let! size := on_files (fat32_get_size file_id) in
      let! data := on_heap (malloc size) in
      if data =? 0 then ret 2 else
      let! _ := read_file file_id data size in rest data) Q k.
Proof.
  intros [] Hfit HQ. assert (Hfile := ld_file0). destruct Hfile. destruct nf_size0 as [Hsz Hmax].
  assert (i < length (open_file_handles (files k)))%nat as Hilt.
  { unfold first_free in ld_free0. destruct (list_find _ _) as [[n h]|] eqn:E; [|done]. injection ld_free0 as <-.
    apply list_find_Some in E as (E & _). by eapply lookup_lt_Some. }
  unfold MAX_OPEN_FILES in *. wp_step. eapply open_file_ok; [done|exact ld_file0|done|done|].
  intros k1 h (Hh1 & R1 & C1 & V1) M1 O1 Ho Hp Hhs. wp_step. unfold on_files. wp_step. unfold fat32_get_size, MAX_OPEN_FILES.
  destruct (Z.leb_spec 16 (Z.of_nat i)); [lia|]. unfold get_handle. do 2 wp_step. eapply wpg_of_option.
  { rewrite O1, Nat2Z.id. apply list_lookup_insert_eq. lia. }
  wp_step. rewrite Hhs. wp_step.
  assert (Kernel (files k1) (heap_head k1) = k1) as -> by (by destruct k1).
  apply (malloc_step (le_at 4 e 28) k1 bs); rewrite ?M1, ?Hh1; try done; [apply ld_fuel0|lia|].
  intros m2 l1 c r k2 Hbo Hle Htop Hfr. pose proof (borrowed_bounds _ _ _ _ _ _ _ Hbo) as (Hhd & Hd1 & Hd2 & Hend & Hmap).
  destruct (Z.eqb_spec (end_of (heap_head k) l1 + 16) 0); [lia|]. wp_step.
  rewrite <- Hhs. eapply (read_file_ok k2 i h l content); rewrite ?Hhs; try done.
  - unfold k2. cbn [files g_fat32_volume_info set_disk]. by rewrite V1.
  - unfold k2. cbn [files open_file_handles set_disk]. rewrite O1. apply list_lookup_insert_eq. lia.
  - unfold k2. cbn [files g_fat32_volume_info set_disk]. rewrite V1.
    change (card_blocks (Kernel _ _)) with (card_blocks k1). by rewrite C1.
  - intros q ?. apply Hmap. lia.
  - apply ld_fuel0.
  - intros k3 h' (H3 & R3 & _ & _) W O3 Hfree. fold (file_image e content) in W.
    pose proof (file_image_length _ _ _ _ _ _ _ _ ld_file0) as Hlen.
    apply (HQ k3 _ l1 r c); try done.
    + exists h'. rewrite O3. unfold k2. cbn [files open_file_handles set_disk]. by rewrite O1, list_insert_insert_eq.
    + eapply borrowed_writes; [exact Hbo|exact W|lia].
    + apply W.
    + intros q Hq. destruct W as [_ W]. pose proof (W q ltac:(lia)) as E. unfold peek in E; cbn in E. unfold mem_peek in E.
      rewrite E. apply Hfr. done.
Qed.

Lemma load_file_ok k path cs long e name l content i bs :
  let img := file_image e content in
  loadable k path cs long e name l content i bs -> first_fit (ALIGN_4BYTE (le_at 4 e 28)) bs <> None ->
  elf_ok (heap_head k) (used_end (heap_head k) (le_at 4 e 28) bs) (memory k) img -> elf_valid img = true ->
  wp (loadELF path) (fun entry k' => entry = elf_entry img /\
    (forall q, q < heap_head k \/ used_end (heap_head k) (le_at 4 e 28) bs <= q ->
       memory k' !! q = image_at (segments img) q (memory k !! q)) /\
    heap_head k' = heap_head k /\ heap_at (memory k') (heap_head k) bs /\
    devices_ready k' /\ handle_taken i k k') k.
Proof.
  intros img Hl Hfit [Hlen Hph] Hval. unfold loadELF. eapply loadELF_read_ok; [exact Hl|done|].
  pose proof (file_image_length _ _ _ _ _ _ _ _ (ld_file _ _ _ _ _ _ _ _ _ _ Hl)) as Hil. fold img in Hil |- *.
  intros k' data l1 r c R1 H1 [h [Hh Hfree]] Hbo Hc Htop Himg Hout Hd. rewrite <- H1 in *.
  apply (load_image_ok k' data img bs l1 r c); rewrite ?Htop; try done.
  - by eapply file_image_bytes; [apply (ld_ready _ _ _ _ _ _ _ _ _ _ Hl)|apply (ld_file _ _ _ _ _ _ _ _ _ _ Hl)].
  - lia.
  - split; [done|]. intros j Hj. destruct (Hph j Hj) as (? & ? & Hld). split; [done|]. split; [done|]. intros Ht.
    destruct (Hld Ht) as (? & ? & Hdis & Hmap). split_and!; try done.
    intros q Hq. unfold peek; cbn. unfold mem_peek. rewrite Hout by lia. by apply Hmap.
  - intros k2 R2 H2 Hheap Himage O2. split; [done|]. split.
    + intros q Hq. rewrite Himage by done. by rewrite Hout.
    + split; [done|]. split; [done|]. split; [done|]. exists h. by rewrite O2.
Qed.

(** C5: loadELF of a file that holds a valid image: every PT_LOAD segment ends up
    at its address with its zeroed tail, in the order of the program headers,
    every other byte outside the used part of the heap keeps its value, the
    heap is as before, and the result is the entry point. A segment may lie in
    the free rest of the heap, where the linker scripts put the program. The
    file stays open. *)
Theorem loadELF_spec k path cs long e name l content i bs :
  let img := file_image e content in
  loadable k path cs long e name l content i bs -> first_fit (ALIGN_4BYTE (le_at 4 e 28)) bs <> None ->
  elf_ok (heap_head k) (used_end (heap_head k) (le_at 4 e 28) bs) (memory k) img -> elf_valid img = true ->
  wp (loadELF path) (fun entry k' => entry = elf_entry img /\
    (forall q, q < heap_head k \/ used_end (heap_head k) (le_at 4 e 28) bs <= q ->
       memory k' !! q = image_at (segments img) q (memory k !! q)) /\
    heap_head k' = heap_head k /\ heap_at (memory k') (heap_head k) bs /\
    devices_ready k' /\ handle_taken i k k') k.
Proof. apply load_file_ok. Qed.

(** C18: loadELF of a file that is no executable for this processor: the error code
    1 is returned where the entry point is expected, the buffer is never freed
    and the handle never closed. *)
Theorem loadELF_rejects k path cs long e name l content i bs :
  let img := file_image e content in
  loadable k path cs long e name l content i bs -> first_fit (ALIGN_4BYTE (le_at 4 e 28)) bs <> None ->
  0x2E <= Z.of_nat (length img) -> elf_valid img = false ->
  wp (loadELF path) (fun entry k' => entry = ELF_INVALID_EXECUTABLE /\ handle_taken i k k' /\
    exists data l1 r c, borrowed (memory k') (heap_head k') data bs l1 r c /\ le_at 4 e 28 <= bsize c /\
      peeks (memory k') data (length img) = Some img) k.
Proof.
  intros img Hl Hfit Hlen Hval. unfold loadELF. eapply loadELF_read_ok; [exact Hl|done|]. fold img.
  intros k' data l1 r c R1 H1 Hh Hbo Hc _ Himg Hout Hd. rewrite <- H1 in Hbo.
  wp_step. eapply on_ram_pure; [by apply (elf_header_ok_eq _ _ img)|]. rewrite Hval. cbn [negb]. wp_step.
  split; [done|]. split; [done|]. by exists data, l1, r, c.
Qed.

(** *** A file that is not there *)

Lemma search_fail_code content long name final p r code :
  search content long name final p r -> r = SFail code -> code <> FAT_SUCCESS.
Proof. induction 1; intros Hr; try done; try (injection Hr as <-; done). by apply IHsearch. Qed.

Lemma resolves_fail_code v B long f c cs r code : resolves v B long f c cs r -> r = SFail code -> code <> FAT_SUCCESS.
Proof. induction 1; intros Hr; [by auto|by eapply search_fail_code|by auto|]. by eapply search_fail_code; [|exact Hr]. Qed.

Lemma open_file_fails k path cs long code (Q : Z -> kernel D -> Prop) :
  let v := g_fat32_volume_info (files k) in
  devices_ready k -> volume_ok v -> stack_ok long (files k) -> path <> NULL ->
  peeks (memory k) (path + 1) (length (path_bytes cs)) = Some (path_bytes cs) ->
  Forall (Forall name_char) cs -> Forall (fun c => (length c < fuel)%nat) cs -> (length cs <= fuel)%nat ->
  resolves v (card_blocks k) long fuel (root_dir_cluster v) cs (SFail code) ->
  length (open_file_handles (files k)) = Z.to_nat MAX_OPEN_FILES ->
  (forall k', heap_head k' = heap_head k -> memory k' = memory k ->
     open_file_handles (files k') = open_file_handles (files k) -> Q 0xFFFFFFFF k') ->
  wp (open_file path 0) Q k.
Proof.
  clear enough_time enough_dma. intros v [Hr Hb] Hv Hst Hpath Hp Hch Hshort Hcs Hre Hl HQ. unfold open_file. do 2 wp_step. unfold on_files. wp_step.
  destruct (proj1 (wp_exact _ _ _) (get_file_ok (BL := laws (disk (files k))) ltac:(lia) (memory k) (files k) path cs long
    (Some fresh_info) _ Hv (conj Hr (spi_only_refl _)) Hst Hpath ltac:(done) Hp Hch Hshort Hcs Hre))
    as ([res file] & s1 & E & (([_ S1] & _ & _ & H1 & _) & P)).
  cbn in P. destruct P as [-> ->]. unfold wpg.
  rewrite (fat32_open_ok (memory k) (files k) path 0 code (Some fresh_info) s1 E) by (rewrite ?H1; done).
  pose proof (resolves_fail_code _ _ _ _ _ _ _ code Hre eq_refl) as Hc.
  destruct (Z.eqb_spec code FAT_SUCCESS); [done|]. apply HQ; [done| |done].
  unfold memory. cbn [files]. apply S1.
Qed.

(** The payload of an empty allocation that was split off is the header of the
    rest, and the first byte of that one's prev field is no ELF magic. *)
Lemma empty_payload m hd l1 b l2 :
  layout hd (l1 ++ place 0 b l2) -> 20 < bsize b -> prevs m 0 hd (l1 ++ place 0 b l2) ->
  exists v, peek m (end_of hd l1 + 16) = Some v /\ v <> 0x7F.
Proof.
  clear enough enough_polls enough_time enough_dma. intros Hl Hb Hp. unfold place in *. destruct (Z.ltb_spec (0 + 20) (bsize b)); [|lia].
  destruct (merge_head_head (Block (bsize b - 0 - 16) false) l2) as (r & b' & E & _). rewrite E in *.
  apply layout_app in Hl as [_ Hl]. apply layout_cons in Hl as (_ & Ha & _).
  apply prevs_app in Hp as [_ [_ [Hw _]]]. cbn [bsize] in Hw. rewrite Z.add_0_r in Hw.
  destruct Hw as (_ & _ & E'). pose proof (peeks_lookup _ _ _ _ 0 E' ltac:(lia)) as E0. rewrite Z.add_0_r in E0.
  eexists. split; [exact E0|]. cbn. dlia.
Qed.

(** C19: loadELF of a path that leads nowhere: the failure of fat32_open is not
    noticed; the loader allocates an empty buffer, finds in it the header of
    the free block behind, and returns the error code 1 as entry point. The
    empty allocation is never freed. *)
Theorem loadELF_missing k path cs long code bs l1 b l2 :
  let v := g_fat32_volume_info (files k) in
  devices_ready k -> volume_ok v -> stack_ok long (files k) -> path <> NULL ->
  peeks (memory k) (path + 1) (length (path_bytes cs)) = Some (path_bytes cs) ->
  Forall (Forall name_char) cs -> Forall (fun c => (length c < fuel)%nat) cs -> (length cs <= fuel)%nat ->
  resolves v (card_blocks k) long fuel (root_dir_cluster v) cs (SFail code) ->
  length (open_file_handles (files k)) = Z.to_nat MAX_OPEN_FILES ->
  heap_at (memory k) (heap_head k) bs -> prevs (memory k) 0 (heap_head k) bs -> (length bs <= fuel)%nat ->
  first_fit 0 bs = Some (l1, b, l2) -> 20 < bsize b -> prev_safe 0 bs ->
  wp (loadELF path) (fun entry k' => entry = ELF_INVALID_EXECUTABLE /\
    open_file_handles (files k') = open_file_handles (files k) /\
    heap_at (memory k') (heap_head k') (l1 ++ place 0 b l2)) k.
Proof.
  clear enough_time enough_dma. intros v Hr Hv Hst Hpath Hp Hch Hshort Hcs Hre Hl Hh Hpv Hf Hfit Hb Hsafe. unfold loadELF. wp_step.
  eapply open_file_fails; [exact Hr|done..|]. intros k1 H1 M1 O1. wp_step. unfold on_files at 1. wp_step.
  unfold fat32_get_size. change (MAX_OPEN_FILES <=? 0xFFFFFFFF) with true. cbv iota. do 2 wp_step.
  assert (Kernel (files k1) (heap_head k1) = k1) as -> by (by destruct k1).
  unfold on_heap at 1. wp_step.
  apply (malloc_ok 0 _ bs); [unfold heap_ok; cbn; change (ram _) with (memory k1); by rewrite M1, H1|done|].
  change (ALIGN_4BYTE 0) with 0. unfold abs_malloc. rewrite Hfit. cbn [fst snd mach head].
  intros [[m' d] hd'] H2 (U1 & U2 & U3) Hpv2 _ _. cbn [mach head ram dev] in *. subst d hd'.
  assert (0 < heap_head k) by apply Hh.
  assert (heap_head k <= end_of (heap_head k) l1) as Hge.
  { destruct Hh as (Hlay & _). apply first_fit_some in Hfit as (-> & _). apply layout_app in Hlay as [Hlay _]. by apply layout_end. }
  rewrite H1 in *. destruct (Z.eqb_spec (end_of (heap_head k) l1 + 16) 0); [lia|].
  assert (prevs m' 0 (heap_head k) (l1 ++ place 0 b l2)) as Hpv3.
  { apply Hpv2; [|done]. unfold prevs_ok. cbn [mach head]. change (ram (disk (files k1))) with (memory k1). by rewrite M1. }
  assert (heap_at m' (heap_head k) (l1 ++ place 0 b l2)) as Hh3 by exact H2.
  destruct (empty_payload m' _ l1 b l2 (proj1 Hh3) Hb Hpv3) as (x & Hx & Hx7).
  wp_step. unfold read_file, on_files at 1. do 4 wp_step. unfold fat32_read.
  change ((MAX_OPEN_FILES <=? 0xFFFFFFFF) || _) with true. cbv iota. wp_step. unfold on_board at 1, on_files at 1. wp_steps.
  unfold on_board at 1, on_files at 1, in_ram. do 3 wp_step. unfold elf_header_ok. wp_step.
  rewrite Z.add_0_r. eapply load8_ok; [exact Hx|]. destruct (Z.eqb_spec x 0x7F); [done|]. cbn [negb]. wp_steps. cbn [negb]. wp_step.
  split; [done|]. split; [done|]. exact Hh3.
Qed.
End Correctness.
