(* ===== verification/SimKernel.v ===== *)
(** * The kernel on a simulated board

    The simulated board of SimBoard.v with the simulated card of SimCard.v,
    which stores the volume of SimDisk.v with a small executable as
    /BIN/INIT.ELF: the loader's theorems instantiated. *)
From S2P Require Import Prelude Bytes Hexutils Cstring SimDisk Board SimBoard Unistd Spi Dma Heap Block SD SimCard FAT32.
From S2P Require Import FatVolume FatFile FatDir FatPath Elf Kernel.

#[local] Instance kernel_fuel : Fuel := sim_fuel.

(** One PT_LOAD segment: eight bytes at 0x1900, followed by eight zeroes; the
    entry point is 0x1901. *)
Definition elf_file : list Z :=
  [0x7F; 0x45; 0x4C; 0x46; 1; 1; 1; 0; 0; 0; 0; 0; 0; 0; 0; 0;
   2; 0; 0x28; 0; 1; 0; 0; 0; 1; 0x19; 0; 0; 0x34; 0; 0; 0;
   0; 0; 0; 0; 0; 0; 0; 0; 0x34; 0; 0x20; 0; 1; 0; 0; 0;
   0; 0; 0; 0; 1; 0; 0; 0; 0x60; 0; 0; 0; 0; 0x19; 0; 0;
   0; 0x19; 0; 0; 8; 0; 0; 0; 16; 0; 0; 0; 5; 0; 0; 0;
   4; 0; 0; 0; 0; 0; 0; 0; 0; 0; 0; 0; 0; 0; 0; 0;
   1; 2; 3; 4; 5; 6; 7; 8].

Definition elf_block : list Z := patch 0 elf_file zero_block.

(** The volume with [file] as the first cluster of INIT.ELF. *)
Definition volume_with (file : list Z) : table :=
  [(0, mbr_block); (1, bpb_block); (2, fat_block); (3, root_block); (4, file);
   (5, bin_block); (6, data_block 7)].

Section Volume.
Context (file : list Z) (file_ok : table_ok (volume_with file) = true).

Definition card_image : CardImage :=
  {| image_block := SimDisk.block (volume_with file); image_block_ok := fun a data => table_block _ a data file_ok |}.
End Volume.

Lemma elf_volume_ok : table_ok (volume_with elf_block) = true.
Proof. vm_compute. reflexivity. Qed.
Lemma data_volume_ok : table_ok (volume_with (data_block 3)) = true.
Proof. vm_compute. reflexivity. Qed.

(** Memory [[0x1000, 0x2000)]: a heap of one free block up to 0x1800, and the
    path at 0x1800. *)
Definition kernel_path (cs : list (list Z)) : list Z := 47 :: path_bytes cs.
Definition init_cs : list (list Z) := [[66; 73; 78]; [73; 78; 73; 84; 46; 69; 76; 70]].
Definition none_cs : list (list Z) := [[66; 73; 78]; [78; 79; 78; 69]].

Definition kernel_byte (path : list Z) (p : Z) : Z :=
  if p =? 0x1008 then 0xF0 else if p =? 0x1009 then 0x07 else
  if (0x1800 <=? p) && (p <? 0x1800 + Z.of_nat (length path)) then path !!! Z.to_nat (p - 0x1800) else 0.
Definition kernel_memory (path : list Z) : mem := mem_of 0x1000 0x1000 (kernel_byte path).

Lemma kernel_peeks path p k l : 0x1000 <= p -> p + Z.of_nat k <= 0x2000 ->
  (fun i => kernel_byte path (p + Z.of_nat i)) <$> seq 0 k = l -> peeks (kernel_memory path) p k = Some l.
Proof. intros Ha Hb <-. unfold kernel_memory. rewrite mem_of_peeks by lia. reflexivity. Qed.

Lemma kernel_word path p v : 0x1000 <= p -> p + 4 <= 0x2000 -> p mod 4 = 0 -> is_u32 v ->
  (fun i => kernel_byte path (p + Z.of_nat i)) <$> seq 0 4 = le_split 4 v -> word_at (kernel_memory path) p v.
Proof. intros. unfold kernel_memory. apply mem_of_word; (assumption || lia). Qed.

Lemma kernel_lookup path p v : 0x1000 <= p < 0x2000 -> kernel_byte path p = v -> kernel_memory path !! p = Some v.
Proof. intros Hp <-. unfold kernel_memory. rewrite mem_of_lookup by lia. reflexivity. Qed.

Definition ready_board (m : mem) : machine (sim sim_card) :=
  Machine m (Sim (Io idle_line (SimCard Transfer [] []) 7 2 8 [] [] 0 0
    (fun _ => DmaChannel 0 0 0 0 false))).

Definition kernel_state (path : list Z) : kernel (sim sim_card) :=
  Kernel {| disk := ready_board (kernel_memory path);
            g_fat32_volume_info := boot_volume 1 10 bpb_block;
            open_file_handles := replicate 16 (set_free true blank_handle);
            mbr_buffer := replicate 66 0; bpb_data := replicate 41 0;
            stack := fun _ => {| lfn_parts_found := 0; lfn_buffer := replicate 800 0 |} |} 0x1000.

Definition kernel_blocks : list Heap.block := [Block 2032 false].

Lemma kernel_mapped path a b : 0x1000 <= a -> b <= 0x2000 -> mapped (kernel_memory path) a b.
Proof. intros Ha Hb. unfold kernel_memory. apply mem_of_mapped; lia. Qed.

(** The fuel covers the delays of the board. *)
Section Board.
Context `{CardImage}.

Lemma kernel_spi : (spi_latency (sim sim_card) sim_card < fuel)%nat.
Proof. apply Nat.ltb_lt. vm_compute. reflexivity. Qed.
Lemma kernel_polls : 65536 < Z.of_nat fuel.
Proof. exact sim_card_polls. Qed.
Lemma kernel_usleep : (usleep_fuel (D := sim sim_card) (C := sim_card) 1000 < fuel)%nat.
Proof. apply Nat.ltb_lt. vm_compute. reflexivity. Qed.
Lemma kernel_dma : (dma_latency (sim sim_card) sim_card < fuel)%nat.
Proof. apply Nat.ltb_lt. vm_compute. reflexivity. Qed.

Lemma kernel_ready path : devices_ready (kernel_state path).
Proof. split; [|done]. split; [by split|]. split; done. Qed.
End Board.

Ltac demo_word := apply kernel_word; [vm_compute; congruence|vm_compute; congruence|reflexivity
  |split; vm_compute; congruence|vm_compute; reflexivity].

Lemma kernel_heap cs : cs = init_cs \/ cs = none_cs ->
  heap_at (kernel_memory (kernel_path cs)) 0x1000 kernel_blocks /\
  prevs (kernel_memory (kernel_path cs)) 0 0x1000 kernel_blocks.
Proof.
  intros Hcs. assert (seg (kernel_memory (kernel_path cs)) 0x1000 kernel_blocks 0 /\
    prevs (kernel_memory (kernel_path cs)) 0 0x1000 kernel_blocks) as [Hs Hp].
  { destruct Hcs as [-> | ->]; (split; [split; [|done]|split; [demo_word|done]]);
      (split; [exists 0; demo_word|split; [demo_word|split; [demo_word|apply kernel_lookup; [split; vm_compute; congruence|vm_compute; reflexivity]]]]). }
  split; [|done]. split; [|split; [done|split; [done|]]].
  - split; [done|]. split; [done|]. split; [by constructor|vm_compute; reflexivity].
  - apply kernel_mapped; [done|vm_compute; congruence].
Qed.

(** *** /BIN/INIT.ELF on the card *)

Definition init_entry : list Z := sfn_entry name_init 0x20 3 0xBC 2 0.
Definition init_name : list Z := [73; 78; 73; 84; 46; 69; 76; 70].

Ltac chars := repeat (apply Forall_cons; split; [vm_compute; done|]); done.
Ltac short := repeat (apply Forall_cons; split; [apply Nat.ltb_lt; vm_compute; done|]); done.

Lemma init_chars : Forall (Forall name_char) init_cs.
Proof. repeat (apply Forall_cons; split; [chars|]); done. Qed.
Lemma none_chars : Forall (Forall name_char) none_cs.
Proof. repeat (apply Forall_cons; split; [chars|]); done. Qed.
Lemma init_short : Forall (fun c => (length c < sim_fuel)%nat) init_cs /\ (length init_cs <= sim_fuel)%nat.
Proof. split; [short|apply Nat.leb_le; vm_compute; done]. Qed.
Lemma none_short : Forall (fun c => (length c < sim_fuel)%nat) none_cs /\ (length none_cs <= sim_fuel)%nat.
Proof. split; [short|apply Nat.leb_le; vm_compute; done]. Qed.

Lemma search_bin : search root_block true [66; 73; 78] false 0 (SDir (take 32 (drop 64 root_block))).
Proof.
  eapply se_dir; [|chars|done|vm_compute; done].
  apply ni_label; [vm_compute; done..|]. apply ni_deleted; [vm_compute; done..|].
  apply (ni_short root_block true 2); vm_compute; done.
Qed.

Lemma init_first : next_item bin_block true 0 (Found init_entry init_name) 1.
Proof. apply (ni_short bin_block true 0); vm_compute; done. Qed.
Lemma init_second : next_item bin_block true 1 (Found (take 32 (drop 32 bin_block)) [72; 85; 71; 69; 46; 66; 73; 78]) 2.
Proof. apply (ni_short bin_block true 1); vm_compute; done. Qed.

Lemma search_init : search bin_block true init_name true 0 (SFile init_entry init_name).
Proof. eapply se_file; [exact init_first|chars|done|vm_compute; done]. Qed.
Lemma search_none : search bin_block true [78; 79; 78; 69] true 0 (SFail FAT_ERROR_FILE_NOT_FOUND).
Proof.
  eapply se_next; [exact init_first|chars|left; vm_compute; done|].
  eapply se_next; [exact init_second|chars|left; vm_compute; done|].
  eapply se_none. apply (ni_end bin_block true 2); vm_compute; done.
Qed.

Lemma kernel_stack path : stack_ok true (files (kernel_state path)).
Proof. intros n. split; [reflexivity|]. apply list_mapped; vm_compute; congruence. Qed.

Lemma kernel_path_peeks cs : cs = init_cs \/ cs = none_cs ->
  peeks (kernel_memory (kernel_path cs)) (0x1800 + 1) (length (path_bytes cs)) = Some (path_bytes cs).
Proof.
  intros [-> | ->]; (apply kernel_peeks; [vm_compute; congruence|vm_compute; congruence|vm_compute; reflexivity]).
Qed.

Lemma init_volume_path :
  volume_ok (boot_volume 1 10 bpb_block) /\
  peeks (kernel_memory (kernel_path init_cs)) (0x1800 + 1) (length (path_bytes init_cs)) = Some (path_bytes init_cs).
Proof. split; [exact demo_volume|apply kernel_path_peeks; by left]. Qed.

Lemma init_size : 0 <= le_at 4 init_entry 28 <= 1024 /\ le_at 4 init_entry 28 < 2147483648 /\
  (Z.to_nat (le_at 4 init_entry 28) < sim_fuel)%nat /\ (length kernel_blocks <= sim_fuel)%nat.
Proof.
  split; [vm_compute; split; congruence|]. split; [vm_compute; reflexivity|].
  split; [apply Nat.ltb_lt|apply Nat.leb_le]; vm_compute; reflexivity.
Qed.

Lemma none_path :
  peeks (kernel_memory (kernel_path none_cs)) (0x1800 + 1) (length (path_bytes none_cs)) = Some (path_bytes none_cs).
Proof. apply kernel_path_peeks. by right. Qed.
Lemma kernel_blocks_fuel : (length kernel_blocks <= sim_fuel)%nat.
Proof. apply init_size. Qed.

Section Init.
Context (file : list Z) (file_ok : table_ok (volume_with file) = true).
#[local] Instance init_image : CardImage := card_image file file_ok.

Lemma init_directory c content :
  (c, content) = (2, root_block) \/ (c, content) = (4, bin_block) ->
  directory (boot_volume 1 10 bpb_block) (SimDisk.block (volume_with file)) c [c] content.
Proof.
  clear. intros [[= -> ->]|[= -> ->]]; (split; [apply chain_end; vm_compute; done|vm_compute; done]).
Qed.

Lemma init_descends cs r :
  (length cs <= 255)%nat -> search bin_block true cs true 0 r ->
  resolves (boot_volume 1 10 bpb_block) (SimDisk.block (volume_with file)) true sim_fuel 2 [[66; 73; 78]; cs] r.
Proof.
  clear. intros Hl Hr. rewrite <- (take_ge cs 255 Hl) in Hr. eapply (re_down _ _ _ _ 2 [2] root_block _ _ _ (take 32 (drop 64 root_block)));
    [apply init_directory; by left|vm_compute; done|done|exact search_bin|].
  apply (re_final _ _ _ _ _ [4] bin_block); [apply init_directory; by right|vm_compute; done|exact Hr].
Qed.

Lemma init_chain :
  chain (boot_volume 1 10 bpb_block) (SimDisk.block (volume_with file)) 3 [3; 5] /\
  chain_data (boot_volume 1 10 bpb_block) (SimDisk.block (volume_with file)) [3; 5] = Some (file ++ data_block 7).
Proof.
  clear. split.
  - eapply (chain_next _ _ 3 5); [vm_compute; done|vm_compute; done|]. apply chain_end; vm_compute; done.
  - vm_compute. reflexivity.
Qed.

Lemma init_file_named : length file = 512%nat ->
  names_file (kernel_state (kernel_path init_cs)) 0x1800 init_cs true init_entry init_name [3; 5] (file ++ data_block 7).
Proof.
  intros Hl. constructor.
  - exact (proj1 init_volume_path).
  - apply kernel_stack.
  - discriminate.
  - exact (proj2 init_volume_path).
  - exact init_chars.
  - exact init_short.
  - exact (init_descends init_name _ ltac:(cbn; lia) search_init).
  - exact (proj1 init_chain).
  - exact (proj2 init_chain).
  - rewrite length_app, Hl. destruct init_size as (H1 & H2 & _). split; [|exact H2].
    replace (length (data_block 7)) with 512%nat by (vm_compute; reflexivity). lia.
Qed.

Lemma init_loadable : length file = 512%nat ->
  loadable (kernel_state (kernel_path init_cs)) 0x1800 init_cs true init_entry init_name [3; 5] (file ++ data_block 7)
    0 kernel_blocks.
Proof.
  intros Hl. destruct (kernel_heap init_cs ltac:(by left)). constructor.
  - apply kernel_ready.
  - by apply init_file_named.
  - reflexivity.
  - reflexivity.
  - assumption.
  - assumption.
  - exact I.
  - destruct init_size as (_ & _ & H1 & H2). exact (conj H2 H1).
Qed.
End Init.

Definition init_state : kernel (sim sim_card) := kernel_state (kernel_path init_cs).
Definition none_state : kernel (sim sim_card) := kernel_state (kernel_path none_cs).

Section Witnesses.
#[local] Instance elf_image : CardImage := card_image elf_block elf_volume_ok.

Definition elf_img : list Z := file_image init_entry (elf_block ++ data_block 7).

Lemma elf_img_fits hi : hi <= 0x1900 -> elf_ok 0x1000 hi (kernel_memory (kernel_path init_cs)) elf_img.
Proof.
  intros Hhi. split; [vm_compute; congruence|]. intros i Hi. change (elf_phnum elf_img) with 1 in Hi. assert (i = 0) as -> by lia.
  split; [vm_compute; congruence|]. split; [vm_compute; congruence|]. intros _ vaddr filesz n.
  split; [vm_compute; congruence|]. split; [vm_compute; reflexivity|].
  split; [right; replace vaddr with 0x1900 by (vm_compute; reflexivity); exact Hhi|].
  apply kernel_mapped; vm_compute; congruence.
Qed.

Lemma elf_img_ok :
  elf_ok (heap_head init_state) (used_end (heap_head init_state) (le_at 4 init_entry 28) kernel_blocks) (memory init_state) elf_img.
Proof.
  change (heap_head init_state) with 0x1000. change (memory init_state) with (kernel_memory (kernel_path init_cs)).
  apply elf_img_fits. vm_compute. congruence.
Qed.

(** The segment is at 0x1900 and the entry point is returned. *)
Lemma loadELF_witness : exists k', loadELF 0x1800 init_state = Ok (0x1901, k') /\
  memory k' !! 0x1903 = Some 4 /\ memory k' !! 0x190A = Some 0.
Proof.
  destruct (proj1 (wp_exact _ _ _) (loadELF_spec kernel_spi kernel_polls kernel_usleep kernel_dma init_state 0x1800
    init_cs true init_entry init_name [3; 5] (elf_block ++ data_block 7) 0 kernel_blocks
    (init_loadable elf_block elf_volume_ok ltac:(vm_compute; reflexivity)) ltac:(vm_compute; congruence) elf_img_ok
    ltac:(vm_compute; reflexivity)))
    as (r & k' & E & -> & Him & _).
  exists k'. split; [exact E|]. split; rewrite Him by (right; vm_compute; congruence); vm_compute; reflexivity.
Defined.
End Witnesses.

Section RejectWitnesses.
#[local] Instance data_image : CardImage := card_image (data_block 3) data_volume_ok.

(** INIT.ELF holds something else. *)
Lemma loadELF_rejects_witness : exists k', loadELF 0x1800 init_state = Ok (1, k').
Proof.
  destruct (proj1 (wp_exact _ _ _) (loadELF_rejects kernel_spi kernel_polls kernel_usleep kernel_dma init_state 0x1800
    init_cs true init_entry init_name [3; 5] (data_block 3 ++ data_block 7) 0 kernel_blocks
    (init_loadable (data_block 3) data_volume_ok ltac:(vm_compute; reflexivity)) ltac:(vm_compute; congruence)
    ltac:(vm_compute; congruence) ltac:(vm_compute; reflexivity))) as (r & k' & E & -> & _).
  exists k'. exact E.
Defined.

(** There is no /BIN/NONE. *)
Lemma loadELF_missing_witness : exists k', loadELF 0x1800 none_state = Ok (1, k').
Proof.
  destruct (kernel_heap none_cs ltac:(by right)) as [Hh Hp].
  destruct (proj1 (wp_exact _ _ _) (loadELF_missing kernel_spi kernel_polls none_state 0x1800
    none_cs true FAT_ERROR_FILE_NOT_FOUND kernel_blocks [] (Block 2032 false) []
    (kernel_ready _) demo_volume (kernel_stack _) ltac:(discriminate) none_path none_chars (proj1 none_short) (proj2 none_short)
    (init_descends (data_block 3) [78; 79; 78; 69] _ ltac:(cbn; lia) search_none) eq_refl Hh Hp kernel_blocks_fuel eq_refl
    ltac:(cbn; lia) ltac:(right; exact I))) as (r & k' & E & -> & _).
  exists k'. exact E.
Defined.
End RejectWitnesses.
