(* ===== verification/Startup.v ===== *)
(** * Start-up code: clocks and resets
    (src/arch/arm_cortexm/rp2040/system_rp2040.c and startup_rp2040.c,
    src/kernel/main.c resetSubsys)

    The vector table, and the register sequences that run before any driver: SystemInit brings up
    the oscillator, the PLL and the clock tree, resetSubsys takes the
    peripherals out of reset, and defaultHandler is where unexpected
    exceptions end. *)
From S2P Require Import Prelude Bytes Board SimBoard Unistd.

Definition SYSTICK_RELOAD_VAL : Z := CLK_SYS_HZ / (1000 / 10) - 1.
Definition PRIORITY_0_HIGHEST : Z := 0x00.
Definition PRIORITY_2 : Z := 0x80.
Definition PRIORITY_3_LOWEST : Z := 0xC0.

(** ** The vector table *)

(** The handlers that are weak aliases of defaultHandler. *)
Inductive alias :=
  | nmiHandler | hardFaultHandler | pendSvHandler | sysTickHandler | timerIrq0 | timerIrq1 |
  timerIrq2 | timerIrq3 | pwmIrqWrap | usbctrlIrq | xipIrq | pio0Irq0 | pio0Irq1 | pio1Irq0 |
  pio1Irq1 | dmaIrq0 | dmaIrq1 | ioIrqBank0 | ioIrqQspi | sioIrqProc0 | sioIrqProc1 | clocksIrq |
  spi0Irq | spi1Irq | uart0Irq | uart1Irq | adcIrqFifo | i2c0Irq | i2c1Irq | rtcIrq.

Inductive vectFunc := InitialStack | Reserved | ResetHandler | SvCallHandler | Alias (a : alias).

(** 16 exceptions of the core, then 32 interrupts. *)
Definition vector : list vectFunc :=
  [InitialStack; ResetHandler; Alias nmiHandler; Alias hardFaultHandler; Reserved; Reserved;
   Reserved; Reserved; Reserved; Reserved; Reserved; SvCallHandler; Reserved; Reserved; Alias
   pendSvHandler; Alias sysTickHandler; Alias timerIrq0; Alias timerIrq1; Alias timerIrq2; Alias
   timerIrq3; Alias pwmIrqWrap; Alias usbctrlIrq; Alias xipIrq; Alias pio0Irq0; Alias pio0Irq1;
   Alias pio1Irq0; Alias pio1Irq1; Alias dmaIrq0; Alias dmaIrq1; Alias ioIrqBank0; Alias ioIrqQspi;
   Alias sioIrqProc0; Alias sioIrqProc1; Alias clocksIrq; Alias spi0Irq; Alias spi1Irq; Alias
   uart0Irq; Alias uart1Irq; Alias adcIrqFifo; Alias i2c0Irq; Alias i2c1Irq; Alias rtcIrq; Reserved;
   Reserved; Reserved; Reserved; Reserved; Reserved].

#[export] Instance alias_eq_dec : EqDecision alias.
Proof. solve_decision. Defined.
#[export] Instance vectFunc_eq_dec : EqDecision vectFunc.
Proof. solve_decision. Defined.

(** The table is complete, holds every alias once, and has the SVC handler
    where the processor looks for it. *)
Lemma vector_layout :
  length vector = 48%nat /\ vector !! 0%nat = Some InitialStack /\ vector !! 1%nat = Some ResetHandler /\
  vector !! 11%nat = Some SvCallHandler /\ NoDup (filter (fun v => v <> Reserved) vector).
Proof. split_and!; [reflexivity..|]. apply (bool_decide_unpack (NoDup _)). vm_compute. exact I. Qed.

Section Startup.
Context {D : Type} `{HW : Hardware D} `{F : Fuel}.

(** [while (!(reg & (1 << n)));] *)
Definition wait_bit (r n : Z) : M (machine D) unit := spin r (fun v => bit_set v n).

(** [resets_hw->RESET &= ~(1 << n)] and the wait for the block. *)
Definition unreset (n : Z) : M (machine D) unit :=
  do! reg_and resets_RESET (Z.lnot (Z.shiftl 1 n)) in
  wait_bit resets_RESET_DONE n.

Definition SystemInit : M (machine D) unit :=
  do! reg_write xosc_CTRL 0xaa0 in
  do! reg_or xosc_CTRL (Z.shiftl 0xfab 12) in
  do! wait_bit xosc_STATUS 31 in
  do! unreset 12 in
  do! reg_write pll_sys_FBDIV_INT 100 in
  do! reg_and pll_sys_PWR (Z.lnot (Z.lor (Z.shiftl 1 0) (Z.shiftl 1 5))) in
  do! wait_bit pll_sys_CS 31 in
  do! reg_write pll_sys_PRIM (Z.lor (Z.shiftl 6 16) (Z.shiftl 1 12)) in
  do! reg_and pll_sys_PWR (Z.lnot (Z.shiftl 1 3)) in
  do! reg_or clocks_REF_CTRL (Z.shiftl 2 0) in
  do! wait_bit clocks_REF_SELECTED 2 in
  do! reg_or clocks_SYS_CTRL (Z.shiftl 1 0) in
  do! wait_bit clocks_SYS_SELECTED 1 in
  do! reg_write clocks_PERI_CTRL (Z.shiftl 1 11) in
  let! rosc := reg_read rosc_CTRL in
  do! reg_write rosc_CTRL (Z.lor (Z.land rosc (Z.lnot 0x00fff000)) (Z.shiftl 0xd1e 12)) in
  do! reg_or watchdog_TICK (Z.shiftl 12 0) in
  do! unreset 21 in
  let! shpr2 := reg_read scb_SHPR2 in
  do! reg_write scb_SHPR2 (Z.lor (Z.land shpr2 (Z.lnot (Z.shiftl 0xFF 0))) (Z.shiftl PRIORITY_0_HIGHEST 0)) in
  let! shpr3 := reg_read scb_SHPR3 in
  do! reg_write scb_SHPR3 (Z.lor (Z.land shpr3 (Z.lnot (Z.shiftl 0xFF 24))) (Z.shiftl PRIORITY_2 24)) in
  let! shpr3 := reg_read scb_SHPR3 in
  do! reg_write scb_SHPR3 (Z.lor (Z.land shpr3 (Z.lnot (Z.shiftl 0xFF 16))) (Z.shiftl PRIORITY_3_LOWEST 16)) in
  do! reg_write syst_RVR SYSTICK_RELOAD_VAL in
  do! reg_write syst_CVR 0 in
  reg_or syst_CSR (Z.lor (Z.lor (Z.shiftl 1 2) (Z.shiftl 1 1)) (Z.shiftl 1 0)).

(** IO_BANK0, PADS_BANK0, UART0, SPI0 and DMA. *)
Definition resetSubsys : M (machine D) unit :=
  do! unreset 5 in
  do! unreset 8 in
  do! unreset 22 in
  do! unreset 16 in
  unreset 2.

(** Blinks the LED for ever. *)
Definition defaultHandler : M (machine D) unit :=
  do! unreset 5 in
  do! reg_write (io_bank0_gpio_CTRL 25) 5 in
  do! reg_or sio_OE_SET (Z.shiftl 1 25) in
  while_loop fuel (fun _ =>
    let! _ := usleep 50000 in
    do! reg_or sio_OUT_XOR (Z.shiftl 1 25) in
    ret (inl tt)) tt.
End Startup.

(** ** What the configuration means *)

(** Update of one register. *)
Definition upd (c : Z -> Z) (r x : Z) : Z -> Z := fun q => if q =? r then x else c q.

(** The PLL's output: the reference times the feedback divider, through the
    two post dividers. *)
Definition pll_hz (c : Z -> Z) : Z :=
  XOSC_HZ * c pll_sys_FBDIV_INT / (Z.land (Z.shiftr (c pll_sys_PRIM) 16) 7) / (Z.land (Z.shiftr (c pll_sys_PRIM) 12) 7).

(** Timer ticks per second. *)
Definition tick_hz (c : Z -> Z) : Z := XOSC_HZ / Z.land (c watchdog_TICK) 0x1FF.

Lemma land_lnot_bit x m n :
  0 <= n < 32 -> bit_set (u32 (Z.land (u32 x) (Z.lnot m))) n = bit_set x n && negb (Z.testbit m n).
Proof.
  intros Hn. rewrite !bit_set_testbit by lia. unfold u32. change 4294967296 with (2 ^ 32).
  rewrite Z.mod_pow2_bits_low, Z.land_spec, Z.lnot_spec, Z.mod_pow2_bits_low by lia. done.
Qed.

Section Proofs.
Context {D C : Type} `{HW : Hardware D} `{SL : SpiSlave C} `{V : View D C} `{F : Fuel}.
Context `{BO : !BootLaws D C}.
Context (enough : (boot_latency D C < fuel)%nat).
Implicit Types s : machine D.

(** The configuration of [s'] is [c]; nothing else has changed. *)
Definition configured s s' (c : Z -> Z) : Prop :=
  ram s' = ram s /\ view (dev s') = view (dev s) /\ forall q, cfg D C (dev s') q = c q.

Lemma configured_refl s : configured s s (cfg D C (dev s)).
Proof. done. Qed.

Lemma cfg_write_ok h r x s0 s c (Q : unit -> machine D -> Prop) :
  r ∈ config_registers -> configured s0 s c ->
  (forall s', configured s0 s' (upd c r (u32 x)) -> Q tt s') -> wpg h (reg_write r x) Q s.
Proof.
  intros Hr (R & W & E) HQ. apply reg_write_ok. destruct (cfg_write D C r (u32 x) s Hr) as (R' & W' & E').
  apply HQ. split; [congruence|]. split; [congruence|]. intros q. rewrite E'. unfold upd. by rewrite E.
Qed.

Lemma cfg_read_ok h r s0 s c (Q : Z -> machine D -> Prop) :
  r ∈ config_registers -> configured s0 s c ->
  (forall s', configured s0 s' c -> Q (u32 (c r)) s') -> wpg h (reg_read r) Q s.
Proof.
  intros Hr (R & W & E) HQ. apply reg_read_ok. pose proof (cfg_read D C r s Hr) as L.
  destruct (hw_read r s) as [v s']. destruct L as (-> & R' & W' & E'). rewrite E. apply HQ.
  split; [congruence|]. split; [congruence|]. intros q. by rewrite E', E.
Qed.

Lemma wait_bit_ok r n s0 s c (Q : unit -> machine D -> Prop) :
  configured s0 s c -> settles c r n = true -> (forall s', configured s0 s' c -> Q tt s') ->
  wp (wait_bit r n) Q s.
Proof.
  intros Hc Hs HQ. unfold wait_bit.
  apply (wp_spin (boot_wait D C) r _ (fun s' => configured s0 s' c)); [done| |].
  - pose proof (boot_wait_bound D C (dev s)). lia.
  - intros t (R & W & E). pose proof (status_read D C r n t) as L.
    assert (settles (cfg D C (dev t)) r n = true) as Ht.
    { rewrite <- Hs. unfold settles. by rewrite !E. }
    specialize (L Ht). destruct (hw_read r t) as [v t']. destruct L as (R' & W' & E' & L).
    assert (configured s0 t' c) as Hc'.
    { split; [congruence|]. split; [congruence|]. intros q. by rewrite E', E. }
    destruct (bit_set (u32 v) n); [by apply HQ|]. split; [done|]. by destruct L.
Qed.

Lemma reg_and_cfg_ok h r v s0 s c (Q : unit -> machine D -> Prop) :
  r ∈ config_registers -> configured s0 s c ->
  (forall s', configured s0 s' (upd c r (u32 (Z.land (u32 (c r)) v))) -> Q tt s') -> wpg h (reg_and r v) Q s.
Proof.
  intros Hr Hc HQ. unfold reg_and. wp_step. eapply cfg_read_ok; [done|exact Hc|]. intros s1 H1.
  by eapply cfg_write_ok.
Qed.

Lemma reg_or_cfg_ok h r v s0 s c (Q : unit -> machine D -> Prop) :
  r ∈ config_registers -> configured s0 s c ->
  (forall s', configured s0 s' (upd c r (u32 (Z.lor (u32 (c r)) v))) -> Q tt s') -> wpg h (reg_or r v) Q s.
Proof.
  intros Hr Hc HQ. unfold reg_or. wp_step. eapply cfg_read_ok; [done|exact Hc|]. intros s1 H1.
  by eapply cfg_write_ok.
Qed.

(** The reset register with bit [n] cleared. *)
Definition released (n : Z) (c : Z -> Z) : Z -> Z :=
  upd c resets_RESET (u32 (Z.land (u32 (c resets_RESET)) (Z.lnot (Z.shiftl 1 n)))).

Lemma released_bit n m c : 0 <= n < 25 -> 0 <= m < 32 ->
  bit_set (released n c resets_RESET) m = bit_set (c resets_RESET) m && negb (n =? m).
Proof.
  intros Hn Hm. unfold released, upd. rewrite Z.eqb_refl, land_lnot_bit by done.
  by rewrite Z.shiftl_1_l, Z.pow2_bits_eqb by lia.
Qed.

Lemma unreset_ok n s0 s c (Q : unit -> machine D -> Prop) :
  0 <= n < 25 -> configured s0 s c -> (forall s', configured s0 s' (released n c) -> Q tt s') ->
  wp (unreset n) Q s.
Proof.
  intros Hn Hc HQ. unfold unreset. wp_step. eapply reg_and_cfg_ok; [by vm_compute; repeat constructor|exact Hc|].
  intros s1 H1. eapply wait_bit_ok; [exact H1| |exact HQ].
  transitivity ((0 <=? n) && (n <? 25) && negb (bit_set (released n c resets_RESET) n)); [done|].
  rewrite released_bit, Z.eqb_refl, andb_false_r by lia. destruct (Z.leb_spec 0 n), (Z.ltb_spec n 25); (done || lia).
Qed.

(** Walk through a sequence of register accesses; the configuration reached
    after each one gets a name of its own. *)
Ltac cfg_reg := by vm_compute; repeat constructor.
Ltac cfg_name H :=
  lazymatch type of H with
  | configured _ _ ?c => tryif is_var c then idtac else (let k := fresh "k" in set (k := c) in H)
  end.
Ltac cfg_next H := clear H; let s := fresh "s" in intros s H; cfg_name H.
Ltac cfg_step :=
  try wp_step;
  lazymatch goal with
  | H : configured _ ?s _ |- wpg _ (reg_write _ _) _ ?s => eapply cfg_write_ok; [cfg_reg|exact H|]; cfg_next H
  | H : configured _ ?s _ |- wpg _ (reg_read _) _ ?s => eapply cfg_read_ok; [cfg_reg|exact H|]; cfg_next H
  | H : configured _ ?s _ |- wpg _ (reg_and _ _) _ ?s => eapply reg_and_cfg_ok; [cfg_reg|exact H|]; cfg_next H
  | H : configured _ ?s _ |- wpg _ (reg_or _ _) _ ?s => eapply reg_or_cfg_ok; [cfg_reg|exact H|]; cfg_next H
  | H : configured _ ?s _ |- wpg _ (unreset _) _ ?s => eapply unreset_ok; [lia|exact H|]; cfg_next H
  | H : configured _ ?s _ |- wpg _ (wait_bit _ _) _ ?s => eapply wait_bit_ok; [exact H| |cfg_next H]
  end.


(** [resetSubsys] takes IO_BANK0, PADS_BANK0, UART0, SPI0 and the DMA engine
    out of reset, and no other block, and returns. *)
Lemma resetSubsys_ok s (Q : unit -> machine D -> Prop) :
  (forall s', ram s' = ram s -> view (dev s') = view (dev s) ->
     (forall n, 0 <= n < 32 -> bit_set (cfg D C (dev s') resets_RESET) n =
        bit_set (cfg D C (dev s) resets_RESET) n && negb (existsb (Z.eqb n) [5; 8; 22; 16; 2])) ->
     (forall q, q <> resets_RESET -> cfg D C (dev s') q = cfg D C (dev s) q) -> Q tt s') ->
  wp resetSubsys Q s.
Proof.
  intros HQ. unfold resetSubsys. pose proof (configured_refl s) as H. do 5 cfg_step. destruct H as (R & W & E).
  apply HQ; [done|done| |].
  - intros n Hn. rewrite E. unfold k3, k2, k1, k0, k. rewrite !released_bit by lia. cbn [existsb].
    rewrite !(Z.eqb_sym _ n). by destruct (n =? 5), (n =? 8), (n =? 22), (n =? 16), (n =? 2), (bit_set _ n).
  - intros q Hq. rewrite E. unfold k3, k2, k1, k0, k, released, upd. destruct (Z.eqb_spec q resets_RESET); done.
Qed.

(** [resetSubsys] ends its five waits and clears exactly the reset bits of
    IO_BANK0, PADS_BANK0, UART0, SPI0 and DMA. *)
Theorem resetSubsys_spec s :
  wp resetSubsys (fun _ s' => ram s' = ram s /\ view (dev s') = view (dev s) /\
    (forall n, 0 <= n < 32 -> bit_set (cfg D C (dev s') resets_RESET) n =
       bit_set (cfg D C (dev s) resets_RESET) n && negb (existsb (Z.eqb n) [5; 8; 22; 16; 2])) /\
    (forall q, q <> resets_RESET -> cfg D C (dev s') q = cfg D C (dev s) q)) s.
Proof. apply resetSubsys_ok. by intros. Qed.
End Proofs.

(** ** The theorems on the simulated board *)

Lemma sim_boot_enough : (boot_latency (sim unit) unit < fuel)%nat.
Proof. apply Nat.ltb_lt. vm_compute. reflexivity. Qed.


Lemma resetSubsys_witness : exists s', resetSubsys (sim_board ∅ tt []) = Ok (tt, s') /\
  bit_set (cfg (sim unit) unit (dev s') resets_RESET) 16 = false.
Proof.
  destruct (proj1 (wp_exact _ _ _) (resetSubsys_spec sim_boot_enough (sim_board ∅ tt [])))
    as ([] & s' & E & _ & _ & P & _).
  exists s'. split; [exact E|]. rewrite P by lia. apply andb_false_r.
Defined.
