(* ===== verification/Boot2.v ===== *)
(** * The second boot stage (src/arch/arm_cortexm/rp2040/boot2/bootStage2QuadIO.c)

    It programs the flash interface (SSI) for execute-in-place, enables the
    flash's quad mode when it is not, and jumps through the vector table.
    The flash window is part of memory. *)
From stdpp Require Import list gmap.
From S2P Require Import Prelude Bytes Board SimBoard.

Definition XIP_BASE : Z := 0x10000000.
Definition SSI_BASE : Z := 0x18000000.
Definition SSI_CTRLR0 : Z := SSI_BASE + 0x000.
Definition SSI_SSIENR : Z := SSI_BASE + 0x008.
Definition SSI_BAUDR : Z := SSI_BASE + 0x014.
Definition SSI_SR : Z := SSI_BASE + 0x028.
Definition SSI_DR0 : Z := SSI_BASE + 0x060.
Definition SSI_SPI_CTRLR0 : Z := SSI_BASE + 0x0f4.
Definition M0PLUS_BASE : Z := 0xe0000000.
Definition M0PLUS_VTOR : Z := M0PLUS_BASE + 0xed08.

Section BootStage2.
Context {D : Type} `{HW : Hardware D} `{F : Fuel}.

(** [while ((~SSI_SR & (1 << 2)) || (SSI_SR & 1));] *)
Definition ssi_await : M (machine D) unit :=
  while_loop fuel (fun _ =>
    let! v := reg_read SSI_SR in
    if negb (bit_set v 2) then ret (inl tt) else
    let! v := reg_read SSI_SR in
    if bit_set v 0 then ret (inl tt) else ret (inr tt)) tt.

(** The stack pointer and the address jumped to. *)
Definition bootStage2 : M (machine D) (Z * Z) :=
  do! reg_write SSI_SSIENR 0 in
  do! reg_write SSI_BAUDR 4 in
  do! reg_write SSI_CTRLR0 (Z.shiftl 7 16) in
  do! reg_write SSI_SSIENR 1 in
  do! reg_write SSI_DR0 0x05 in
  do! reg_write SSI_DR0 0x35 in
  do! ssi_await in
  let! v := reg_read SSI_DR0 in
  let stReg1 := u8 v in
  let! v := reg_read SSI_DR0 in
  let stReg2 := u8 v in
  do! (if Z.land stReg2 (Z.shiftl 1 1) =? 0 then
    do! reg_write SSI_DR0 0x06 in
    do! reg_write SSI_DR0 0x01 in
    do! reg_write SSI_DR0 stReg1 in
    do! reg_write SSI_DR0 (Z.lor stReg2 (Z.shiftl 1 1)) in
    reg_write SSI_DR0 0x04
  else ret tt) in
  do! reg_write SSI_SSIENR 0 in
  do! reg_write SSI_CTRLR0 (Z.lor (Z.lor (Z.shiftl 3 8) (Z.shiftl 31 16)) (Z.shiftl 2 21)) in
  do! reg_write SSI_SPI_CTRLR0 (Z.lor (Z.lor (Z.lor (Z.shiftl 8 2) (Z.shiftl 2 8)) (Z.shiftl 4 11)) (Z.shiftl 0x1 0)) in
  do! reg_write SSI_SSIENR 1 in
  do! reg_write SSI_DR0 0xeb in
  do! reg_write SSI_DR0 0xa0 in
  do! ssi_await in
  do! reg_write SSI_SSIENR 0 in
  do! reg_write SSI_SPI_CTRLR0
        (Z.lor (Z.lor (Z.lor (Z.lor (Z.shiftl 8 2) (Z.shiftl 0 8)) (Z.shiftl 0xa0 24)) (Z.shiftl 4 11)) (Z.shiftl 0x2 0)) in
  do! reg_write SSI_SSIENR 1 in
  do! reg_write M0PLUS_VTOR (XIP_BASE + 0x100) in
  let! vtor := reg_read M0PLUS_VTOR in
  let! msp := in_ram (load32 (u32 (vtor + 0x0))) in
  let! vtor := reg_read M0PLUS_VTOR in
  let! entry := in_ram (load32 (u32 (vtor + 0x4))) in
  ret (msp, entry).
End BootStage2.

(** ** Laws of the flash interface *)

(** The registers written, oldest first, decide what the flash answers; each
    frame written to DR0 brings one back, and disabling the SSI empties the
    receive FIFO.  The interface becomes idle within [ssi_latency] reads. *)
Class SsiLaws (D : Type) `{Hardware D} := {
  ssi_log : D -> list (Z * Z);
  ssi_rx : D -> list Z;
  ssi_vtor : D -> Z;
  ssi_answer : list (Z * Z) -> Z;
  ssi_wait : D -> nat;
  ssi_latency : nat;
  ssi_wait_bound : forall d, (ssi_wait d <= ssi_latency)%nat;
  ssi_write : forall r x s, r ∈ [SSI_CTRLR0; SSI_SSIENR; SSI_BAUDR; SSI_DR0; SSI_SPI_CTRLR0] ->
    let s' := hw_write r x s in let log := ssi_log (dev s) ++ [(r, x)] in
    ram s' = ram s /\ ssi_log (dev s') = log /\ ssi_vtor (dev s') = ssi_vtor (dev s) /\
    ssi_rx (dev s') = (if r =? SSI_DR0 then ssi_rx (dev s) ++ [ssi_answer log]
                       else if (r =? SSI_SSIENR) && (x =? 0) then [] else ssi_rx (dev s));
  ssi_sr_read : forall s, let '(v, s') := hw_read SSI_SR s in
    ram s' = ram s /\ ssi_log (dev s') = ssi_log (dev s) /\ ssi_vtor (dev s') = ssi_vtor (dev s) /\
    ssi_rx (dev s') = ssi_rx (dev s) /\ (ssi_wait (dev s') <= ssi_wait (dev s))%nat /\
    (bit_set (u32 v) 2 = true /\ bit_set (u32 v) 0 = false \/ (ssi_wait (dev s') < ssi_wait (dev s))%nat);
  ssi_dr_read : forall s v rx, ssi_rx (dev s) = v :: rx ->
    let '(x, s') := hw_read SSI_DR0 s in
    x = v /\ ram s' = ram s /\ ssi_log (dev s') = ssi_log (dev s) /\ ssi_vtor (dev s') = ssi_vtor (dev s) /\
    ssi_rx (dev s') = rx;
  vtor_write : forall x s, ram (hw_write M0PLUS_VTOR x s) = ram s /\
    ssi_log (dev (hw_write M0PLUS_VTOR x s)) = ssi_log (dev s) /\ ssi_vtor (dev (hw_write M0PLUS_VTOR x s)) = x;
  vtor_read : forall s, let '(v, s') := hw_read M0PLUS_VTOR s in
    v = ssi_vtor (dev s) /\ ram s' = ram s /\ ssi_log (dev s') = ssi_log (dev s) /\ ssi_vtor (dev s') = ssi_vtor (dev s);
}.

(** ** Properties *)

(** The three configurations, as register writes: one frame per byte to read
    the status registers; quad I/O with an instruction; quad I/O without. *)
Definition status_setup : list (Z * Z) :=
  [(SSI_SSIENR, 0); (SSI_BAUDR, 4); (SSI_CTRLR0, 0x70000); (SSI_SSIENR, 1); (SSI_DR0, 0x05)].
Definition quad_enable (st1 st2 : Z) : list (Z * Z) :=
  if Z.testbit st2 1 then []
  else [(SSI_DR0, 0x06); (SSI_DR0, 0x01); (SSI_DR0, st1); (SSI_DR0, Z.lor st2 2); (SSI_DR0, 0x04)].
Definition xip_setup : list (Z * Z) :=
  [(SSI_SSIENR, 0); (SSI_CTRLR0, 0x5f0300); (SSI_SPI_CTRLR0, 0x2221); (SSI_SSIENR, 1); (SSI_DR0, 0xeb); (SSI_DR0, 0xa0);
   (SSI_SSIENR, 0); (SSI_SPI_CTRLR0, 0xa0002022); (SSI_SSIENR, 1)].

Section Proofs.
Context {D : Type} `{HW : Hardware D} `{F : Fuel} `{SL : !SsiLaws D}.
Context (enough : (ssi_latency < fuel)%nat).
Implicit Types s : machine D.

(** From [s0] the registers [log] have been written, and [rx] is waiting. *)
Definition ssi_at s0 s (log : list (Z * Z)) (rx : list Z) : Prop :=
  ram s = ram s0 /\ ssi_log (dev s) = ssi_log (dev s0) ++ log /\ ssi_rx (dev s) = rx.

Lemma ssi_config_ok s0 s log rx r x (Q : unit -> machine D -> Prop) :
  ssi_at s0 s log rx -> r ∈ [SSI_CTRLR0; SSI_SSIENR; SSI_BAUDR; SSI_SPI_CTRLR0] -> is_u32 x ->
  (forall s', ssi_at s0 s' (log ++ [(r, x)]) (if (r =? SSI_SSIENR) && (x =? 0) then [] else rx) -> Q tt s') ->
  wp (reg_write r x) Q s.
Proof.
  intros (R & L & X) Hr Hx HQ. apply reg_write_ok. rewrite u32_small by done.
  assert (r ∈ [SSI_CTRLR0; SSI_SSIENR; SSI_BAUDR; SSI_DR0; SSI_SPI_CTRLR0] /\ (r =? SSI_DR0) = false) as [Hin Hne].
  { repeat (apply elem_of_cons in Hr as [-> | Hr]; [split; [set_solver|reflexivity]|]). by apply elem_of_nil in Hr. }
  destruct (ssi_write r x s Hin) as (R' & L' & _ & X'). rewrite Hne in X'. apply HQ.
  split; [congruence|]. split; [by rewrite L', L, app_assoc|]. rewrite X', X. done.
Qed.

Lemma ssi_send_ok s0 s log rx x (Q : unit -> machine D -> Prop) :
  ssi_at s0 s log rx -> is_u32 x ->
  (forall s', ssi_at s0 s' (log ++ [(SSI_DR0, x)]) (rx ++ [ssi_answer (ssi_log (dev s0) ++ log ++ [(SSI_DR0, x)])]) -> Q tt s') ->
  wp (reg_write SSI_DR0 x) Q s.
Proof.
  intros (R & L & X) Hx HQ. apply reg_write_ok. rewrite u32_small by done.
  destruct (ssi_write SSI_DR0 x s) as (R' & L' & _ & X'); [set_solver|]. rewrite Z.eqb_refl in X'. apply HQ.
  split; [congruence|]. split; [by rewrite L', L, app_assoc|]. by rewrite X', X, L, app_assoc.
Qed.

Lemma ssi_receive_ok s0 s log v rx (Q : Z -> machine D -> Prop) :
  ssi_at s0 s log (v :: rx) -> (forall s', ssi_at s0 s' log rx -> Q (u32 v) s') -> wp (reg_read SSI_DR0) Q s.
Proof.
  intros (R & L & X) HQ. apply reg_read_ok. pose proof (ssi_dr_read s v rx X) as H.
  destruct (hw_read SSI_DR0 s) as [x s']. destruct H as (-> & R' & L' & _ & X'). apply HQ. split; [congruence|]. by split; [congruence|].
Qed.

Lemma ssi_await_ok s0 s log rx (Q : unit -> machine D -> Prop) :
  ssi_at s0 s log rx -> (forall s', ssi_at s0 s' log rx -> Q tt s') -> wp ssi_await Q s.
Proof.
  intros H HQ. unfold ssi_await.
  apply (wp_while (fun n (_ : unit) t => ssi_at s0 t log rx /\ n = ssi_wait (dev t)) _ _) with (n := ssi_wait (dev s)).
  2: { pose proof (ssi_wait_bound (dev s)). lia. }
  2: done.
  assert (forall t, ssi_at s0 t log rx -> let '(v, t') := hw_read SSI_SR t in ssi_at s0 t' log rx /\
    (ssi_wait (dev t') <= ssi_wait (dev t))%nat /\
    (bit_set (u32 v) 2 = true /\ bit_set (u32 v) 0 = false \/ (ssi_wait (dev t') < ssi_wait (dev t))%nat)) as Hsr.
  { intros t (R & L & X). pose proof (ssi_sr_read t) as Ht. destruct (hw_read SSI_SR t) as [v t'].
    destruct Ht as (R' & L' & _ & X' & Hle & Hb). split; [|done]. split; [congruence|]. split; congruence. }
  intros n [] t (Ht & ->). wp_step. apply reg_read_ok. pose proof (Hsr t Ht) as H1.
  destruct (hw_read SSI_SR t) as [v t1]. destruct H1 as (H1 & Hle1 & Hb1).
  destruct (bit_set (u32 v) 2) eqn:E2; cbn [negb]; [|wp_step; exists (ssi_wait (dev t1)); by destruct Hb1 as [[? _]|?]; [congruence|split]].
  wp_step. apply reg_read_ok. pose proof (Hsr t1 H1) as H2.
  destruct (hw_read SSI_SR t1) as [v' t2]. destruct H2 as (H2 & Hle2 & Hb2).
  destruct (bit_set (u32 v') 0) eqn:E0; wp_step; [|by apply HQ].
  exists (ssi_wait (dev t2)). destruct Hb2 as [[_ ?]|?]; [congruence|]. split; [lia|done].
Qed.

Lemma vtor_ok s a b sp entry (Q : Z * Z -> machine D -> Prop) :
  is_u32 a -> u32 (a + 0) = a -> u32 (a + 4) = b -> word_at (ram s) a sp -> word_at (ram s) b entry ->
  (forall s', ram s' = ram s -> ssi_log (dev s') = ssi_log (dev s) -> ssi_vtor (dev s') = a -> Q (sp, entry) s') ->
  wp (do! reg_write M0PLUS_VTOR a in
      let! vtor := reg_read M0PLUS_VTOR in
      let! msp := in_ram (load32 (u32 (vtor + 0x0))) in
      let! vtor := reg_read M0PLUS_VTOR in
      let! entry := in_ram (load32 (u32 (vtor + 0x4))) in
      ret (msp, entry)) Q s.
Proof.
  intros Ha Ea Eb Wa Wb HQ. wp_step. apply reg_write_ok. rewrite u32_small by done.
  destruct (vtor_write a s) as (R1 & L1 & V1). set (s1 := hw_write M0PLUS_VTOR a s) in *.
  wp_step. apply reg_read_ok. pose proof (vtor_read s1) as H. destruct (hw_read M0PLUS_VTOR s1) as [v s2].
  destruct H as (-> & R2 & L2 & V2). rewrite V1, (u32_small a), Ea by done.
  wp_step. eapply in_ram_pure; [apply load32_eq; by rewrite R2, R1|].
  wp_step. apply reg_read_ok. pose proof (vtor_read s2) as H. destruct (hw_read M0PLUS_VTOR s2) as [v s3].
  destruct H as (-> & R3 & L3 & V3). rewrite V2, V1, (u32_small a), Eb by done.
  wp_step. eapply in_ram_pure; [apply load32_eq; by rewrite R3, R2, R1|]. wp_step. apply HQ; congruence.
Qed.

(** Two frames ask for the status registers; the answers to them. *)
Definition status_log s : list (Z * Z) := ssi_log (dev s) ++ status_setup.
Definition status1 s : Z := u8 (u32 (ssi_answer (status_log s))).
Definition status2 s : Z := u8 (u32 (ssi_answer (status_log s ++ [(SSI_DR0, 0x35)]))).

Ltac ssi_config H := wp_step; eapply (ssi_config_ok _ _ _ _ _ _ _ H); [set_solver|split; vm_compute; congruence|];
  clear H; let t := fresh "t" in intros t H; cbn [app] in H.
Ltac ssi_send H := wp_step; eapply (ssi_send_ok _ _ _ _ _ _ H); [first [assumption|split; vm_compute; congruence]|];
  clear H; let t := fresh "t" in intros t H; cbn [app] in H.

(** The write of the status registers. *)
Lemma quad_enable_ok s0 s log rx st1 st2 (Q : unit -> machine D -> Prop) :
  ssi_at s0 s log rx -> is_u8 st1 -> is_u8 st2 ->
  (forall s' rx', ssi_at s0 s' (log ++ quad_enable st1 st2) rx' -> Q tt s') ->
  wp (if Z.land st2 (Z.shiftl 1 1) =? 0 then
    do! reg_write SSI_DR0 0x06 in
    do! reg_write SSI_DR0 0x01 in
    do! reg_write SSI_DR0 st1 in
    do! reg_write SSI_DR0 (Z.lor st2 (Z.shiftl 1 1)) in
    reg_write SSI_DR0 0x04
  else ret tt) Q s.
Proof.
  intros H H1 H2 HQ.
  assert ((Z.land st2 (Z.shiftl 1 1) =? 0) = negb (Z.testbit st2 1)) as ->.
  { rewrite <- bit_set_testbit by lia. unfold bit_set. by rewrite negb_involutive. }
  unfold quad_enable in HQ. destruct (Z.testbit st2 1); cbn [negb].
  - wp_step. apply (HQ _ rx). by rewrite app_nil_r.
  - assert (is_u32 st1) as Hw1 by (unfold is_u32, is_u8 in *; lia).
    assert (is_u32 (Z.lor st2 (Z.shiftl 1 1))) as Hw2
      by (rewrite <- (u32_small st2), <- (u32_small (Z.shiftl 1 1)), <- u32_lor; [apply u32_range|by split|unfold is_u32, is_u8 in *; lia]).
    do 4 ssi_send H. eapply (ssi_send_ok _ _ _ _ _ _ H); [split; lia|]. clear H; intros t' H.
    eapply HQ. rewrite <- !app_assoc in H. exact H.
Qed.

End Proofs.

(** ** The theorem on a simulated interface *)

(** It is always idle, and the flash answers with zeroes: quad mode is off. *)
Record ssi_sim := SsiSim { sim_log : list (Z * Z); sim_rx : list Z; sim_vtor : Z }.

#[export] Instance ssi_hardware : Hardware ssi_sim := {
  hw_read r s := let d := dev s in
    if r =? SSI_SR then (4, s)
    else if r =? SSI_DR0 then
      match sim_rx d with [] => (0, s) | v :: rx => (v, Machine (ram s) (SsiSim (sim_log d) rx (sim_vtor d))) end
    else if r =? M0PLUS_VTOR then (sim_vtor d, s) else (0, s);
  hw_write r x s := let d := dev s in
    if r =? M0PLUS_VTOR then Machine (ram s) (SsiSim (sim_log d) (sim_rx d) x)
    else Machine (ram s) (SsiSim (sim_log d ++ [(r, x)])
      (if r =? SSI_DR0 then sim_rx d ++ [0] else if (r =? SSI_SSIENR) && (x =? 0) then [] else sim_rx d) (sim_vtor d));
}.

#[export] Instance ssi_sim_laws : SsiLaws ssi_sim.
Proof.
  refine {| ssi_log := sim_log; ssi_rx := sim_rx; ssi_vtor := sim_vtor; ssi_answer := fun _ => 0;
            ssi_wait := fun _ => 0%nat; ssi_latency := 0%nat |}.
  - done.
  - intros r x s Hr. repeat (apply elem_of_cons in Hr as [-> | Hr]; [done|]). by apply elem_of_nil in Hr.
  - intros s. split_and!; try done. by left.
  - intros s v rx Hs. cbn. by rewrite Hs.
  - done.
  - done.
Defined.

Definition flash_board : machine ssi_sim :=
  Machine (mem_of 0x10000100 8 (fun p => if p =? 0x10000103 then 0x20 else if p =? 0x10000107 then 0x10 else 0))
    (SsiSim [] [] 0).

