(* ===== verification/Process.v ===== *)
(** * The process table (src/kernel/process.c)

    The scheduler's globals, their initialisation and the creation of a
    process.  run_process is not C (its loop declares no variable) and the
    scheduling functions are commented out, so they are not here. *)
From S2P Require Import Prelude.

Definition MAX_PROCESSES : Z := 8.
Definition NUM_REGISTERS : Z := 14.

Definition PROC_NEW : Z := 0.
Definition PROC_READY : Z := 1.
Definition PROC_RUNNING : Z := 2.
Definition PROC_WAITING : Z := 3.
Definition PROC_TERM : Z := 4.

(** [pid] is a [uint8_t]. *)
Record pcb_t := Pcb {
  pid : Z; state : Z; pc : Z; registers : list Z; burst_time : Z; time_remaining : Z;
}.

Record scheduler := Scheduler {
  process_table : list pcb_t;
  num_processes : Z;          (* uint8_t *)
  next_available_pid : Z;     (* uint8_t *)
  current_running_pid : Z;    (* int16_t *)
}.

Definition set_table (t : list pcb_t) (s : scheduler) : scheduler :=
  Scheduler t (num_processes s) (next_available_pid s) (current_running_pid s).

Definition get_pcb (i : Z) : M scheduler pcb_t :=
  let! t := gets process_table in of_option (t !! Z.to_nat i).
Definition put_pcb (i : Z) (p : pcb_t) : M scheduler unit :=
  let! _ := get_pcb i in
  modify (fun s => set_table (<[Z.to_nat i := p]> (process_table s)) s).

(** [NUM_REGISTERS] zero registers. *)
Definition no_registers : list Z := replicate (Z.to_nat NUM_REGISTERS) 0.

(** Every slot free: its pid is -1, stored in eight bits. *)
Definition init_scheduler : M scheduler unit :=
  for_loop (Z.to_nat MAX_PROCESSES) 0 (fun i _ =>
    put_pcb i (Pcb (u8 (-1)) PROC_NEW 0 no_registers 0 0)) tt.

(** The index of the first slot whose pid, promoted to [int], is -1. *)
Definition find_free_slot : M scheduler (option Z) :=
  let! r := for_exit (Z.to_nat MAX_PROCESSES) 0 (fun i _ =>
    let! p := get_pcb i in
    if pid p =? -1 then ret (inr i) else ret (inl tt)) tt in
  match r with inl _ => ret None | inr i => ret (Some i) end.

(** [None] is the return without a value when the table is full. *)
Definition create_process (_ : Z) (burst_time : Z) : M scheduler (option Z) :=
  let! n := gets num_processes in
  if MAX_PROCESSES <=? n then ret None else
  let! idx := find_free_slot in
  match idx with
  | None => ret (Some (-1))
  | Some idx =>
      let! new_pid := gets next_available_pid in
      do! modify (fun s => Scheduler (process_table s) (num_processes s) (u8 (new_pid + 1)) (current_running_pid s)) in
      do! put_pcb idx (Pcb new_pid PROC_READY 0 no_registers burst_time burst_time) in
      do! modify (fun s => Scheduler (process_table s) (u8 (num_processes s + 1)) (next_available_pid s) (current_running_pid s)) in
      ret (Some new_pid)
  end.

(** ** Properties *)

(** The globals are in the range of their types. *)
Definition scheduler_ok (s : scheduler) : Prop :=
  length (process_table s) = Z.to_nat MAX_PROCESSES /\ Forall (fun p => is_u8 (pid p)) (process_table s) /\
  is_u8 (num_processes s) /\ is_u8 (next_available_pid s).

Lemma get_pcb_ok s i (Q : pcb_t -> scheduler -> Prop) :
  scheduler_ok s -> 0 <= i < MAX_PROCESSES ->
  (forall p, process_table s !! Z.to_nat i = Some p -> is_u8 (pid p) -> Q p s) -> wp (get_pcb i) Q s.
Proof.
  intros (Hl & Hp & _) Hi HQ. unfold get_pcb. wp_step. wp_step.
  destruct (lookup_lt_is_Some_2 (process_table s) (Z.to_nat i)) as [p E]; [rewrite Hl; lia|].
  eapply wpg_of_option; [exact E|]. apply HQ; [done|]. rewrite Forall_forall in Hp. apply Hp.
  by eapply list_elem_of_lookup_2.
Qed.

(** No slot is ever free for create_process: an eight-bit pid is never -1. *)
Lemma find_free_slot_none s (Q : option Z -> scheduler -> Prop) :
  scheduler_ok s -> Q None s -> wp find_free_slot Q s.
Proof.
  intros Hs HQ. unfold find_free_slot. wp_step. eapply wpg_mono.
  - apply (wpg_for_exit False (fun _ (_ : unit) s' => s' = s) (fun (_ : Z) _ => False)); [done|].
    intros j [] t Hj ->. wp_step. apply get_pcb_ok; [done|unfold MAX_PROCESSES in *; lia|]. intros p _ [Hp _].
    destruct (Z.eqb_spec (pid p) (-1)); [lia|]. by wp_step.
  - intros [[]|i] s' H; [|done]. subst s'. by wp_step.
Qed.

(** [init_scheduler] makes every slot new, with pid 255 and zero registers,
    and leaves the other globals alone. *)
Theorem init_scheduler_spec s :
  length (process_table s) = Z.to_nat MAX_PROCESSES ->
  wp init_scheduler (fun _ s' =>
    s' = set_table (replicate (Z.to_nat MAX_PROCESSES) (Pcb 255 PROC_NEW 0 no_registers 0 0)) s) s.
Proof.
  intros Hl. destruct s as [t n p c]. cbn [process_table] in Hl.
  destruct t as [|t0 [|t1 [|t2 [|t3 [|t4 [|t5 [|t6 [|t7 [|]]]]]]]]]; done.
Qed.

(** C29: [create_process] never creates a process: whatever the table holds, it
    returns -1 or, when the count says the table is full, no value at all,
    and the globals do not change. *)
Theorem create_process_never s p burst :
  scheduler_ok s ->
  wp (create_process p burst) (fun r s' =>
    s' = s /\ r = if MAX_PROCESSES <=? num_processes s then None else Some (-1)) s.
Proof.
  intros Hs. unfold create_process. wp_step. wp_step.
  destruct (MAX_PROCESSES <=? num_processes s); [by wp_step|]. wp_step.
  apply find_free_slot_none; [done|]. by wp_step.
Qed.

(** *** After boot *)

Definition boot_scheduler : scheduler :=
  Scheduler (replicate 8 (Pcb 0 PROC_NEW 0 no_registers 0 0)) 0 200 (-1).

Lemma init_scheduler_witness : exists s', init_scheduler boot_scheduler = Ok (tt, s') /\
  process_table s' !! 3%nat = Some (Pcb 255 PROC_NEW 0 no_registers 0 0).
Proof.
  destruct (proj1 (wp_exact _ _ _) (init_scheduler_spec boot_scheduler eq_refl)) as ([] & s' & E & P).
  exists s'. split; [exact E|]. by rewrite P.
Defined.

Lemma create_process_witness : create_process 1 5 boot_scheduler = Ok (Some (-1), boot_scheduler).
Proof.
  assert (scheduler_ok boot_scheduler) as Hs.
  { split; [done|]. split; [by repeat constructor|]. split; split; cbn; lia. }
  destruct (proj1 (wp_exact _ _ _) (create_process_never boot_scheduler 1 5 Hs)) as (r & s' & E & -> & ->). exact E.
Defined.
