(* ===== verification/Syscall.v ===== *)
(** * System calls (src/kernel/syscall.c)

    The dispatcher and the SVC exception handler, with the handler's
    assembly as a sequence of loads and stores on the exception frame. *)
From Stdlib Require Import String.
From stdpp Require Import list.
From S2P Require Import Prelude Bytes Hexutils Board SimBoard Uart.

Definition SYS_WRITE : Z := 1.

(** [ldrh]: an odd address faults. *)
Definition load16 (p : Z) : M mem Z := fun m =>
  if p mod 2 =? 0 then of_option (le_combine <$> peeks m p 2) m else Fault.

(** The caller's registers at the SVC instruction; [cpu_pc] is the address
    after it.  EXC_RETURN for thread mode on the main stack. *)
Record cpu := Cpu {
  cpu_sp : Z; cpu_psp : Z; cpu_pc : Z; cpu_r3 : Z; cpu_r12 : Z; cpu_lr : Z; cpu_xpsr : Z;
}.
Definition EXC_RETURN : Z := 0xFFFFFFF9.

Section Syscall.
Context {D : Type} `{HW : Hardware D} `{F : Fuel}.

Definition sys_write (fd buf count : Z) : M (machine D) Z :=
  let! m := gets ram in
  do! uart_puts m buf count in
  ret count.

(** [regs] is the frame of stacked registers; the result is an [int]. *)
Definition do_syscall (regs syscall_num : Z) : M (machine D) Z :=
  if syscall_num =? SYS_WRITE then
    let! fd := in_ram (load32 regs) in
    let! buf := in_ram (load32 (regs + 4)) in
    let! count := in_ram (load32 (regs + 8)) in
    let! n := sys_write (i32 fd) buf count in
    ret (i32 n)
  else
    do! uartTxStr (c_string "Unknown syscall number: ") 0 in
    do! uartTxDec syscall_num in
    do! uartTxStr (c_string crlf) 0 in
    ret (-2).

(** The exception handler, entered with the stack pointers and EXC_RETURN in
    [lr]: find the frame, push [lr], fetch the number from the SVC
    instruction, call the dispatcher, [str r0, [r0, #0]], and return through
    the popped [lr]. *)
Definition svCallHandler (msp psp lr : Z) : M (machine D) Z :=
  let r3 := Z.land lr 4 in
  let r0 := if r3 =? 0 then msp else psp in
  let sp := u32 (msp - 4) in
  do! in_ram (store32 sp lr) in
  let! r2 := in_ram (load32 (u32 (r0 + 24))) in
  let r2 := u32 (r2 - 2) in
  let! r1 := in_ram (load16 r2) in
  let r1 := Z.land r1 0xFF in
  let! r := do_syscall r0 r1 in
  let r0 := u32 r in
  do! in_ram (store32 r0 r0) in
  in_ram (load32 sp).

(** [long ret]: what R0 holds after the exception, converted to [ssize_t].
    [svc imm r0 r1 r2] is the SVC instruction. *)
Definition write (svc : Z -> Z -> Z -> Z -> M (machine D) Z) (fd buf count : Z) : M (machine D) Z :=
  let! r0 := svc SYS_WRITE (u32 fd) buf count in
  ret (i32 r0).

(** The SVC instruction on the main stack: the processor stacks eight
    registers, enters the handler, and when it branches to EXC_RETURN takes
    R0 back from the frame. *)
Fixpoint store_words (p : Z) (ws : list Z) : M mem unit :=
  match ws with
  | [] => ret tt
  | w :: ws => do! store32 p w in store_words (p + 4) ws
  end.

Definition exception (c : cpu) (_ r0 r1 r2 : Z) : M (machine D) Z :=
  let frame := cpu_sp c - 32 in
  do! in_ram (store_words frame [r0; r1; r2; cpu_r3 c; cpu_r12 c; cpu_lr c; cpu_pc c; cpu_xpsr c]) in
  let! lr := svCallHandler frame (cpu_psp c) EXC_RETURN in
  if lr =? EXC_RETURN then in_ram (load32 frame) else fun _ => Fault.
End Syscall.

(** ** Properties *)

(** A store that cannot be done. *)
Lemma store32_fault m p v : p mod 4 <> 0 \/ ~ mapped m p (p + 4) -> store32 p v m = Fault.
Proof.
  intros Hp. unfold store32. destruct (Z.eqb_spec (p mod 4) 0) as [H4|]; [|done].
  destruct Hp as [?|Hm]; [done|]. destruct (pokes m p (le_split 4 (u32 v))) as [m'|] eqn:E; [|done].
  destruct Hm. pose proof (peeks_pokes m m' p _ E) as Hp. rewrite length_le_split in Hp.
  intros q Hq. eapply (mapped_unpokes m m'); [exact E| |exact Hq].
  change (mapped m' p (p + Z.of_nat 4)). apply peeks_mapped. eauto.
Qed.

Section SyscallProofs.
Context {D C : Type} `{HW : Hardware D} `{F : Fuel} `{V : View D C} `{U : !UartLaws D C}.
Context (enough : (uart_latency D C < fuel)%nat) (enough_digits : (100 < fuel)%nat).
Implicit Types s : machine D.

(** The message of an unknown call. *)
Definition unknown_message (ds : list Z) : list Z := chars "Unknown syscall number: " ++ ds ++ chars crlf.

Lemma do_syscall_write_ok s regs fd buf count l (Q : Z -> machine D -> Prop) :
  word_at (ram s) regs fd -> word_at (ram s) (regs + 4) buf -> word_at (ram s) (regs + 8) count ->
  peeks (ram s) buf (Z.to_nat count) = Some l -> Forall is_u8 l ->
  (forall s', uart_sent l s s' -> Q (i32 count) s') -> wp (do_syscall regs SYS_WRITE) Q s.
Proof.
  intros W0 W1 W2 Hl Hu HQ. unfold do_syscall. cbn [Z.eqb Pos.eqb SYS_WRITE].
  assert (forall p v (k : Z -> M (machine D) Z), word_at (ram s) p v -> wp (k v) Q s ->
    wp (bind (in_ram (load32 p)) k) Q s) as Hread.
  { intros p v k Hw Hk. wp_step. eapply in_ram_pure; [by apply load32_eq|done]. }
  apply (Hread _ _ _ W0), (Hread _ _ _ W1), (Hread _ _ _ W2). unfold sys_write. do 4 wp_step.
  pose proof (length_peeks _ _ _ _ Hl) as Hlen. destruct W2 as (_ & [Hc0 Hc] & _).
  replace count with (Z.of_nat (length l)) at 1 by lia.
  eapply wpg_mono; [apply (uart_puts_spec enough (ram s) buf l s); [by rewrite Hlen|done|unfold is_u32; lia]|].
  cbv beta. intros [] s1 Hsent. do 2 wp_step. by apply HQ.
Qed.

(** C25: The dispatcher: SYS_WRITE sends the [count] bytes at [buf] to the UART,
    whatever the file descriptor, and returns the count; any other number is
    reported on the UART and returns -2. *)
Theorem do_syscall_spec s regs num fd buf count l :
  is_u32 num ->
  (num = SYS_WRITE -> word_at (ram s) regs fd /\ word_at (ram s) (regs + 4) buf /\
     word_at (ram s) (regs + 8) count /\ peeks (ram s) buf (Z.to_nat count) = Some l /\ Forall is_u8 l) ->
  wp (do_syscall regs num) (fun r s' =>
    if num =? SYS_WRITE then r = i32 count /\ uart_sent l s s'
    else r = -2 /\ exists ds, parse_digits 10 0 ds = Some num /\ uart_sent (unknown_message ds) s s') s.
Proof.
  intros Hn Hw. destruct (Z.eqb_spec num SYS_WRITE) as [->|Hne].
  - destruct (Hw eq_refl) as (W0 & W1 & W2 & Hl & Hu). by eapply do_syscall_write_ok.
  - unfold do_syscall. destruct (Z.eqb_spec num SYS_WRITE); [done|]. wp_step.
    apply (uartTxStr_literal enough); [reflexivity|cbn; lia|].
    intros s1 S1. wp_step. eapply wpg_mono; [apply (uartTxDec_ok enough num s1 Hn); lia|].
    cbv beta. intros [] s2 (ds & Hp & _ & _ & S2). wp_step.
    apply (uartTxStr_literal enough); [reflexivity|cbn; lia|].
    intros s3 S3. wp_step. split; [done|]. exists ds. split; [done|]. unfold unknown_message.
    eapply uart_sent_trans; [exact S1|]. by eapply uart_sent_trans.
Qed.

(** *** The exception *)

(** The words at [p] are [ws]. *)
Fixpoint words_at (m : mem) (p : Z) (ws : list Z) : Prop :=
  match ws with [] => True | w :: ws => word_at m p w /\ words_at m (p + 4) ws end.

Lemma words_at_frame m m' p ws :
  words_at m p ws -> (forall q, p <= q < p + 4 * Z.of_nat (length ws) -> m' !! q = m !! q) -> words_at m' p ws.
Proof.
  revert p. induction ws as [|w ws IH]; intros p Hw Hq; [done|]. destruct Hw as [Hw Hws]. cbn [length] in Hq.
  split; [eapply word_at_frame; [exact Hw|]; intros; apply Hq; lia|]. apply IH; [done|]. intros. apply Hq. lia.
Qed.

Lemma store_words_ok p ws m (Q : unit -> mem -> Prop) :
  p mod 4 = 0 -> Forall is_u32 ws -> mapped m p (p + 4 * Z.of_nat (length ws)) ->
  (forall m', words_at m' p ws -> (forall q, q < p \/ p + 4 * Z.of_nat (length ws) <= q -> m' !! q = m !! q) ->
     (forall a b, mapped m a b -> mapped m' a b) -> Q tt m') ->
  wp (store_words p ws) Q m.
Proof.
  revert p m Q. induction ws as [|w ws IH]; intros p m Q Hp Hu Hm HQ; cbn [store_words length] in *.
  - wp_step. by apply HQ.
  - inversion Hu; subst. wp_step. apply store32_ok; [done|intros q Hq; apply Hm; lia|]. intros m1 W1 F1 M1.
    rewrite u32_small in W1 by done. apply IH; [dlia|done|apply M1; intros q Hq; apply Hm; lia|].
    intros m2 W2 F2 M2. apply HQ.
    + split; [|done]. eapply word_at_frame; [exact W1|]. intros q Hq. apply F2. lia.
    + intros q Hq. rewrite F2 by lia. apply F1. lia.
    + intros a b Hab. by apply M2, M1.
Qed.

(** The caller is at an SVC instruction for SYS_WRITE, 36 bytes of stack are
    free below its stack pointer, and the [count] bytes at [buf] are [l]. *)
Record svc_ready s (c : cpu) (buf count : Z) (l : list Z) : Prop := {
  svc_aligned : cpu_sp c mod 8 = 0;
  svc_sp : 36 <= cpu_sp c < 2 ^ 32;
  svc_stack : mapped (ram s) (cpu_sp c - 36) (cpu_sp c);
  svc_regs : Forall is_u32 [cpu_r3 c; cpu_r12 c; cpu_lr c; cpu_pc c; cpu_xpsr c];
  svc_pc : 2 <= cpu_pc c /\ cpu_pc c mod 2 = 0;
  svc_instr : peeks (ram s) (cpu_pc c - 2) 2 = Some [SYS_WRITE; 0xDF];
  svc_instr_apart : cpu_pc c <= cpu_sp c - 36 \/ cpu_sp c <= cpu_pc c - 2;
  svc_args : is_u32 buf /\ is_u32 count;
  svc_text : peeks (ram s) buf (Z.to_nat count) = Some l /\ Forall is_u8 l;
  svc_text_apart : buf + count <= cpu_sp c - 36 \/ cpu_sp c <= buf;
}.

(** What is left of the handler once the dispatcher has returned. *)
Definition svc_tail (c : cpu) (count : Z) : M (machine D) Z :=
  do! in_ram (store32 count count) in
  let! lr := in_ram (load32 (cpu_sp c - 36)) in
  if lr =? EXC_RETURN then in_ram (load32 (cpu_sp c - 32)) else fun _ => Fault.

(** The state there: the bytes are sent, the frame and [lr] are stacked. *)
Record svc_sent s (c : cpu) (r0 : Z) (l : list Z) s' : Prop := {
  sent_uart : view (dev s') = set_uart_out (io_uart_out (view (dev s)) ++ l) (view (dev s));
  sent_r0 : word_at (ram s') (cpu_sp c - 32) r0;
  sent_lr : word_at (ram s') (cpu_sp c - 36) EXC_RETURN;
  sent_mapped a b : mapped (ram s') a b <-> mapped (ram s) a b;
}.

Lemma load16_ok m p a b (Q : Z -> mem -> Prop) :
  p mod 2 = 0 -> peeks m p 2 = Some [a; b] -> Q (a + 256 * b) m -> wp (load16 p) Q m.
Proof.
  intros Hp E HQ. unfold wpg, load16. rewrite Hp, E. cbn. by replace (b + 256 * 0) with b by lia.
Qed.

(** What is left of the handler once it has pushed [lr], and the state there. *)
Definition svc_rest (c : cpu) : M (machine D) Z :=
  let! pc := in_ram (load32 (cpu_sp c - 8)) in
  let! instr := in_ram (load16 (u32 (pc - 2))) in
  let! r := do_syscall (cpu_sp c - 32) (Z.land instr 0xFF) in
  svc_tail c (u32 r).

Record svc_entered s (c : cpu) (r0 buf count : Z) s' : Prop := {
  entered_dev : dev s' = dev s;
  entered_frame : words_at (ram s') (cpu_sp c - 32)
                    [r0; buf; count; cpu_r3 c; cpu_r12 c; cpu_lr c; cpu_pc c; cpu_xpsr c];
  entered_lr : word_at (ram s') (cpu_sp c - 36) EXC_RETURN;
  entered_else q : q < cpu_sp c - 36 \/ cpu_sp c <= q -> ram s' !! q = ram s !! q;
  entered_mapped a b : mapped (ram s) a b -> mapped (ram s') a b;
}.

Lemma exception_entry s c imm r0 buf count l :
  is_u32 r0 -> svc_ready s c buf count l ->
  exists s', svc_entered s c r0 buf count s' /\ exception c imm r0 buf count s = svc_rest c s'.
Proof.
  intros Hr0 [Hal Hsp Hst Hregs _ _ _ [Hb Hc] _ _]. unfold exception.
  set (frame := cpu_sp c - 32).
  set (ws := [r0; buf; count; cpu_r3 c; cpu_r12 c; cpu_lr c; cpu_pc c; cpu_xpsr c]).
  assert (wp (in_ram (store_words frame ws)) (fun _ s1 => dev s1 = dev s /\ words_at (ram s1) frame ws /\
    (forall q, q < frame \/ frame + 32 <= q -> ram s1 !! q = ram s !! q) /\
    (forall a b, mapped (ram s) a b -> mapped (ram s1) a b)) s) as W.
  { apply in_ram_ok, store_words_ok; [subst frame; dlia|by repeat (constructor; [done|])| |].
    - intros q Hq. apply Hst. subst frame. cbn in Hq. lia.
    - intros m' W1 F1 M1. by split_and!. }
  apply wp_exact in W as ([] & s1 & E & D1 & W1 & F1 & M1). rewrite (bind_ok _ _ _ _ _ E). clear E.
  unfold svCallHandler. change (Z.land EXC_RETURN 4 =? 0) with true. cbv beta iota zeta.
  rewrite (u32_small (frame - 4)) by (unfold is_u32; subst frame; lia).
  rewrite (u32_small (frame + 24)) by (unfold is_u32; subst frame; lia).
  replace (frame - 4) with (cpu_sp c - 36) by (subst frame; lia).
  assert (wp (in_ram (store32 (cpu_sp c - 36) EXC_RETURN)) (fun _ s2 => svc_entered s c r0 buf count s2) s1) as W.
  { apply in_ram_ok, store32_ok; [dlia|apply M1; intros q Hq; apply Hst; lia|]. intros m2 W2 F2 M2.
    subst frame. split; [done| |done| |]; cbn [ram].
    - eapply words_at_frame; [exact W1|]. cbn. intros q Hq. apply F2. lia.
    - intros q Hq. rewrite F2 by lia. apply F1. lia.
    - intros a b Hab. by apply M2, M1. }
  apply wp_exact in W as ([] & s2 & E & HE). rewrite (at_state _ _ s1 (bind_assoc _ _ _)), (bind_ok _ _ _ _ _ E).
  exists s2. split; [done|]. unfold svc_rest, svc_tail.
  replace (frame + 24) with (cpu_sp c - 8) by (subst frame; lia).
  apply at_state. by repeat setoid_rewrite bind_assoc.
Qed.

Lemma exception_dispatch s c r0 buf count l s' :
  svc_ready s c buf count l -> svc_entered s c r0 buf count s' ->
  exists s2, svc_sent s c r0 l s2 /\ svc_rest c s' = svc_tail c count s2.
Proof.
  intros [Hal Hsp Hst Hregs [Hpc Hpc2] Hin Hia [Hb Hc] [Hl Hu] Hta] [HD W HL HF HM].
  destruct W as (R0 & R1 & R2 & _ & _ & _ & R6 & _). unfold svc_rest.
  assert (is_u32 (cpu_pc c)) as Hpcu by (rewrite List.Forall_forall in Hregs; apply Hregs; cbn; tauto).
  assert (wp (let! pc := in_ram (load32 (cpu_sp c - 8)) in
              let! instr := in_ram (load16 (u32 (pc - 2))) in
              do_syscall (cpu_sp c - 32) (Z.land instr 0xFF))
            (fun r t => r = i32 count /\ uart_sent l s' t) s') as W.
  { wp_step. eapply in_ram_pure.
    { apply load32_eq. replace (cpu_sp c - 8) with (cpu_sp c - 32 + 4 + 4 + 4 + 4 + 4 + 4) by lia. exact R6. }
    rewrite u32_small by (unfold is_u32 in *; lia). wp_step. apply in_ram_ok.
    apply (load16_ok _ _ SYS_WRITE 0xDF); [dlia| |].
    { rewrite <- Hin. apply peeks_ext. intros q Hq. apply HF. lia. }
    change (Z.land (SYS_WRITE + 256 * 0xDF) 0xFF) with SYS_WRITE.
    replace (Machine (ram s') (dev s')) with s' by (by destruct s').
    eapply do_syscall_write_ok; [exact R0|exact R1| |rewrite <- Hl; apply peeks_ext; intros q Hq; apply HF|done|by split].
    - by replace (cpu_sp c - 32 + 8) with (cpu_sp c - 32 + 4 + 4) by lia.
    - unfold is_u32 in *. lia. }
  apply wp_exact in W as (r & s2 & E & -> & [HR HV]). exists s2. split.
  - split; rewrite ?HR; [by rewrite HV, HD|done|done|]; intros a b; rewrite ?HR; split; intros Hm q Hq.
    + destruct (decide (cpu_sp c - 36 <= q < cpu_sp c)) as [|Hout]; [by apply Hst|].
      change (is_Some (ram s !! q)). rewrite <- HF by lia. by apply Hm.
    + destruct (decide (cpu_sp c - 36 <= q < cpu_sp c)) as [Hin'|Hout].
      * by apply (HM _ _ Hst).
      * change (is_Some (ram s' !! q)). rewrite HF by lia. by apply Hm.
  - transitivity ((fun r => svc_tail c (u32 r)) (i32 count) s2); [|cbv beta; by rewrite u32_i32, u32_small].
    rewrite <- (bind_ok _ (fun r => svc_tail c (u32 r)) _ _ _ E).
    apply at_state. by repeat setoid_rewrite bind_assoc.
Qed.

Lemma write_faults_ok s c fd buf count l :
  svc_ready s c buf count l ->
  count mod 4 <> 0 \/ ~ mapped (ram s) count (count + 4) ->
  write (exception c) fd buf count s = Fault.
Proof.
  intros Hr Hc. destruct (exception_entry s c SYS_WRITE (u32 fd) buf count l) as (s1 & H1 & E1); [apply u32_range|done|].
  destruct (exception_dispatch s c (u32 fd) buf count l s1) as (s2 & [_ _ _ Hm] & E2); [done|done|].
  assert (svc_tail c count s2 = Fault) as Ht.
  { unfold svc_tail, bind at 1, in_ram at 1, zoom. rewrite store32_fault; [done|]. by rewrite Hm. }
  unfold write, bind. by rewrite E1, E2, Ht.
Qed.

(** C26: [write] faults unless its count is the address of an aligned word that is
    mapped: once the bytes are sent, the handler stores the result at the
    address that the result is. *)
Theorem write_faults s c fd buf count l :
  svc_ready s c buf count l ->
  count mod 4 <> 0 \/ ~ mapped (ram s) count (count + 4) ->
  write (exception c) fd buf count s = Fault.
Proof. apply write_faults_ok. Qed.

(** C27: Where the count is such an address, outside the stack the exception uses,
    [write] sends the bytes and returns the file descriptor, not the count:
    the stacked R0 is never written.  The word at the address that the count
    is becomes the count. *)
Theorem write_returns_fd s c fd buf count l :
  svc_ready s c buf count l ->
  count mod 4 = 0 -> mapped (ram s) count (count + 4) ->
  count + 4 <= cpu_sp c - 36 \/ cpu_sp c <= count ->
  wp (write (exception c) fd buf count) (fun r s' =>
    r = i32 fd /\ word_at (ram s') count count /\
    view (dev s') = set_uart_out (io_uart_out (view (dev s)) ++ l) (view (dev s))) s.
Proof.
  intros Hr H4 Hm Ha. destruct (exception_entry s c SYS_WRITE (u32 fd) buf count l) as (s1 & H1 & E1); [apply u32_range|done|].
  destruct (exception_dispatch s c (u32 fd) buf count l s1) as (s2 & [HV H0 HL Hmap] & E2); [done|done|].
  destruct Hr as [Hal Hsp _ _ _ _ _ [_ Hc] _ _].
  unfold write. wp_step. unfold wpg at 1. rewrite E1, E2.
  change (wp (svc_tail c count) (fun r => wp (ret (i32 r)) (fun r s' => r = i32 fd /\ word_at (ram s') count count /\
    view (dev s') = set_uart_out (io_uart_out (view (dev s)) ++ l) (view (dev s)))) s2).
  unfold svc_tail. wp_step. apply in_ram_ok, store32_ok; [done|by apply Hmap|]. intros m W FR _.
  rewrite u32_small in W by done.
  wp_step. eapply in_ram_pure; [apply load32_eq; eapply word_at_frame; [exact HL|]; intros q Hq; apply FR; lia|].
  change (EXC_RETURN =? EXC_RETURN) with true. cbv iota.
  eapply in_ram_pure; [apply load32_eq; eapply word_at_frame; [exact H0|]; intros q Hq; apply FR; lia|].
  wp_step. split; [|by split]. unfold i32. by rewrite (u32_small (u32 fd)) by apply u32_range.
Qed.
End SyscallProofs.

(** ** The theorems on the simulated board *)

(** Memory from [a]: the greeting of programs/init.c at [a + 32], the SVC
    instruction at [a + 64], stack up to [a + 256]. *)
Definition greeting : list Z := chars "Hello from userland!".
Definition user_memory (a : Z) : mem := mem_of a 256 (fun p =>
  let i := p - a in
  if i =? 64 then SYS_WRITE else if i =? 65 then 0xDF
  else if i <? 32 then 0 else default 0 (greeting !! Z.to_nat (i - 32))).
Definition user_board (a : Z) : machine (sim unit) := sim_board (user_memory a) tt [].
Definition user_cpu (a : Z) : cpu := Cpu (a + 256) 0 (a + 66) 0 0 0 0.

Lemma greeting_ready a n : a = 0 \/ a = 0x1000 -> n = 16 \/ n = 20 ->
  svc_ready (user_board a) (user_cpu a) (a + 32) n (take (Z.to_nat n) greeting).
Proof.
  intros [-> | ->] [-> | ->]; (split;
    [reflexivity|cbn; lia|apply mem_of_mapped; cbn; lia|repeat constructor; cbn; lia|cbn; split; [lia|reflexivity]
    |vm_compute; reflexivity|cbn; lia|unfold is_u32; lia
    |split; [vm_compute; reflexivity|repeat constructor; cbn; lia]|cbn; lia]).
Qed.

Lemma sim_digits : (100 < fuel)%nat.
Proof. apply Nat.ltb_lt. vm_compute. reflexivity. Qed.

(** The write of programs/init.c. *)
Lemma write_faults_witness : write (exception (user_cpu 0x1000)) 1 (0x1000 + 32) 20 (user_board 0x1000) = Fault.
Proof.
  apply (write_faults (D := sim unit) (C := unit) sim_uart_enough sim_digits (user_board 0x1000) (user_cpu 0x1000) 1 (0x1000 + 32) 20
           greeting (greeting_ready 0x1000 20 (or_intror eq_refl) (or_intror eq_refl))).
  right. apply mem_of_unmapped; [discriminate|reflexivity|by left].
Defined.

Lemma write_returns_fd_witness :
  exists s', write (exception (user_cpu 0)) 1 32 16 (user_board 0) = Ok (1, s').
Proof.
  assert (16 + 4 <= cpu_sp (user_cpu 0) - 36) as Ha by (cbn; lia).
  destruct (proj1 (wp_exact _ _ _)
    (write_returns_fd (D := sim unit) (C := unit) sim_uart_enough sim_digits (user_board 0) (user_cpu 0) 1 32 16
      (take 16 greeting) (greeting_ready 0 16 (or_introl eq_refl) (or_introl eq_refl)) eq_refl
      (mem_of_mapped 0 256 _ 16 (16 + 4) ltac:(lia) ltac:(lia)) (or_introl Ha))) as (r & s' & E & -> & _).
  exists s'. exact E.
Defined.

Lemma do_syscall_witness : exists s', do_syscall 0 7 (user_board 0) = Ok (-2, s').
Proof.
  destruct (proj1 (wp_exact _ _ _)
    (do_syscall_spec (D := sim unit) (C := unit) sim_uart_enough sim_digits (user_board 0) 0 7 0 0 0 []
       ltac:(unfold is_u32; lia) ltac:(discriminate))) as (r & s' & E & H).
  destruct H as [-> _]. exists s'. exact E.
Defined.
