(* ===== verification/Boot.v ===== *)
(** * From reset to the first program (src/kernel/main.c,
    src/arch/arm_cortexm/rp2040/startup_rp2040.c resetHandler)

    kernel_main and the reset handler that leads to it, on the state of the
    kernel.  The program that kernel_main starts and the address of the path
    literal are arguments. *)
From Stdlib Require Import String Ascii.
From stdpp Require Import list.
From S2P Require Import Prelude Bytes Hexutils Cstring Board SimBoard Unistd Uart Spi Dma Heap Block.
From S2P Require Import SD SDEmpty FAT32 FatVolume FatFile FatDir FatPath Elf Kernel Startup.

Definition starting_message : string := String (ascii_of_nat 13) ("freeGPOS starting" ++ crlf)%string.
Definition failed_message : string := ("Failed to initialize SD card" ++ crlf)%string.

(** The symbols the linker script defines. *)
Class Sections := {
  data_start : Z; data_end : Z; sdataf : Z; bss_start : Z; bss_end : Z;
}.

Section Boot.
Context {D : Type} `{HW : Hardware D} `{F : Fuel} `{HL : HeapLayout}.
(** The path literal of [kernel_main], and the code at the entry point. *)
Context (init_path : Z) (start : Z -> M (kernel D) unit).

Definition forever : M (kernel D) unit := while_loop fuel (fun _ => ret (inl tt)) tt.

(** What follows the program: shut the card down, then stop. *)
Definition kernel_end : M (kernel D) unit :=
  do! while_loop fuel (fun _ =>
    let! ok := on_board SDShutdown in
    if ok then ret (inr tt) else let! _ := on_board (usleep 100000) in ret (inl tt)) tt in
  forever.

Definition kernel_main : M (kernel D) unit :=
  do! on_board resetSubsys in
  do! on_board (uart_init 115200) in
  do! for_loop 80 0 (fun _ _ => on_board (uartTx 10)) tt in
  do! on_board (uartTxStr (c_string starting_message) 0) in
  do! on_board spi_init in
  let! sd := on_board SDInit in
  if negb sd then on_board (uartTxStr (c_string failed_message) 0) else
  do! on_heap init_malloc in
  let! _ := on_files fat32_init in
  let! entry := loadELF init_path in
  do! start entry in
  kernel_end.

Definition main : M (kernel D) Z := do! kernel_main in ret 0.

(** Pointer differences of [uint32_t] pointers count words. *)
Definition resetHandler `{Sections} : M (kernel D) unit :=
  let! _ := on_board (memcpy data_start sdataf (u32 ((data_end - data_start) / 4 * 4))) in
  let! _ := on_board (in_ram (memset bss_start 0 (u32 ((bss_end - bss_start) / 4 * 4)))) in
  do! on_board SystemInit in
  let! _ := main in
  forever.
End Boot.

(** ** Properties *)

(** Run from [s], [m] comes to a state that satisfies [P] with [rest] left to do. *)
Definition arrives {S A} (m rest : M S A) (P : S -> Prop) (s : S) : Prop :=
  exists s', P s' /\ m s = rest s'.

Lemma arrives_bind {S A B} (m : M S A) (k : A -> M S B) (Q : A -> S -> Prop) rest P s :
  wp m Q s -> (forall a s', Q a s' -> arrives (k a) rest P s') -> arrives (bind m k) rest P s.
Proof.
  intros (a & s1 & E & H)%wp_exact Hk. destruct (Hk a s1 H) as (s2 & H2 & E2).
  exists s2. split; [done|]. by rewrite (bind_ok _ _ _ _ _ E).
Qed.

Lemma arrives_bind2 {S A B E} (m : M S A) (j : A -> M S B) (k : B -> M S E) (Q : B -> S -> Prop) rest P s :
  wp (let! a := m in j a) Q s -> (forall b s', Q b s' -> arrives (k b) rest P s') ->
  arrives (let! a := m in let! b := j a in k b) rest P s.
Proof.
  intros Hm Hk. destruct (arrives_bind _ k Q rest P s Hm Hk) as (s' & H & E').
  exists s'. split; [done|]. rewrite <- E'. symmetry. apply at_state, bind_assoc.
Qed.

Lemma arrives_wp {S A} (m rest : M S A) P (Q : A -> S -> Prop) (s : S) :
  arrives m rest P s -> (forall s', P s' -> wp rest Q s') -> wp m Q s.
Proof. intros (s' & Hp & E) H. unfold wpg. rewrite E. by apply H. Qed.

Lemma arrives_here {S A} (m : M S A) (P : S -> Prop) s : P s -> arrives m m P s.
Proof. intros H. by exists s. Qed.

Section Correctness.
Context {D C : Type} `{HW : Hardware D} `{SL : SpiSlave C} `{F : Fuel} `{V : View D C} `{HL : HeapLayout}.
Context `{SP : !SpiLaws D C} `{GL : !GpioLaws D C} `{SC : !SdCard C} `{SB : !SdBoot C}.
Context `{T : !TimerLaws D C} `{DM : !DmaLaws D C} `{U : !UartLaws D C} `{BO : !BootLaws D C}.
Context (enough : (spi_latency D C < fuel)%nat) (enough_polls : 65536 < Z.of_nat fuel).
Context (enough_init : (usleep_fuel (D := D) (C := C) 10000 < fuel)%nat).
Context (enough_time : (usleep_fuel (D := D) (C := C) 1000 < fuel)%nat).
Context (enough_dma : (dma_latency D C < fuel)%nat).
Context (enough_uart : (uart_latency D C < fuel)%nat) (enough_boot : (boot_latency D C < fuel)%nat).
Implicit Types k : kernel D.

(** *** Up to the SD card *)

(** Only the UART's output and the SPI configuration differ. *)
Definition same_wires (s s' : machine D) : Prop :=
  ram s' = ram s /\ io_rx (view (dev s')) = io_rx (view (dev s)) /\
  io_card (view (dev s')) = io_card (view (dev s)) /\ io_dma (view (dev s')) = io_dma (view (dev s)).

Lemma same_wires_refl s : same_wires s s.
Proof. done. Qed.
Lemma same_wires_trans s1 s2 s3 : same_wires s1 s2 -> same_wires s2 s3 -> same_wires s1 s3.
Proof. intros (?&?&?&?) (?&?&?&?). split_and!; congruence. Qed.

Lemma uart_sent_wires l s s' : uart_sent l s s' -> same_wires s s' /\ io_cr1 (view (dev s')) = io_cr1 (view (dev s)).
Proof. intros [R E]. split; [|by rewrite E]. by split_and!; rewrite ?E. Qed.

(** A machine whose memory is [m], and the kernel state over it. *)
Definition with_board k (s : machine D) : kernel D := Kernel (set_disk s (files k)) (heap_head k).

Lemma on_board_ok h {A} (m : M (machine D) A) k (Q : A -> kernel D -> Prop) :
  wpg h m (fun a s => Q a (with_board k s)) (disk (files k)) -> wpg h (on_board m) Q k.
Proof. intros HQ. unfold on_board, on_files. do 2 wp_step. exact HQ. Qed.

Lemma uart_init_ok (s : machine D) (Q : unit -> machine D -> Prop) :
  (forall s', ram s' = ram s -> view (dev s') = view (dev s) -> Q tt s') -> wp (uart_init 115200) Q s.
Proof.
  clear enough enough_polls enough_init enough_time enough_dma enough_uart enough_boot.
  intros HQ. unfold uart_init. wp_step. eapply wpg_of_option; [exact uart_divisors_115200|]. cbv beta iota.
  assert (forall r x t (K : unit -> machine D -> Prop), r ∈ config_registers \/ (exists i, 0 <= i < 30 /\ r = io_bank0_gpio_CTRL i) ->
    (forall t', ram t' = ram t -> view (dev t') = view (dev t) -> K tt t') -> wp (reg_write r x) K t) as Hw.
  { intros r x t K Hr HK. apply reg_write_ok. destruct Hr as [Hr|(i & Hi & ->)].
    - destruct (cfg_write D C r (u32 x) t Hr) as (R & W & _). by apply HK.
    - destruct (gpio_config D C (io_bank0_gpio_CTRL i) (u32 x) t) as [R W]; [right; exists i; by split; [|left]|]. by apply HK. }
  assert (forall r, existsb (Z.eqb r) config_registers = true -> r ∈ config_registers) as Hin.
  { intros r (x & Hx & ->%Z.eqb_eq)%existsb_exists. by apply list_elem_of_In. }
  do 4 (wp_step; apply Hw; [left; apply Hin; reflexivity|]; intros ? ? ?).
  wp_step. apply Hw; [right; exists 0; split; [lia|done]|]. intros ? ? ?.
  apply Hw; [right; exists 1; split; [lia|done]|]. intros ? ? ?. apply HQ; congruence.
Qed.

(** A step that talks to the UART at most. *)
Definition woken k k' : Prop := exists s', k' = with_board k s' /\ same_wires (disk (files k)) s' /\
  io_cr1 (view (dev s')) = io_cr1 (view (dev (disk (files k)))).

Lemma woken_refl k : woken k k.
Proof. exists (disk (files k)). split; [by destruct k as [[] ]|done]. Qed.

Lemma woken_trans k1 k2 k3 : woken k1 k2 -> woken k2 k3 -> woken k1 k3.
Proof.
  intros (s2 & -> & W2 & C2) (s3 & -> & W3 & C3). exists s3. split; [done|].
  split; [by eapply same_wires_trans|]. cbn [with_board files disk set_disk] in *. congruence.
Qed.

Lemma quiet_step_woken {A} (m : M (machine D) A) k :
  wp m (fun _ s' => ram s' = ram (disk (files k)) /\ view (dev s') = view (dev (disk (files k)))) (disk (files k)) ->
  wp (on_board m) (fun _ => woken k) k.
Proof.
  intros Hm. apply on_board_ok. eapply wpg_mono; [exact Hm|]. intros a s' [R W]. exists s'.
  split; [done|]. unfold same_wires. by rewrite R, W.
Qed.

Lemma uart_step_woken {A} (m : M (machine D) A) l k :
  wp m (fun _ => uart_sent l (disk (files k))) (disk (files k)) -> wp (on_board m) (fun _ => woken k) k.
Proof.
  intros Hm. apply on_board_ok. eapply wpg_mono; [exact Hm|]. intros a s' [W E]%uart_sent_wires. by exists s'.
Qed.

Lemma resetSubsys_woken k : wp (on_board resetSubsys) (fun _ => woken k) k.
Proof. apply quiet_step_woken, (resetSubsys_ok enough_boot). by intros. Qed.

Lemma uart_init_woken k : wp (on_board (uart_init 115200)) (fun _ => woken k) k.
Proof. apply quiet_step_woken, uart_init_ok. by intros. Qed.

Lemma newlines_woken k n : wp (for_loop n 0 (fun _ _ => on_board (uartTx 10)) tt) (fun _ => woken k) k.
Proof.
  apply (wpg_for False (fun _ (_ : unit) => woken k)); [apply woken_refl|]. intros i [] k1 _ W.
  eapply wpg_mono; [apply (uart_step_woken _ [u8 10])|].
  - by apply (uartTx_ok enough_uart).
  - intros [] k2. by apply woken_trans.
Qed.

Lemma short_message x : (length (chars x) <=? 100)%nat = true -> (length (chars x) < fuel)%nat.
Proof. clear -enough_polls. intros H%Nat.leb_le. lia. Qed.

Lemma message_woken x k :
  forallb (fun c => (1 <=? c) && (c <? 256)) (chars x) = true -> (length (chars x) < fuel)%nat ->
  wp (on_board (uartTxStr (c_string x) 0)) (fun _ => woken k) k.
Proof. intros Hx Hf. apply (uart_step_woken _ (chars x)). by apply (uartTxStr_literal enough_uart). Qed.

Lemma spi_init_wires k :
  is_u32 (io_cr1 (view (dev (disk (files k))))) ->
  wp (on_board spi_init) (fun _ k' => exists s', k' = with_board k s' /\
    same_wires (disk (files k)) s' /\ spi_on (view (dev s'))) k.
Proof.
  intros Hc. apply on_board_ok. eapply wpg_mono; [by apply (spi_init_ok enough)|].
  intros _ s' (On & _ & cr1 & R & E). exists s'. split; [done|]. split; [|done]. by split_and!; rewrite ?E.
Qed.

(** *** The heap and the volume *)

Definition heap_blocks : list block := [Block (heap_end - heap_base - 16) false].

Lemma init_heap_ok k (Q : unit -> kernel D -> Prop) :
  heap_layout_ok (memory k) ->
  (forall m, let k' := Kernel (set_disk (set_memory m (disk (files k))) (files k)) heap_base in
     heap_at m heap_base heap_blocks -> prevs m 0 heap_base heap_blocks ->
     (forall q, q < heap_base \/ heap_base + 16 <= q -> m !! q = memory k !! q) -> Q tt k') ->
  wp (on_heap init_malloc) Q k.
Proof.
  intros Hl HQ. unfold on_heap. wp_step. eapply wpg_mono; [by apply init_malloc_ok|].
  intros [] [[m d] hd] (bs & -> & Hh & Hok & Hp & _ & _ & Hd & Hf). cbn [mach head ram dev] in *.
  unfold heap_ok, prevs_ok in *. cbn [mach head ram dev] in *. subst hd d. apply (HQ m); [done|done|].
  intros q Hq. apply Hf. exact Hq.
Qed.

Lemma init_volume_ok k v (Q : bool -> kernel D -> Prop) :
  sd_ready (disk (files k)) -> globals_ok (files k) -> boot_divides (card_blocks k) -> mount (card_blocks k) = Some v ->
  (forall k', heap_head k' = heap_head k -> sd_ready (disk (files k')) -> spi_only (disk (files k)) (disk (files k')) ->
     card_blocks k' = card_blocks k -> g_fat32_volume_info (files k') = v -> stack (files k') = stack (files k) ->
     open_file_handles (files k') = set_free true <$> open_file_handles (files k) -> Q true k') ->
  wp (on_files fat32_init) Q k.
Proof.
  intros Hr Hg Hd Hv HQ. unfold on_files. wp_step.
  pose proof (fat32_init_ok (BL := laws enough enough_polls (disk (files k))) (files k)
    (conj Hr (spi_only_refl _)) Hg Hd) as W.
  change (disk_data (files k)) with (card_blocks k) in W. rewrite Hv in W.
  eapply wpg_mono; [exact W|]. intros ok f ([Hr' S'] & D' & St & -> & V' & H'). by apply HQ.
Qed.

(** [kernel_main] from the SD card on, and from the heap on. *)
Section Phases.
Context (init_path : Z) (start : Z -> M (kernel D) unit).

Definition with_card : M (kernel D) unit :=
  do! on_heap init_malloc in
  let! _ := on_files fat32_init in
  let! entry := loadELF init_path in
  do! start entry in
  kernel_end.

Definition from_sd : M (kernel D) unit :=
  let! sd := on_board SDInit in
  if negb sd then on_board (uartTxStr (c_string failed_message) 0) else with_card.

Lemma start_up_ok k rest P :
  is_u32 (io_cr1 (view (dev (disk (files k))))) ->
  (forall s', same_wires (disk (files k)) s' -> spi_on (view (dev s')) -> arrives from_sd rest P (with_board k s')) ->
  arrives (kernel_main init_path start) rest P k.
Proof.
  intros Hc Hgo. unfold kernel_main.
  assert (forall k1, woken k k1 -> forall (m : M (kernel D) unit) r,
    (forall k', wp m (fun _ => woken k') k') -> (forall k2, woken k k2 -> arrives r rest P k2) ->
    arrives (do! m in r) rest P k1) as Hstep.
  { intros k1 W1 m r Hm Hr. eapply arrives_bind; [apply Hm|]. intros [] k2 W2. apply Hr. by eapply woken_trans. }
  apply Hstep; [apply woken_refl|apply resetSubsys_woken|]. intros k1 W1.
  apply Hstep; [done|apply uart_init_woken|]. intros k2 W2.
  apply Hstep; [done|intros; apply newlines_woken|]. intros k3 W3.
  apply Hstep; [done|intros; apply message_woken; [reflexivity|apply short_message; reflexivity]|]. intros k4 (s4 & -> & W4 & C4).
  eapply arrives_bind; [apply spi_init_wires; cbn [with_board files disk set_disk]; by rewrite C4|].
  intros [] k5 (s5 & -> & W5 & On). apply Hgo; [|done]. by eapply same_wires_trans.
Qed.

End Phases.

(** *** The whole boot *)

(** At power-on: the card is in the slot and holds the blocks [d], on which
    the FAT32 volume [v] has the file the path leads to; the path literal is
    outside the heap, and the file fits the heap. *)
Record bootable k (d : Z -> option (list Z)) v (path : Z) (cs : list (list Z)) (long : bool)
    (e name l content : list Z) : Prop := {
  bt_cr1 : is_u32 (io_cr1 (view (dev (disk (files k)))));
  bt_rx : exists n, (n <= 8)%nat /\ io_rx (view (dev (disk (files k)))) = repeat 255 n;
  bt_card : booting d Powered (io_card (view (dev (disk (files k)))));
  bt_dma : ch_busy (io_dma (view (dev (disk (files k)))) 0) = false;
  bt_globals : globals_ok (files k);
  bt_stack : stack_ok long (files k);
  bt_heap : heap_layout_ok (memory k);
  bt_mount : boot_divides d /\ mount d = Some v /\ volume_ok v;
  bt_null : path <> NULL;
  bt_path : peeks (memory k) (path + 1) (length (path_bytes cs)) = Some (path_bytes cs);
  bt_apart : path + 1 + Z.of_nat (length (path_bytes cs)) <= heap_base \/ heap_end <= path + 1;
  bt_chars : Forall (Forall name_char) cs;
  bt_short : Forall (fun c => (length c < fuel)%nat) cs /\ (length cs <= fuel)%nat;
  bt_resolves : resolves v d long fuel (root_dir_cluster v) cs (SFile e name);
  bt_chain : chain v d (entry_cluster e) l;
  bt_data : chain_data v d l = Some content;
  bt_size : 0 <= le_at 4 e 28 <= Z.of_nat (length content) /\ le_at 4 e 28 < 2147483648;
  bt_fits : ALIGN_4BYTE (le_at 4 e 28) <= heap_end - heap_base - 16 /\ (Z.to_nat (le_at 4 e 28) < fuel)%nat;
}.

Lemma heap_blocks_end : end_of heap_base heap_blocks = heap_end.
Proof. unfold heap_blocks. cbn [end_of bsize]. lia. Qed.

Lemma heap_blocks_fit n : n <= heap_end - heap_base - 16 -> first_fit n heap_blocks <> None.
Proof. intros Hn. unfold heap_blocks, first_fit, fits. cbn [balloc bsize negb]. by destruct (Z.leb_spec n (heap_end - heap_base - 16)); [|lia]. Qed.

(** With one allocation: its header, the allocation, the header of the rest. *)
Lemma used_end_boot n :
  ALIGN_4BYTE n <= heap_end - heap_base - 16 ->
  used_end heap_base n heap_blocks =
  if ALIGN_4BYTE n + 20 <? heap_end - heap_base - 16 then heap_base + ALIGN_4BYTE n + 32 else heap_end.
Proof.
  intros Hn. unfold used_end, abs_malloc, heap_blocks, first_fit, fits. cbn [balloc bsize negb].
  destruct (Z.leb_spec (ALIGN_4BYTE n) (heap_end - heap_base - 16)); [|lia]. unfold place. cbn [bsize balloc fst snd app andb].
  destruct (_ <? _); cbn [merge_head top bsize balloc]; lia.
Qed.

Lemma used_end_above n :
  ALIGN_4BYTE n <= heap_end - heap_base - 16 -> heap_base + 16 <= used_end heap_base n heap_blocks.
Proof.
  intros Hn. rewrite used_end_boot by done. pose proof (ALIGN_4BYTE_range n). destruct (_ <? _); lia.
Qed.

Lemma first_free_all (hs : list file_handle_t) : hs <> [] -> first_free (set_free true <$> hs) = Some 0%nat.
Proof. by destruct hs. Qed.

(** The kernel once the SD card, the heap and the volume are initialised. *)
Definition initialised k d v k' : Prop :=
  devices_ready k' /\ card_blocks k' = d /\ g_fat32_volume_info (files k') = v /\
  stack (files k') = stack (files k) /\ heap_head k' = heap_base /\
  open_file_handles (files k') = set_free true <$> open_file_handles (files k) /\
  heap_at (memory k') heap_base heap_blocks /\ prevs (memory k') 0 heap_base heap_blocks /\
  (forall q, q < heap_base \/ heap_base + 16 <= q -> memory k' !! q = memory k !! q).

Lemma initialised_loadable k d v k' path cs long e name l content :
  bootable k d v path cs long e name l content -> initialised k d v k' ->
  loadable k' path cs long e name l content 0 heap_blocks.
Proof.
  intros [] (Hr & Hd & Hv & Hst & Hhd & Hh & Hheap & Hprev & Hm). destruct bt_globals0 as (_ & _ & Hlen).
  destruct bt_fits0 as [Hfit Hfuel].
  split; try done; rewrite ?Hhd, ?Hh; try done.
  - split; rewrite ?Hv, ?Hd; try done.
    + apply bt_mount0.
    + intros n. rewrite Hst. apply bt_stack0.
    + rewrite <- bt_path0. apply peeks_ext. intros q Hq. apply Hm. destruct bt_heap0 as (_ & ? & _). lia.
  - by rewrite length_fmap.
  - apply first_free_all. by destruct (open_file_handles (files k)).
  - split; [|done]. cbn. lia.
Qed.

Lemma mount_ok k d v k1 (Q : bool -> kernel D -> Prop) path cs long e name l content :
  bootable k d v path cs long e name l content ->
  sd_holds d (disk (files k1)) -> (exists s, k1 = with_board k s /\ ram s = memory k /\ io_dma (view (dev s)) = io_dma (view (dev (disk (files k))))) ->
  (forall b k', initialised k d v k' -> Q b k') ->
  wp (do! on_heap init_malloc in on_files fat32_init) Q k1.
Proof.
  intros [] Hs (s & -> & Hram & Hdma) HQ. cbn [with_board files disk set_disk] in Hs.
  apply sd_holds_ready in Hs as [Hr Hd]. destruct bt_mount0 as (Hdiv & Hmount & _).
  assert (memory (with_board k s) = memory k) as Hmem by exact Hram.
  wp_step. apply init_heap_ok; [by rewrite Hmem|]. intros m k2 Hh Hp Hm. rewrite Hmem in Hm.
  assert (sd_ready (disk (files k2)) /\ card_blocks k2 = d) as [Hr2 Hd2] by (split; [exact Hr|exact Hd]).
  apply (init_volume_ok k2 v); [done|done|by rewrite Hd2|by rewrite Hd2|].
  intros k3 Hh3 Hr3 S3 D3 V3 St3 H3. apply HQ. unfold initialised.
  assert (memory k3 = m) as -> by (unfold memory; apply S3).
  split; [split; [done|]|split_and!; try done; congruence].
  rewrite (spi_only_dma _ _ _ S3). subst k2. cbn. by rewrite Hdma.
Qed.

Lemma elf_ok_frame lo hi m m' img :
  elf_ok lo hi m img -> (forall q, q < lo \/ hi <= q -> m' !! q = m !! q) -> elf_ok lo hi m' img.
Proof.
  intros [Hlen Hph] Hm. split; [done|]. intros i Hi. destruct (Hph i Hi) as (? & ? & Hld).
  split; [done|]. split; [done|]. intros Ht. destruct (Hld Ht) as (? & ? & Hdis & Hmap). split_and!; try done.
  intros q Hq. change (is_Some (m' !! q)). rewrite Hm by lia. by apply Hmap.
Qed.

Lemma sd_init_board k d n s :
  spi_on (view (dev s)) -> (n <= 8)%nat -> io_rx (view (dev s)) = repeat 255 n ->
  booting d Powered (io_card (view (dev s))) ->
  wp (on_board SDInit) (fun ok k' => ok = true /\ exists s', k' = with_board k s' /\ sd_holds d s' /\ calm s s')
    (with_board k s).
Proof.
  intros Hon Hn Hrx Hc. apply on_board_ok. eapply SDInit_ok; try done. intros s' H _ K. split; [done|]. by exists s'.
Qed.

Lemma silent_board (I : C -> Prop) n k s :
  silent I -> hushed I n s ->
  wp (on_board SDInit) (fun ok k' => ok = false /\ exists s', k' = with_board k s' /\ calm s s') (with_board k s).
Proof.
  intros HI Hh. apply on_board_ok. eapply (SDInit_silent_ok enough enough_polls enough_init I HI); [exact Hh|].
  intros s' K. split; [done|]. by exists s'.
Qed.

Lemma kernel_main_boots_ok k d v path cs long e name l content (start : Z -> M (kernel D) unit) :
  let img := file_image e content in
  bootable k d v path cs long e name l content ->
  elf_ok heap_base (used_end heap_base (le_at 4 e 28) heap_blocks) (memory k) img -> elf_valid img = true ->
  arrives (kernel_main path start) (do! start (elf_entry img) in kernel_end) (fun k' =>
    (forall q, q < heap_base \/ used_end heap_base (le_at 4 e 28) heap_blocks <= q -> memory k' !! q = image_at (segments img) q (memory k !! q)) /\
    heap_head k' = heap_base /\ heap_at (memory k') heap_base heap_blocks /\ devices_ready k') k.
Proof.
  intros img Hb Helf Hval. assert (Hb' := Hb). destruct Hb' as [Hcr (n & Hn & Hrx) Hc Hdma Hgl Hst Hheap _ _ _ _ _ _ _ _ _ _ [Hfit _]].
  pose proof (used_end_above _ Hfit) as Hue.
  apply start_up_ok; [done|]. intros s1 (R1 & X1 & C1 & D1) On1.
  eapply arrives_bind; [apply (sd_init_board k d n s1); [done|done|congruence|by rewrite C1]|].
  intros ok k2 (-> & s2 & -> & H2 & [R2 D2]). cbn [negb]. unfold with_card.
  eapply (arrives_bind2 _ _ _ (fun _ k3 => initialised k d v k3)).
  { eapply mount_ok; [exact Hb|done| |by intros]. exists s2. split; [done|]. split; [unfold memory; congruence|]. by rewrite D2, D1. }
  intros _ k3 Hi. pose proof (initialised_loadable _ _ _ _ _ _ _ _ _ _ _ Hb Hi) as Hl.
  destruct Hi as (_ & _ & _ & _ & Hhd & _ & _ & _ & Hm).
  eapply arrives_bind.
  { apply (load_file_ok enough enough_polls enough_time enough_dma k3 path cs long e name l content 0 heap_blocks);
      [exact Hl|by apply heap_blocks_fit| |exact Hval].
    rewrite Hhd. eapply elf_ok_frame; [exact Helf|]. intros q Hq. apply Hm. lia. }
  intros entry k4 (-> & Himg & Hhd4 & Hheap4 & Hdev & _). rewrite Hhd in *.
  apply arrives_here. split_and!; try done. intros q Hq. rewrite Himg by done. f_equal. apply Hm. lia.
Qed.


(** C20: kernel_main with an empty slot: it reports the failure and returns, with
    nothing mounted, no heap, no program started and memory as it was. *)
Theorem kernel_main_no_card (I : C -> Prop) n k path (start : Z -> M (kernel D) unit) :
  silent I -> I (io_card (view (dev (disk (files k))))) -> (n <= 8)%nat ->
  io_rx (view (dev (disk (files k)))) = repeat 255 n -> is_u32 (io_cr1 (view (dev (disk (files k))))) ->
  wp (kernel_main path start) (fun _ k' => k' = with_board k (disk (files k')) /\ memory k' = memory k /\
    exists s, uart_sent (chars failed_message) s (disk (files k'))) k.
Proof.
  intros HI Hc Hn Hrx Hcr.
  apply (arrives_wp _ (on_board (uartTxStr (c_string failed_message) 0))
           (fun k1 => exists s, k1 = with_board k s /\ ram s = memory k)).
  - apply start_up_ok; [done|]. intros s1 (R1 & X1 & C1 & D1) On1.
    eapply arrives_bind; [by apply (silent_board I n k s1 HI); [split; [|split; [|rewrite X1, C1]]..]|].
    intros ok k2 (-> & s2 & -> & [R2 _]). cbn [negb]. apply arrives_here. exists s2. split; [done|]. unfold memory. congruence.
  - intros k1 (s & -> & R). apply on_board_ok.
    apply (uartTxStr_literal enough_uart); [reflexivity|apply short_message; reflexivity|]. intros s' Hs'.
    split; [done|]. split; [|by exists s]. destruct Hs' as [R' _]. unfold memory in *. cbn [with_board files disk set_disk] in *. congruence.
Qed.

(** *** The C environment *)

(** The section boundaries are words apart, and the sections do not overlap. *)
Record sections_ok `{Sections} (m : mem) (l : list Z) : Prop := {
  sec_words : data_start <= data_end /\ (data_end - data_start) mod 4 = 0 /\
              bss_start <= bss_end /\ (bss_end - bss_start) mod 4 = 0;
  sec_range : is_u32 data_start /\ is_u32 data_end /\ is_u32 sdataf /\ 0 <= bss_start /\ is_u32 bss_end;
  sec_image : peeks m sdataf (Z.to_nat (data_end - data_start)) = Some l;
  sec_mapped : mapped m data_start data_end /\ mapped m bss_start bss_end;
  sec_apart : (sdataf + (data_end - data_start) <= data_start \/ data_end <= sdataf) /\
              (data_end <= bss_start \/ bss_end <= data_start);
}.

Lemma board_writes {A} k (m : M (machine D) A) p l :
  wp m (fun _ s' => writes (memory k) p l (ram s')) (disk (files k)) ->
  wp (on_board m) (fun _ k' => exists s', k' = with_board k s' /\ writes (memory k) p l (ram s')) k.
Proof. intros Hm. apply on_board_ok. eapply wpg_mono; [exact Hm|]. intros a s' W. by exists s'. Qed.

End Correctness.
