(* ===== verification/SimBoot.v ===== *)
(** * The boot on a simulated board

    A card in its power-on state with the volume of SimKernel, an empty kernel
    state, and the program of /BIN/INIT.ELF. *)
From stdpp Require Import list gmap.
From S2P Require Import Prelude Bytes Hexutils Board SimBoard Unistd Uart Spi Dma Heap Block SD SDEmpty SimCard FAT32.
From S2P Require Import FatVolume FatFile FatDir FatPath SimDisk SimPath Elf Kernel SimKernel Startup Boot.

#[local] Existing Instance sim_fuel.
#[local] Instance boot_heap : HeapLayout := {| heap_start := 0x1000; heap_end := 0x1800 |}.

Definition power_on : machine (sim sim_card) :=
  Machine (kernel_memory (kernel_path init_cs)) (Sim (Io [] (SimCard (Booting Powered) [] []) 0 0 0 [] [] 0 0
    (fun _ => DmaChannel 0 0 0 0 false))).

Definition boot_kernel : kernel (sim sim_card) :=
  Kernel {| disk := power_on; g_fat32_volume_info := blank_volume; open_file_handles := replicate 16 blank_handle;
            mbr_buffer := replicate 66 0; bpb_data := replicate 41 0;
            stack := fun _ => {| lfn_parts_found := 0; lfn_buffer := replicate 800 0 |} |} 0.

(** The card has [file] as the first cluster of INIT.ELF. *)
Section File.
Context (file : list Z) (file_ok : table_ok (volume_with file) = true) (file_length : length file = 512%nat).
#[local] Instance file_card : CardImage := card_image file file_ok.

Definition boot_card : Z -> option (list Z) := SimDisk.block (volume_with file).
Definition boot_content : list Z := file ++ data_block 7.

Lemma boot_card_divides : boot_divides boot_card.
Proof.
  clear. intros M start total B HM HP HB. replace M with mbr_block in HP by (vm_compute in HM |- *; congruence).
  vm_compute in HP. injection HP as <- <-.
  replace B with bpb_block by (vm_compute in HB |- *; congruence). vm_compute. done.
Qed.

Lemma boot_heap_ok : heap_layout_ok (memory boot_kernel).
Proof.
  split; [reflexivity|]. split; [vm_compute; split; congruence|]. split; [reflexivity|].
  apply kernel_mapped; vm_compute; congruence.
Qed.

Lemma boot_kernel_bootable :
  bootable boot_kernel boot_card (boot_volume 1 10 bpb_block) 0x1800 init_cs true init_entry init_name [3; 5] boot_content.
Proof.
  clear -file_length. destruct init_size as (Hs1 & Hs2 & Hf & _). constructor.
  - split; [discriminate|reflexivity].
  - exists 0%nat. split; [apply Nat.leb_le; reflexivity|reflexivity].
  - split; reflexivity.
  - reflexivity.
  - split; [|split]; reflexivity.
  - intros n. split; [reflexivity|]. apply list_mapped; vm_compute; congruence.
  - exact boot_heap_ok.
  - split; [exact boot_card_divides|]. split; [vm_compute; reflexivity|exact demo_volume].
  - discriminate.
  - exact (proj2 init_volume_path).
  - right. vm_compute. congruence.
  - exact init_chars.
  - exact init_short.
  - exact (init_descends file init_name _ ltac:(cbn; lia) search_init).
  - exact (proj1 (init_chain file)).
  - exact (proj2 (init_chain file)).
  - split; [|exact Hs2]. unfold boot_content. rewrite length_app, file_length.
    replace (length (data_block 7)) with 512%nat by (vm_compute; reflexivity). exact Hs1.
  - split; [vm_compute; congruence|exact Hf].
Qed.

Lemma boot_usleep : (usleep_fuel (D := sim sim_card) (C := sim_card) 10000 < fuel)%nat.
Proof. exact sim_card_time. Qed.
Lemma boot_uart : (uart_latency (sim sim_card) sim_card < fuel)%nat.
Proof. apply Nat.ltb_lt. vm_compute. reflexivity. Qed.
Lemma boot_enough : (boot_latency (sim sim_card) sim_card < fuel)%nat.
Proof. apply Nat.ltb_lt. vm_compute. reflexivity. Qed.

End File.

#[local] Instance boot_image : CardImage := card_image elf_block elf_volume_ok.

Lemma boot_elf_ok :
  elf_ok heap_base (used_end heap_base (le_at 4 init_entry 28) heap_blocks) (memory boot_kernel) (file_image init_entry (boot_content elf_block)).
Proof.
  replace heap_base with 0x1000 by (vm_compute; reflexivity).
  change (memory boot_kernel) with (kernel_memory (kernel_path init_cs)). apply elf_img_fits. vm_compute. congruence.
Qed.


(** *** An empty slot *)

Definition empty_kernel : kernel (sim unit) :=
  Kernel {| disk := sim_board ∅ tt []; g_fat32_volume_info := blank_volume; open_file_handles := replicate 16 blank_handle;
            mbr_buffer := replicate 66 0; bpb_data := replicate 41 0;
            stack := fun _ => {| lfn_parts_found := 0; lfn_buffer := replicate 800 0 |} |} 0.

Lemma no_card_silent : silent (fun _ : unit => True).
Proof. intros c _. by split. Qed.

Lemma empty_latencies :
  (spi_latency (sim unit) unit < fuel)%nat /\ (usleep_fuel (D := sim unit) (C := unit) 10000 < fuel)%nat.
Proof. split; apply Nat.ltb_lt; vm_compute; reflexivity. Qed.

Lemma SDInit_no_card_witness : exists s', SDInit (sim_board ∅ tt []) = Ok (false, s').
Proof.
  destruct (proj1 (wp_exact _ _ _) (SDInit_no_card (fun _ => True) 0 (sim_board ∅ tt [])
    (proj1 empty_latencies) sim_card_polls (proj2 empty_latencies) no_card_silent
    (conj (conj eq_refl eq_refl) (conj (Nat.le_0_l 8) (conj eq_refl I))))) as (ok & s' & E & -> & _).
  exists s'. exact E.
Defined.

Lemma kernel_main_no_card_witness : exists k', kernel_main 0x1800 (fun _ => ret tt) empty_kernel = Ok (tt, k').
Proof.
  destruct (proj1 (wp_exact _ _ _) (kernel_main_no_card (proj1 empty_latencies) sim_card_polls (proj2 empty_latencies)
    sim_uart_enough sim_boot_enough (fun _ => True) 0 empty_kernel 0x1800 (fun _ => ret tt) no_card_silent I
    (Nat.le_0_l 8) eq_refl ltac:(split; [discriminate|reflexivity]))) as ([] & k' & E & _).
  exists k'. exact E.
Defined.

(** *** resetHandler *)

(** The image of .data is at 0x1900, .data at 0x1A00, .bss at 0x1B00. *)
#[local] Instance boot_sections : Sections :=
  {| data_start := 0x1A00; data_end := 0x1A08; sdataf := 0x1900; bss_start := 0x1B00; bss_end := 0x1B10 |}.

Lemma boot_sections_ok : sections_ok (memory boot_kernel) (replicate 8 0).
Proof.
  constructor; [split; [discriminate|split; [reflexivity|split; [discriminate|reflexivity]]]| | | |].
  - unfold is_u32. cbn. lia.
  - apply (kernel_peeks (kernel_path init_cs)); [vm_compute; congruence|vm_compute; congruence|vm_compute; reflexivity].
  - split; apply kernel_mapped; vm_compute; congruence.
  - split; left; vm_compute; congruence.
Qed.

