(* ===== verification/Storage.v ===== *)
(** * The storage stack

    The file system over the SD card driver over the SPI driver: from a card
    in its power-on state to sessions of file calls on the files that the
    blocks of the card describe. *)
From stdpp Require Import list.
From S2P Require Import Prelude Session Bytes Hexutils Board SimBoard Unistd Uart Spi Dma Heap Block SD SDEmpty SimCard FAT32.
From S2P Require Import FatVolume FatFile FatDir FatPath FatSession SimDisk SimPath Elf Kernel SimKernel Startup Boot SimBoot.

Section Storage.
Context {D C : Type} `{HW : Hardware D} `{SL : SpiSlave C} `{F : Fuel} `{V : View D C}.
Context `{SP : !SpiLaws D C} `{GL : !GpioLaws D C} `{SC : !SdCard C} `{SB : !SdBoot C} `{T : !TimerLaws D C}.
Context (enough : (spi_latency D C < fuel)%nat) (enough_polls : 65536 < Z.of_nat fuel).
Context (enough_init : (usleep_fuel (D := D) (C := C) 10000 < fuel)%nat).
Implicit Types s : FS (machine D).

(** What kernel_main does before it can use files. *)
Definition storage_up : M (FS (machine D)) bool :=
  do! zoom disk set_disk spi_init in
  let! sd := zoom disk set_disk SDInit in
  if negb sd then ret false else fat32_init.

(** The card's blocks behind the driver, the machine's memory as it was. *)
Definition card_laws (m : mem) : BlockLaws (machine D) :=
  sd_block_laws (fun b => ram b = m) (fun b b' H P => eq_trans (proj1 H) P) enough enough_polls.

(** A card in the slot that has just been powered on. *)
Record powered (d : Z -> option (list Z)) (b : machine D) : Prop := {
  pw_cr1 : is_u32 (io_cr1 (view (dev b)));
  pw_rx : exists n, (n <= 8)%nat /\ io_rx (view (dev b)) = repeat 255 n;
  pw_card : booting d Powered (io_card (view (dev b)));
}.

Lemma freed_rel {S : Type} `{BL : BlockLaws S} v d hs :
  Forall2 (handle_rel v d) (set_free true <$> hs) (replicate (length hs) None).
Proof. induction hs; by constructor. Qed.

Lemma storage_up_ok d v long s :
  powered d (disk s) -> boot_divides d -> mount d = Some v -> globals_ok s -> stack_ok long s ->
  wp storage_up (fun ok s' => ok = true /\
    fs_rel (BL := card_laws (ram (disk s))) v d long s' (replicate 16 None)) s.
Proof.
  intros [Hcr (n & Hn & Hrx) Hc] Hdiv Hv Hg Hst. unfold storage_up.
  wp_step. wp_step. eapply wpg_mono; [by apply (spi_init_ok enough)|].
  intros [] b1 (On & _ & cr1 & R1 & E1). wp_step. wp_step. 
  eapply (SDInit_ok enough enough_polls enough_init d n b1); [done|done|by rewrite E1|by rewrite E1|].
  intros b2 H2 _ [R2 _]. cbn [negb]. apply sd_holds_ready in H2 as [Hr2 D2].
  assert (bd_ok (BlockLaws := card_laws (ram (disk s))) b2) as Hok.
  { split; [done|]. by rewrite R2, R1. }
  set (s2 := set_disk b2 (set_disk b1 s)).
  pose proof (fat32_init_ok (BL := card_laws (ram (disk s))) s2 Hok Hg) as W.
  change (disk_data s2) with (card_data (io_card (view (dev b2)))) in W. rewrite D2, Hv in W.
  eapply wpg_mono; [by apply W|]. intros ok s3 (Hok3 & D3 & St3 & -> & V3 & H3). split; [done|].
  destruct Hg as (_ & _ & Hlen). constructor.
  - split; [done|]. by rewrite D3.
  - done.
  - intros i. rewrite St3. apply Hst.
  - by rewrite H3, length_fmap.
  - change (replicate 16 None) with (replicate (Z.to_nat MAX_OPEN_FILES) (@None afile)). rewrite H3, <- Hlen.
    change (open_file_handles s2) with (open_file_handles s). apply freed_rel.
Qed.

(** C2: From power-on of the card on: the controller, the card and the volume come
    up, and whatever sequence of opens, reads, closes and size queries follows
    gets the replies of an abstract file system that starts with the files on
    the card and no open file. The machine's memory is as before. *)
Theorem storage_session d v long names os s :
  powered d (disk s) -> boot_divides d -> mount d = Some v -> volume_ok v -> globals_ok s -> stack_ok long s ->
  session_ok (spec_step names) (op_ok v d long names) (replicate 16 None) os ->
  wp (let! ok := storage_up in let! rs := run run_op os in ret (ok, rs)) (fun r s' =>
    r = (true, (spec_run (spec_step names) (replicate 16 None) os).1) /\ ram (disk s') = ram (disk s)) s.
Proof.
  intros Hp Hdiv Hm Hv Hg Hst Hos. wp_step. eapply wpg_mono; [by eapply storage_up_ok|].
  intros ok s1 [-> HR]. wp_step. eapply wpg_mono; [by eapply (session_refines_ok (BL := card_laws (ram (disk s))) v d long names Hv ltac:(lia))|].
  intros rs s2 [-> [[[_ Hr] _] _]]. wp_step. done.
Qed.
End Storage.

(** ** A session on the simulated board *)

Section Witness.
#[local] Existing Instance sim_fuel.
#[local] Instance storage_card : CardImage := card_image elf_block elf_volume_ok.

Definition card_names (cs : list (list Z)) : option (list Z) :=
  if decide (cs = init_cs) then Some (take 700 (boot_content elf_block)) else None.

(** The file is found, its ELF magic read; the other one is not there. *)
Definition card_session : list op := [Open init_cs; Read 0 4; Size 0; Open none_cs; Close 0].

Lemma card_session_ok : session_ok (spec_step card_names)
  (op_ok (boot_volume 1 10 bpb_block) (boot_card elf_block) true card_names) (replicate 16 None) card_session.
Proof.
  assert (Hn : (Z.to_nat 4 < sim_fuel)%nat) by (apply Nat.ltb_lt; vm_compute; reflexivity).
  cbn [card_session session_ok op_ok]. split_and!; try done.
  - exact (conj init_chars init_short).
  - eexists. split; [exact (init_descends elf_block init_name _ ltac:(cbn; lia) search_init)|].
    exists [3; 5], (boot_content elf_block). destruct (init_chain elf_block) as [H1 H2]. split; [exact H1|]. split; [exact H2|].
    split_and!; vm_compute; done.
  - exact (conj none_chars none_short).
  - eexists. split; [exact (init_descends elf_block [78; 79; 78; 69] _ ltac:(cbn; lia) search_none)|].
    split; [done|]. vm_compute. done.
Qed.

Lemma card_powered : powered (boot_card elf_block) power_on.
Proof.
  constructor.
  - split; [discriminate|reflexivity].
  - exists 0%nat. split; [apply Nat.leb_le; reflexivity|reflexivity].
  - split; reflexivity.
Qed.

Lemma storage_session_witness : exists s',
  (let! ok := storage_up in let! rs := run run_op card_session in ret (ok, rs)) (files boot_kernel) =
  Ok ((true, [Opened 0; Data [0x7F; 0x45; 0x4C; 0x46]; Bytes 700; Refused; Closed]), s').
Proof.
  destruct (proj1 (wp_exact _ _ _) (storage_session kernel_spi kernel_polls (boot_usleep elf_block elf_volume_ok)
    (boot_card elf_block) (boot_volume 1 10 bpb_block) true card_names card_session (files boot_kernel)
    card_powered (boot_card_divides elf_block) ltac:(vm_compute; reflexivity) demo_volume
    ltac:(split; [|split]; reflexivity) (kernel_stack (kernel_path init_cs)) card_session_ok)) as (r & s' & E & -> & _).
  exists s'. etransitivity; [exact E|]. do 3 f_equal.
Defined.
End Witness.
