(* ===== verification/Program.v ===== *)
(** * A program (src/arch/arm_cortexm/rp2040/crt0.c and programs/init.c)

    The C start-up of a program and the one program there is, linked with
    write of Syscall.v.  The program has a heap of its own. *)
From stdpp Require Import list.
From S2P Require Import Prelude Bytes Hexutils Board SimBoard Uart Heap Syscall.

Section Program.
Context {D : Type} `{HW : Hardware D} `{F : Fuel} `{HL : HeapLayout}.
(** The SVC instruction, and the address of the string literal. *)
Context (svc : Z -> Z -> Z -> Z -> M (machine D) Z) (text : Z).

(** main of programs/init.c. *)
Definition init_main : M (machine D) Z :=
  let! _ := write svc 1 text 20 in
  ret 0.

Definition _start_c : M (heap_state D) unit :=
  do! init_malloc in
  let! _ := on_machine init_main in
  while_loop fuel (fun _ => ret (inl tt)) tt.
End Program.

(** The entry point: [ldr r0, =_stack_top; mov sp, r0; b _start_c].  The
    compiled program decides what its registers are at the SVC instruction,
    given the stack pointer it starts with. *)
Definition _start {D : Type} `{HW : Hardware D} `{F : Fuel} `{HL : HeapLayout} (_stack_top : Z) (compiled : Z -> cpu)
    (text : Z) : M (heap_state D) unit :=
  let r0 := _stack_top in
  let sp := r0 in
  _start_c (exception (compiled sp)) text.

(** ** Properties *)

Section ProgramProofs.
Context {D C : Type} `{HW : Hardware D} `{F : Fuel} `{V : View D C} `{U : !UartLaws D C} `{HL : HeapLayout}.
Context (enough : (uart_latency D C < fuel)%nat) (enough_digits : (100 < fuel)%nat).

(** [svc_ready] does not depend on memory away from the stack, the
    instruction and the text. *)
Lemma svc_ready_frame (s s' : machine D) c buf count l a b :
  svc_ready s c buf count l -> (forall q, q < a \/ b <= q -> ram s' !! q = ram s !! q) ->
  cpu_sp c <= a \/ b <= cpu_sp c - 36 -> cpu_pc c <= a \/ b <= cpu_pc c - 2 -> buf + count <= a \/ b <= buf ->
  svc_ready s' c buf count l.
Proof.
  clear enough enough_digits. intros [Hal Hsp Hst Hregs Hpc Hin Hia [Hb Hc] [Hl Hu] Hta] Hm H1 H2 H3.
  unfold is_u32 in Hc. constructor; try done.
  - intros q Hq. change (is_Some (ram s' !! q)). rewrite Hm by lia. by apply Hst.
  - rewrite <- Hin. apply peeks_ext. intros q Hq. apply Hm. lia.
  - split; [|done]. rewrite <- Hl. apply peeks_ext. intros q Hq. apply Hm. lia.
Qed.

(** The program is in memory: its heap, and, apart from it, its stack, the
    SVC instruction and the text. *)
Record program_in (s : machine D) (c : cpu) (text : Z) (l : list Z) : Prop := {
  pi_heap : heap_layout_ok (ram s);
  pi_svc : svc_ready s c text 20 l;
  pi_stack : cpu_sp c <= heap_base \/ heap_end <= cpu_sp c - 36;
  pi_code : cpu_pc c <= heap_base \/ heap_end <= cpu_pc c - 2;
  pi_text : text + 20 <= heap_base \/ heap_end <= text;
  pi_low : 24 <= heap_base;
}.

(** Memory [[a, b)] is apart from all of these, which then do not depend on it. *)
Definition program_apart (c : cpu) (text a b : Z) : Prop :=
  (heap_end <= a \/ b <= heap_base) /\ (cpu_sp c <= a \/ b <= cpu_sp c - 36) /\
  (cpu_pc c <= a \/ b <= cpu_pc c - 2) /\ (text + 20 <= a \/ b <= text).

Lemma program_in_frame s s' c text l a b :
  program_in s c text l -> program_apart c text a b ->
  (forall q, q < a \/ b <= q -> ram s' !! q = ram s !! q) -> program_in s' c text l.
Proof.
  clear enough enough_digits. intros [(Ha & Hb & Hc & Hm) Hs ? ? ? ?] (Hd & He & Hf & Hg) Hq. split; try done; [|by eapply svc_ready_frame].
  do 3 (split; [done|]). intros q Hr. change (is_Some (ram s' !! q)). rewrite Hq by lia. by apply Hm.
Qed.

Lemma init_program_faults_ok (s : heap_state D) c text l :
  program_in (mach s) c text l -> ~ mapped (ram (mach s)) 20 24 -> _start_c (exception c) text s = Fault.
Proof.
  intros [Hl Hr H1 H2 H3 Hs] Hun. assert (Hl' := Hl). destruct Hl' as (_ & Hle & _). unfold _start_c.
  eapply bind_fault; [by apply init_malloc_ok|].
  intros [] s' (bs & _ & _ & _ & _ & _ & _ & _ & Hram). cbn beta.
  assert (forall q, q < heap_base \/ heap_end <= q -> ram (mach s') !! q = ram (mach s) !! q) as Hf
    by (intros q Hq; apply Hram; lia).
  assert (svc_ready (mach s') c text 20 l) as Hr' by (by eapply svc_ready_frame).
  assert (write (exception c) 1 text 20 (mach s') = Fault) as E.
  { apply (write_faults_ok enough enough_digits) with l; [done|]. right. intros Hmap. apply Hun.
    intros q Hq. change (is_Some (ram (mach s) !! q)). rewrite <- Hf by lia. by apply Hmap. }
  unfold init_main, on_machine, bind, zoom. by rewrite E.
Qed.

(** C28: The program never gets past its greeting: with its heap where its linker
    script puts it, and no memory at address 20, the number of bytes written,
    crt0's start-up ends in a fault. *)
Theorem init_program_faults (s : heap_state D) c text l :
  program_in (mach s) c text l -> ~ mapped (ram (mach s)) 20 24 -> _start_c (exception c) text s = Fault.
Proof. apply init_program_faults_ok. Qed.
End ProgramProofs.

(** ** The program on the simulated board *)

#[local] Instance user_heap : HeapLayout := {| heap_start := 0x1050; heap_end := 0x108F |}.

Lemma user_program_in : program_in (user_board 0x1000) (user_cpu 0x1000) (0x1000 + 32) greeting.
Proof.
  assert (heap_base = 0x1050) as Hb by (vm_compute; reflexivity). constructor; rewrite ?Hb.
  - split; [reflexivity|]. rewrite Hb. split; [split; vm_compute; congruence|]. split; [reflexivity|].
    apply mem_of_mapped; vm_compute; congruence.
  - exact (greeting_ready 0x1000 20 (or_intror eq_refl) (or_intror eq_refl)).
  - right. vm_compute. congruence.
  - left. vm_compute. congruence.
  - left. vm_compute. congruence.
  - vm_compute. congruence.
Qed.

Lemma init_program_faults_witness :
  _start_c (exception (user_cpu 0x1000)) (0x1000 + 32) (HeapState (user_board 0x1000) 0) = Fault.
Proof.
  apply (init_program_faults (D := sim unit) (C := unit) sim_uart_enough sim_digits (HeapState (user_board 0x1000) 0)
    (user_cpu 0x1000) (0x1000 + 32) greeting); [exact user_program_in|].
  apply mem_of_unmapped; [discriminate|reflexivity|by left].
Defined.
