(* ===== verification/Userland.v ===== *)
(** * From power-on to the first system call

    The boot of Boot.v with the program of Program.v as the file on the card:
    kernel_main loads programs/init.c, crt0 starts it, and the first system
    call ends the system. *)
From stdpp Require Import list gmap.
From S2P Require Import Prelude Bytes Hexutils Board SimBoard Unistd Uart Spi Dma Heap Block SD SDEmpty SimCard FAT32.
From S2P Require Import FatVolume FatFile FatDir FatPath SimDisk SimPath Elf Kernel SimKernel Startup Syscall Boot SimBoot.
From S2P Require Import Program.

Section Userland.
Context {D C : Type} `{HW : Hardware D} `{SL : SpiSlave C} `{F : Fuel} `{V : View D C}.
Context `{SP : !SpiLaws D C} `{GL : !GpioLaws D C} `{SC : !SdCard C} `{SB : !SdBoot C}.
Context `{T : !TimerLaws D C} `{DM : !DmaLaws D C} `{U : !UartLaws D C} `{BO : !BootLaws D C}.
Context (enough : (spi_latency D C < fuel)%nat) (enough_polls : 65536 < Z.of_nat fuel).
Context (enough_init : (usleep_fuel (D := D) (C := C) 10000 < fuel)%nat).
Context (enough_time : (usleep_fuel (D := D) (C := C) 1000 < fuel)%nat).
Context (enough_dma : (dma_latency D C < fuel)%nat).
Context (enough_uart : (uart_latency D C < fuel)%nat) (enough_boot : (boot_latency D C < fuel)%nat).
(** The kernel and the program are linked separately: each has a heap. *)
Context (kernel_layout user_layout : HeapLayout).
Implicit Types k : kernel D.

(** crt0 on the kernel's machine, with the program's own allocator state. *)
Definition run_program (stack_top : Z) (compiled : Z -> cpu) (text : Z) : M (kernel D) unit :=
  on_board (zoom (fun s => HeapState s 0) (fun h _ => mach h) (_start (HL := user_layout) stack_top compiled text)).

Lemma run_program_faults sp c text l k :
  program_in (HL := user_layout) (disk (files k)) (c sp) text l -> ~ mapped (memory k) 20 24 ->
  run_program sp c text k = Fault.
Proof.
  intros Hp Hun. assert (100 < fuel)%nat as Hd by lia.
  pose proof (init_program_faults_ok (HL := user_layout) enough_uart Hd (HeapState (disk (files k)) 0) (c sp) text l Hp Hun) as E.
  unfold run_program, _start, on_board, on_files, zoom. by rewrite E.
Qed.

(** C3: Kernel and program together: with the program of programs/init.c in the
    file on the card, the system boots, loads and starts it, and never comes
    back from it. [m] is memory once the image is loaded. *)
Theorem kernel_main_faults k d v path cs long e name l content (start : Z -> M (kernel D) unit) m sp c text txt :
  let img := file_image e content in
  let lo := heap_base (HL := kernel_layout) in
  let hi := used_end lo (le_at 4 e 28) (heap_blocks (HL := kernel_layout)) in
  bootable (HL := kernel_layout) k d v path cs long e name l content ->
  elf_ok lo hi (memory k) img -> elf_valid img = true -> start (elf_entry img) = run_program sp c text ->
  (forall q, q < lo \/ hi <= q -> m !! q = image_at (segments img) q (memory k !! q)) ->
  program_in (HL := user_layout) (Machine m (dev (disk (files k)))) (c sp) text txt ->
  program_apart (HL := user_layout) (c sp) text lo hi -> 24 <= lo -> ~ mapped m 20 24 ->
  kernel_main (HL := kernel_layout) path start k = Fault.
Proof.
  intros img lo hi Hb Helf Hval Hst Hm Hp Ha Hlo Hun.
  destruct (kernel_main_boots_ok (HL := kernel_layout) enough enough_polls enough_init enough_time enough_dma enough_uart enough_boot
    k d v path cs long e name l content start Hb Helf Hval) as (k' & (Him & _) & E).
  fold img lo hi in Him, E. rewrite E, Hst. unfold bind. rewrite (run_program_faults sp c text txt k'); [done| |].
  - eapply program_in_frame; [exact Hp|exact Ha|]. intros q Hq. cbn [ram]. by rewrite Hm, <- Him.
  - intros Hk. apply Hun. intros q Hq. change (is_Some (m !! q)). rewrite Hm, <- Him by lia. by apply Hk.
Qed.
End Userland.

(** ** A greeting that is not followed by anything *)

#[local] Existing Instance sim_fuel.

(** An executable for 0x1400, in the free rest of the kernel's heap: the text,
    the SVC instruction, and 32 bytes to be zeroed.  Its heap and stack
    follow. *)
Definition hello_code : list Z := greeting ++ [SYS_WRITE; 0xDF] ++ replicate 10 0.
Definition hello_file : list Z :=
  [0x7F; 0x45; 0x4C; 0x46; 1; 1; 1; 0; 0; 0; 0; 0; 0; 0; 0; 0;
   2; 0; 0x28; 0; 1; 0; 0; 0; 0x19; 0x14; 0; 0; 0x34; 0; 0; 0;
   0; 0; 0; 0; 0; 0; 0; 0; 0x34; 0; 0x20; 0; 1; 0; 0; 0;
   0; 0; 0; 0; 1; 0; 0; 0; 0x60; 0; 0; 0; 0; 0x14; 0; 0;
   0; 0x14; 0; 0; 32; 0; 0; 0; 64; 0; 0; 0; 5; 0; 0; 0;
   4; 0; 0; 0; 0; 0; 0; 0; 0; 0; 0; 0; 0; 0; 0; 0] ++ hello_code.
Definition hello_block : list Z := patch 0 hello_file zero_block.

Lemma hello_volume_ok : table_ok (volume_with hello_block) = true.
Proof. vm_compute. reflexivity. Qed.
Lemma hello_length : length hello_block = 512%nat.
Proof. vm_compute. reflexivity. Qed.

Definition hello_layout : HeapLayout := {| heap_start := 0x1440; heap_end := 0x147F |}.
Definition hello_cpu (sp : Z) : cpu := Cpu (sp - 16) 0 0x1416 0 0 0 0.
Definition hello_img : list Z := file_image init_entry (boot_content hello_block).
Definition hello_data : list Z := hello_code ++ replicate 32 0.

Definition hello_byte (q : Z) : Z :=
  if (0x1400 <=? q) && (q <? 0x1440) then default 0 (hello_data !! Z.to_nat (q - 0x1400))
  else kernel_byte (kernel_path init_cs) q.
Definition hello_memory : mem := mem_of 0x1000 0x1000 hello_byte.

Lemma hello_loaded q : hello_memory !! q = image_at (segments hello_img) q (memory boot_kernel !! q).
Proof.
  replace (segments hello_img) with [Segment 0x1400 hello_data] by (vm_compute; reflexivity).
  change (memory boot_kernel) with (kernel_memory (kernel_path init_cs)). unfold image_at, seg_byte, hello_memory, kernel_memory.
  cbn [fold_left seg_addr seg_data]. replace (Z.of_nat (length hello_data)) with 64 by (vm_compute; reflexivity).
  destruct (decide (0x1000 <= q < 0x1000 + 0x1000)).
  - rewrite !mem_of_lookup by done. unfold hello_byte. change (0x1400 + 64) with 0x1440.
    destruct (Z.leb_spec 0x1400 q), (Z.ltb_spec q 0x1440); cbn [andb]; try done.
    destruct (lookup_lt_is_Some_2 hello_data (Z.to_nat (q - 0x1400))) as [b ->]; [|done].
    replace (length hello_data) with 64%nat by (vm_compute; reflexivity). lia.
  - rewrite !mem_of_outside by lia. destruct (Z.leb_spec 0x1400 q), (Z.ltb_spec q (0x1400 + 64)); cbn [andb]; done || lia.
Qed.

Section Witness.
#[local] Instance hello_card : CardImage := card_image hello_block hello_volume_ok.

Definition hello_end : Z := used_end (heap_base (HL := boot_heap)) (le_at 4 init_entry 28) (heap_blocks (HL := boot_heap)).

(** The kernel's heap is in use up to 0x12DC while the file is loaded. *)
Lemma hello_bounds : heap_base (HL := boot_heap) = 0x1000 /\ hello_end = 0x12DC.
Proof. split; vm_compute; reflexivity. Qed.

Lemma hello_fits : elf_ok (heap_base (HL := boot_heap)) hello_end (memory boot_kernel) hello_img.
Proof.
  destruct hello_bounds as [-> ->]. split; [vm_compute; congruence|]. intros i Hi.
  change (elf_phnum hello_img) with 1 in Hi. assert (i = 0) as -> by lia.
  split; [vm_compute; congruence|]. split; [vm_compute; congruence|]. intros _ vaddr filesz n.
  split; [vm_compute; congruence|]. split; [vm_compute; reflexivity|]. split; [right; vm_compute; congruence|].
  change (memory boot_kernel) with (kernel_memory (kernel_path init_cs)). apply kernel_mapped; vm_compute; congruence.
Qed.

Lemma hello_ready dv : svc_ready (D := sim sim_card) (Machine hello_memory dv) (hello_cpu 0x1510) 0x1400 20 greeting.
Proof.
  constructor; cbn [ram hello_cpu cpu_sp cpu_pc cpu_r3 cpu_r12 cpu_lr cpu_xpsr].
  - reflexivity.
  - split; [discriminate|reflexivity].
  - apply mem_of_mapped; discriminate.
  - repeat (apply Forall_cons; split; [split; [discriminate|reflexivity]|]). done.
  - split; [discriminate|reflexivity].
  - unfold hello_memory. rewrite mem_of_peeks by (vm_compute; congruence). vm_compute. reflexivity.
  - left. discriminate.
  - split; split; (discriminate || reflexivity).
  - split.
    + unfold hello_memory. rewrite mem_of_peeks by (vm_compute; congruence). vm_compute. reflexivity.
    + unfold greeting. repeat constructor; discriminate.
  - left. discriminate.
Qed.

Lemma hello_in dv : program_in (HL := hello_layout) (D := sim sim_card) (Machine hello_memory dv) (hello_cpu 0x1510) 0x1400 greeting.
Proof.
  assert (heap_base (HL := hello_layout) = 0x1440) as Hb by (vm_compute; reflexivity).
  constructor; rewrite ?Hb; cbn [hello_layout heap_start heap_end hello_cpu cpu_sp cpu_pc ram].
  - split; [reflexivity|]. rewrite Hb. split; [split; [discriminate|reflexivity]|]. split; [reflexivity|].
    apply mem_of_mapped; discriminate.
  - apply hello_ready.
  - right. discriminate.
  - left. discriminate.
  - left. discriminate.
  - discriminate.
Qed.

Lemma hello_apart : program_apart (HL := hello_layout) (hello_cpu 0x1510) 0x1400 (heap_base (HL := boot_heap)) hello_end.
Proof.
  destruct hello_bounds as [-> ->]. unfold program_apart.
  replace (heap_base (HL := hello_layout)) with 0x1440 by (vm_compute; reflexivity).
  split_and!; right; discriminate.
Qed.

Lemma kernel_main_faults_witness :
  kernel_main (HL := boot_heap) 0x1800 (fun _ => run_program hello_layout 0x1510 hello_cpu 0x1400) boot_kernel = Fault.
Proof.
  apply (kernel_main_faults kernel_spi kernel_polls (boot_usleep hello_block hello_volume_ok) kernel_usleep kernel_dma
    (boot_uart hello_block hello_volume_ok) (boot_enough hello_block hello_volume_ok) boot_heap hello_layout
    boot_kernel (boot_card hello_block) (boot_volume 1 10 bpb_block) 0x1800 init_cs true init_entry init_name [3; 5]
    (boot_content hello_block) _ hello_memory 0x1510 hello_cpu 0x1400 greeting).
  - exact (boot_kernel_bootable hello_block hello_volume_ok hello_length).
  - exact hello_fits.
  - vm_compute. reflexivity.
  - reflexivity.
  - intros q _. apply hello_loaded.
  - apply hello_in.
  - exact hello_apart.
  - rewrite (proj1 hello_bounds). discriminate.
  - apply mem_of_unmapped; [discriminate|reflexivity|by left].
Defined.
End Witness.
